(* ===== verification/_CoqProject ===== *)
-Q . S2P
Prelude.v
IpAddress.v
IpRange.v
AndroidRoutes.v
JsText.v
CountryNames.v
Faq.v
Json.v
Config.v
NetworkUtils.v
SecureSettings.v
AppSettings.v
SiteTunnelling.v
AppTunnelling.v
Script.v
InstallerEnv.v
ControlScript.v
ComponentScript.v
Language.v
Daemon.v
Framing.v
LocalSocket.v
LocalServer.v
Wireguard.v
VpnConnection.v
ServersRepository.v
Failover.v
ConnectionUi.v
Firewall.v
KillSwitch.v
PingHelper.v
ServerLatency.v
AndroidTunnel.v
AndroidService.v
ConnectionHealth.v
XrayInbound.v
ShareLinks.v
