(* ===== verification/Prelude.v ===== *)
(** * Fresh VPN: a verification of its core logic

    Fresh VPN is a VPN client: a Qt/C++ application with QML pages (client/), an
    Android application in Kotlin (client/android/), a privileged daemon that sets
    up interfaces and routes (client/daemon/, client/platforms/), a background
    service (service/, ipc/) and an installer (deploy/installer/).  This library
    models the way of a connection from the settings to the daemon (which server is
    tried, what is routed through the tunnel, what is told and stored), the state
    of the daemon, the firewall and the kill switch on Linux, what the page of the
    connection shows, the scripts of the installer, and the data and scripts behind
    the pages.  Paths below are relative to src/.

    ** Files and what they model

    - [Prelude]: source text, bits of integers, byte arrays as big- and
      little-endian numbers, exhaustive checks of finite ranges.
    - [IpAddress]: the class [IPAddress] of client/mozilla/shared/ipaddress.cpp.
      An address is a [QHostAddress] value: a 32-bit number or sixteen bytes.
      Masks, membership, overlap, subnets and the exclusion of networks are the
      methods of the same names.
    - [IpRange]: client/android/utils/src/main/kotlin/net/{IpAddress,IpRange,
      IpRangeSet}.kt.  An address is the list of its bytes; [None] is a thrown
      exception.
    - [AndroidRoutes]: the builder of client/android/protocolApi/src/main/kotlin/
      ProtocolConfig.kt: split tunnelling, and the flattening of excluded routes
      for Android versions that cannot exclude.
    - [JsText]: strings of the scripting engine, and the interface [ArraySort] of
      its sort.
    - [CountryNames]: client/ui/qml/Components/countrynames.js, tables included.
    - [Faq]: client/ui/qml/Components/FreshFaq.js and the navigation of the help
      pages that show it.
    - [Script]: scripts, that is, programs over variables and a history of calls
      to their surroundings, with the classes [Extends], [Total], [Keeps] and
      [Preserves] that are proved along a script's structure.
    - [InstallerEnv], [ControlScript], [ComponentScript]: the scripts of
      deploy/installer/qif and the interface of the framework that runs them.
    - [Language]: the choice of the language (client/ui/controllers/
      languageUiController.cpp, client/ui/models/languageModel.cpp) and
      [CoreController::updateTranslator].
    - [Json]: values of JSON and the strings of Qt, as Qt documents them; a null
      string and an undefined value are [None].  Numbers are exact.
    - [Config]: the configuration of an interface (client/daemon/interfaceconfig.h
      and .cpp) and [Daemon::parseConfig].  The interface [Qt] holds the parsers of
      addresses and enumerations.
    - [Daemon]: client/daemon/daemon.cpp: connections, excluded addresses,
      activation, deactivation, switching, handshakes and status.  The utilities
      of the platforms are the interface [Utils].
    - [Framing], [LocalSocket], [LocalServer]: the local socket.  [Framing] has the
      loops over lines of both ends, [LocalSocket] the client
      (client/mozilla/localsocketcontroller.cpp) and [LocalServer] the daemon
      (client/daemon/daemonlocalserverconnection.cpp), which calls [Daemon].  A
      buffer is passed along the calls that use it.
    - [NetworkUtils]: formats of addresses and masks of
      client/core/utils/networkUtilities.cpp.
    - [SecureSettings]: client/secureQSettings.cpp, a map with a cache in front of
      it, encryption of chosen keys, and the keys themselves; the cipher and the file of
      [QSettings] are behind the interface [Cipher].
    - [AppSettings]: client/core/repositories/secureAppSettingsRepository.cpp.  A
      setting is a record of its key, default and conversions, read and written in
      one way; the sites of a mode are an ordered map.
    - [ServersRepository]: client/core/repositories/secureServersRepository.cpp and
      the kinds of configurations of client/core/utils/serverConfigUtils.cpp.  The
      text of the list and the build's endpoints are the interface [Storage].
    - [SiteTunnelling], [AppTunnelling]: the controllers of split tunnelling and of
      the allowed DNS servers (client/core/controllers/), over [AppSettings].
    - [Wireguard]: client/core/protocols/vpnProtocol.cpp and wireGuardProtocol.cpp:
      states, time limits and the probe of the traffic.  Messages of the daemon,
      replies and the passing of time are events ([PEvent]); what the protocol does
      is a list of outputs.
    - [VpnConnection]: client/vpnConnection.cpp: the configuration that the settings
      give, the calls of the service, and the states that are told.
    - [Failover]: client/core/controllers/connectionController.cpp: the servers that
      are tried one after another.  [System] puts it together with [VpnConnection]
      and [Wireguard].
    - [ConnectionUi]: client/ui/controllers/connectionUiController.cpp and the handlers
      of client/core/controllers/coreSignalHandlers.cpp that join it to [Failover]: the
      button, the states and texts that are shown, and the counters of a session.
    - [Firewall]: client/platforms/linux/daemon/linuxfirewall.cpp.  A line of the shell
      is a term of [sh], a method a list of lines; the tables of the kernel and what
      iptables takes as a rule are the interface [Iptables] with its laws.  [walk] is
      the way of a packet through the chains.
    - [KillSwitch]: service/server/killswitch.cpp as compiled for Linux, and the rules
      that client/platforms/linux/daemon/wireguardutilslinux.cpp adds for an interface,
      as operations of [Firewall].
    - [PingHelper]: client/mozilla/pinghelper.cpp, the ring of the last pings.
    - [ServerLatency]: client/ui/controllers/serverLatencyController.cpp: probes of
      servers and countries, lines of a subscription, and the speed test.
    - [AndroidTunnel]: the WireGuard tunnel of the Android application
      (client/android/wireguard, awg, and Protocol.kt of protocolApi): reading the
      configuration, setting up the interface with the routes of [AndroidRoutes], the
      text for the backend, and the life of a tunnel with its status jobs.
    - [AndroidService]: client/android/src/org/amnezia/vpn/AmneziaVpnService.kt over
      [AndroidTunnel]: the commands of clients, the jobs that connect, renew and
      disconnect, the handler of their exceptions and the collector of states.  A job is
      cut where it suspends, and any job may go on between any two events.
    - [ConnectionHealth]: client/ui/controllers/connectionHealthController.cpp: probes of
      the server while connected, and the latency, jitter and state that pages show.
    - [XrayInbound]: client/core/utils/serialization/inbound.cpp, the credentials of the
      local proxy of Xray, and values at paths (client/3rd/QJsonStruct/QJsonIO.hpp).
    - [ShareLinks]: client/core/utils/serialization/vless.cpp and the server of a
      configuration in client/core/controllers/selfhosted/exportController.cpp.  [QUrl] is
      an interface with its laws for plain texts and hosts, and a concrete one satisfies them.

    ** What the theorems show

    - Addresses: the exclusion of networks leaves exactly the addresses outside
      them and splits into disjoint networks; the byte-wise tests agree with the
      masks; an excluded range with host bits set makes the exclusion loop forever.
    - Android routes: the set of ranges is kept sorted and apart, its operations
      are union and difference, its networks cover a range exactly; split
      tunnelling routes exactly what the configuration says, and a case in which
      it does not.
    - Android tunnel: from a configuration over default routes to the interface and the
      peer, the addresses outside the excluded sites use the tunnel and those inside do not
      (servers for names on one brand aside), on systems that can exclude
      routes and on those that cannot; no failure leaves a tunnel open; a handshake
      that is told after the stop, and servers for names that are lost on one brand.
    - Android service: in a calm surrounding (clients connect only what is down, one
      disconnection at a time, a cancelled status job does nothing more) the state that
      is told is that of the tunnel, and only the job that a disconnection cancels can
      set one up; a disconnection goes through in every schedule that gives its job and that
      of the connection their turns.  A disconnection that comes too early
      and waits for its timeout, and a renewal that outlives a disconnection.
    - Daemon: the counted exclusions are the routes that are set, in every state
      that commands can reach; an activation settles; a deactivation leaves
      nothing; a switch exchanges exclusions, except for ranges.
    - Local socket: however the bytes are cut, the complete lines are handled in
      order; a request of the client is what the daemon activates; each message of
      the daemon has its effect on the client; the client gives up after ten
      retries and loses no callback.
    - Choice of a server: a connection ends at the first server that works or with
      the failure of the last of at most three; closing ends the choice, unless a
      failure is already on its way.
    - Protocol and connection: an attempt is over after fifteen seconds; connected is
      said only after a probe was answered; failures are told before the stop, a
      renewal hides it; what the settings say is what the daemon is sent, as far as the
      ranges of the configuration allow it and the mode of applications aside; failures
      that are told twice, a late message that is believed, a closing that does not
      end.
    - Firewall and kill switch: the tables hold what an abstract list of anchors says,
      and a packet gets the verdict of the first enabled rule; removal restores every
      table (a rule without words, which the linking deletes, aside).  With the kill switch
      on, exactly the named kinds of traffic pass, in any state the service can reach; the strict mode blocks everything between
      connections; in the mode of some sites, these are not blocked.
    - Page of the connection: what is shown belongs to the state, a press ends with the
      outcome of the choice of a server, a renewal opens once more; a change of the
      language that forgets counters, a preparation that never ends.
    - Pings and latencies: a reply counts if it answers one of the last thirty-two
      pings; every probe settles; a subscription starts one probe for each country; the
      best server is the one with the least positive latency; a speed test ends within
      twenty seconds.
    - Health of the connection: the values are those of the outcomes since the last news of
      the connection, within the bounds of the timeout; a probe of an earlier connection
      that counts in the next.
    - Xray: the local proxy asks for a password that is not empty and is read back; a
      link for a server with REALITY is read as that server, with defaults for three
      fields that are empty; what a link for a server
      with TLS leaves out.
    - Settings and servers: the encrypted settings behave like a map whose values are what
      the file gives back after a new start, as long as no group of settings is removed; a
      backup can be restored; the list of servers is consistent in every state, has a free name and
      a default after a removal, and is read back, doubles of a host aside.
    - Split tunnelling: the lists in memory are those that are stored, the preset
      grows without touching what the person chose, an export can be imported, and
      operations that lose an address or a prefix.
    - Configuration: the file for WireGuard has the settings that were meant,
      unless a text that is not checked has a line break; what of a configuration that is
      written as JSON is read back, and what is lost.
    - Installer: it goes on only after a look that does not show the application, and
      after an uninstaller that was found has ended with success; termination, the rights under which the application is started, the
      operations that undo the installation, and a failure that is ignored.
    - Pages: the country of a server name is that of the longest listed name in
      it; the help pages show the chosen section; the language shown is the
      last one chosen.

    ** Fuel and bounds

    Loops that are not structural take fuel.  The exclusion of a network takes at
    most 128 rounds (one for each bit of a prefix), the networks of a range at
    most 257; the theorems show that these are enough, and the theorem on host
    bits shows that no fuel is.  The message loop of the installer takes one unit
    for each time the user tries again, an activation two levels, the loops of the
    local socket one for each byte and each read.  The search for a free name of a
    server takes one more than there are servers, and a connection that is asked for
    three services of a request; the theorems show that both are enough.  A packet
    goes through three levels of chains (the root, an anchor and its rules), which are
    all there are in tables that the firewall laid out.

    ** What is not modelled

    Parsing and printing of addresses (Qt and Java), the Qt Installer Framework,
    the tools of the operating systems, QLocale and the translations, which are
    data in the format of Qt Linguist, the text of JSON and dates are parameters or
    interfaces.  Logging and layout are left out.  Assertions are those of a release
    build, which does not check them.  Of the connection the parts for Android and
    iOS and the protocols other than WireGuard are left out, and of the choice of a
    server the making of the configuration, which calls the configurators.  Threads
    are not modelled as such: signals of the connection are heard in their order
    after the call that sends them, and theorems that hold for any order say so.
    Doubles are the rationals that they stand for.  Of the firewall only Linux is
    modelled; rules whose text the shell or iptables may take for something else than
    one rule with an address are excluded by hypotheses.  Of the service of Android,
    notifications, statistics, stored states and the end of the process are left out, and
    exceptions that the handler throws again.

    Whole parts of the program are left out because what they do is in code that is not
    here: the controllers of the subscription and of self-hosted servers send requests and
    run scripts over SSH, the configurators fill in templates for those scripts, the
    routers, the platform daemons and the network extension of Apple's systems call the
    operating system, and the pages are layout and bindings.  The models of protocols and
    containers copy fields to and from JSON; what the repository of the servers asks of
    them is modelled there.  The links of vmess, trojan and ss follow the pattern of the
    vless links. *)

From stdpp Require Import base numbers list strings.
From Stdlib Require Import ZArith Lia Strings.Byte Btauto.

(** ** Source text

    String literals of the sources are kept as UTF-8 byte sequences. *)

Record text := Text { text_bytes : list Byte.byte }.

Declare Scope text_scope.
Delimit Scope text_scope with text.
Bind Scope text_scope with text.
String Notation text Text text_bytes : text_scope.

Definition text_eqb (a b : text) : bool :=
  (fix eqb (l m : list Byte.byte) : bool :=
     match l, m with
     | [], [] => true
     | x :: l', y :: m' => Byte.eqb x y && eqb l' m'
     | _, _ => false
     end) (text_bytes a) (text_bytes b).

(** [QString::contains] for a single character. *)
Fixpoint string_has (c : Ascii.ascii) (s : string) : bool :=
  match s with
  | EmptyString => false
  | String d s' => Ascii.eqb c d || string_has c s'
  end.

Open Scope Z_scope.

(** Lemmas on texts that have no line break. *)
Create HintDb texts.

(** [lia] with division and modulo by constants. *)
Ltac dlia := Z.to_euclidean_division_equations; lia.

(** ** Bits *)

Lemma testbit_above (n p i : Z) :
  0 <= n < 2 ^ p -> p <= i -> Z.testbit n i = false.
Proof.
  intros Hn Hi. destruct (Z.ltb_spec p 0) as [Hp|Hp].
  - rewrite Z.pow_neg_r in Hn by lia. lia.
  - rewrite <- (Z.mod_small n (2 ^ p)) by lia. now apply Z.mod_pow2_bits_high.
Qed.

Lemma shiftr_lxor_eq_0 (a b k : Z) :
  Z.shiftr (Z.lxor a b) k = 0 <-> Z.shiftr a k = Z.shiftr b k.
Proof. rewrite Z.shiftr_lxor. apply Z.lxor_eq_0_iff. Qed.

Lemma lor_low_ones (a n : Z) :
  0 <= n -> Z.lor a (Z.ones n) = Z.shiftr a n * 2 ^ n + 2 ^ n - 1.
Proof.
  intros Hn. rewrite <- Z.shiftl_mul_pow2, <- Z.add_sub_assoc by done.
  replace (2 ^ n - 1) with (Z.ones n) by (rewrite Z.ones_equiv; lia).
  rewrite Z.add_nocarry_lxor.
  - apply Z.bits_inj'. intros i Hi. rewrite Z.lor_spec, Z.lxor_spec.
    destruct (Z.ltb_spec i n).
    + rewrite Z.ones_spec_low, Z.shiftl_spec_low by lia. btauto.
    + rewrite Z.ones_spec_high, Z.shiftl_spec, Z.shiftr_spec by lia.
      replace (i - n + n) with i by lia. btauto.
  - apply Z.bits_inj'. intros i Hi. rewrite Z.land_spec, Z.bits_0.
    destruct (Z.ltb_spec i n).
    + rewrite Z.shiftl_spec_low by lia. done.
    + rewrite Z.ones_spec_high by lia. btauto.
Qed.

Lemma pow2_pos (k : Z) : 0 <= k -> 0 < 2 ^ k.
Proof. intros. apply Z.pow_pos_nonneg; lia. Qed.

Lemma lor_bound (a b n : Z) :
  0 <= a < 2 ^ n -> 0 <= b < 2 ^ n -> 0 <= Z.lor a b < 2 ^ n.
Proof.
  intros Ha Hb. assert (0 <= Z.lor a b) by (apply Z.lor_nonneg; lia). split; [done|].
  destruct (Z.eq_dec (Z.lor a b) 0) as [->|]; [lia|].
  assert (0 <= n) by (destruct (Z.ltb_spec n 0); [rewrite Z.pow_neg_r in Ha|]; lia).
  assert (n <> 0).
  { intros ->. replace a with 0 in * by lia. replace b with 0 in * by lia. done. }
  apply Z.log2_lt_pow2; [lia|]. rewrite Z.log2_lor by lia.
  apply Z.max_lub_lt;
    [destruct (Z.eq_dec a 0) as [->|] | destruct (Z.eq_dec b 0) as [->|]];
    try (apply Z.log2_lt_pow2; lia); simpl; lia.
Qed.

Lemma fill_low_bound (a w n : Z) :
  0 <= a < 2 ^ w -> 0 <= n <= w -> 0 <= Z.shiftr a n * 2 ^ n + 2 ^ n - 1 < 2 ^ w.
Proof.
  intros Ha Hn. rewrite Z.shiftr_div_pow2 by lia. pose proof (pow2_pos n ltac:(lia)).
  assert (0 <= a / 2 ^ n) by (apply Z.div_pos; lia).
  assert (a / 2 ^ n < 2 ^ (w - n)).
  { apply Z.div_lt_upper_bound; [lia|]. rewrite <- Z.pow_add_r by lia.
    replace (n + (w - n)) with w by lia. lia. }
  replace (2 ^ w) with (2 ^ (w - n) * 2 ^ n); [nia|].
  rewrite <- Z.pow_add_r by lia. f_equal. lia.
Qed.

Lemma canonical_bit_clear (v n : Z) :
  0 < n -> v mod 2 ^ n = 0 -> Z.testbit v (n - 1) = false.
Proof.
  intros Hn Hv. rewrite <- (Z.mod_pow2_bits_low v n) by lia. rewrite Hv. apply Z.bits_0.
Qed.

Lemma lor_clear_bit (v n : Z) :
  0 <= n -> Z.testbit v n = false -> Z.lor v (2 ^ n) = v + 2 ^ n.
Proof.
  intros Hn Hv. rewrite Z.add_nocarry_lxor, Z.lxor_lor; [done| |];
    apply Z.bits_inj'; intros i Hi; rewrite Z.land_spec, Z.bits_0, Z.pow2_bits_eqb by done;
    destruct (Z.eqb_spec n i) as [->|]; rewrite ?Hv; btauto.
Qed.

Lemma mod_half (v n : Z) :
  0 < n -> v mod 2 ^ n = 0 -> v mod 2 ^ (n - 1) = 0 /\ (v + 2 ^ (n - 1)) mod 2 ^ (n - 1) = 0.
Proof.
  intros Hn Hv. pose proof (pow2_pos (n - 1) ltac:(lia)).
  apply Z.mod_divide in Hv as [q ->]; [|pose proof (pow2_pos n ltac:(lia)); lia].
  replace (2 ^ n) with (2 * 2 ^ (n - 1)) by (rewrite <- Z.pow_succ_r by lia; f_equal; lia).
  split; apply Z.mod_divide; try lia; [exists (q * 2) | exists (q * 2 + 1)]; lia.
Qed.

Lemma pow2_half (n : Z) : 0 < n -> 2 ^ n = 2 * 2 ^ (n - 1).
Proof. intros. rewrite <- Z.pow_succ_r by lia. f_equal. lia. Qed.

(** A multiple of [2 ^ n] below [2 ^ w] leaves room for [2 ^ n] values. *)
Lemma aligned_bound (v w n : Z) :
  0 <= v < 2 ^ w -> 0 <= n <= w -> v mod 2 ^ n = 0 -> v + 2 ^ n <= 2 ^ w.
Proof.
  intros Hv Hn Hm. pose proof (pow2_pos n ltac:(lia)).
  apply Z.mod_divide in Hm as [q ->]; [|lia].
  assert (2 ^ w = 2 ^ (w - n) * 2 ^ n) by (rewrite <- Z.pow_add_r by lia; f_equal; lia).
  assert (q < 2 ^ (w - n)) by nia. nia.
Qed.

Lemma mod_pow2_le (v n m : Z) : 0 <= m <= n -> v mod 2 ^ n = 0 -> v mod 2 ^ m = 0.
Proof.
  intros Hm Hv. pose proof (pow2_pos n ltac:(lia)). pose proof (pow2_pos m ltac:(lia)).
  apply Z.mod_divide in Hv as [q ->]; [|lia]. apply Z.mod_divide; [lia|].
  exists (q * 2 ^ (n - m)). rewrite <- Z.mul_assoc, <- Z.pow_add_r by lia. do 2 f_equal. lia.
Qed.

(** Masking with [w - n] leading ones. *)
Lemma land_netmask (x w n : Z) :
  0 <= n <= w -> 0 <= x < 2 ^ w -> Z.land x (2 ^ w - 2 ^ n) = Z.shiftl (Z.shiftr x n) n.
Proof.
  intros Hn Hx. replace (2 ^ w - 2 ^ n) with (Z.shiftl (Z.ones (w - n)) n).
  2: { rewrite Z.shiftl_mul_pow2, Z.ones_equiv, <- Z.sub_1_r, Z.mul_sub_distr_r, <- Z.pow_add_r by lia.
       replace (w - n + n) with w by lia. lia. }
  apply Z.bits_inj'. intros i Hi. rewrite Z.land_spec, !Z.shiftl_spec by lia.
  destruct (Z.ltb_spec i n); [rewrite !(Z.testbit_neg_r _ (i - n)) by lia; btauto|].
  rewrite Z.shiftr_spec by lia. replace (i - n + n) with i by lia.
  destruct (Z.ltb_spec i w).
  - rewrite Z.ones_spec_low by lia. btauto.
  - rewrite (testbit_above x w i) by lia. btauto.
Qed.

(** ** Byte arrays as big-endian integers *)

Definition is_byte (b : Z) : Prop := 0 <= b < 256.

Fixpoint be_value (l : list Z) : Z :=
  match l with
  | [] => 0
  | b :: l' => b * 2 ^ (8 * Z.of_nat (length l')) + be_value l'
  end.

Lemma pow2_8S (n : nat) : 2 ^ (8 * Z.of_nat (S n)) = 256 * 2 ^ (8 * Z.of_nat n).
Proof. rewrite Nat2Z.inj_succ, Z.mul_succ_r, Z.pow_add_r by lia. lia. Qed.

Lemma be_value_bound (l : list Z) :
  Forall is_byte l -> 0 <= be_value l < 2 ^ (8 * Z.of_nat (length l)).
Proof.
  induction 1 as [|b l Hb _ IH]; [simpl; lia|].
  change (length (b :: l)) with (S (length l)). rewrite pow2_8S. simpl be_value.
  unfold is_byte in Hb. nia.
Qed.

Lemma be_value_app (l m : list Z) :
  be_value (l ++ m) = be_value l * 2 ^ (8 * Z.of_nat (length m)) + be_value m.
Proof.
  induction l as [|b l IH]; simpl; [lia|].
  rewrite IH, length_app, Nat2Z.inj_add, Z.mul_add_distr_l, Z.pow_add_r by lia. lia.
Qed.

(** Lexicographic comparison of equally long byte arrays is comparison of
    their values. *)
Lemma be_value_cons_lt (a b : Z) (l m : list Z) :
  Forall is_byte l -> Forall is_byte m -> length l = length m -> a < b ->
  be_value (a :: l) < be_value (b :: m).
Proof.
  intros Hl%be_value_bound Hm%be_value_bound Hlen Hab. simpl. rewrite <- Hlen in *. nia.
Qed.

Lemma be_value_inj (l m : list Z) :
  Forall is_byte l -> Forall is_byte m -> length l = length m ->
  be_value l = be_value m -> l = m.
Proof.
  intros Hl. revert m. induction Hl as [|a l Ha Hl IH]; intros [|b m] Hm Hlen Hv;
    try discriminate Hlen; [done|].
  apply Forall_cons in Hm as [Hb Hm]. injection Hlen as Hlen.
  destruct (Z.lt_trichotomy a b) as [Hab | [-> | Hab]].
  - pose proof (be_value_cons_lt a b l m Hl Hm Hlen Hab). lia.
  - f_equal. apply IH; auto. simpl in Hv. rewrite Hlen in Hv. lia.
  - pose proof (be_value_cons_lt b a m l Hm Hl (eq_sym Hlen) Hab). lia.
Qed.

Lemma shiftr_add_low (x y k : Z) :
  0 <= k -> 0 <= y < 2 ^ k -> Z.shiftr (x * 2 ^ k + y) k = x.
Proof.
  intros Hk Hy. rewrite Z.shiftr_div_pow2 by done.
  rewrite Z.add_comm, Z.div_add, Z.div_small; lia.
Qed.

(** The first [k] bytes are the value shifted right by the remaining bytes. *)
Lemma be_value_take (k : nat) (l : list Z) :
  Forall is_byte l -> (k <= length l)%nat ->
  be_value (take k l) = Z.shiftr (be_value l) (8 * Z.of_nat (length l - k)).
Proof.
  intros Hl Hk. rewrite <- (take_drop k l) at 2.
  rewrite be_value_app, length_drop, shiftr_add_low; [done|lia|].
  rewrite <- length_drop. apply be_value_bound. now apply Forall_drop.
Qed.

Lemma be_value_split (k : nat) (l : list Z) (b : Z) :
  l !! k = Some b ->
  be_value l = (be_value (take k l) * 256 + b) * 2 ^ (8 * Z.of_nat (length l - S k))
               + be_value (drop (S k) l).
Proof.
  intros Hb. rewrite <- (take_drop_middle l k b Hb) at 1.
  rewrite be_value_app. simpl. rewrite length_drop, pow2_8S. lia.
Qed.

(** The topmost [8 * k + r] bits: the first [k] bytes and the top [r] bits of
    the next one. *)
Lemma be_value_top (k : nat) (r : Z) (l : list Z) (b : Z) :
  Forall is_byte l -> l !! k = Some b -> 0 <= r <= 8 ->
  Z.shiftr (be_value l) (8 * Z.of_nat (length l) - (8 * Z.of_nat k + r))
  = be_value (take k l) * 2 ^ r + Z.shiftr b (8 - r).
Proof.
  intros Hl Hb Hr. pose proof (lookup_lt_Some _ _ _ Hb) as Hk.
  replace (8 * Z.of_nat (length l) - (8 * Z.of_nat k + r))
    with (8 * Z.of_nat (length l - S k) + (8 - r)) by lia.
  rewrite <- Z.shiftr_shiftr by lia. rewrite (be_value_split k l b Hb), shiftr_add_low.
  - rewrite !Z.shiftr_div_pow2 by lia.
    replace 256 with (2 ^ r * 2 ^ (8 - r)) by (rewrite <- Z.pow_add_r, Zplus_minus by lia; done).
    pose proof (pow2_pos (8 - r) ltac:(lia)).
    rewrite Z.mul_assoc, Z.div_add_l by lia. lia.
  - lia.
  - rewrite <- length_drop. apply be_value_bound. now apply Forall_drop.
Qed.

(** ** Decidable facts about small ranges, by evaluation *)

Definition range_forallb (n : nat) (P : Z -> bool) : bool :=
  forallb P (map Z.of_nat (seq 0 n)).

Lemma range_forallb_spec (n : nat) (P : Z -> bool) :
  range_forallb n P = true -> forall z, 0 <= z < Z.of_nat n -> P z = true.
Proof.
  unfold range_forallb. rewrite forallb_forall. intros H z Hz. apply H.
  apply in_map_iff. exists (Z.to_nat z). split; [lia|]. apply in_seq. lia.
Qed.

Lemma be_value_replicate_255 (n : nat) : be_value (replicate n 255) = 2 ^ (8 * Z.of_nat n) - 1.
Proof.
  induction n as [|n IH]; [done|]. simpl replicate. simpl be_value.
  rewrite length_replicate, IH, pow2_8S. lia.
Qed.

Lemma be_value_insert (k : nat) (l : list Z) (b x : Z) :
  l !! k = Some b ->
  be_value (<[k := x]> l) = be_value l + (x - b) * 2 ^ (8 * Z.of_nat (length l - S k)).
Proof.
  intros Hb. pose proof (lookup_lt_Some _ _ _ Hb) as Hk.
  rewrite (be_value_split k l b Hb), (be_value_split k (<[k:=x]> l) x)
    by (by apply list_lookup_insert_eq).
  rewrite take_insert_ge, drop_insert_lt, length_insert by lia. lia.
Qed.

(** ** Byte arrays from the last byte to the first *)

Fixpoint le_value (l : list Z) : Z :=
  match l with
  | [] => 0
  | b :: l' => b + 256 * le_value l'
  end.

Lemma be_value_rev (l : list Z) : be_value (rev l) = le_value l.
Proof.
  induction l as [|b l IH]; simpl; [done|]. rewrite be_value_app, IH. simpl. lia.
Qed.

Lemma le_value_rev (l : list Z) : le_value (rev l) = be_value l.
Proof. by rewrite <- be_value_rev, rev_involutive. Qed.

Lemma le_value_bound (l : list Z) :
  Forall is_byte l -> 0 <= le_value l < 2 ^ (8 * Z.of_nat (length l)).
Proof.
  intros H. rewrite <- be_value_rev, <- length_rev. apply be_value_bound. by apply Forall_rev.
Qed.

(** ** Prefix lengths split into bytes and bits *)

Lemma shiftr_byte_bound (b r : Z) :
  is_byte b -> 0 <= r <= 8 -> 0 <= Z.shiftr b (8 - r) < 2 ^ r.
Proof.
  unfold is_byte. intros Hb Hr. rewrite Z.shiftr_div_pow2 by lia.
  pose proof (pow2_pos (8 - r) ltac:(lia)). split; [apply Z.div_pos; lia|].
  apply Z.div_lt_upper_bound; [done|]. rewrite <- Z.pow_add_r by lia.
  replace (8 - r + r) with 8 by lia. lia.
Qed.

Lemma div8_split (p : Z) :
  0 <= p -> p = 8 * Z.of_nat (Z.to_nat (p / 8)) + p mod 8 /\ 0 <= p mod 8 < 8.
Proof.
  intros. dlia.
Qed.

Lemma quot_rem_8 (p : Z) : 0 <= p -> Z.quot p 8 = p / 8 /\ Z.rem p 8 = p mod 8.
Proof. intros. split; [apply Z.quot_div_nonneg|apply Z.rem_mod_nonneg]; lia. Qed.
