(* ===== verification/IpAddress.v ===== *)
(** * IP networks of the daemon

    Model of [client/mozilla/shared/ipaddress.h] and
    [client/mozilla/shared/ipaddress.cpp]: the class [IPAddress], a host
    address with a prefix length, and the routines the route monitors and the
    kill switch compute with.  IPv4 addresses are 32-bit integers; IPv6
    addresses are the sixteen bytes of [Q_IPV6ADDR], handled byte by byte as
    the source does, and related to 128-bit integers by the lemmas.

    The reference semantics of a network is [covers]: the addresses of the same
    family that agree with it on the first [m_prefixLength] bits. *)

From stdpp Require Import base numbers list strings.
From Stdlib Require Import ZArith Lia Ascii Btauto.
From S2P Require Import Prelude.
Local Open Scope Z_scope.

Inductive NetworkLayerProtocol :=
  | IPv4Protocol
  | IPv6Protocol
  | UnknownNetworkLayerProtocol.

#[export] Instance NetworkLayerProtocol_eq_dec : EqDecision NetworkLayerProtocol.
Proof. solve_decision. Defined.

(** A [QHostAddress]: null, a [quint32] or a [Q_IPV6ADDR]. *)
Inductive QHostAddress :=
  | HostNull
  | HostV4 (a : Z)
  | HostV6 (a6 : list Z).

#[export] Instance QHostAddress_eq_dec : EqDecision QHostAddress.
Proof. solve_decision. Defined.

Definition protocol (h : QHostAddress) : NetworkLayerProtocol :=
  match h with
  | HostNull => UnknownNetworkLayerProtocol
  | HostV4 _ => IPv4Protocol
  | HostV6 _ => IPv6Protocol
  end.

Definition toIPv4Address (h : QHostAddress) : Z :=
  match h with HostV4 a => a | _ => 0 end.

Definition toIPv6Address (h : QHostAddress) : list Z :=
  match h with HostV6 a6 => a6 | _ => replicate 16 0 end.

Record IPAddress := mkIPAddress {
  m_address : QHostAddress;
  m_prefixLength : Z
}.

#[export] Instance IPAddress_eq_dec : EqDecision IPAddress.
Proof. solve_decision. Defined.

(** [memset(&a[off], v, n)] inside the array. *)
Definition memset (a : list Z) (off : nat) (v : Z) (n : nat) : list Z :=
  take off a ++ replicate n v ++ drop (off + n) a.

(** [a[i]] of a sixteen byte array. *)
Definition byte_at (a : list Z) (i : nat) : Z := default 0 (a !! i).

(** ** Construction *)

(** [IPAddress(const QString& ip)]; the two Qt parsers are arguments. *)
Definition IPAddress_of_string
    (parseSubnet : string -> QHostAddress * Z) (parseHost : string -> QHostAddress)
    (ip : string) : IPAddress :=
  let '(addr, len) :=
    if string_has "/"%char ip then parseSubnet ip else (parseHost ip, 999999) in
  match protocol addr with
  | IPv4Protocol => mkIPAddress addr (if 32 <=? len then 32 else len)
  | IPv6Protocol => mkIPAddress addr (if 128 <=? len then 128 else len)
  | UnknownNetworkLayerProtocol => mkIPAddress addr len
  end.

(** [IPAddress(const QHostAddress& address)] *)
Definition IPAddress_of_host (address : QHostAddress) : IPAddress :=
  match protocol address with
  | IPv4Protocol => mkIPAddress address 32
  | _ => mkIPAddress address 128
  end.

(** [IPAddress::type] *)
Definition IPAddress_type (ip : IPAddress) : NetworkLayerProtocol := protocol (m_address ip).

(** ** Masks *)

Definition netmask (ip : IPAddress) : QHostAddress :=
  let p := m_prefixLength ip in
  match protocol (m_address ip) with
  | IPv6Protocol =>
      let k := Z.to_nat (Z.quot p 8) in
      let raw := memset (replicate 16 0) 0 255 k in
      HostV6 (if Z.rem p 8 =? 0 then raw
              else <[k := Z.lxor 255 (Z.shiftr 255 (Z.rem p 8))]> raw)
  | IPv4Protocol =>
      let raw := 4294967295 in
      HostV4 (if p <? 32 then Z.lxor raw (Z.shiftr 4294967295 p) else raw)
  | UnknownNetworkLayerProtocol => HostNull
  end.

Definition hostmask (ip : IPAddress) : QHostAddress :=
  let p := m_prefixLength ip in
  match protocol (m_address ip) with
  | IPv6Protocol =>
      let offset := Z.to_nat (Z.quot (p + 7) 8) in
      let raw := memset (replicate 16 0) offset 255 (16 - offset) in
      HostV6 (if Z.rem p 8 =? 0 then raw
              else <[Z.to_nat (Z.quot p 8) := Z.shiftr 255 (Z.rem p 8)]> raw)
  | IPv4Protocol =>
      if p <? 32 then HostV4 (Z.shiftr 4294967295 p) else HostV4 0
  | UnknownNetworkLayerProtocol => HostNull
  end.

Definition broadcastAddress (ip : IPAddress) : QHostAddress :=
  let p := m_prefixLength ip in
  match protocol (m_address ip) with
  | IPv6Protocol =>
      let raw := toIPv6Address (m_address ip) in
      let offset := Z.to_nat (Z.quot (p + 7) 8) in
      let raw := memset raw offset 255 (16 - offset) in
      let k := Z.to_nat (Z.quot p 8) in
      HostV6 (if Z.rem p 8 =? 0 then raw
              else <[k := Z.lor (byte_at raw k) (Z.shiftr 255 (Z.rem p 8))]> raw)
  | IPv4Protocol =>
      let raw := toIPv4Address (m_address ip) in
      HostV4 (if p <? 32 then Z.lor raw (Z.shiftr 4294967295 p) else raw)
  | UnknownNetworkLayerProtocol => HostNull
  end.

(** ** Membership *)

Definition contains (ip : IPAddress) (address : QHostAddress) : bool :=
  let p := m_prefixLength ip in
  if decide (protocol address = protocol (m_address ip)) then
    if p =? 0 then true
    else match protocol (m_address ip) with
    | IPv6Protocol =>
        let a := toIPv6Address (m_address ip) in
        let b := toIPv6Address address in
        let bytes := Z.to_nat (Z.quot p 8) in
        if bool_decide (take bytes a = take bytes b) then
          if Z.rem p 8 =? 0 then true
          else Z.shiftr (Z.lxor (byte_at a bytes) (byte_at b bytes)) (8 - Z.rem p 8) =? 0
        else false
    | IPv4Protocol =>
        let diff := Z.lxor (toIPv4Address (m_address ip)) (toIPv4Address address) in
        (if p <? 32 then Z.shiftr diff (32 - p) else diff) =? 0
    | UnknownNetworkLayerProtocol => false
    end
  else false.

Definition overlaps (ip other : IPAddress) : bool :=
  if m_prefixLength ip <? m_prefixLength other then contains ip (m_address other)
  else contains other (m_address ip).

(** [operator==] *)
Definition IPAddress_eqb (ip other : IPAddress) : bool :=
  bool_decide (m_address ip = m_address other)
  && (m_prefixLength ip =? m_prefixLength other).

Definition subnetOf (ip other : IPAddress) : bool :=
  if decide (protocol (m_address other) = protocol (m_address ip)) then
    if m_prefixLength ip <? m_prefixLength other then false
    else contains other (m_address ip)
  else false.

(** ** Splitting and exclusion *)

Definition subnets (ip : IPAddress) : list IPAddress :=
  let p := m_prefixLength ip in
  match protocol (m_address ip) with
  | IPv4Protocol =>
      if 32 <=? p then [ip]
      else
        let raw := toIPv4Address (m_address ip) in
        [mkIPAddress (HostV4 raw) (p + 1);
         mkIPAddress (HostV4 (Z.lor raw (Z.shiftr 2147483648 p))) (p + 1)]
  | _ =>
      if 128 <=? p then [ip]
      else
        let raw := toIPv6Address (m_address ip) in
        let k := Z.to_nat (Z.quot p 8) in
        [mkIPAddress (HostV6 raw) (p + 1);
         mkIPAddress
           (HostV6 (<[k := Z.lor (byte_at raw k) (Z.shiftr 128 (Z.rem p 8))]> raw)) (p + 1)]
  end.

(** How the loop ends: with the list, not within the fuel, or with an index out of
    range of [sn]. *)
Inductive Looped :=
| Finished (result : list IPAddress)
| Unfinished
| OutOfRange.

(** The loop of [excludeAddresses(const IPAddress& ip)]; the failing [Q_ASSERT] of a
    release build leaves the state unchanged. *)
Fixpoint exclude_loop (fuel : nat) (sn : list IPAddress) (ip : IPAddress)
    (result : list IPAddress) : Looped :=
  match sn with
  | sn0 :: sn1 :: _ =>
      match fuel with
      | O => Unfinished
      | S fuel' =>
          if negb (IPAddress_eqb sn0 ip) && negb (IPAddress_eqb sn1 ip) then
            if subnetOf ip sn0 then exclude_loop fuel' (subnets sn0) ip (result ++ [sn1])
            else if subnetOf ip sn1 then exclude_loop fuel' (subnets sn1) ip (result ++ [sn0])
            else exclude_loop fuel' sn ip result
          else if IPAddress_eqb sn0 ip then Finished (result ++ [sn1])
          else Finished (result ++ [sn0])
      end
  | _ => OutOfRange
  end.

(** [self.excludeAddresses(ip)], with a result where the loop finishes. *)
Definition excludeAddress (fuel : nat) (self ip : IPAddress) : option (list IPAddress) :=
  match exclude_loop fuel (subnets self) ip [] with
  | Finished result => Some result
  | Unfinished | OutOfRange => None
  end.

(** One pass of the outer loop of the static [excludeAddresses]. *)
Fixpoint exclude_one (fuel : nat) (exclude : IPAddress) (results : list IPAddress)
    : option (list IPAddress) :=
  match results with
  | [] => Some []
  | ip :: rest =>
      head ← (if negb (overlaps ip exclude) then Some [ip]
              else if subnetOf exclude ip && negb (IPAddress_eqb exclude ip)
              then excludeAddress fuel ip exclude
              else Some []);
      tail ← exclude_one fuel exclude rest;
      Some (head ++ tail)
  end.

(** [excludeAddresses(sourceList, excludeList)] *)
Fixpoint excludeAddresses (fuel : nat) (sourceList excludeList : list IPAddress)
    : option (list IPAddress) :=
  match excludeList with
  | [] => Some sourceList
  | exclude :: rest =>
      results ← exclude_one fuel exclude sourceList;
      excludeAddresses fuel results rest
  end.

(** ** Reference semantics *)

Definition width (h : QHostAddress) : Z :=
  match h with HostNull => 0 | HostV4 _ => 32 | HostV6 _ => 128 end.

Definition value (h : QHostAddress) : Z :=
  match h with HostNull => 0 | HostV4 a => a | HostV6 a6 => be_value a6 end.

Definition wf_host (h : QHostAddress) : Prop :=
  match h with
  | HostNull => False
  | HostV4 a => 0 <= a < 2 ^ 32
  | HostV6 a6 => length a6 = 16%nat /\ Forall is_byte a6
  end.

Definition wf (ip : IPAddress) : Prop :=
  wf_host (m_address ip) /\ 0 <= m_prefixLength ip <= width (m_address ip).

(** The number of host bits. *)
Definition hostbits (ip : IPAddress) : Z := width (m_address ip) - m_prefixLength ip.

Definition covers (ip : IPAddress) (h : QHostAddress) : Prop :=
  protocol h = protocol (m_address ip)
  /\ Z.shiftr (value h) (hostbits ip) = Z.shiftr (value (m_address ip)) (hostbits ip).

(** A network address proper: no host bit is set. *)
Definition canonical (ip : IPAddress) : Prop :=
  value (m_address ip) mod 2 ^ hostbits ip = 0.

Definition covered (l : list IPAddress) (h : QHostAddress) : Prop :=
  Exists (fun ip => covers ip h) l.

(** A network proper: well formed, with no host bit set. *)
Definition network (ip : IPAddress) : Prop := wf ip /\ canonical ip.

(** [s] is the half of [ip] that starts at [v]. *)
Definition is_half (ip s : IPAddress) (v : Z) : Prop :=
  wf s /\ canonical s /\ protocol (m_address s) = protocol (m_address ip)
  /\ width (m_address s) = width (m_address ip)
  /\ m_prefixLength s = m_prefixLength ip + 1 /\ value (m_address s) = v.

(** Networks with no address in common. *)
Definition disjoint (a b : IPAddress) : Prop := forall h, ~ (covers a h /\ covers b h).

(** [l] partitions the addresses of [cur] outside [ip] into networks. *)
Definition partitions (l : list IPAddress) (cur ip : IPAddress) : Prop :=
  Forall network l /\ ForallOrdPairs disjoint l
  /\ forall h, covered l h <-> covers cur h /\ ~ covers ip h.

(** [ip] is a proper subnetwork of [cur]. *)
Definition strictly_inside (ip cur : IPAddress) : Prop :=
  protocol (m_address ip) = protocol (m_address cur)
  /\ m_prefixLength cur < m_prefixLength ip
  /\ value (m_address cur) <= value (m_address ip)
     < value (m_address cur) + 2 ^ hostbits cur.

(** The fuel an exclusion needs: the widest prefix length. *)
Definition exclude_fuel : nat := 128.

(** Checks over all prefix lengths, decided by evaluation. *)
Definition netmask6_ok (p : Z) : bool :=
  value (netmask (mkIPAddress (HostV6 []) p)) =? 2 ^ 128 - 2 ^ (128 - p).

Definition hostmask6_ok (p : Z) : bool :=
  value (hostmask (mkIPAddress (HostV6 []) p)) =? 2 ^ (128 - p) - 1.

Definition masks4_ok (p : Z) : bool :=
  (value (netmask (mkIPAddress (HostV4 0) p)) =? 2 ^ 32 - 2 ^ (32 - p))
  && (value (hostmask (mkIPAddress (HostV4 0) p)) =? 2 ^ (32 - p) - 1).

(** Setting the low [8 - r] bits of a byte. *)
Definition byte_fill_ok (r b : Z) : bool :=
  Z.lor b (Z.shiftr 255 r) =? Z.shiftr b (8 - r) * 2 ^ (8 - r) + 2 ^ (8 - r) - 1.

(** Concrete networks for the witnesses: 0.0.0.0/0, 10.0.0.0/8 and fc00::/7. *)
Definition all4 : IPAddress := mkIPAddress (HostV4 0) 0.
Definition ten8 : IPAddress := mkIPAddress (HostV4 167772160) 8.
Definition ula7 : IPAddress := mkIPAddress (HostV6 (252 :: replicate 15 0)) 7.

(** ** Membership *)

Lemma wf_host_value (h : QHostAddress) : wf_host h -> 0 <= value h < 2 ^ width h.
Proof.
  destruct h as [|a|a6]; simpl; [lia|done|]. intros [Hlen Hb].
  apply be_value_bound in Hb. now rewrite Hlen in Hb.
Qed.

Lemma value_inj (h h' : QHostAddress) :
  wf_host h -> wf_host h' -> protocol h = protocol h' -> value h = value h' -> h = h'.
Proof.
  destruct h, h'; simpl; try done; [intros; by subst|].
  intros [Hl Hb] [Hl' Hb'] _ Hv. f_equal. apply be_value_inj; auto. by rewrite Hl, Hl'.
Qed.

Lemma byte_at_Some (a : list Z) (k : nat) :
  (k < length a)%nat -> a !! k = Some (byte_at a k).
Proof. unfold byte_at. intros [x ->]%lookup_lt_is_Some. done. Qed.

Lemma byte_at_byte (a : list Z) (k : nat) : Forall is_byte a -> is_byte (byte_at a k).
Proof.
  intros Ha. unfold byte_at. destruct (a !! k) eqn:E; simpl; [|unfold is_byte; lia].
  by eapply Forall_lookup_1.
Qed.

Lemma take_be_value_eq (k : nat) (a b : list Z) :
  Forall is_byte a -> Forall is_byte b -> length a = length b ->
  (take k a = take k b <-> be_value (take k a) = be_value (take k b)).
Proof.
  intros Ha Hb Hlen. split; [by intros ->|].
  apply be_value_inj; [by apply Forall_take..|]. by rewrite !length_take, Hlen.
Qed.

(** Comparing the first [p] bits byte by byte. *)
Lemma bytes_prefix_eq (a b : list Z) (p : Z) :
  Forall is_byte a -> Forall is_byte b -> length a = 16%nat -> length b = 16%nat ->
  0 <= p <= 128 ->
  let k := Z.to_nat (p / 8) in
  Z.shiftr (be_value a) (128 - p) = Z.shiftr (be_value b) (128 - p) <->
  take k a = take k b
  /\ (p mod 8 = 0 \/ Z.shiftr (Z.lxor (byte_at a k) (byte_at b k)) (8 - p mod 8) = 0).
Proof.
  intros Ha Hb Hla Hlb Hp k. pose proof (div8_split p ltac:(lia)) as Hk. fold k in Hk.
  rewrite take_be_value_eq by (done || congruence).
  destruct (Z.eq_dec (p mod 8) 0) as [Hr0|Hr0].
  - rewrite !be_value_take by (done || lia).
    replace (8 * Z.of_nat (length a - k)) with (128 - p) by lia.
    replace (8 * Z.of_nat (length b - k)) with (128 - p) by lia. tauto.
  - assert (k < 16)%nat by lia.
    pose proof (be_value_top k (p mod 8) a _ Ha (byte_at_Some a k ltac:(lia)) ltac:(lia)) as Ea.
    pose proof (be_value_top k (p mod 8) b _ Hb (byte_at_Some b k ltac:(lia)) ltac:(lia)) as Eb.
    rewrite Hla in Ea. rewrite Hlb in Eb.
    replace (8 * Z.of_nat 16 - (8 * Z.of_nat k + p mod 8)) with (128 - p) in Ea, Eb by lia.
    rewrite Ea, Eb, shiftr_lxor_eq_0.
    pose proof (shiftr_byte_bound _ (p mod 8) (byte_at_byte a k Ha) ltac:(lia)).
    pose proof (shiftr_byte_bound _ (p mod 8) (byte_at_byte b k Hb) ltac:(lia)).
    split; [|intros [-> [? | ->]]; [lia|done]].
    intros E. assert (be_value (take k a) = be_value (take k b)) by nia.
    split; [done|right; nia].
Qed.

Lemma contains_covers (ip : IPAddress) (h : QHostAddress) :
  wf ip -> wf_host h -> contains ip h = true <-> covers ip h.
Proof.
  destruct ip as [addr p]. unfold wf, contains, covers, hostbits; simpl.
  intros [Hw Hp] Hh. case_decide as Hproto; [|naive_solver].
  destruct (Z.eqb_spec p 0) as [->|Hp0].
  { split; [|done]. intros _. split; [done|]. rewrite Z.sub_0_r, !Z.shiftr_div_pow2.
    - pose proof (wf_host_value addr Hw). pose proof (wf_host_value h Hh).
      destruct addr, h; try done; simpl in *; rewrite !Z.div_small; lia.
    - destruct addr; simpl; lia.
    - destruct addr; simpl; lia. }
  destruct addr as [|a|a6], h as [|b|b6]; simpl in *; try done.
  - destruct (Z.ltb_spec p 32).
    + rewrite Z.eqb_eq, shiftr_lxor_eq_0. naive_solver.
    + replace (32 - p) with 0 by lia. rewrite !Z.shiftr_0_r, Z.eqb_eq, Z.lxor_eq_0_iff.
      naive_solver.
  - destruct (quot_rem_8 p ltac:(lia)) as [-> ->].
    pose proof (bytes_prefix_eq b6 a6 p) as E; simpl in E.
    rewrite E by (tauto || lia). rewrite Z.lxor_comm.
    case_bool_decide; [|naive_solver]. destruct (Z.eqb_spec (p mod 8) 0); [naive_solver|].
    rewrite Z.eqb_eq. naive_solver.
Qed.

(** A canonical network is an interval of addresses. *)
Lemma covers_interval (ip : IPAddress) (h : QHostAddress) :
  wf ip -> canonical ip ->
  covers ip h <->
  protocol h = protocol (m_address ip)
  /\ value (m_address ip) <= value h < value (m_address ip) + 2 ^ hostbits ip.
Proof.
  unfold wf, canonical, covers, hostbits. intros [_ Hp] Hc.
  set (n := width _ - _) in *. assert (Hn : 0 <= n) by lia.
  pose proof (pow2_pos n Hn) as Hpow. rewrite !Z.shiftr_div_pow2 by lia.
  apply Z.mod_divide in Hc as [q Hq]; [|lia]. rewrite Hq, Z.div_mul by lia.
  assert (value h / 2 ^ n = q <-> q * 2 ^ n <= value h < q * 2 ^ n + 2 ^ n); [|tauto].
  pose proof (Z.div_mod (value h) (2 ^ n) ltac:(lia)) as E.
  pose proof (Z.mod_pos_bound (value h) (2 ^ n) ltac:(lia)). split; intros; nia.
Qed.

(** ** Masks *)

Lemma masks_value (ip : IPAddress) :
  wf ip ->
  value (netmask ip) = 2 ^ width (m_address ip) - 2 ^ hostbits ip
  /\ value (hostmask ip) = 2 ^ hostbits ip - 1.
Proof.
  destruct ip as [[|a|a6] p]; unfold wf, hostbits; simpl; [tauto| |]; intros [_ Hp].
  - assert (H : range_forallb 33 masks4_ok = true) by (vm_compute; reflexivity).
    pose proof (range_forallb_spec _ _ H p ltac:(lia)) as E.
    unfold masks4_ok in E. rewrite andb_true_iff, !Z.eqb_eq in E. exact E.
  - assert (H : range_forallb 129 netmask6_ok = true) by (vm_compute; reflexivity).
    assert (H' : range_forallb 129 hostmask6_ok = true) by (vm_compute; reflexivity).
    pose proof (range_forallb_spec _ _ H p ltac:(lia)) as E.
    pose proof (range_forallb_spec _ _ H' p ltac:(lia)) as E'.
    unfold netmask6_ok, hostmask6_ok in *. rewrite Z.eqb_eq in E, E'. split; assumption.
Qed.

Lemma byte_fill (r b : Z) :
  0 <= r <= 8 -> is_byte b ->
  Z.lor b (Z.shiftr 255 r) = Z.shiftr b (8 - r) * 2 ^ (8 - r) + 2 ^ (8 - r) - 1.
Proof.
  intros Hr Hb. unfold is_byte in Hb. apply Z.eqb_eq. change (byte_fill_ok r b = true).
  assert (H : range_forallb 9 (fun r => range_forallb 256 (byte_fill_ok r)) = true)
    by (vm_compute; reflexivity).
  pose proof (range_forallb_spec _ _ H r ltac:(lia)) as E; simpl in E.
  apply (range_forallb_spec _ _ E). lia.
Qed.

(** Filling an array with ones from a byte offset on. *)
Lemma memset_tail (a : list Z) (off : nat) :
  length a = 16%nat -> (off <= 16)%nat ->
  memset a off 255 (16 - off) = take off a ++ replicate (16 - off) 255.
Proof.
  intros Ha Hoff. unfold memset. rewrite drop_ge by lia. by rewrite app_nil_r.
Qed.

Lemma memset_tail_wf (a : list Z) (off : nat) :
  length a = 16%nat -> Forall is_byte a -> (off <= 16)%nat ->
  length (memset a off 255 (16 - off)) = 16%nat
  /\ Forall is_byte (memset a off 255 (16 - off)).
Proof.
  intros Ha Hb Hoff. rewrite memset_tail by done. split.
  - rewrite length_app, length_take, length_replicate. lia.
  - apply Forall_app. split; [by apply Forall_take|].
    apply Forall_replicate. unfold is_byte. lia.
Qed.

Lemma lor_is_byte (a b : Z) : is_byte a -> is_byte b -> is_byte (Z.lor a b).
Proof. unfold is_byte. change 256 with (2 ^ 8). apply lor_bound. Qed.

Lemma shiftr_is_byte (a k : Z) : is_byte a -> 0 <= k -> is_byte (Z.shiftr a k).
Proof.
  unfold is_byte. intros Ha Hk. rewrite Z.shiftr_div_pow2 by done.
  pose proof (pow2_pos k Hk). split; [apply Z.div_pos; lia|].
  apply Z.div_lt_upper_bound; nia.
Qed.

Lemma broadcast6_value (a : list Z) (p : Z) :
  length a = 16%nat -> Forall is_byte a -> 0 <= p <= 128 ->
  let h := broadcastAddress (mkIPAddress (HostV6 a) p) in
  wf_host h
  /\ value h = Z.shiftr (be_value a) (128 - p) * 2 ^ (128 - p) + 2 ^ (128 - p) - 1.
Proof.
  intros Ha Hb Hp. unfold broadcastAddress; simpl.
  destruct (quot_rem_8 p ltac:(lia)) as [-> ->].
  destruct (quot_rem_8 (p + 7) ltac:(lia)) as [-> _].
  pose proof (div8_split p ltac:(lia)) as Hk.
  set (k := Z.to_nat (p / 8)) in *. set (r := p mod 8) in *. clearbody k r.
  destruct (Z.eqb_spec r 0) as [Hr|Hr].
  - replace (Z.to_nat ((p + 7) / 8)) with k by dlia.
    split; [by apply memset_tail_wf; auto; lia|].
    rewrite memset_tail, be_value_app, be_value_replicate_255, length_replicate by lia.
    rewrite be_value_take by (done || lia). rewrite Ha.
    replace (8 * Z.of_nat (16 - k)) with (128 - p) by lia. lia.
  - replace (Z.to_nat ((p + 7) / 8)) with (S k) by dlia.
    destruct (memset_tail_wf a (S k)) as [Hlen Hby]; [done..|lia|].
    assert (Hat : byte_at (memset a (S k) 255 (16 - S k)) k = byte_at a k).
    { unfold byte_at. rewrite memset_tail, lookup_app_l, lookup_take_lt by (rewrite ?length_take; lia).
      done. }
    pose proof (byte_at_byte a k Hb) as Hbk. rewrite Hat. split.
    { split; [by rewrite length_insert|]. apply Forall_insert; [done|].
      apply lor_is_byte; [done|]. apply shiftr_is_byte; unfold is_byte; lia. }
    rewrite (be_value_insert k _ (byte_at a k)) by (rewrite <- Hat; apply byte_at_Some; lia).
    rewrite Hlen, memset_tail, be_value_app, be_value_replicate_255, length_replicate by lia.
    rewrite byte_fill by (done || lia).
    pose proof (be_value_top k r a _ Hb (byte_at_Some a k ltac:(lia)) ltac:(lia)) as Htop.
    rewrite Ha in Htop. replace (8 * Z.of_nat 16 - (8 * Z.of_nat k + r)) with (128 - p) in Htop by lia.
    rewrite Htop. rewrite (take_S_r a k (byte_at a k)) by (apply byte_at_Some; lia).
    rewrite be_value_app. simpl length. simpl (be_value [_]).
    replace (128 - p) with (8 * Z.of_nat (16 - S k) + (8 - r)) by lia.
    rewrite Z.pow_add_r by lia.
    replace (2 ^ (8 * Z.of_nat 1)) with (2 ^ r * 2 ^ (8 - r)); [nia|].
    rewrite <- Z.pow_add_r by lia. f_equal. lia.
Qed.

Lemma broadcast_value (ip : IPAddress) :
  wf ip ->
  wf_host (broadcastAddress ip)
  /\ protocol (broadcastAddress ip) = protocol (m_address ip)
  /\ value (broadcastAddress ip)
     = Z.shiftr (value (m_address ip)) (hostbits ip) * 2 ^ hostbits ip + 2 ^ hostbits ip - 1.
Proof.
  destruct ip as [[|a|a6] p]; unfold wf, hostbits; [simpl; tauto| |].
  - unfold broadcastAddress; simpl. intros [Ha Hp].
    replace (Z.shiftr 4294967295 p) with (Z.ones (32 - p))
      by (rewrite Z.shiftr_div_pow2 by lia; change 4294967295 with (Z.ones 32);
          rewrite Z.ones_div_pow2 by lia; done).
    destruct (Z.ltb_spec p 32).
    + rewrite lor_low_ones by lia. split; [|done]. apply (fill_low_bound a 32); lia.
    + replace (32 - p) with 0 by lia. rewrite Z.shiftr_0_r. split_and!; [lia..|done|lia].
  - intros [[Hlen Hb] Hp]. split; [|split; [done|]]; by apply broadcast6_value.
Qed.

(** ** Splitting a network *)

(** The byte of a big-endian array that holds a given bit. *)
Lemma testbit_byte_at (a : list Z) (k : nat) (j : Z) :
  Forall is_byte a -> (k < length a)%nat -> 0 <= j < 8 ->
  Z.testbit (byte_at a k) j = Z.testbit (be_value a) (8 * Z.of_nat (length a - S k) + j).
Proof.
  intros Ha Hk Hj.
  rewrite (be_value_split k a _ (byte_at_Some a k Hk)), (Z.add_comm _ j).
  rewrite <- Z.shiftr_spec, shiftr_add_low; try lia.
  - rewrite <- (Z.mod_pow2_bits_low (_ + _) 8) by lia. f_equal.
    change (2 ^ 8) with 256. rewrite Z.add_comm, Z.mod_add by lia. symmetry.
    apply Z.mod_small, (byte_at_byte a k Ha).
  - rewrite <- length_drop. apply be_value_bound. by apply Forall_drop.
Qed.

(** A network of prefix length [p] splits into two of prefix length [p + 1]. *)
Lemma subnets_halves (ip : IPAddress) :
  wf ip -> canonical ip -> 0 < hostbits ip ->
  exists s0 s1, subnets ip = [s0; s1]
    /\ is_half ip s0 (value (m_address ip))
    /\ is_half ip s1 (value (m_address ip) + 2 ^ (hostbits ip - 1)).
Proof.
  destruct ip as [[|a|a6] p]; unfold wf, canonical, hostbits, subnets; simpl; [tauto| |];
    intros [Hw Hp] Hc Hn; destruct (mod_half _ _ Hn Hc) as [Hc0 Hc1].
  - rewrite (proj2 (Z.leb_gt 32 p)) by lia.
    replace (Z.shiftr 2147483648 p) with (2 ^ (32 - p - 1))
      by (change 2147483648 with (2 ^ 31); rewrite Z.shiftr_div_pow2, <- Z.pow_sub_r by lia;
          f_equal; lia).
    rewrite lor_clear_bit by (apply canonical_bit_clear || idtac; auto; lia).
    eexists _, _. split; [done|].
    unfold is_half, wf, canonical, hostbits; simpl.
    replace (32 - (p + 1)) with (32 - p - 1) by lia.
    pose proof (aligned_bound a 32 (32 - p) Hw ltac:(lia) Hc).
    pose proof (pow2_half (32 - p) ltac:(lia)). split_and!; auto; lia.
  - rewrite (proj2 (Z.leb_gt 128 p)) by lia. destruct Hw as [Hlen Hb].
    destruct (quot_rem_8 p ltac:(lia)) as [-> ->].
    pose proof (div8_split p ltac:(lia)) as Hk.
    set (k := Z.to_nat (p / 8)) in *. set (r := p mod 8) in *. clearbody k r.
    replace (Z.shiftr 128 r) with (2 ^ (7 - r))
      by (change 128 with (2 ^ 7); rewrite Z.shiftr_div_pow2, <- Z.pow_sub_r by lia; done).
    assert (Hclear : Z.testbit (byte_at a6 k) (7 - r) = false).
    { rewrite testbit_byte_at, Hlen by (done || lia).
      replace (8 * Z.of_nat (16 - S k) + (7 - r)) with (128 - p - 1) by lia.
      by apply canonical_bit_clear. }
    assert (Hbyte : is_byte (Z.lor (byte_at a6 k) (2 ^ (7 - r)))).
    { apply lor_is_byte; [by apply byte_at_byte|]. unfold is_byte.
      pose proof (pow2_pos (7 - r) ltac:(lia)). split; [lia|].
      change 256 with (2 ^ 8). apply Z.pow_lt_mono_r; lia. }
    eexists _, _. split; [done|].
    unfold is_half, wf, canonical, hostbits; simpl.
    rewrite (be_value_insert k a6 (byte_at a6 k)) by (apply byte_at_Some; lia).
    rewrite lor_clear_bit in * by (done || lia). rewrite Hlen.
    replace ((byte_at a6 k + 2 ^ (7 - r) - byte_at a6 k) * 2 ^ (8 * Z.of_nat (16 - S k)))
      with (2 ^ (128 - p - 1))
      by (rewrite Z.add_simpl_l, <- Z.pow_add_r by lia; f_equal; lia).
    replace (128 - (p + 1)) with (128 - p - 1) by lia.
    split_and!; auto; try lia; [by rewrite length_insert | by apply Forall_insert].
Qed.

Lemma same_protocol_width (h h' : QHostAddress) :
  protocol h = protocol h' -> width h = width h'.
Proof. by destruct h, h'. Qed.

Lemma IPAddress_eqb_eq (a b : IPAddress) : IPAddress_eqb a b = true <-> a = b.
Proof.
  destruct a as [ha pa], b as [hb pb]. unfold IPAddress_eqb; simpl.
  rewrite andb_true_iff, bool_decide_eq_true, Z.eqb_eq. split; [intros [-> ->]|]; naive_solver.
Qed.

Lemma IPAddress_eq_iff (a b : IPAddress) :
  wf a -> wf b ->
  a = b <-> protocol (m_address a) = protocol (m_address b)
            /\ value (m_address a) = value (m_address b)
            /\ m_prefixLength a = m_prefixLength b.
Proof.
  intros [Ha _] [Hb _]. split; [by intros ->|]. intros (Hp & Hv & Hl).
  destruct a, b; simpl in *. f_equal; [|done]. by apply value_inj.
Qed.

Lemma subnetOf_iff (ip other : IPAddress) :
  wf ip -> network other ->
  subnetOf ip other = true <->
  protocol (m_address ip) = protocol (m_address other)
  /\ m_prefixLength other <= m_prefixLength ip
  /\ value (m_address other) <= value (m_address ip)
     < value (m_address other) + 2 ^ hostbits other.
Proof.
  intros [Hw Hp] [Hwo Hco]. unfold subnetOf. case_decide as Hproto; [|naive_solver].
  destruct (Z.ltb_spec (m_prefixLength ip) (m_prefixLength other)).
  - split; [done|lia].
  - rewrite contains_covers, covers_interval by done. naive_solver lia.
Qed.

(** [covers] as intervals, with all the side conditions at hand. *)
Ltac intervals :=
  repeat match goal with
  | H : network ?a |- _ => destruct H
  | |- context [covers _ _] => rewrite covers_interval by assumption
  | H : context [covers _ _] |- _ => rewrite covers_interval in H by assumption
  end.

Lemma halves_cover (ip s0 s1 : IPAddress) (h : QHostAddress) :
  network ip -> 0 < hostbits ip ->
  is_half ip s0 (value (m_address ip)) ->
  is_half ip s1 (value (m_address ip) + 2 ^ (hostbits ip - 1)) ->
  (covers ip h <-> covers s0 h \/ covers s1 h) /\ ~ (covers s0 h /\ covers s1 h).
Proof.
  intros Hn Hb (Hw0 & Hc0 & Hp0 & Hwd0 & Hl0 & Hv0) (Hw1 & Hc1 & Hp1 & Hwd1 & Hl1 & Hv1).
  intervals. pose proof (pow2_half (hostbits ip) Hb).
  replace (hostbits s0) with (hostbits ip - 1) by (unfold hostbits; lia).
  replace (hostbits s1) with (hostbits ip - 1) by (unfold hostbits; lia).
  rewrite Hp0, Hp1, Hv0, Hv1.
  destruct (decide (protocol h = protocol (m_address ip))); [|tauto].
  split; [|lia]. split; [|intros [[_ ?]|[_ ?]]; (split; [done|lia])].
  intros [? ?]. destruct (Z.lt_ge_cases (value h) (value (m_address ip) + 2 ^ (hostbits ip - 1)));
    [left|right]; (split; [done|lia]).
Qed.

Lemma strictly_inside_hostbits (ip cur : IPAddress) :
  wf ip -> strictly_inside ip cur -> 0 <= hostbits ip < hostbits cur.
Proof.
  intros [_ Hp] (Hproto & Hlt & _). apply same_protocol_width in Hproto.
  unfold hostbits. lia.
Qed.

(** Descending to the half that holds [ip]. *)
Lemma inside_half (ip cur s0 s1 : IPAddress) :
  network ip -> strictly_inside ip cur -> network cur ->
  is_half cur s0 (value (m_address cur)) ->
  is_half cur s1 (value (m_address cur) + 2 ^ (hostbits cur - 1)) ->
  s0 = ip \/ s1 = ip \/ strictly_inside ip s0 \/ strictly_inside ip s1.
Proof.
  intros [Hw Hc] Hin [Hwc Hcc] (Hw0 & Hc0 & Hp0 & Hwd0 & Hl0 & Hv0) (Hw1 & Hc1 & Hp1 & Hwd1 & Hl1 & Hv1).
  pose proof (strictly_inside_hostbits _ _ Hw Hin) as Hhb. destruct Hin as (Hproto & Hlt & Hrange).
  pose proof (same_protocol_width _ _ Hproto) as Hwd.
  pose proof (pow2_half (hostbits cur) ltac:(lia)) as Hpow.
  rewrite !IPAddress_eq_iff by done. unfold strictly_inside.
  replace (hostbits s0) with (hostbits cur - 1) by (unfold hostbits; lia).
  replace (hostbits s1) with (hostbits cur - 1) by (unfold hostbits; lia).
  rewrite Hp0, Hp1, Hl0, Hl1, Hv0, Hv1.
  destruct (Z.eq_dec (m_prefixLength ip) (m_prefixLength cur + 1)) as [He|Hne].
  - assert (Hhi : hostbits ip = hostbits cur - 1) by (unfold hostbits; lia).
    destruct (mod_half (value (m_address cur)) (hostbits cur) ltac:(lia) Hcc) as [Hm _]. unfold canonical in Hc. rewrite Hhi in Hc.
    pose proof (pow2_pos (hostbits cur - 1) ltac:(lia)) as Hpos.
    apply Z.mod_divide in Hm as [q Hq]; [|lia]. apply Z.mod_divide in Hc as [q' Hq']; [|lia].
    assert (q' = q \/ q' = q + 1) as [-> | ->] by nia; [left|right; left]; split_and!; auto; lia.
  - destruct (Z.lt_ge_cases (value (m_address ip)) (value (m_address cur) + 2 ^ (hostbits cur - 1)));
      [right; right; left | right; right; right]; split_and!; auto; lia.
Qed.

Lemma partitions_half (ip cur s s' : IPAddress) (l : list IPAddress) :
  network s' ->
  (forall h, (covers cur h <-> covers s h \/ covers s' h) /\ ~ (covers s h /\ covers s' h)) ->
  (forall h, covers ip h -> covers s h) ->
  partitions l s ip -> partitions (s' :: l) cur ip.
Proof.
  intros Hs' Hhalf Hsub (Hnet & Hdis & Hcov). split; [by constructor|]. split.
  - constructor; [|done]. apply Forall_forall. intros x Hx h [H' Hh].
    assert (covered l h) as [? _]%Hcov by (apply Exists_exists; eauto).
    destruct (Hhalf h). tauto.
  - intros h. unfold covered in *. rewrite Exists_cons, Hcov.
    destruct (Hhalf h) as [-> ?]. pose proof (Hsub h). tauto.
Qed.

(** Addresses that agree on a longer prefix agree on a shorter one. *)
Lemma covers_coarser (a b : IPAddress) (h : QHostAddress) :
  wf a -> protocol (m_address a) = protocol (m_address b) ->
  m_prefixLength b <= m_prefixLength a ->
  covers a h -> Z.shiftr (value h) (hostbits b) = Z.shiftr (value (m_address a)) (hostbits b).
Proof.
  intros [_ Hp] Hproto Hle [_ Hh]. apply same_protocol_width in Hproto.
  replace (hostbits b) with (hostbits a + (m_prefixLength a - m_prefixLength b))
    by (unfold hostbits; lia).
  rewrite <- !Z.shiftr_shiftr by (unfold hostbits; lia). by rewrite Hh.
Qed.

(** Networks are nested or disjoint, as the longer one's address decides. *)
Lemma covers_nested (a b : IPAddress) (h : QHostAddress) :
  wf a -> m_prefixLength b <= m_prefixLength a -> covers b (m_address a) ->
  covers a h -> covers b h.
Proof.
  intros Hw Hle [Hproto Hb] Ha. pose proof (covers_coarser a b h Hw Hproto Hle Ha) as E.
  destruct Ha as [Ha _]. split; congruence.
Qed.

Lemma covers_meet (a b : IPAddress) (h : QHostAddress) :
  wf a -> m_prefixLength b <= m_prefixLength a ->
  covers a h -> covers b h -> covers b (m_address a).
Proof.
  intros Hw Hle Ha [Hproto Hb]. assert (protocol (m_address a) = protocol (m_address b))
    by (destruct Ha; congruence).
  pose proof (covers_coarser a b h Hw ltac:(done) Hle Ha). split; congruence.
Qed.

Lemma inside_covers (ip s : IPAddress) (h : QHostAddress) :
  network ip -> network s -> strictly_inside ip s -> covers ip h -> covers s h.
Proof.
  intros [Hw _] Hs (Hproto & Hlt & Hr). apply covers_nested; [done|lia|]. by intervals.
Qed.

Lemma covers_self (ip : IPAddress) : covers ip (m_address ip).
Proof. done. Qed.

Lemma strictly_inside_subnetOf (ip s : IPAddress) :
  network ip -> network s -> strictly_inside ip s -> subnetOf ip s = true.
Proof.
  intros [Hw _] Hs (? & ? & ?). apply subnetOf_iff; [done..|]. split_and!; (done || lia).
Qed.

Lemma not_subnetOf (ip s s' : IPAddress) :
  network ip -> network s -> network s' -> strictly_inside ip s' -> disjoint s s' ->
  subnetOf ip s = false.
Proof.
  intros Hip Hs Hs' Hin Hdis. apply not_true_iff_false. intros (Hp & _ & Hr)%subnetOf_iff; [|apply Hip|done].
  apply (Hdis (m_address ip)). split; [|by apply (inside_covers ip s')].
  intervals. done.
Qed.

Lemma prefix_neq (a b : IPAddress) :
  m_prefixLength a < m_prefixLength b -> IPAddress_eqb a b = false.
Proof. intros H. apply not_true_iff_false. intros ->%IPAddress_eqb_eq. lia. Qed.

Lemma partitions_sibling (ip cur s' : IPAddress) :
  network s' ->
  (forall h, (covers cur h <-> covers ip h \/ covers s' h) /\ ~ (covers ip h /\ covers s' h)) ->
  partitions [s'] cur ip.
Proof.
  intros Hs' Hhalf. apply (partitions_half ip cur ip s' []); [done..|].
  split; [constructor|]. split; [constructor|]. intros h. unfold covered.
  rewrite Exists_nil. tauto.
Qed.

(** The loop finishes after one iteration per additional prefix bit. *)
Lemma exclude_loop_partitions (n fuel : nat) (cur ip : IPAddress) (result : list IPAddress) :
  network cur -> network ip -> strictly_inside ip cur ->
  m_prefixLength ip - m_prefixLength cur = Z.of_nat n -> (n <= fuel)%nat ->
  exists l, exclude_loop fuel (subnets cur) ip result = Finished (result ++ l)
            /\ partitions l cur ip.
Proof.
  revert fuel cur result. induction n as [|n IH]; intros fuel cur result Hcur Hip Hin Hn Hfuel.
  { destruct Hin as (_ & ? & _). lia. }
  destruct fuel as [|fuel]; [lia|].
  pose proof (strictly_inside_hostbits _ _ (proj1 Hip) Hin) as Hhb.
  destruct (subnets_halves cur) as (s0 & s1 & -> & H0 & H1); [apply Hcur..|lia|].
  assert (Hs0 : network s0) by (split; apply H0). assert (Hs1 : network s1) by (split; apply H1).
  pose proof (fun h => halves_cover cur s0 s1 h Hcur ltac:(lia) H0 H1) as Hhalf.
  assert (Hflip : forall h, (covers cur h <-> covers s1 h \/ covers s0 h) /\ ~ (covers s1 h /\ covers s0 h))
    by (intros h; destruct (Hhalf h); tauto).
  assert (Hl : m_prefixLength s0 = m_prefixLength cur + 1 /\ m_prefixLength s1 = m_prefixLength cur + 1)
    by (split; apply H0 || apply H1).
  simpl. destruct (inside_half ip cur s0 s1 Hip Hin Hcur H0 H1) as [-> | [-> | [Hi | Hi]]].
  - rewrite (proj2 (IPAddress_eqb_eq ip ip)) by done. simpl. eexists. split; [done|].
    by apply partitions_sibling.
  - rewrite (proj2 (IPAddress_eqb_eq ip ip)), andb_false_r by done.
    destruct (IPAddress_eqb s0 ip) eqn:E; [apply IPAddress_eqb_eq in E as ->|];
      eexists; (split; [done|]); by apply partitions_sibling.
  - rewrite !prefix_neq by (destruct Hi as (_ & ? & _); lia). simpl.
    rewrite strictly_inside_subnetOf by done.
    destruct (IH fuel s0 (result ++ [s1])) as (l & -> & Hpart); [done..|lia|lia|].
    exists (s1 :: l). split; [by rewrite <- app_assoc|].
    eapply partitions_half; eauto. intros h. by apply inside_covers.
  - rewrite !prefix_neq by (destruct Hi as (_ & ? & _); lia). simpl.
    rewrite (not_subnetOf ip s0 s1), strictly_inside_subnetOf by (done || intros h; apply Hhalf).
    destruct (IH fuel s1 (result ++ [s0])) as (l & -> & Hpart); [done..|lia|lia|].
    exists (s0 :: l). split; [by rewrite <- app_assoc|].
    eapply partitions_half; eauto. intros h. by apply inside_covers.
Qed.

Lemma excludeAddress_partitions (self ip : IPAddress) :
  network self -> network ip -> strictly_inside ip self ->
  exists l, excludeAddress exclude_fuel self ip = Some l /\ partitions l self ip.
Proof.
  intros Hs Hi Hin. destruct Hi as [[Hh Hp] Hc].
  destruct (exclude_loop_partitions (Z.to_nat (m_prefixLength ip - m_prefixLength self))
              exclude_fuel self ip []) as (l & Hl & Hpart);
    [done|by split|done| | |exists l; unfold excludeAddress; by rewrite Hl]; destruct Hin as (_ & ? & _).
  - lia.
  - destruct (m_address ip); simpl in Hh, Hp; [done|..]; destruct Hs as [[_ ?] _];
      unfold exclude_fuel; lia.
Qed.

Lemma overlaps_false (a b : IPAddress) (h : QHostAddress) :
  wf a -> wf b -> overlaps a b = false -> covers a h -> ~ covers b h.
Proof.
  unfold overlaps. intros Ha Hb Ho Hca Hcb.
  destruct (Z.ltb_spec (m_prefixLength a) (m_prefixLength b));
    apply not_true_iff_false in Ho; apply Ho; apply contains_covers; try done;
    try apply Ha; try apply Hb.
  - apply (covers_meet b a h); auto; lia.
  - by apply (covers_meet a b h).
Qed.

(** When the exclusion drops [ip], it is inside [ex]. *)
Lemma dropped_inside (ip ex : IPAddress) (h : QHostAddress) :
  network ip -> network ex -> overlaps ip ex = true ->
  subnetOf ex ip && negb (IPAddress_eqb ex ip) = false -> covers ip h -> covers ex h.
Proof.
  unfold overlaps. intros [Hi Hci] [He Hce] Ho Hd.
  destruct (Z.ltb_spec (m_prefixLength ip) (m_prefixLength ex)) as [Hlt|Hge].
  - apply contains_covers in Ho; [|done|apply He]. exfalso.
    apply not_true_iff_false in Hd. apply Hd. apply andb_true_iff. split.
    + unfold subnetOf. destruct Ho as [Hp Ho]. rewrite decide_True by done.
      rewrite (proj2 (Z.ltb_ge _ _)) by lia. apply contains_covers; [done|apply He|done].
    + apply negb_true_iff, not_true_iff_false. intros ->%IPAddress_eqb_eq. lia.
  - apply contains_covers in Ho; [|done|apply Hi]. by apply covers_nested.
Qed.

Lemma excluded_strictly_inside (ip ex : IPAddress) :
  network ip -> network ex ->
  subnetOf ex ip && negb (IPAddress_eqb ex ip) = true -> strictly_inside ex ip.
Proof.
  intros Hi [He Hce] [Hs Hne%negb_true_iff]%andb_true_iff.
  apply subnetOf_iff in Hs as (Hp & Hle & Hr); [|done..]. split_and!; [done| |lia..].
  destruct (Z.eq_dec (m_prefixLength ip) (m_prefixLength ex)) as [E|]; [|lia]. exfalso.
  apply not_true_iff_false in Hne. apply Hne, IPAddress_eqb_eq, IPAddress_eq_iff; [done|apply Hi|].
  split_and!; [done| |done]. destruct Hi as [Hi Hci]. unfold canonical in *.
  replace (hostbits ex) with (hostbits ip) in Hce
    by (unfold hostbits; rewrite E, (same_protocol_width _ _ Hp); done).
  pose proof (pow2_pos (hostbits ip) ltac:(destruct Hi; unfold hostbits; lia)) as Hpos.
  apply Z.mod_divide in Hce as [q Hq]; [|lia]. apply Z.mod_divide in Hci as [q' Hq']; [|lia].
  rewrite Hq, Hq' in *. assert (q = q') by nia. by subst.
Qed.

Lemma exclude_one_covered (ex : IPAddress) (l : list IPAddress) :
  network ex -> Forall network l ->
  exists l', exclude_one exclude_fuel ex l = Some l' /\ Forall network l'
             /\ forall h, covered l' h <-> covered l h /\ ~ covers ex h.
Proof.
  intros Hex Hl. induction Hl as [|ip l Hip _ (l' & IH & Hl' & Hcov)].
  { exists []. split_and!; [done|constructor|]. intros h. unfold covered. rewrite Exists_nil. tauto. }
  unfold covered in *. simpl. rewrite IH.
  assert (exists hd, (if negb (overlaps ip ex) then Some [ip]
              else if subnetOf ex ip && negb (IPAddress_eqb ex ip)
              then excludeAddress exclude_fuel ip ex else Some []) = Some hd
              /\ Forall network hd /\ forall h, covered hd h <-> covers ip h /\ ~ covers ex h)
    as (hd & -> & Hhd & Hhc).
  { unfold covered. destruct (overlaps ip ex) eqn:Ho; simpl.
    - destruct (subnetOf ex ip && _) eqn:Hs.
      + destruct (excludeAddress_partitions ip ex) as (hd & -> & ? & _ & ?);
          [done..|by apply excluded_strictly_inside|]. eauto.
      + exists []. split_and!; [done|constructor|]. intros h. rewrite Exists_nil.
        pose proof (dropped_inside ip ex h Hip Hex Ho Hs). tauto.
    - exists [ip]. split_and!; [done|by constructor|]. intros h. rewrite Exists_cons, Exists_nil.
      pose proof (overlaps_false ip ex h (proj1 Hip) (proj1 Hex) Ho). tauto. }
  simpl. eexists. split_and!; [done|by apply Forall_app|].
  intros h. rewrite Exists_app, Exists_cons, Hcov. unfold covered in Hhc. rewrite Hhc. tauto.
Qed.

Lemma subnets_networks (s : IPAddress) : network s -> Forall network (subnets s).
Proof.
  intros Hs. destruct (Z.lt_ge_cases 0 (hostbits s)) as [Hb|Hb].
  - destruct (subnets_halves s) as (t0 & t1 & -> & Ht0 & Ht1); [apply Hs..|done|].
    repeat constructor; apply Ht0 || apply Ht1.
  - destruct s as [[|a|a6] q]; [by destruct Hs as [[? _] _]|..];
      unfold hostbits, subnets in *; simpl in *;
      rewrite (proj2 (Z.leb_le _ _)) by lia; by constructor.
Qed.

(** A network with host bits set is never reached by splitting. *)
Lemma not_canonical_neq (ip s : IPAddress) : ~ canonical ip -> network s -> IPAddress_eqb s ip = false.
Proof. intros Hip [_ Hs]. apply not_true_iff_false. by intros ->%IPAddress_eqb_eq. Qed.

Lemma exclude_loop_hangs (fuel : nat) (sn : list IPAddress) (ip : IPAddress) (result l : list IPAddress) :
  ~ canonical ip -> Forall network sn -> exclude_loop fuel sn ip result <> Finished l.
Proof.
  intros Hip. revert sn result. induction fuel as [|fuel IH]; intros sn result Hsn; destruct sn as [|s0 [|s1 sn]]; try done.
  apply Forall_cons in Hsn as [H0 Hsn]. apply Forall_cons in Hsn as [H1 Hsn]. simpl.
  rewrite !(not_canonical_neq ip) by done. simpl.
  destruct (subnetOf ip s0); [by apply IH, subnets_networks|].
  destruct (subnetOf ip s1); [by apply IH, subnets_networks|].
  apply IH. constructor; [done|]. by constructor.
Qed.

(** Nor does the splitting come to a single address on the way. *)
Lemma subnetOf_hostbits (ip s : IPAddress) : wf ip -> ~ canonical ip -> subnetOf ip s = true -> 0 < hostbits s.
Proof.
  intros [_ Hp] Hc. unfold subnetOf. case_decide as Hproto; [|done]. destruct (Z.ltb_spec (m_prefixLength ip) (m_prefixLength s)) as [|Hle]; [done|].
  intros _. unfold hostbits. rewrite (same_protocol_width _ _ Hproto).
  assert (hostbits ip <> 0) by (intros E; apply Hc; unfold canonical; by rewrite E, Z.mod_1_r). unfold hostbits in *. lia.
Qed.

Lemma exclude_loop_unfinished (fuel : nat) (s0 s1 ip : IPAddress) (result : list IPAddress) :
  wf ip -> ~ canonical ip -> network s0 -> network s1 -> exclude_loop fuel [s0; s1] ip result = Unfinished.
Proof.
  intros Hw Hip. revert s0 s1 result. induction fuel as [|fuel IH]; intros s0 s1 result H0 H1; [done|]. simpl.
  rewrite !(not_canonical_neq ip) by done. simpl.
  assert (Hgo : forall s r, network s -> subnetOf ip s = true -> exclude_loop fuel (subnets s) ip r = Unfinished).
  { intros s r Hs Hsub. destruct (subnets_halves s) as (t0 & t1 & -> & Ht0 & Ht1); [apply Hs..|by apply (subnetOf_hostbits ip)|].
    apply IH; split; apply Ht0 || apply Ht1. }
  destruct (subnetOf ip s0) eqn:E0; [by apply Hgo|]. destruct (subnetOf ip s1) eqn:E1; [by apply Hgo|]. by apply IH.
Qed.

(** ** Properties *)

(** C1: excluding networks from networks leaves exactly the addresses of the
    source list that no excluded network holds, again as networks: the loops
    finish, and no address is lost or left in. *)
Theorem excludeAddresses_exact (sourceList excludeList : list IPAddress) :
  Forall network sourceList -> Forall network excludeList ->
  exists l', excludeAddresses exclude_fuel sourceList excludeList = Some l'
             /\ Forall network l'
             /\ forall h, covered l' h <-> covered sourceList h /\ ~ covered excludeList h.
Proof.
  intros Hsrc He. revert sourceList Hsrc. induction He as [|ex rest Hex _ IH]; intros src Hsrc; simpl.
  - exists src. split_and!; [done..|]. intros h. unfold covered. rewrite Exists_nil. tauto.
  - destruct (exclude_one_covered ex src Hex Hsrc) as (l1 & -> & Hl1 & Hc1). simpl.
    destruct (IH l1 Hl1) as (l2 & -> & Hl2 & Hc2). exists l2. split_and!; [done..|].
    intros h. rewrite Hc2, Hc1. unfold covered. rewrite Exists_cons. tauto.
Qed.

(** Excluding one network from a larger one splits the rest into pairwise
    disjoint networks, within one loop iteration per additional prefix bit. *)
Theorem excludeAddress_partition (self ip : IPAddress) :
  network self -> network ip -> strictly_inside ip self ->
  exists l, excludeAddress exclude_fuel self ip = Some l /\ partitions l self ip.
Proof. apply excludeAddress_partitions. Qed.

(** C37: excluding an address range whose address has host bits set from a
    network never gives a result: no split equals it, and the assertion that would
    report this is compiled out of release builds.  Where the network is more than one
    address and the range is well formed, the loop goes on for ever, without an index
    out of range. *)
Theorem excludeAddress_host_bits_hang (self ip : IPAddress) (fuel : nat) :
  network self -> ~ canonical ip ->
  excludeAddress fuel self ip = None
  /\ (wf ip -> 0 < hostbits self -> exclude_loop fuel (subnets self) ip [] = Unfinished).
Proof.
  intros Hs Hip. split.
  - unfold excludeAddress. pose proof (exclude_loop_hangs fuel (subnets self) ip []) as Hn.
    destruct (exclude_loop _ _ _ _) as [l| |]; [|done..]. destruct (Hn l Hip); [by apply subnets_networks|done].
  - intros Hw Hb. destruct (subnets_halves self) as (t0 & t1 & -> & Ht0 & Ht1); [apply Hs..|done|].
    apply exclude_loop_unfinished; [done|done|split; apply Ht0|split; apply Ht1].
Qed.

(** The byte-wise and word-wise membership tests agree with the masked
    comparison: an address is contained when it has the network's family and
    both agree under the netmask. *)
Theorem contains_netmask (ip : IPAddress) (h : QHostAddress) :
  wf ip -> wf_host h ->
  contains ip h = true <->
  protocol h = protocol (m_address ip)
  /\ Z.land (value h) (value (netmask ip)) = Z.land (value (m_address ip)) (value (netmask ip)).
Proof.
  intros Hw Hh. rewrite contains_covers by done. unfold covers.
  destruct (masks_value ip Hw) as [-> _]. destruct Hw as [Ha Hp].
  assert (0 <= hostbits ip <= width (m_address ip)) by (unfold hostbits; lia).
  pose proof (wf_host_value _ Ha). pose proof (wf_host_value _ Hh).
  split; intros [Hproto E]; (split; [done|]); pose proof (same_protocol_width _ _ Hproto) as Hw';
    rewrite Hw' in *; rewrite !land_netmask in * by done.
  - by rewrite E.
  - apply (f_equal (fun x => Z.shiftr x (hostbits ip))) in E.
    by rewrite !Z.shiftr_shiftl_l, Z.sub_diag, !Z.shiftl_0_r in E by lia.
Qed.

(** the broadcast address is the greatest address of the network. *)
Theorem broadcast_greatest (ip : IPAddress) :
  wf ip ->
  contains ip (broadcastAddress ip) = true
  /\ forall h, wf_host h -> contains ip h = true -> value h <= value (broadcastAddress ip).
Proof.
  intros Hw. destruct (broadcast_value ip Hw) as (Hb & Hproto & Hv).
  pose proof (pow2_pos (hostbits ip) ltac:(destruct Hw; unfold hostbits; lia)) as Hpos.
  assert (Hn : 0 <= hostbits ip) by (destruct Hw; unfold hostbits; lia). split.
  - apply contains_covers; [done..|]. split; [done|]. rewrite Hv, <- Z.add_sub_assoc.
    apply shiftr_add_low; lia.
  - intros h Hh [_ E]%contains_covers; [|done..]. rewrite Hv, <- E, Z.shiftr_div_pow2 by done.
    pose proof (Z.div_mod (value h) (2 ^ hostbits ip) ltac:(lia)).
    pose proof (Z.mod_pos_bound (value h) (2 ^ hostbits ip) Hpos). lia.
Qed.

(** Two networks overlap, as the code tests it, exactly when some address
    lies in both. *)
Theorem overlaps_common_address (a b : IPAddress) :
  wf a -> wf b ->
  overlaps a b = true <-> exists h, wf_host h /\ contains a h = true /\ contains b h = true.
Proof.
  intros Ha Hb. split.
  - unfold overlaps. intros Ho.
    destruct (Z.ltb_spec (m_prefixLength a) (m_prefixLength b)).
    + exists (m_address b). split_and!; [apply Hb|done|]. apply contains_covers; [done|apply Hb|done].
    + exists (m_address a). split_and!; [apply Ha| |done]. apply contains_covers; [done|apply Ha|done].
  - intros (h & Hh & Hca%contains_covers & Hcb%contains_covers); [|done..].
    destruct (overlaps a b) eqn:Ho; [done|]. by destruct (overlaps_false a b h Ha Hb Ho).
Qed.

(** netmask and hostmask split every address into disjoint bits. *)
Theorem netmask_hostmask_complement (ip : IPAddress) :
  wf ip ->
  Z.land (value (netmask ip)) (value (hostmask ip)) = 0
  /\ value (netmask ip) + value (hostmask ip) = 2 ^ width (m_address ip) - 1.
Proof.
  intros Hw. destruct (masks_value ip Hw) as [-> ->]. destruct Hw as [Ha Hp].
  assert (Hn : 0 <= hostbits ip <= width (m_address ip)) by (unfold hostbits; lia).
  split; [|lia]. pose proof (pow2_pos (hostbits ip) ltac:(lia)).
  rewrite Z.land_comm, land_netmask.
  - rewrite Z.shiftr_div_pow2, Z.div_small by lia. apply Z.shiftl_0_l.
  - lia.
  - pose proof (Z.pow_le_mono_r 2 (hostbits ip) (width (m_address ip))). lia.
Qed.

(** ** Witnesses *)

Ltac concrete_network :=
  repeat first [ split | constructor ]; unfold is_byte; vm_compute; intuition congruence.

Lemma excludeAddresses_exact_witness :
  exists l', excludeAddresses exclude_fuel [all4] [ten8] = Some l'
             /\ Forall network l'
             /\ forall h, covered l' h <-> covered [all4] h /\ ~ covered [ten8] h.
Proof. apply (excludeAddresses_exact [all4] [ten8]); concrete_network. Defined.

Lemma excludeAddress_partition_witness :
  exists l, excludeAddress exclude_fuel all4 ten8 = Some l /\ partitions l all4 ten8.
Proof. apply (excludeAddress_partition all4 ten8); concrete_network. Defined.

Lemma excludeAddress_host_bits_hang_witness :
  exclude_loop 1000 (subnets all4) (mkIPAddress (HostV4 167772165) 8) [] = Unfinished.
Proof.
  apply (excludeAddress_host_bits_hang all4 (mkIPAddress (HostV4 167772165) 8) 1000);
    [concrete_network|vm_compute; congruence|concrete_network|reflexivity].
Defined.

Lemma contains_netmask_witness :
  contains ula7 (HostV6 (253 :: replicate 15 1)) = true.
Proof. apply (contains_netmask ula7); [concrete_network..|]. by vm_compute. Defined.

Lemma broadcast_greatest_witness :
  contains ula7 (broadcastAddress ula7) = true.
Proof. apply (broadcast_greatest ula7); concrete_network. Defined.

Lemma overlaps_common_address_witness :
  exists h, wf_host h /\ contains all4 h = true /\ contains ten8 h = true.
Proof.
  apply (overlaps_common_address all4 ten8); [concrete_network..|]. by vm_compute.
Defined.

Lemma netmask_hostmask_complement_witness :
  Z.land (value (netmask ula7)) (value (hostmask ula7)) = 0
  /\ value (netmask ula7) + value (hostmask ula7) = 2 ^ width (m_address ula7) - 1.
Proof. apply (netmask_hostmask_complement ula7); concrete_network. Defined.
