(* ===== verification/IpRange.v ===== *)
(** * Address ranges of the Android client

    Model of [client/android/utils/src/main/kotlin/net]: [IpAddress.kt],
    [IpRange.kt] and [IpRangeSet.kt], with which the Android services compute
    the routes of a split tunnel.  An address is its [UByteArray] of four or
    sixteen bytes.  A Kotlin exception is [None] of the outer option, and a
    nullable result is an option of its own.  A [sortedSetOf] is the list of
    its elements in iteration order.

    The reference semantics orders all addresses by [key]: IPv4 before IPv6 and
    by value within a family.  A range is then an interval of keys, and the set
    operations are union and difference of intervals. *)

From stdpp Require Import base numbers list sets.
From Stdlib Require Import ZArith Lia Sorting.Sorted.
From S2P Require Import Prelude.
Local Open Scope Z_scope.

(** ** IpAddress.kt *)

(** [IpAddress.maxMask] *)
Definition maxMask (a : list Z) : Z := Z.of_nat (length a) * 8.

Definition isMinIp (a : list Z) : bool := forallb (fun b => b =? 0) a.

Definition isMaxIp (a : list Z) : bool := forallb (fun b => b =? 255) a.

(** [for (i in lastIndex downTo 0) if (++copy[i] != 0) break], on the bytes
    from the last to the first. *)
Fixpoint inc_loop (l : list Z) : list Z :=
  match l with
  | [] => []
  | b :: l' =>
      let b' := (b + 1) mod 256 in
      if negb (b' =? 0) then b' :: l' else b' :: inc_loop l'
  end.

Definition inc (a : list Z) : option (list Z) :=
  if forallb (fun b => b =? 255) a then None else Some (rev (inc_loop (rev a))).

(** [for (i in lastIndex downTo 0) if (--copy[i] != 0xff) break] *)
Fixpoint dec_loop (l : list Z) : list Z :=
  match l with
  | [] => []
  | b :: l' =>
      let b' := (b - 1) mod 256 in
      if negb (b' =? 255) then b' :: l' else b' :: dec_loop l'
  end.

Definition dec (a : list Z) : option (list Z) :=
  if forallb (fun b => b =? 0) a then None else Some (rev (dec_loop (rev a))).

(** The first non-zero difference of two byte arrays. *)
Fixpoint first_diff (a b : list Z) : Z :=
  match a, b with
  | x :: a', y :: b' => let d := x - y in if negb (d =? 0) then d else first_diff a' b'
  | _, _ => 0
  end.

Definition compareTo (a b : list Z) : Z :=
  if negb (length a =? length b)%nat then Z.of_nat (length a) - Z.of_nat (length b)
  else first_diff a b.

Definition ip_lt (a b : list Z) : bool := compareTo a b <? 0.
Definition ip_le (a b : list Z) : bool := compareTo a b <=? 0.

(** [IpAddress.equals] *)
Definition ip_eq (a b : list Z) : bool := compareTo a b =? 0.

(** ** IpRange.kt *)

Record IpRange := mkRange { r_start : list Z; r_end : list Z }.

(** The constructor with its [init] checks. *)
Definition IpRange_new (s e : list Z) : option IpRange :=
  if negb (length s =? length e)%nat then None
  else if ip_lt e s then None
  else Some (mkRange s e).

Definition range_contains (r other : IpRange) : bool :=
  ip_le (r_start r) (r_start other) && ip_le (r_end other) (r_end r).

Definition isIntersect (r other : IpRange) : bool :=
  ip_le (r_start r) (r_end other) && ip_le (r_start other) (r_end r).

(** [dec] and [inc] followed by a comparison; the guards exclude the exception. *)
Definition dec_equals (a b : list Z) : option bool := a' ← dec a; Some (ip_eq a' b).
Definition inc_equals (a b : list Z) : option bool := a' ← inc a; Some (ip_eq a' b).

Definition minOf (a b : list Z) : list Z := if ip_le a b then a else b.
Definition maxOf (a b : list Z) : list Z := if ip_le b a then a else b.

(** [operator fun plus]: the union of two ranges that touch, or null. *)
Definition range_plus (r other : IpRange) : option (option IpRange) :=
  below ← (if ip_lt (r_end other) (r_start r) && negb (isMinIp (r_start r))
           then dec_equals (r_start r) (r_end other) else Some false);
  if (below : bool) then r' ← IpRange_new (r_start other) (r_end r); Some (Some r') else
  above ← (if ip_lt (r_end r) (r_start other) && negb (isMaxIp (r_end r))
           then inc_equals (r_end r) (r_start other) else Some false);
  if (above : bool) then r' ← IpRange_new (r_start r) (r_end other); Some (Some r') else
  if negb (isIntersect r other) then Some None
  else r' ← IpRange_new (minOf (r_start r) (r_start other)) (maxOf (r_end r) (r_end other));
       Some (Some r').

(** [operator fun minus]: what is left of [r] outside [other], null when they
    do not intersect. *)
Definition range_minus (r other : IpRange) : option (option (list IpRange)) :=
  if range_contains other r then Some (Some [])
  else if negb (isIntersect r other) then Some None
  else
    left ← (if ip_lt (r_start r) (r_start other)
            then d ← dec (r_start other); r' ← IpRange_new (r_start r) d; Some [r']
            else Some []);
    right ← (if ip_lt (r_end other) (r_end r)
             then i ← inc (r_end other); r' ← IpRange_new i (r_end r); Some [r']
             else Some []);
    Some (Some (left ++ right)).

(** [UByte.countTrailingZeroBits] *)
Fixpoint ctz (n : nat) (b : Z) : Z :=
  match n with
  | O => 0
  | S n' => if Z.odd b then 0 else 1 + ctz n' (Z.shiftr b 1)
  end.

(** [getPossibleMaxMask], on the bytes from the last to the first. *)
Fixpoint possible_mask_loop (l : list Z) (mask : Z) : Z :=
  match l with
  | [] => mask
  | b :: l' =>
      let z := ctz 8 b in
      if negb (z =? 8) then mask - z else possible_mask_loop l' (mask - z)
  end.

Definition getPossibleMaxMask (ip : list Z) : Z := possible_mask_loop (rev ip) (maxMask ip).

(** [getLastIpForMask], on the bytes from the last to the first. *)
Fixpoint last_ip_loop (l : list Z) (remainingBits : Z) : list Z :=
  match l with
  | [] => []
  | b :: l' =>
      if 0 <? remainingBits then
        (if 8 <? remainingBits then Z.lor b 255
         else Z.lor b (255 - Z.shiftl 255 remainingBits mod 256))
        :: last_ip_loop l' (remainingBits - 8)
      else l
  end.

Definition getLastIpForMask (ip : list Z) (mask : Z) : list Z :=
  rev (last_ip_loop (rev ip) (maxMask ip - mask)).

(** [while (lastIp > end) lastIp = getLastIpForMask(currentIp, ++mask)] *)
Fixpoint narrow (fuel : nat) (currentIp lastIp : list Z) (mask : Z) (e : list Z)
    : option (list Z * Z) :=
  if ip_lt e lastIp then
    match fuel with
    | O => None
    | S fuel' => narrow fuel' currentIp (getLastIpForMask currentIp (mask + 1)) (mask + 1) e
    end
  else Some (lastIp, mask).

(** The outer loop of [subnets]; a network is its address and its mask. *)
Fixpoint subnets_loop (fuel : nat) (currentIp e : list Z) : option (list (list Z * Z)) :=
  if ip_le currentIp e then
    match fuel with
    | O => None
    | S fuel' =>
        let mask := getPossibleMaxMask currentIp in
        '(lastIp, mask) ← narrow 128 currentIp (getLastIpForMask currentIp mask) mask e;
        if isMaxIp lastIp then Some [(currentIp, mask)]
        else next ← inc lastIp;
             rest ← subnets_loop fuel' next e;
             Some ((currentIp, mask) :: rest)
    end
  else Some [].

Definition range_subnets (fuel : nat) (r : IpRange) : option (list (list Z * Z)) :=
  subnets_loop fuel (r_start r) (r_end r).

Definition range_compareTo (r other : IpRange) : Z :=
  let d := compareTo (r_start r) (r_start other) in
  if d =? 0 then compareTo (r_end r) (r_end other) else d.

Definition range_eq (r other : IpRange) : bool := range_compareTo r other =? 0.

(** [IpRange.from(inetAddress, mask)]: the range of a network. *)
Definition range_from (address : list Z) (mask : Z) : list Z * list Z :=
  let lastByte := Z.to_nat (Z.quot mask 8) in
  if (lastByte <? length address)%nat then
    let byteMask := Z.shiftl 255 (8 - Z.rem mask 8) mod 256 in
    let b := default 0 (address !! lastByte) in
    let n := (length address - S lastByte)%nat in
    (take lastByte address ++ Z.land b byteMask :: replicate n 0,
     take lastByte address ++ Z.lor b (255 - byteMask) :: replicate n 255)
  else (address, address).

(** [IpRange(inetAddress, mask)] *)
Definition IpRange_of_network (address : list Z) (mask : Z) : option IpRange :=
  let '(s, e) := range_from address mask in IpRange_new s e.

(** ** IpRangeSet.kt *)

(** [ranges += r] on a sorted set. *)
Fixpoint set_insert (r : IpRange) (ranges : list IpRange) : list IpRange :=
  match ranges with
  | [] => [r]
  | x :: rest =>
      if range_compareTo r x <? 0 then r :: ranges
      else if range_compareTo r x =? 0 then ranges
      else x :: set_insert r rest
  end.

(** The loop of [add]: the ranges left in the set, and the range still to be
    inserted unless the loop returned early. *)
Fixpoint add_loop (ranges : list IpRange) (rangeToAdd : IpRange)
    : option (list IpRange * option IpRange) :=
  match ranges with
  | [] => Some ([], Some rangeToAdd)
  | cur :: rest =>
      gap ← (if ip_lt (r_end rangeToAdd) (r_start cur) && negb (isMaxIp (r_end rangeToAdd))
             then adj ← inc_equals (r_end rangeToAdd) (r_start cur); Some (negb adj)
             else Some false);
      if (gap : bool) then Some (cur :: rest, Some rangeToAdd)
      else
        sum ← range_plus cur rangeToAdd;
        match sum with
        | Some resultRange =>
            if range_eq resultRange cur then Some (cur :: rest, None)
            else add_loop rest resultRange
        | None => '(kept, r) ← add_loop rest rangeToAdd; Some (cur :: kept, r)
        end
  end.

Definition set_add (ranges : list IpRange) (ipRange : IpRange) : option (list IpRange) :=
  '(kept, r) ← add_loop ranges ipRange;
  Some (match r with Some r => set_insert r kept | None => kept end).

(** The loop of [remove]: the ranges left in the set and the split ranges. *)
Fixpoint remove_loop (ranges : list IpRange) (ipRange : IpRange)
    : option (list IpRange * list IpRange) :=
  match ranges with
  | [] => Some ([], [])
  | cur :: rest =>
      if ip_lt (r_end ipRange) (r_start cur) then Some (cur :: rest, [])
      else
        diff ← range_minus cur ipRange;
        '(kept, split) ← remove_loop rest ipRange;
        match diff with
        | Some resultRanges => Some (kept, resultRanges ++ split)
        | None => Some (cur :: kept, split)
        end
  end.

Definition set_remove (ranges : list IpRange) (ipRange : IpRange) : option (list IpRange) :=
  '(kept, split) ← remove_loop ranges ipRange;
  Some (foldl (fun s r => set_insert r s) kept split).

(** [ranges.map(IpRange::subnets).flatten()] *)
Fixpoint set_subnets (fuel : nat) (ranges : list IpRange) : option (list (list Z * Z)) :=
  match ranges with
  | [] => Some []
  | r :: rest =>
      l ← range_subnets fuel r;
      l' ← set_subnets fuel rest;
      Some (l ++ l')
  end.

(** ** Reference semantics *)

Definition wf_addr (a : list Z) : Prop :=
  (length a = 4%nat \/ length a = 16%nat) /\ Forall is_byte a.

Definition key (a : list Z) : Z := Z.of_nat (length a) * 2 ^ 128 + be_value a.

Definition wf_range (r : IpRange) : Prop :=
  wf_addr (r_start r) /\ wf_addr (r_end r) /\ length (r_start r) = length (r_end r)
  /\ key (r_start r) <= key (r_end r).

(** The key [k] lies in the range, in some range of a set. *)
Definition mem (r : IpRange) (k : Z) : Prop := key (r_start r) <= k <= key (r_end r).

Definition set_mem (ranges : list IpRange) (k : Z) : Prop := Exists (fun r => mem r k) ranges.

(** The set's invariant: ranges in order, with a gap between neighbours. *)
Definition separated (r r' : IpRange) : Prop := key (r_end r) + 1 < key (r_start r').

(** Separated one way or the other. *)
Definition apart (r r' : IpRange) : Prop := separated r r' \/ separated r' r.

(** [r] is part of [r']. *)
Definition part_of (r r' : IpRange) : Prop :=
  key (r_start r') <= key (r_start r) /\ key (r_end r) <= key (r_end r').

Definition wf_set (ranges : list IpRange) : Prop :=
  Forall wf_range ranges /\ ForallOrdPairs separated ranges.

(** Ranges that overlap or are adjacent. *)
Definition touching (r o : IpRange) : Prop :=
  key (r_start r) <= key (r_end o) + 1 /\ key (r_start o) <= key (r_end r) + 1.

(** The address [a] lies in the network [n]. *)
Definition in_network (n : list Z * Z) (a : list Z) : Prop :=
  length a = length n.1
  /\ Z.shiftr (be_value a) (maxMask n.1 - n.2) = Z.shiftr (be_value n.1) (maxMask n.1 - n.2).

(** What [add_loop] returns: a range to insert next to the ranges kept, whose
    lower end is one of those it has met, or nothing when a range of the set
    already holds it. *)
Definition add_result (ranges : list IpRange) (t : IpRange)
    (kept : list IpRange) (res : option IpRange) : Prop :=
  wf_set kept /\ kept ⊆ ranges
  /\ match res with
     | None => forall k, set_mem kept k <-> set_mem ranges k \/ mem t k
     | Some r' =>
         wf_range r' /\ Forall (apart r') kept
         /\ (key (r_start r') = key (r_start t)
             \/ Exists (fun x => key (r_start r') = key (r_start x)) ranges)
         /\ forall k, set_mem kept k \/ mem r' k <-> set_mem ranges k \/ mem t k
     end.

(** What [remove_loop] returns: the ranges kept and the pieces, all of them
    parts of ranges of the set. *)
Definition remove_result (ranges : list IpRange) (o : IpRange) (kept split : list IpRange) : Prop :=
  wf_set kept /\ wf_set split
  /\ Forall (fun y => Forall (apart y) kept) split
  /\ Forall (fun y => Exists (part_of y) ranges) (kept ++ split)
  /\ forall k, set_mem kept k \/ set_mem split k <-> set_mem ranges k /\ ~ mem o k.

(** The number of host bits [h] is the widest that starts at [v], aligned, and
    ends at [e] or before. *)
Definition greedy (v e w h : Z) : Prop :=
  0 <= h <= w /\ v mod 2 ^ h = 0 /\ v + 2 ^ h - 1 <= e
  /\ (h = w \/ v mod 2 ^ (h + 1) <> 0 \/ e < v + 2 ^ (h + 1) - 1).

(** Checks over all bytes, decided by evaluation. *)
Definition ctz_ok (b : Z) : bool :=
  let z := ctz 8 b in
  (0 <=? z) && (z <=? 8) && (b mod 2 ^ z =? 0)
  && (if z =? 8 then b =? 0 else negb (b mod 2 ^ (z + 1) =? 0)).

Definition fill_byte_ok (n b : Z) : bool :=
  Z.lor b (255 - Z.shiftl 255 n mod 256) =? b / 2 ^ n * 2 ^ n + 2 ^ n - 1.

(** A network whose address has no host bit set. *)
Definition aligned_network (n : list Z * Z) : Prop :=
  wf_addr n.1 /\ 0 <= n.2 <= maxMask n.1 /\ be_value n.1 mod 2 ^ (maxMask n.1 - n.2) = 0.

(** Every address of the network [n] comes before every address of [n']. *)
Definition before (n n' : list Z * Z) : Prop :=
  forall a b, wf_addr a -> wf_addr b -> in_network n a -> in_network n' b -> key a < key b.

(** The networks [nets] are exactly the addresses from [s] to [e], in order. *)
Definition exact_cover (nets : list (list Z * Z)) (s e : list Z) : Prop :=
  Forall aligned_network nets
  /\ (forall a, wf_addr a -> Exists (fun n => in_network n a) nets <-> key s <= key a <= key e)
  /\ StronglySorted before nets.

(** The fuel [subnets] needs: twice the width of an address, and one. *)
Definition subnets_fuel : nat := 257.

Definition mask_bytes_ok (r b : Z) : bool :=
  let byteMask := Z.shiftl 255 (8 - r) mod 256 in
  (Z.land b byteMask =? Z.shiftr b (8 - r) * 2 ^ (8 - r))
  && (Z.lor b (255 - byteMask) =? Z.shiftr b (8 - r) * 2 ^ (8 - r) + 2 ^ (8 - r) - 1).

(** ** Addresses *)

Lemma wf_addr_bound (a : list Z) :
  wf_addr a -> 0 <= be_value a < 2 ^ maxMask a
               /\ (maxMask a = 32 \/ maxMask a = 128) /\ 2 ^ maxMask a <= 2 ^ 128.
Proof.
  intros [Hlen Hb%be_value_bound]. unfold maxMask.
  rewrite (Z.mul_comm 8) in Hb. split; [done|]. destruct Hlen as [-> | ->]; split; (by left + by right) || lia.
Qed.

Lemma first_diff_spec (a b : list Z) :
  Forall is_byte a -> Forall is_byte b -> length a = length b ->
  (first_diff a b < 0 <-> be_value a < be_value b)
  /\ (first_diff a b = 0 <-> be_value a = be_value b).
Proof.
  intros Ha. revert b. induction Ha as [|x a Hx Ha IH]; intros [|y b] Hb Hlen;
    try discriminate Hlen; [done|].
  apply Forall_cons in Hb as [Hy Hb]. injection Hlen as Hlen.
  destruct (IH b Hb Hlen) as [IHlt IHeq]. simpl first_diff.
  destruct (Z.eqb_spec (x - y) 0) as [E|E]; simpl negb; cbv iota.
  - assert (x = y) as -> by lia. rewrite IHlt, IHeq. simpl. rewrite Hlen. lia.
  - destruct (Z.lt_trichotomy x y) as [Hxy | [Hxy | Hxy]]; [|lia|].
    + pose proof (be_value_cons_lt x y a b Ha Hb Hlen Hxy). lia.
    + pose proof (be_value_cons_lt y x b a Hb Ha (eq_sym Hlen) Hxy). lia.
Qed.

Lemma compareTo_key (a b : list Z) :
  wf_addr a -> wf_addr b ->
  (compareTo a b < 0 <-> key a < key b) /\ (compareTo a b = 0 <-> key a = key b).
Proof.
  intros Ha Hb. pose proof (wf_addr_bound a Ha). pose proof (wf_addr_bound b Hb).
  unfold compareTo, key. destruct (Nat.eqb_spec (length a) (length b)) as [E|E]; simpl negb; cbv iota.
  - rewrite E. destruct (first_diff_spec a b) as [-> ->]; [apply Ha|apply Hb|done|]. lia.
  - destruct Ha as [[Ea|Ea] _], Hb as [[Eb|Eb] _]; rewrite ?Ea, ?Eb in *; lia.
Qed.

Lemma ip_lt_key (a b : list Z) : wf_addr a -> wf_addr b -> ip_lt a b = true <-> key a < key b.
Proof. intros. unfold ip_lt. rewrite Z.ltb_lt. by apply compareTo_key. Qed.

Lemma ip_le_key (a b : list Z) : wf_addr a -> wf_addr b -> ip_le a b = true <-> key a <= key b.
Proof.
  intros Ha Hb. unfold ip_le. rewrite Z.leb_le. destruct (compareTo_key a b Ha Hb). lia.
Qed.

Lemma ip_eq_key (a b : list Z) : wf_addr a -> wf_addr b -> ip_eq a b = true <-> key a = key b.
Proof. intros. unfold ip_eq. rewrite Z.eqb_eq. by apply compareTo_key. Qed.

Lemma key_same_length (a b : list Z) :
  length a = length b -> key a - key b = be_value a - be_value b.
Proof. unfold key. intros ->. lia. Qed.

Lemma key_inj (a b : list Z) : wf_addr a -> wf_addr b -> key a = key b -> a = b.
Proof.
  intros Ha Hb E. pose proof (wf_addr_bound a Ha). pose proof (wf_addr_bound b Hb).
  unfold key in E. assert (Hlen : length a = length b).
  { destruct Ha as [[Ea|Ea] _], Hb as [[Eb|Eb] _]; rewrite ?Ea, ?Eb in *; lia. }
  apply be_value_inj; [apply Ha|apply Hb|done|]. rewrite Hlen in E. lia.
Qed.

Lemma all_bytes_255 (l : list Z) :
  Forall is_byte l ->
  if forallb (fun b => b =? 255) l then be_value l = 2 ^ (8 * Z.of_nat (length l)) - 1
  else be_value l < 2 ^ (8 * Z.of_nat (length l)) - 1.
Proof.
  induction 1 as [|b l Hb Hl IH]; [done|]. change (length (b :: l)) with (S (length l)).
  rewrite pow2_8S. simpl forallb. simpl be_value. pose proof (be_value_bound l Hl).
  unfold is_byte in Hb. destruct (Z.eqb_spec b 255) as [->|]; simpl; [|nia].
  destruct (forallb _ l); lia.
Qed.

Lemma all_bytes_0 (l : list Z) :
  Forall is_byte l ->
  if forallb (fun b => b =? 0) l then be_value l = 0 else 0 < be_value l.
Proof.
  induction 1 as [|b l Hb Hl IH]; [done|].
  simpl forallb. simpl be_value. pose proof (be_value_bound l Hl).
  pose proof (pow2_pos (8 * Z.of_nat (length l)) ltac:(lia)).
  unfold is_byte in Hb. destruct (Z.eqb_spec b 0) as [->|]; simpl; [|nia].
  destruct (forallb _ l); lia.
Qed.

Lemma inc_loop_spec (l : list Z) :
  Forall is_byte l -> le_value l < 2 ^ (8 * Z.of_nat (length l)) - 1 ->
  Forall is_byte (inc_loop l) /\ length (inc_loop l) = length l
  /\ le_value (inc_loop l) = le_value l + 1.
Proof.
  induction 1 as [|b l Hb Hl IH]; [simpl; lia|].
  change (length (b :: l)) with (S (length l)). rewrite pow2_8S. simpl le_value.
  intros Hlt. unfold is_byte in Hb. simpl inc_loop.
  destruct (Z.eqb_spec ((b + 1) mod 256) 0) as [E|E]; simpl negb; cbv iota.
  - assert (b = 255) by dlia. destruct IH as (IH1 & IH2 & IH3); [lia|].
    split_and!; [constructor; [unfold is_byte; lia|done] | simpl; lia | simpl le_value; lia].
  - assert (Hm : (b + 1) mod 256 = b + 1) by dlia. rewrite Hm.
    split_and!; [constructor; [unfold is_byte; dlia|done] | done | simpl; lia].
Qed.

Lemma dec_loop_spec (l : list Z) :
  Forall is_byte l -> 0 < le_value l ->
  Forall is_byte (dec_loop l) /\ length (dec_loop l) = length l
  /\ le_value (dec_loop l) = le_value l - 1.
Proof.
  induction 1 as [|b l Hb Hl IH]; [simpl; lia|].
  simpl le_value. intros Hlt. unfold is_byte in Hb. simpl dec_loop.
  destruct (Z.eqb_spec ((b - 1) mod 256) 255) as [E|E]; simpl negb; cbv iota.
  - assert (b = 0) by dlia. destruct IH as (IH1 & IH2 & IH3); [lia|].
    split_and!; [constructor; [unfold is_byte; lia|done] | simpl; lia | simpl le_value; lia].
  - assert (Hm : (b - 1) mod 256 = b - 1) by dlia. rewrite Hm.
    split_and!; [constructor; [unfold is_byte; dlia|done] | done | simpl; lia].
Qed.

Lemma wf_addr_same (a a' : list Z) :
  wf_addr a -> length a' = length a -> Forall is_byte a' -> wf_addr a'.
Proof. intros [Hl _] E Hb. split; [by rewrite E|done]. Qed.

Lemma inc_key (a : list Z) :
  wf_addr a -> isMaxIp a = false ->
  exists a', inc a = Some a' /\ wf_addr a' /\ length a' = length a /\ key a' = key a + 1.
Proof.
  intros Ha Hm. unfold inc. unfold isMaxIp in Hm. rewrite Hm.
  pose proof (all_bytes_255 a (proj2 Ha)) as Hlt. rewrite Hm in Hlt.
  destruct (inc_loop_spec (rev a)) as (H1 & H2 & H3);
    [by apply Forall_rev, Ha|by rewrite le_value_rev, length_rev|].
  assert (Hlen : length (rev (inc_loop (rev a))) = length a) by (by rewrite length_rev, H2, length_rev).
  eexists. split_and!; [done| |done|].
  - apply (wf_addr_same a); [done..|by apply Forall_rev].
  - rewrite le_value_rev in H3. pose proof (key_same_length _ _ Hlen) as E.
    rewrite be_value_rev in E. lia.
Qed.

Lemma dec_key (a : list Z) :
  wf_addr a -> isMinIp a = false ->
  exists a', dec a = Some a' /\ wf_addr a' /\ length a' = length a /\ key a' = key a - 1.
Proof.
  intros Ha Hm. unfold dec. unfold isMinIp in Hm. rewrite Hm.
  pose proof (all_bytes_0 a (proj2 Ha)) as Hlt. rewrite Hm in Hlt.
  destruct (dec_loop_spec (rev a)) as (H1 & H2 & H3);
    [by apply Forall_rev, Ha|by rewrite le_value_rev|].
  assert (Hlen : length (rev (dec_loop (rev a))) = length a) by (by rewrite length_rev, H2, length_rev).
  eexists. split_and!; [done| |done|].
  - apply (wf_addr_same a); [done..|by apply Forall_rev].
  - rewrite le_value_rev in H3. pose proof (key_same_length _ _ Hlen) as E.
    rewrite be_value_rev in E. lia.
Qed.

(** Where the keys of each family lie. *)
Lemma key_region (a : list Z) :
  wf_addr a ->
  (length a = 4%nat /\ 4 * 2 ^ 128 <= key a < 4 * 2 ^ 128 + 2 ^ 32)
  \/ (length a = 16%nat /\ 16 * 2 ^ 128 <= key a < 17 * 2 ^ 128).
Proof.
  intros Ha. pose proof (wf_addr_bound a Ha) as (Hb & _ & _). unfold maxMask, key in *.
  destruct Ha as [[E|E] _]; rewrite E in *; [left|right]; (split; [done|]); lia.
Qed.

Lemma isMaxIp_top (a b : list Z) :
  wf_addr a -> wf_addr b -> isMaxIp a = true -> key a < key b -> key a + 1 < key b.
Proof.
  intros Ha Hb Hm Hlt. pose proof (all_bytes_255 a (proj2 Ha)) as E. unfold isMaxIp in Hm.
  rewrite Hm in E. pose proof (key_region a Ha). pose proof (key_region b Hb).
  unfold key in *. destruct Ha as [[Ea|Ea] _], Hb as [[Eb|Eb] _]; rewrite ?Ea, ?Eb in *; lia.
Qed.

Lemma isMinIp_bottom (a b : list Z) :
  wf_addr a -> wf_addr b -> isMinIp a = true -> key b < key a -> key b + 1 < key a.
Proof.
  intros Ha Hb Hm Hlt. pose proof (all_bytes_0 a (proj2 Ha)) as E. unfold isMinIp in Hm.
  rewrite Hm in E. pose proof (key_region a Ha). pose proof (key_region b Hb).
  unfold key in *. destruct Ha as [[Ea|Ea] _], Hb as [[Eb|Eb] _]; rewrite ?Ea, ?Eb in *; lia.
Qed.

(** Within one family an address below another is not the greatest. *)
Lemma below_not_max (a b : list Z) :
  wf_addr a -> wf_addr b -> length a = length b -> key a < key b -> isMaxIp a = false.
Proof.
  intros Ha Hb Hlen Hlt. destruct (isMaxIp a) eqn:E; [|done]. unfold isMaxIp in E.
  pose proof (all_bytes_255 a (proj2 Ha)) as Hm. rewrite E in Hm.
  pose proof (wf_addr_bound b Hb) as (Hb' & _). pose proof (key_same_length a b Hlen).
  unfold maxMask in Hb'. rewrite <- Hlen, (Z.mul_comm _ 8) in Hb'. lia.
Qed.

Lemma above_not_min (a b : list Z) :
  wf_addr a -> wf_addr b -> length a = length b -> key b < key a -> isMinIp a = false.
Proof.
  intros Ha Hb Hlen Hlt. destruct (isMinIp a) eqn:E; [|done]. unfold isMinIp in E.
  pose proof (all_bytes_0 a (proj2 Ha)) as Hm. rewrite E in Hm.
  pose proof (wf_addr_bound b Hb) as (Hb' & _). pose proof (key_same_length a b Hlen). lia.
Qed.

(** ** Ranges *)

(** Boolean tests on addresses as facts about keys. *)
Lemma ip_lt_spec (a b : list Z) :
  wf_addr a -> wf_addr b -> reflect (key a < key b) (ip_lt a b).
Proof. intros Ha Hb. apply iff_reflect. symmetry. by apply ip_lt_key. Qed.

Lemma ip_le_spec (a b : list Z) :
  wf_addr a -> wf_addr b -> reflect (key a <= key b) (ip_le a b).
Proof. intros Ha Hb. apply iff_reflect. symmetry. by apply ip_le_key. Qed.

Lemma ip_eq_spec (a b : list Z) :
  wf_addr a -> wf_addr b -> reflect (key a = key b) (ip_eq a b).
Proof. intros Ha Hb. apply iff_reflect. symmetry. by apply ip_eq_key. Qed.

Ltac ip_tests :=
  repeat match goal with
  | |- context [ip_lt ?a ?b] => destruct (ip_lt_spec a b); [done|done|simpl|simpl]
  | |- context [ip_le ?a ?b] => destruct (ip_le_spec a b); [done|done|simpl|simpl]
  end.

Lemma IpRange_new_ok (s e : list Z) :
  wf_addr s -> wf_addr e -> length s = length e -> key s <= key e ->
  IpRange_new s e = Some (mkRange s e) /\ wf_range (mkRange s e).
Proof.
  intros Hs He Hlen Hle. unfold IpRange_new. rewrite Hlen, Nat.eqb_refl. simpl.
  ip_tests; [lia|]. done.
Qed.

(** Ranges that touch are of one family. *)
Lemma touching_family (r o : IpRange) :
  wf_range r -> wf_range o -> touching r o -> length (r_start r) = length (r_start o).
Proof.
  intros (Hs & He & Hl & Hk) (Hs' & He' & Hl' & Hk') [H1 H2].
  pose proof (key_region _ Hs). pose proof (key_region _ He).
  pose proof (key_region _ Hs'). pose proof (key_region _ He'). lia.
Qed.

Lemma dec_equals_key (a b : list Z) :
  wf_addr a -> wf_addr b -> isMinIp a = false ->
  dec_equals a b = Some (bool_decide (key b = key a - 1)).
Proof.
  intros Ha Hb Hm. destruct (dec_key a Ha Hm) as (a' & E & Ha' & _ & Hk).
  unfold dec_equals. rewrite E. simpl. f_equal.
  destruct (ip_eq_spec a' b Ha' Hb); case_bool_decide; lia || done.
Qed.

Lemma inc_equals_key (a b : list Z) :
  wf_addr a -> wf_addr b -> isMaxIp a = false ->
  inc_equals a b = Some (bool_decide (key b = key a + 1)).
Proof.
  intros Ha Hb Hm. destruct (inc_key a Ha Hm) as (a' & E & Ha' & _ & Hk).
  unfold inc_equals. rewrite E. simpl. f_equal.
  destruct (ip_eq_spec a' b Ha' Hb); case_bool_decide; lia || done.
Qed.

Lemma below_guard (r o : IpRange) :
  wf_range r -> wf_range o ->
  (if ip_lt (r_end o) (r_start r) && negb (isMinIp (r_start r))
   then dec_equals (r_start r) (r_end o) else Some false)
  = Some (bool_decide (key (r_end o) + 1 = key (r_start r))).
Proof.
  intros (Hs & _) (_ & He & _). destruct (ip_lt_spec (r_end o) (r_start r)); [done..| |]; simpl.
  - destruct (isMinIp (r_start r)) eqn:Hm; simpl.
    + pose proof (isMinIp_bottom _ _ Hs He Hm). rewrite bool_decide_false; [done|lia].
    + rewrite dec_equals_key by done. f_equal. apply bool_decide_ext. lia.
  - rewrite bool_decide_false; [done|lia].
Qed.

Lemma above_guard (r o : IpRange) :
  wf_range r -> wf_range o ->
  (if ip_lt (r_end r) (r_start o) && negb (isMaxIp (r_end r))
   then inc_equals (r_end r) (r_start o) else Some false)
  = Some (bool_decide (key (r_end r) + 1 = key (r_start o))).
Proof.
  intros (_ & He & _) (Hs & _). destruct (ip_lt_spec (r_end r) (r_start o)); [done..| |]; simpl.
  - destruct (isMaxIp (r_end r)) eqn:Hm; simpl.
    + pose proof (isMaxIp_top _ _ He Hs Hm). rewrite bool_decide_false; [done|lia].
    + rewrite inc_equals_key by done. f_equal. apply bool_decide_ext. lia.
  - rewrite bool_decide_false; [done|lia].
Qed.

Lemma minOf_key (a b : list Z) :
  wf_addr a -> wf_addr b -> wf_addr (minOf a b) /\ key (minOf a b) = Z.min (key a) (key b)
  /\ (length a = length b -> length (minOf a b) = length b).
Proof. intros. unfold minOf. ip_tests; split_and!; auto; lia. Qed.

Lemma maxOf_key (a b : list Z) :
  wf_addr a -> wf_addr b -> wf_addr (maxOf a b) /\ key (maxOf a b) = Z.max (key a) (key b)
  /\ (length a = length b -> length (maxOf a b) = length b).
Proof. intros. unfold maxOf. ip_tests; split_and!; auto; lia. Qed.

(** Adding ranges: null when they are apart, else the range they span. *)
Lemma range_plus_spec (r o : IpRange) :
  wf_range r -> wf_range o ->
  (range_plus r o = Some None /\ (separated r o \/ separated o r))
  \/ exists r', range_plus r o = Some (Some r') /\ wf_range r' /\ touching r o
       /\ key (r_start r') = Z.min (key (r_start r)) (key (r_start o))
       /\ key (r_end r') = Z.max (key (r_end r)) (key (r_end o)).
Proof.
  intros Hr Ho. unfold range_plus. rewrite (below_guard r o Hr Ho), (above_guard r o Hr Ho).
  pose proof Hr as (Hs & He & Hl & Hk). pose proof Ho as (Hs' & He' & Hl' & Hk').
  pose proof (touching_family r o Hr Ho) as Hfam. unfold separated, touching in *. simpl.
  case_bool_decide.
  { right. destruct (IpRange_new_ok (r_start o) (r_end r)) as [-> Hw]; [done|done|rewrite <- Hfam; [done|lia]|lia|].
    simpl. eexists. split_and!; [done..|lia|lia|simpl; lia|simpl; lia]. }
  simpl. case_bool_decide.
  { right. destruct (IpRange_new_ok (r_start r) (r_end o)) as [-> Hw]; [done|done|rewrite Hfam; [done|lia]|lia|].
    simpl. eexists. split_and!; [done..|lia|lia|simpl; lia|simpl; lia]. }
  unfold isIntersect.
  destruct (ip_le_spec (r_start r) (r_end o)); [done..| |]; simpl; [|left; split; [done|lia]].
  destruct (ip_le_spec (r_start o) (r_end r)); [done..| |]; simpl; [|left; split; [done|lia]].
  right. destruct (minOf_key (r_start r) (r_start o)) as (Hm1 & Hm2 & Hm3); [done..|].
  destruct (maxOf_key (r_end r) (r_end o)) as (Hx1 & Hx2 & Hx3); [done..|].
  destruct (IpRange_new_ok (minOf (r_start r) (r_start o)) (maxOf (r_end r) (r_end o))) as [-> Hw];
    [done|done|rewrite Hm3, Hx3; [done|rewrite <- Hl, <- Hl'|]; apply Hfam; lia|lia|].
  simpl. eexists. split_and!; [done..|lia|lia|done|done].
Qed.

(** ** Sets *)

Lemma wf_set_nil : wf_set [].
Proof. split; constructor. Qed.

Lemma wf_set_cons (r : IpRange) (l : list IpRange) :
  wf_range r -> wf_set l -> Forall (separated r) l -> wf_set (r :: l).
Proof. intros Hr [Hw Hs] Hl. split; by constructor. Qed.

Lemma wf_set_cons_inv (r : IpRange) (l : list IpRange) :
  wf_set (r :: l) -> wf_range r /\ wf_set l /\ Forall (separated r) l.
Proof.
  intros [Hw Hs]. apply Forall_cons in Hw as [Hr Hw].
  inversion Hs; subst. split_and!; [done|by split|done].
Qed.

Lemma wf_set_single (r : IpRange) : wf_range r -> wf_set [r].
Proof. intros Hr. apply wf_set_cons; [done|apply wf_set_nil|by constructor]. Qed.

Lemma set_mem_cons (r : IpRange) (l : list IpRange) (k : Z) :
  set_mem (r :: l) k <-> mem r k \/ set_mem l k.
Proof. apply Exists_cons. Qed.

Lemma set_mem_nil (k : Z) : ~ set_mem [] k.
Proof. by intros ?%Exists_nil. Qed.

(** The piece of [r] below [o], and the one above it. *)
Lemma minus_left (r o : IpRange) :
  wf_range r -> wf_range o -> length (r_start r) = length (r_start o) ->
  exists l,
    (if ip_lt (r_start r) (r_start o)
     then d ← dec (r_start o); r' ← IpRange_new (r_start r) d; Some [r'] else Some []) = Some l
    /\ ((l = [] /\ key (r_start o) <= key (r_start r))
        \/ exists x, l = [x] /\ wf_range x /\ key (r_start r) < key (r_start o)
             /\ key (r_start x) = key (r_start r) /\ key (r_end x) = key (r_start o) - 1).
Proof.
  intros (Hs & He & Hl & Hk) (Hs' & He' & Hl' & Hk') Hlen.
  destruct (ip_lt_spec (r_start r) (r_start o)) as [Hlt|Hge]; [done..| |]; [|exists []; split; [done|left; split; [done|lia]]].
  destruct (dec_key (r_start o)) as (d & -> & Hd & Hdl & Hdk);
    [done|by apply (above_not_min _ (r_start r))|]. simpl.
  destruct (IpRange_new_ok (r_start r) d) as [-> Hw]; [done|done|congruence|lia|].
  exists [mkRange (r_start r) d]. split; [done|]. right. eexists. split_and!; done.
Qed.

Lemma minus_right (r o : IpRange) :
  wf_range r -> wf_range o -> length (r_start r) = length (r_start o) ->
  exists l,
    (if ip_lt (r_end o) (r_end r)
     then i ← inc (r_end o); r' ← IpRange_new i (r_end r); Some [r'] else Some []) = Some l
    /\ ((l = [] /\ key (r_end r) <= key (r_end o))
        \/ exists x, l = [x] /\ wf_range x /\ key (r_end o) < key (r_end r)
             /\ key (r_start x) = key (r_end o) + 1 /\ key (r_end x) = key (r_end r)).
Proof.
  intros (Hs & He & Hl & Hk) (Hs' & He' & Hl' & Hk') Hlen.
  destruct (ip_lt_spec (r_end o) (r_end r)) as [Hlt|Hge]; [done..| |]; [|exists []; split; [done|left; split; [done|lia]]].
  destruct (inc_key (r_end o)) as (i & -> & Hi & Hil & Hik);
    [done|apply (below_not_max _ (r_end r)); auto; congruence|]. simpl.
  destruct (IpRange_new_ok i (r_end r)) as [-> Hw]; [done|done|congruence|lia|].
  exists [mkRange i (r_end r)]. split; [done|]. right. eexists. split_and!; done.
Qed.

(** Subtracting ranges: null when they do not meet, else the pieces left. *)
Lemma range_minus_spec (r o : IpRange) :
  wf_range r -> wf_range o ->
  (range_minus r o = Some None /\ forall k, mem r k -> ~ mem o k)
  \/ exists l, range_minus r o = Some (Some l) /\ wf_set l
       /\ Forall (fun x => part_of x r) l
       /\ forall k, set_mem l k <-> mem r k /\ ~ mem o k.
Proof.
  intros Hr Ho. unfold range_minus, range_contains, isIntersect.
  pose proof Hr as (Hs & He & Hl & Hk). pose proof Ho as (Hs' & He' & Hl' & Hk').
  destruct (ip_le_spec (r_start o) (r_start r) Hs' Hs) as [H1|H1],
    (ip_le_spec (r_end r) (r_end o) He He') as [H2|H2]; simpl.
  { right. exists []. split_and!; [done|apply wf_set_nil|by constructor|].
    intros k. unfold set_mem, mem. rewrite Exists_nil. lia. }
  all: destruct (ip_le_spec (r_start r) (r_end o) Hs He') as [H3|H3]; simpl;
    [|left; split; [done|unfold mem; lia]].
  all: destruct (ip_le_spec (r_start o) (r_end r) Hs' He) as [H4|H4]; simpl;
    [|left; split; [done|unfold mem; lia]].
  all: right; pose proof (touching_family r o Hr Ho ltac:(unfold touching; lia)) as Hfam.
  all: destruct (minus_left r o Hr Ho Hfam) as (l1 & -> & [(-> & ?)|(x & -> & Hx & ? & ? & ?)]); simpl.
  all: destruct (minus_right r o Hr Ho Hfam) as (l2 & -> & [(-> & ?)|(y & -> & Hy & ? & ? & ?)]); simpl.
  all: try (exfalso; lia).
  all: eexists; (split; [done|]); (split; [|split]).
  all: rewrite ?Forall_cons, ?Forall_nil; try (unfold part_of; lia).
  all: try (intros k; unfold set_mem; rewrite ?Exists_cons, ?Exists_nil; unfold mem; lia).
  all: auto using wf_set_nil, wf_set_single.
  apply wf_set_cons; [done|by apply wf_set_single|]. rewrite Forall_cons, Forall_nil.
  unfold separated. split; [lia|done].
Qed.

Lemma separated_all (r x : IpRange) (l : list IpRange) :
  separated r x -> wf_range x -> Forall (separated x) l -> Forall (separated r) l.
Proof.
  intros Hrx (_ & _ & _ & Hk) Hl. apply (Forall_impl _ _ _ Hl). unfold separated in *. lia.
Qed.

(** The order of the sorted set on ranges that are apart. *)
Lemma range_compareTo_apart (r x : IpRange) :
  wf_range r -> wf_range x -> apart r x ->
  (range_compareTo r x < 0 <-> separated r x) /\ range_compareTo r x <> 0.
Proof.
  intros (Hs & He & Hl & Hk) (Hs' & He' & Hl' & Hk') Ha. unfold range_compareTo, apart, separated in *.
  cbv zeta.
  destruct (compareTo_key (r_start r) (r_start x) Hs Hs') as [Hlt Heq].
  destruct (Z.eqb_spec (compareTo (r_start r) (r_start x)) 0) as [E|E];
    [apply Heq in E; exfalso; lia|split; [rewrite Hlt; lia|done]].
Qed.

Lemma set_insert_spec (r : IpRange) (l : list IpRange) :
  wf_range r -> wf_set l -> Forall (apart r) l ->
  wf_set (set_insert r l)
  /\ (forall k, set_mem (set_insert r l) k <-> mem r k \/ set_mem l k)
  /\ (forall P : IpRange -> Prop, P r -> Forall P l -> Forall P (set_insert r l)).
Proof.
  intros Hr. induction l as [|x l IH]; intros Hl Ha; simpl.
  { split_and!; [by apply wf_set_single|intros; by rewrite set_mem_cons|by constructor]. }
  apply wf_set_cons_inv in Hl as (Hx & Hl & Hxl). apply Forall_cons in Ha as [Hax Ha].
  destruct (range_compareTo_apart r x Hr Hx Hax) as [Hlt Hne].
  destruct (Z.ltb_spec (range_compareTo r x) 0) as [Hc|Hc].
  - apply Hlt in Hc. split_and!; [|intros; by rewrite !set_mem_cons|by constructor].
    apply wf_set_cons; [done|by apply wf_set_cons|]. constructor; [done|].
    by apply (separated_all r x).
  - rewrite (proj2 (Z.eqb_neq _ _) Hne). destruct IH as (IH1 & IH2 & IH3); [done..|].
    split_and!.
    + apply wf_set_cons; [done|done|]. apply IH3; [|done]. destruct Hax as [Hs|]; [|done]. apply Hlt in Hs. lia.
    + intros k. rewrite !set_mem_cons, IH2. tauto.
    + intros P HP [HPx HPl]%Forall_cons. constructor; [done|]. by apply IH3.
Qed.

(** Inserting pieces that are apart from the set and from each other. *)
Lemma insert_all_spec (split kept : list IpRange) :
  wf_set kept -> wf_set split -> Forall (fun y => Forall (apart y) kept) split ->
  wf_set (foldl (fun s r => set_insert r s) kept split)
  /\ forall k, set_mem (foldl (fun s r => set_insert r s) kept split) k
               <-> set_mem kept k \/ set_mem split k.
Proof.
  revert kept. induction split as [|y split IH]; intros kept Hk Hs Ha; simpl.
  { split; [done|]. intros k. pose proof (set_mem_nil k). tauto. }
  apply wf_set_cons_inv in Hs as (Hy & Hs & Hys). apply Forall_cons in Ha as [Hya Ha].
  destruct (set_insert_spec y kept Hy Hk Hya) as (H1 & H2 & H3).
  destruct (IH (set_insert y kept)) as [IH1 IH2]; [done|done| |].
  - apply Forall_forall. intros z Hz. apply H3.
    + right. by eapply Forall_forall in Hys.
    + by eapply Forall_forall in Ha.
  - split; [done|]. intros k. rewrite IH2, H2, set_mem_cons. tauto.
Qed.

Lemma gap_guard (t cur : IpRange) :
  wf_range t -> wf_range cur ->
  exists g,
    (if ip_lt (r_end t) (r_start cur) && negb (isMaxIp (r_end t))
     then adj ← inc_equals (r_end t) (r_start cur); Some (negb adj) else Some false) = Some g
    /\ (g = true -> separated t cur).
Proof.
  intros (_ & He & _) (Hs & _).
  destruct (ip_lt_spec (r_end t) (r_start cur)); [done..| |]; simpl; [|by exists false].
  destruct (isMaxIp (r_end t)) eqn:Hm; simpl; [by exists false|].
  rewrite inc_equals_key by done. simpl. eexists. split; [done|].
  rewrite negb_true_iff, bool_decide_eq_false. unfold separated. lia.
Qed.

(** A range below the whole set is kept as it is. *)
Lemma add_loop_below (ranges : list IpRange) (t : IpRange) :
  wf_set ranges -> wf_range t -> Forall (separated t) ranges ->
  add_loop ranges t = Some (ranges, Some t).
Proof.
  intros Hw Ht Hs. induction ranges as [|cur rest IH]; [done|]. simpl.
  apply wf_set_cons_inv in Hw as (Hc & Hw & _). apply Forall_cons in Hs as [Hcur Hs].
  destruct (gap_guard t cur Ht Hc) as (g & -> & _). simpl. destruct g; [done|].
  destruct (range_plus_spec cur t Hc Ht) as [[-> _]|(r' & _ & _ & Htouch & _)].
  - simpl. by rewrite IH.
  - unfold touching, separated in *. lia.
Qed.

Lemma range_eq_key (r x : IpRange) :
  wf_range r -> wf_range x ->
  range_eq r x = true <-> key (r_start r) = key (r_start x) /\ key (r_end r) = key (r_end x).
Proof.
  intros (Hs & He & _) (Hs' & He' & _). unfold range_eq, range_compareTo. cbv zeta.
  destruct (compareTo_key (r_start r) (r_start x) Hs Hs') as [_ Heq].
  destruct (compareTo_key (r_end r) (r_end x) He He') as [_ Heq'].
  rewrite Z.eqb_eq. destruct (Z.eqb_spec (compareTo (r_start r) (r_start x)) 0); tauto.
Qed.

(** The range to add lies above [cur]: [cur] stays. *)
Lemma add_result_above (cur t : IpRange) (rest kept : list IpRange) (res : option IpRange) :
  wf_set (cur :: rest) -> separated cur t ->
  add_result rest t kept res -> add_result (cur :: rest) t (cur :: kept) res.
Proof.
  intros (Hc & Hwr & Hcr)%wf_set_cons_inv Hsep (Hk & Hsub & Hres).
  assert (Forall (separated cur) kept) as Hck
    by (apply Forall_forall; intros x Hx; apply Hsub in Hx; by eapply Forall_forall in Hcr).
  split_and!; [by apply wf_set_cons|set_solver|]. destruct res as [r'|].
  - destruct Hres as (Hr' & Hap & Hst & Hmem). split_and!; [done| |rewrite Exists_cons; tauto|].
    + constructor; [right|done]. unfold separated in *. destruct Hst as [->|Hst]; [done|].
      apply Exists_exists in Hst as (x & Hx & ->). by eapply Forall_forall in Hcr.
    + intros k. rewrite !set_mem_cons. specialize (Hmem k). tauto.
  - intros k. rewrite !set_mem_cons. specialize (Hres k). tauto.
Qed.

(** The range to add touches [cur]: they are replaced by the range they span. *)
Lemma add_result_merge (cur t r' : IpRange) (rest kept : list IpRange) (res : option IpRange) :
  touching cur t -> wf_range cur -> wf_range t ->
  key (r_start r') = Z.min (key (r_start cur)) (key (r_start t)) ->
  key (r_end r') = Z.max (key (r_end cur)) (key (r_end t)) ->
  add_result rest r' kept res -> add_result (cur :: rest) t kept res.
Proof.
  intros Htouch (_ & _ & _ & Hc) (_ & _ & _ & Ht) Hs He (Hk & Hsub & Hres).
  assert (forall k, mem r' k <-> mem cur k \/ mem t k) as Hmem'
    by (intros k; unfold mem, touching in *; lia).
  split_and!; [done|set_solver|]. destruct res as [x|].
  - destruct Hres as (Hx & Hap & Hst & Hmem). split_and!; [done|done| |].
    + rewrite Exists_cons. destruct Hst as [Hst|Hst]; [|tauto].
      destruct (Z.min_spec (key (r_start cur)) (key (r_start t))) as [[_ E]|[_ E]];
        rewrite Hst, Hs, E; tauto.
    + intros k. rewrite Hmem, set_mem_cons, Hmem'. tauto.
  - intros k. rewrite Hres, set_mem_cons, Hmem'. tauto.
Qed.

Lemma add_loop_spec (ranges : list IpRange) (t : IpRange) :
  wf_set ranges -> wf_range t ->
  exists kept res, add_loop ranges t = Some (kept, res) /\ add_result ranges t kept res.
Proof.
  revert t. induction ranges as [|cur rest IH]; intros t Hw Ht; simpl.
  { exists [], (Some t). split; [done|]. by split_and!; auto using wf_set_nil. }
  pose proof Hw as (Hc & Hwr & Hcr)%wf_set_cons_inv.
  assert (separated t cur -> add_result (cur :: rest) t (cur :: rest) (Some t)) as Hbelow.
  { intros Hs. split_and!; auto. apply Forall_forall. intros x Hx. left.
    revert x Hx. apply Forall_forall. constructor; [done|]. by apply (separated_all t cur). }
  destruct (gap_guard t cur Ht Hc) as (g & -> & Hg). simpl.
  destruct g; [eexists _, _; split; [done|]; by apply Hbelow, Hg|].
  destruct (range_plus_spec cur t Hc Ht) as [[-> [Hs|Hs]]|(r' & -> & Hr' & Htouch & Hst & Hen)]; simpl.
  - destruct (IH t Hwr Ht) as (kept & res & -> & Hres). simpl. eexists _, _. split; [done|].
    by apply add_result_above.
  - rewrite add_loop_below; [|done|done|by apply (separated_all t cur)]. simpl.
    eexists _, _. split; [done|]. by apply Hbelow.
  - destruct (range_eq r' cur) eqn:E.
    + apply range_eq_key in E as [E1 E2]; [|done..]. eexists _, _. split; [done|].
      split_and!; auto. intros k. rewrite set_mem_cons.
      assert (mem t k -> mem cur k) by (unfold mem; lia). tauto.
    + destruct (IH r' Hwr Hr') as (kept & res & -> & Hres). eexists _, _. split; [done|].
      by eapply add_result_merge.
Qed.

Lemma part_of_refl (r : IpRange) : part_of r r.
Proof. unfold part_of. lia. Qed.

(** Parts of ranges above [cur] are above [cur]. *)
Lemma parts_above (cur : IpRange) (rest l : list IpRange) :
  Forall (separated cur) rest -> Forall (fun y => Exists (part_of y) rest) l ->
  Forall (separated cur) l.
Proof.
  intros Hs Hl. apply (Forall_impl _ _ _ Hl). intros y (x & Hx & Hpart)%Exists_exists.
  eapply Forall_forall in Hs; [|done]. unfold part_of, separated in *. lia.
Qed.

Lemma parts_weaken (cur : IpRange) (rest l : list IpRange) :
  Forall (fun y => Exists (part_of y) rest) l ->
  Forall (fun y => Exists (part_of y) (cur :: rest)) l.
Proof. intros Hl. apply (Forall_impl _ _ _ Hl). intros y Hy. by apply Exists_cons_tl. Qed.

Lemma separated_part (r r' x : IpRange) : part_of r r' -> separated r' x -> separated r x.
Proof. unfold part_of, separated. lia. Qed.

Lemma wf_set_app (l m : list IpRange) :
  wf_set l -> wf_set m -> Forall (fun x => Forall (separated x) m) l -> wf_set (l ++ m).
Proof.
  intros Hl Hm. induction l as [|x l IH]; intros Ha; [done|]. simpl.
  apply wf_set_cons_inv in Hl as (Hx & Hl & Hxl). apply Forall_cons in Ha as [Hxm Ha].
  apply wf_set_cons; [done|by apply IH|by apply Forall_app].
Qed.

Lemma remove_loop_spec (ranges : list IpRange) (o : IpRange) :
  wf_set ranges -> wf_range o ->
  exists kept split, remove_loop ranges o = Some (kept, split)
                     /\ remove_result ranges o kept split.
Proof.
  intros Hw Ho. induction ranges as [|cur rest IH]; simpl.
  { exists [], []. split; [done|]. split_and!; auto using wf_set_nil.
    intros k. pose proof (set_mem_nil k). tauto. }
  pose proof Hw as (Hc & Hwr & Hcr)%wf_set_cons_inv.
  destruct (ip_lt_spec (r_end o) (r_start cur)) as [Hlt|Hge]; [apply Ho|apply Hc|..].
  { exists (cur :: rest), []. split; [done|]. split_and!; auto using wf_set_nil.
    - rewrite app_nil_r. apply Forall_forall. intros y Hy. apply Exists_exists.
      exists y. split; [done|apply part_of_refl].
    - intros k. pose proof (set_mem_nil k).
      assert (set_mem (cur :: rest) k -> ~ mem o k); [|tauto].
      intros (x & Hx & Hm)%Exists_exists Hmo. destruct Hc as (_ & _ & _ & Hk).
      assert (key (r_start cur) <= key (r_start x)); [|unfold mem in *; lia].
      apply elem_of_cons in Hx as [->|Hx]; [lia|]. eapply Forall_forall in Hcr; [|done].
      unfold separated in Hcr. lia. }
  destruct (IH Hwr) as (kept & split & -> & Hk & Hs & Hap & Hparts & Hmem).
  pose proof (parts_above cur rest _ Hcr Hparts) as [Hck Hcs]%Forall_app.
  destruct (range_minus_spec cur o Hc Ho) as [[-> Hdis]|(l & -> & Hl & Hlp & Hlm)]; simpl.
  - eexists _, _. split; [done|]. split_and!; [by apply wf_set_cons|done| | |].
    + apply Forall_forall. intros y Hy. constructor; [right; by eapply Forall_forall in Hcs|].
      by eapply Forall_forall in Hap.
    + simpl. constructor; [by apply Exists_cons_hd, part_of_refl|by apply parts_weaken].
    + intros k. rewrite !set_mem_cons. specialize (Hmem k). specialize (Hdis k). tauto.
  - assert (forall m, Forall (separated cur) m -> Forall (fun x => Forall (separated x) m) l) as Hlift.
    { intros m Hm. apply (Forall_impl _ _ _ Hlp). intros x Hx. apply (Forall_impl _ _ _ Hm).
      intros y. by apply separated_part. }
    eexists _, _. split; [done|]. split_and!; [done| | | |].
    + apply wf_set_app; auto.
    + apply Forall_app. split; [|done]. apply (Forall_impl _ _ _ (Hlift kept Hck)).
      intros x Hx. apply (Forall_impl _ _ _ Hx). intros y. by left.
    + apply Forall_app in Hparts as [Hpk Hps]. rewrite !Forall_app. split_and!.
      * by apply parts_weaken.
      * apply (Forall_impl _ _ _ Hlp). intros x Hx. by apply Exists_cons_hd.
      * by apply parts_weaken.
    + intros k. unfold set_mem in *. rewrite Exists_app, Exists_cons.
      specialize (Hmem k). specialize (Hlm k). tauto.
Qed.

(** ** Networks of a range *)

Lemma ctz_spec (b : Z) :
  is_byte b ->
  0 <= ctz 8 b <= 8 /\ b mod 2 ^ ctz 8 b = 0
  /\ (if ctz 8 b =? 8 then b = 0 else b mod 2 ^ (ctz 8 b + 1) <> 0).
Proof.
  intros Hb. unfold is_byte in Hb.
  assert (H : range_forallb 256 ctz_ok = true) by (vm_compute; reflexivity).
  pose proof (range_forallb_spec _ _ H b ltac:(lia)) as E. unfold ctz_ok in E.
  rewrite !andb_true_iff, Z.eqb_eq, !Z.leb_le in E. destruct E as [[[? ?] ?] E].
  split; [lia|]. split; [done|]. destruct (ctz 8 b =? 8).
  - by apply Z.eqb_eq.
  - by apply negb_true_iff, Z.eqb_neq in E.
Qed.

Lemma mod_low_byte (b x n : Z) : 0 <= n <= 8 -> (b + 256 * x) mod 2 ^ n = b mod 2 ^ n.
Proof.
  intros Hn. replace 256 with (2 ^ (8 - n) * 2 ^ n)
    by (rewrite <- Z.pow_add_r by lia; by replace (8 - n + n) with 8 by lia).
  replace (b + 2 ^ (8 - n) * 2 ^ n * x) with (b + 2 ^ (8 - n) * x * 2 ^ n) by lia.
  apply Z.mod_add. pose proof (pow2_pos n ltac:(lia)). lia.
Qed.

Lemma mod_high_byte (x n : Z) : 0 <= n -> (256 * x) mod 2 ^ (8 + n) = 256 * (x mod 2 ^ n).
Proof.
  intros Hn. rewrite Z.pow_add_r by lia. change (2 ^ 8) with 256.
  pose proof (pow2_pos n Hn). rewrite Z.mul_mod_distr_l; lia.
Qed.

(** The mask loop counts the trailing zero bits. *)
Lemma possible_mask_loop_spec (l : list Z) (mask : Z) :
  Forall is_byte l ->
  let z := mask - possible_mask_loop l mask in
  0 <= z <= 8 * Z.of_nat (length l) /\ le_value l mod 2 ^ z = 0
  /\ (z = 8 * Z.of_nat (length l) \/ le_value l mod 2 ^ (z + 1) <> 0).
Proof.
  intros Hl. revert mask. induction Hl as [|b l Hb Hl IH]; intros mask; cbv zeta.
  { simpl. rewrite Z.sub_diag. split_and!; [lia..|done|by left]. }
  destruct (ctz_spec b Hb) as (Hz & Hm & Hc). cbn [possible_mask_loop le_value].
  change (length (b :: l)) with (S (length l)). cbv zeta.
  destruct (Z.eqb_spec (ctz 8 b) 8) as [E|E]; cbn [negb].
  - subst b. specialize (IH (mask - ctz 8 0)). cbv zeta in IH. change (ctz 8 0) with 8 in *.
    set (z' := mask - 8 - possible_mask_loop l (mask - 8)) in *.
    replace (mask - possible_mask_loop l (mask - 8)) with (8 + z') by lia.
    rewrite <- Z.add_assoc, Z.add_0_l, !mod_high_byte by lia.
    destruct IH as (H1 & H2 & H3). split_and!; [lia..|]. destruct H3; [left|right]; lia.
  - replace (mask - (mask - ctz 8 b)) with (ctz 8 b) by lia.
    rewrite !mod_low_byte by lia. split_and!; [lia..|done|by right].
Qed.

Lemma getPossibleMaxMask_spec (ip : list Z) :
  wf_addr ip ->
  let z := maxMask ip - getPossibleMaxMask ip in
  0 <= z <= maxMask ip /\ be_value ip mod 2 ^ z = 0
  /\ (z = maxMask ip \/ be_value ip mod 2 ^ (z + 1) <> 0).
Proof.
  intros [_ Hb]. unfold getPossibleMaxMask.
  pose proof (possible_mask_loop_spec (rev ip) (maxMask ip) ltac:(by apply Forall_rev)) as H.
  rewrite le_value_rev, length_rev in H. unfold maxMask in *. by rewrite (Z.mul_comm 8) in H.
Qed.

Lemma fill_byte (n b : Z) :
  0 <= n <= 8 -> is_byte b ->
  Z.lor b (255 - Z.shiftl 255 n mod 256) = b / 2 ^ n * 2 ^ n + 2 ^ n - 1.
Proof.
  intros Hn Hb. unfold is_byte in Hb. apply Z.eqb_eq. change (fill_byte_ok n b = true).
  assert (H : range_forallb 9 (fun n => range_forallb 256 (fill_byte_ok n)) = true)
    by (vm_compute; reflexivity).
  pose proof (range_forallb_spec _ _ H n ltac:(lia)) as E; simpl in E.
  apply (range_forallb_spec _ _ E). lia.
Qed.

Lemma last_ip_loop_done (l : list Z) (n : Z) : n <= 0 -> last_ip_loop l n = l.
Proof. intros Hn. destruct l; [done|]. simpl. by rewrite (proj2 (Z.ltb_ge 0 n)). Qed.

(** The low [n] bits are set, byte by byte. *)
Lemma last_ip_loop_spec (l : list Z) (n : Z) :
  Forall is_byte l -> 0 <= n <= 8 * Z.of_nat (length l) ->
  Forall is_byte (last_ip_loop l n) /\ length (last_ip_loop l n) = length l
  /\ le_value (last_ip_loop l n) = le_value l / 2 ^ n * 2 ^ n + 2 ^ n - 1.
Proof.
  intros Hl. revert n. induction Hl as [|b l Hb Hl IH]; intros n Hn.
  { simpl in Hn. assert (n = 0) as -> by lia. split_and!; [constructor|done|done]. }
  change (length (b :: l)) with (S (length l)) in *. pose proof (pow2_pos n ltac:(lia)) as Hpos.
  cbn [last_ip_loop le_value]. destruct (Z.ltb_spec 0 n) as [H0|H0].
  2: { assert (n = 0) as -> by lia. split_and!; [by constructor|done|].
       cbn [le_value]. rewrite Z.div_1_r. lia. }
  destruct (Z.ltb_spec 8 n) as [H8|H8].
  - destruct (IH (n - 8) ltac:(lia)) as (IH1 & IH2 & IH3).
    replace (Z.lor b 255) with 255 by (pose proof (fill_byte 8 b ltac:(lia) Hb) as E;
      change (255 - Z.shiftl 255 8 mod 256) with 255 in E; rewrite E;
      unfold is_byte in Hb; rewrite Z.div_small; lia).
    split_and!; [constructor; [unfold is_byte; lia|done]|cbn; lia|]. cbn [le_value]. rewrite IH3.
    pose proof (pow2_pos (n - 8) ltac:(lia)).
    replace (2 ^ n) with (256 * 2 ^ (n - 8))
      by (change 256 with (2 ^ 8); rewrite <- Z.pow_add_r by lia; f_equal; lia).
    unfold is_byte in Hb. assert ((b + 256 * le_value l) / 256 = le_value l) as Hdiv by dlia.
    rewrite <- Z.div_div, Hdiv by lia. lia.
  - rewrite last_ip_loop_done, fill_byte by (done || lia). unfold is_byte in Hb.
    assert (E : 256 = 2 ^ (8 - n) * 2 ^ n)
      by (rewrite <- Z.pow_add_r by lia; by replace (8 - n + n) with 8 by lia).
    assert (Hdiv : (b + 256 * le_value l) / 2 ^ n = b / 2 ^ n + 2 ^ (8 - n) * le_value l)
      by (rewrite <- Z.div_add by lia; f_equal; rewrite E; lia).
    split_and!; [constructor; [|done]|done|cbn [le_value]; rewrite Hdiv, E; lia].
    pose proof (fill_low_bound b 8 n ltac:(lia) ltac:(lia)) as Hf.
    rewrite Z.shiftr_div_pow2 in Hf by lia. unfold is_byte. lia.
Qed.

Lemma getLastIpForMask_spec (ip : list Z) (mask : Z) :
  wf_addr ip -> 0 <= mask <= maxMask ip -> be_value ip mod 2 ^ (maxMask ip - mask) = 0 ->
  let last := getLastIpForMask ip mask in
  wf_addr last /\ length last = length ip /\ key last = key ip + 2 ^ (maxMask ip - mask) - 1.
Proof.
  intros Hip Hm Hal. unfold getLastIpForMask. set (n := maxMask ip - mask) in *.
  destruct (last_ip_loop_spec (rev ip) n) as (H1 & H2 & H3);
    [by apply Forall_rev, Hip|rewrite length_rev; unfold maxMask in *; lia|].
  rewrite le_value_rev in H3. rewrite length_rev in H2. cbv zeta.
  assert (Hlen : length (rev (last_ip_loop (rev ip) n)) = length ip) by (by rewrite length_rev).
  split_and!; [apply (wf_addr_same ip); [done|done|by apply Forall_rev]|done|].
  pose proof (key_same_length _ _ Hlen) as E. rewrite be_value_rev, H3 in E.
  pose proof (pow2_pos n ltac:(lia)). pose proof (Z.div_mod (be_value ip) (2 ^ n) ltac:(lia)). lia.
Qed.

(** Narrowing finds the widest block that fits. *)
Lemma narrow_spec (fuel : nat) (cur e : list Z) (mask : Z) :
  wf_addr cur -> wf_addr e -> length cur = length e -> key cur <= key e ->
  0 <= mask <= maxMask cur -> maxMask cur - mask <= Z.of_nat fuel ->
  be_value cur mod 2 ^ (maxMask cur - mask) = 0 ->
  exists m, narrow fuel cur (getLastIpForMask cur mask) mask e = Some (getLastIpForMask cur m, m)
    /\ mask <= m <= maxMask cur
    /\ key cur + 2 ^ (maxMask cur - m) - 1 <= key e
    /\ (m = mask \/ key e < key cur + 2 ^ (maxMask cur - m + 1) - 1).
Proof.
  intros Hc He Hlen Hle. revert mask. induction fuel as [|fuel IH]; intros mask Hm Hf Hal;
    destruct (getLastIpForMask_spec cur mask Hc Hm Hal) as (Hw & Hl & Hk);
    cbn [narrow]; destruct (ip_lt_spec e (getLastIpForMask cur mask)) as [Hlt|Hge]; auto.
  - replace (maxMask cur - mask) with 0 in Hk by lia. simpl in Hk. lia.
  - exists mask. split_and!; [done|lia..|]. by left.
  - assert (mask <> maxMask cur) by (intros ->; rewrite Z.sub_diag in Hk; simpl in Hk; lia).
    destruct (IH (mask + 1)) as (m & -> & H1 & H2 & H3); [lia|lia| |].
    { apply (mod_pow2_le _ (maxMask cur - mask)); [lia|done]. }
    exists m. split_and!; [done|lia..|]. destruct H3 as [->|H3]; right; [|done].
    replace (maxMask cur - (mask + 1) + 1) with (maxMask cur - mask) by lia. lia.
  - exists mask. split_and!; [done|lia..|]. by left.
Qed.

(** One iteration of the outer loop. *)
Lemma subnets_step (fuel : nat) (cur e : list Z) :
  wf_addr cur -> wf_addr e -> length cur = length e -> key cur <= key e ->
  exists m, let h := maxMask cur - m in
    greedy (be_value cur) (be_value e) (maxMask cur) h
    /\ ((key cur + 2 ^ h - 1 = key e /\ subnets_loop (S fuel) cur e = Some [(cur, m)])
        \/ exists next, wf_addr next /\ length next = length cur /\ key next = key cur + 2 ^ h
             /\ key next <= key e
             /\ subnets_loop (S fuel) cur e
                = rest ← subnets_loop fuel next e; Some ((cur, m) :: rest)).
Proof.
  intros Hc He Hlen Hle. pose proof (wf_addr_bound cur Hc) as (_ & Hmax & _).
  destruct (getPossibleMaxMask_spec cur Hc) as (Hz & Hal & Hmx).
  set (mask := getPossibleMaxMask cur) in *.
  destruct (narrow_spec 128 cur e mask) as (m & Hn & Hm & Hfit & Hnarrow); [done..|lia|lia|done|].
  assert (Hal' : be_value cur mod 2 ^ (maxMask cur - m) = 0)
    by (apply (mod_pow2_le _ (maxMask cur - mask)); [lia|done]).
  destruct (getLastIpForMask_spec cur m Hc ltac:(lia) Hal') as (Hw & Hl & Hk).
  exists m. cbv zeta. pose proof (key_same_length cur e Hlen) as Hke. split.
  { split_and!; [lia|lia|done|lia|]. destruct Hnarrow as [->|]; [|right; right; lia].
    destruct Hmx as [->|Hmx]; [by left|right; by left]. }
  cbn [subnets_loop]. rewrite (proj2 (ip_le_key cur e Hc He)) by done. fold mask.
  rewrite Hn. simpl. destruct (isMaxIp (getLastIpForMask cur m)) eqn:Hmaxip.
  - left. split; [|done]. destruct (Z.lt_ge_cases (key (getLastIpForMask cur m)) (key e)); [|lia].
    rewrite (below_not_max _ e) in Hmaxip by (done || congruence || lia). done.
  - destruct (inc_key _ Hw Hmaxip) as (next & -> & Hnw & Hnl & Hnk). simpl.
    destruct (Z.lt_ge_cases (key (getLastIpForMask cur m)) (key e)).
    + right. exists next. split_and!; [done|congruence|lia|lia|done].
    + left. split; [lia|]. assert (ip_le next e = false) as E
        by (apply not_true_iff_false; rewrite ip_le_key by done; lia).
      destruct fuel; simpl; by rewrite E.
Qed.

Lemma in_network_interval (cur : list Z) (m : Z) (a : list Z) :
  aligned_network (cur, m) -> wf_addr a ->
  in_network (cur, m) a <-> key cur <= key a <= key cur + 2 ^ (maxMask cur - m) - 1.
Proof.
  intros (Hc & Hm & Hal) Ha. unfold in_network; simpl in *. set (h := maxMask cur - m) in *.
  pose proof (wf_addr_bound cur Hc) as (Hb & Hmax & _). pose proof (pow2_pos h ltac:(lia)) as Hpos.
  pose proof (aligned_bound (be_value cur) (maxMask cur) h Hb ltac:(lia) Hal) as Hroom.
  assert (length a = length cur -> Z.shiftr (be_value a) h = Z.shiftr (be_value cur) h
          <-> key cur <= key a <= key cur + 2 ^ h - 1) as E.
  { intros Hlen. pose proof (key_same_length a cur Hlen) as Hk. rewrite !Z.shiftr_div_pow2 by lia.
    apply Z.mod_divide in Hal as [q Hq]; [|lia]. rewrite Hq, Z.div_mul by lia.
    pose proof (Z.div_mod (be_value a) (2 ^ h) ltac:(lia)).
    pose proof (Z.mod_pos_bound (be_value a) (2 ^ h) ltac:(lia)). split; intros; nia. }
  split; [intros [Hlen Hs]; by apply E|]. intros Hk.
  assert (Hlen : length a = length cur); [|by split; [|apply E]].
  unfold key, maxMask in *. pose proof (key_region a Ha) as Hra. unfold key in Hra.
  destruct Hc as [[Ec|Ec] _], Ha as [[Ea|Ea] _]; rewrite ?Ea, ?Ec in *; lia.
Qed.

Lemma exact_cover_last (cur e : list Z) (m : Z) :
  aligned_network (cur, m) -> key cur + 2 ^ (maxMask cur - m) - 1 = key e ->
  exact_cover [(cur, m)] cur e.
Proof.
  intros Hal Hk. split_and!; [by constructor| |by repeat constructor]. intros a Ha.
  rewrite Exists_cons, Exists_nil, in_network_interval by done. rewrite Hk. tauto.
Qed.

Lemma exact_cover_cons (cur next e : list Z) (m : Z) (rest : list (list Z * Z)) :
  aligned_network (cur, m) -> key next = key cur + 2 ^ (maxMask cur - m) -> key next <= key e ->
  exact_cover rest next e -> exact_cover ((cur, m) :: rest) cur e.
Proof.
  intros Hal Hk Hle (Hr & Hcov & Hord). split_and!; [by constructor| |].
  - intros a Ha. rewrite Exists_cons, in_network_interval, Hcov by done.
    pose proof (pow2_pos (maxMask cur - m)) as Hpos. destruct Hal as (_ & Hm & _). simpl in Hm. lia.
  - constructor; [done|]. apply Forall_forall. intros n Hn a b Ha Hb Hia Hib.
    apply in_network_interval in Hia; [|done..].
    assert (key next <= key b); [|lia]. apply (Hcov b Hb), Exists_exists. by exists n.
Qed.

(** A range inside an aligned block of [2 ^ t] addresses that starts with it
    takes at most [t + 1] iterations: the blocks only get smaller. *)
Lemma subnets_descend (t fuel : nat) (cur e : list Z) :
  wf_addr cur -> wf_addr e -> length cur = length e -> key cur <= key e ->
  be_value cur mod 2 ^ Z.of_nat t = 0 -> key e < key cur + 2 ^ Z.of_nat t ->
  (t < fuel)%nat ->
  exists nets, subnets_loop fuel cur e = Some nets /\ exact_cover nets cur e.
Proof.
  revert fuel cur. induction (lt_wf t) as [t _ IH]; intros fuel cur Hc He Hlen Hle Hal Hsize Hf.
  destruct fuel as [|fuel]; [lia|].
  destruct (subnets_step fuel cur e Hc He Hlen Hle) as (m & (Hh & Hhal & Hfit & Hg) & Hstep).
  set (h := maxMask cur - m) in *.
  assert (Haln : aligned_network (cur, m)) by (split_and!; [done|simpl; lia|simpl; lia|done]).
  destruct Hstep as [[Hlast ->]|(next & Hnw & Hnl & Hnk & Hne & ->)].
  { eexists. split; [done|]. by apply exact_cover_last. }
  pose proof (key_same_length cur e Hlen) as Hke.
  assert (Hht : h < Z.of_nat t).
  { destruct (Z.lt_ge_cases h (Z.of_nat t)); [done|].
    pose proof (Z.pow_le_mono_r 2 (Z.of_nat t) h). lia. }
  assert (Hg' : be_value e < be_value cur + 2 ^ (h + 1) - 1).
  { destruct Hg as [->|[Hg|Hg]]; [|destruct Hg; apply (mod_pow2_le _ (Z.of_nat t)); [lia|done]|done].
    pose proof (wf_addr_bound e He) as (Hb & _). pose proof (wf_addr_bound cur Hc) as (Hb' & _).
    unfold maxMask in *. rewrite <- Hlen in Hb. lia. }
  destruct (IH (Z.to_nat h) ltac:(lia) fuel next) as (rest & -> & Hrest);
    [done|done|congruence|done| | |lia|].
  - rewrite Z2Nat.id by lia. pose proof (key_same_length next cur Hnl).
    replace (be_value next) with (be_value cur + 1 * 2 ^ h) by lia.
    rewrite Z.mod_add by (pose proof (pow2_pos h ltac:(lia)); lia). done.
  - rewrite Z2Nat.id by lia. rewrite Z.pow_add_r in Hg' by lia. lia.
  - simpl. eexists. split; [done|]. by apply (exact_cover_cons cur next).
Qed.

Lemma next_alignment (v z : Z) :
  0 <= z -> v mod 2 ^ z = 0 -> v mod 2 ^ (z + 1) <> 0 -> (v + 2 ^ z) mod 2 ^ (z + 1) = 0.
Proof.
  intros Hz Hv Hodd. pose proof (pow2_pos z Hz). rewrite Z.pow_add_r in * by lia.
  apply Z.mod_divide in Hv as [q ->]; [|lia]. destruct (Z.Even_or_Odd q) as [[k ->]|[k ->]].
  - destruct Hodd. apply Z.mod_divide; [lia|]. exists k. lia.
  - apply Z.mod_divide; [lia|]. exists (k + 1). lia.
Qed.

(** While the range continues past the aligned block at its start, each
    iteration gains a bit of alignment. *)
Lemma subnets_ascend (d fuel : nat) (cur e : list Z) (t : Z) :
  wf_addr cur -> wf_addr e -> length cur = length e -> key cur <= key e ->
  0 <= t <= maxMask cur -> be_value cur mod 2 ^ t = 0 -> maxMask cur - t = Z.of_nat d ->
  (d + Z.to_nat (maxMask cur) < fuel)%nat ->
  exists nets, subnets_loop fuel cur e = Some nets /\ exact_cover nets cur e.
Proof.
  revert fuel cur t. induction (lt_wf d) as [d _ IH]; intros fuel cur t Hc He Hlen Hle Ht Hal Hd Hf.
  destruct (getPossibleMaxMask_spec cur Hc) as (Hz & Hzal & Hzmax).
  set (z := maxMask cur - getPossibleMaxMask cur) in *. clearbody z.
  assert (Htz : t <= z).
  { destruct (Z.lt_ge_cases z t); [|done]. destruct Hzmax as [|Hzmax]; [lia|].
    destruct Hzmax. apply (mod_pow2_le _ t); [lia|done]. }
  destruct (Z.lt_ge_cases (key e) (key cur + 2 ^ z)) as [Hin|Hout].
  { apply (subnets_descend (Z.to_nat z)); rewrite ?Z2Nat.id; auto; lia. }
  destruct fuel as [|fuel]; [lia|].
  destruct (subnets_step fuel cur e Hc He Hlen Hle) as (m & (Hh & Hhal & Hfit & Hg) & Hstep).
  pose proof (key_same_length cur e Hlen) as Hke.
  pose proof (wf_addr_bound e He) as (Hbe & _). pose proof (wf_addr_bound cur Hc) as (Hbc & _).
  assert (Hw : maxMask e = maxMask cur) by (unfold maxMask; by rewrite Hlen). rewrite Hw in Hbe.
  destruct Hzmax as [->|Hzmax]; [lia|].
  assert (Heq : maxMask cur - m = z).
  { destruct (Z.lt_trichotomy (maxMask cur - m) z) as [Hlt|[|Hgt]]; [|done|].
    - pose proof (Z.pow_le_mono_r 2 (maxMask cur - m + 1) z).
      destruct Hg as [?|[Hg|?]]; [lia| |lia]. destruct Hg. apply (mod_pow2_le _ z); [lia|done].
    - destruct Hzmax. apply (mod_pow2_le _ (maxMask cur - m)); [lia|done]. }
  assert (Haln : aligned_network (cur, m)) by (split_and!; [done|simpl; lia|simpl; lia|done]).
  destruct Hstep as [[Hlast ->]|(next & Hnw & Hnl & Hnk & Hne & ->)].
  { eexists. split; [done|]. by apply exact_cover_last. }
  pose proof (key_same_length next cur Hnl) as Hkn.
  assert (Hnm : maxMask next = maxMask cur) by (unfold maxMask; by rewrite Hnl).
  assert (z < maxMask cur).
  { destruct (Z.lt_ge_cases z (maxMask cur)); [done|].
    pose proof (Z.pow_le_mono_r 2 (maxMask cur) z). lia. }
  destruct (IH (Z.to_nat (maxMask cur - (z + 1))) ltac:(lia) fuel next (z + 1)) as (rest & -> & Hrest);
    [done|done|congruence|done|lia| |lia|lia|].
  - replace (be_value next) with (be_value cur + 2 ^ z) by (rewrite Heq in Hnk; lia).
    apply next_alignment; [lia|done..].
  - simpl. eexists. split; [done|]. by apply (exact_cover_cons cur next).
Qed.

Lemma range_subnets_spec (r : IpRange) :
  wf_range r ->
  exists nets, range_subnets subnets_fuel r = Some nets
               /\ exact_cover nets (r_start r) (r_end r).
Proof.
  intros (Hs & He & Hl & Hk). pose proof (wf_addr_bound _ Hs) as (_ & Hm & _).
  apply (subnets_ascend (Z.to_nat (maxMask (r_start r))) _ _ _ 0); auto; try lia.
  - by rewrite Z.mod_1_r.
  - unfold subnets_fuel. lia.
Qed.

Lemma set_subnets_spec (ranges : list IpRange) :
  Forall wf_range ranges ->
  exists nets, set_subnets subnets_fuel ranges = Some nets /\ Forall aligned_network nets
    /\ forall a, wf_addr a -> Exists (fun n => in_network n a) nets <-> set_mem ranges (key a).
Proof.
  induction 1 as [|r ranges Hr _ (nets & IH & Hal & Hcov)]; cbn [set_subnets].
  { exists []. split_and!; [done|constructor|]. intros a _. pose proof (set_mem_nil (key a)).
    rewrite Exists_nil. tauto. }
  destruct (range_subnets_spec r Hr) as (l & -> & Hl & Hlc & _). rewrite IH. simpl.
  eexists. split_and!; [done|by apply Forall_app|]. intros a Ha.
  rewrite Exists_app, set_mem_cons, Hcov, Hlc by done. done.
Qed.

(** ** The range of a network *)

Lemma mask_bytes (r b : Z) :
  0 <= r < 8 -> is_byte b ->
  let byteMask := Z.shiftl 255 (8 - r) mod 256 in
  Z.land b byteMask = Z.shiftr b (8 - r) * 2 ^ (8 - r)
  /\ Z.lor b (255 - byteMask) = Z.shiftr b (8 - r) * 2 ^ (8 - r) + 2 ^ (8 - r) - 1.
Proof.
  intros Hr Hb. unfold is_byte in Hb.
  assert (H : range_forallb 8 (fun r => range_forallb 256 (mask_bytes_ok r)) = true)
    by (vm_compute; reflexivity).
  pose proof (range_forallb_spec _ _ H r ltac:(lia)) as E; simpl in E.
  pose proof (range_forallb_spec _ _ E b ltac:(lia)) as E'. unfold mask_bytes_ok in E'.
  by rewrite andb_true_iff, !Z.eqb_eq in E'.
Qed.

Lemma be_value_replicate_0 (n : nat) : be_value (replicate n 0) = 0.
Proof. induction n as [|n IH]; [done|]. simpl. lia. Qed.

(** The first and the last address of a network. *)
Lemma range_from_spec (a : list Z) (mask : Z) :
  wf_addr a -> 0 <= mask <= maxMask a ->
  let h := maxMask a - mask in
  let '(s, e) := range_from a mask in
  wf_addr s /\ wf_addr e /\ length s = length a /\ length e = length a
  /\ be_value s = Z.shiftr (be_value a) h * 2 ^ h /\ be_value e = be_value s + 2 ^ h - 1.
Proof.
  intros Ha Hm h. unfold range_from. destruct (quot_rem_8 mask ltac:(lia)) as [-> ->].
  pose proof (div8_split mask ltac:(lia)) as Hk. set (k := Z.to_nat (mask / 8)) in *.
  set (r := mask mod 8) in *. clearbody k r. pose proof (proj2 Ha) as Hb.
  destruct (Nat.ltb_spec k (length a)) as [Hlt|Hge].
  2: { assert (h = 0) as -> by (unfold h, maxMask in *; lia).
       rewrite Z.shiftr_0_r. split_and!; auto; lia. }
  destruct (lookup_lt_is_Some_2 a k Hlt) as [b Hab]. rewrite Hab. simpl default.
  assert (Hby : is_byte b) by (by eapply Forall_lookup_1).
  destruct (mask_bytes r b ltac:(lia) Hby) as [-> ->].
  pose proof (be_value_top k r a b Hb Hab ltac:(lia)) as Htop.
  replace (8 * Z.of_nat (length a) - (8 * Z.of_nat k + r)) with h in Htop by (unfold h, maxMask; lia).
  set (x := Z.shiftr b (8 - r)) in *. set (n := (length a - S k)%nat).
  assert (Hlen : forall c (l : list Z), length l = n -> length (take k a ++ c :: l) = length a).
  { intros c l Hl. rewrite length_app, length_take. simpl. unfold n in Hl. lia. }
  assert (Hx : 0 <= x < 2 ^ r) by (unfold x; apply shiftr_byte_bound; [done|lia]).
  assert (E8 : 2 ^ r * 2 ^ (8 - r) = 256)
    by (rewrite <- Z.pow_add_r by lia; by replace (r + (8 - r)) with 8 by lia).
  pose proof (pow2_pos (8 - r) ltac:(lia)) as Hp8.
  assert (Hbytes : forall c (l : list Z), is_byte c -> Forall is_byte l ->
                   Forall is_byte (take k a ++ c :: l)).
  { intros. apply Forall_app. split; [by apply Forall_take|by constructor]. }
  assert (Eh : 2 ^ h = 2 ^ (8 - r) * 2 ^ (8 * Z.of_nat n))
    by (rewrite <- Z.pow_add_r by lia; f_equal; unfold h, n, maxMask; lia).
  assert (E0 : forall c (l : list Z), length l = n -> be_value (take k a ++ c :: l)
           = be_value (take k a) * (256 * 2 ^ (8 * Z.of_nat n)) + c * 2 ^ (8 * Z.of_nat n) + be_value l).
  { intros c l Hl. rewrite be_value_app. simpl length. rewrite pow2_8S. simpl. rewrite Hl. lia. }
  split_and!; try (rewrite Hlen; [done|apply length_replicate]).
  - apply (wf_addr_same a); [done|rewrite Hlen; [done|apply length_replicate]|].
    apply Hbytes; [unfold is_byte; nia|apply Forall_replicate; unfold is_byte; lia].
  - apply (wf_addr_same a); [done|rewrite Hlen; [done|apply length_replicate]|].
    apply Hbytes; [unfold is_byte; nia|apply Forall_replicate; unfold is_byte; lia].
  - rewrite E0, be_value_replicate_0, Htop, Eh by apply length_replicate. rewrite <- E8. lia.
  - rewrite !E0, be_value_replicate_0, be_value_replicate_255, Eh by apply length_replicate. lia.
Qed.

Lemma IpRange_of_network_spec (a : list Z) (mask : Z) :
  wf_addr a -> 0 <= mask <= maxMask a ->
  exists r, IpRange_of_network a mask = Some r /\ wf_range r
            /\ forall b, wf_addr b -> mem r (key b) <-> in_network (a, mask) b.
Proof.
  intros Ha Hm. unfold IpRange_of_network. pose proof (range_from_spec a mask Ha Hm) as H.
  cbv zeta in H. destruct (range_from a mask) as [s e].
  destruct H as (Hs & He & Hls & Hle & Hvs & Hve). set (h := maxMask a - mask) in *.
  pose proof (pow2_pos h ltac:(lia)) as Hpos.
  pose proof (key_same_length s e ltac:(congruence)) as Hk.
  destruct (IpRange_new_ok s e) as [-> Hr]; [done|done|congruence|lia|].
  eexists. split_and!; [done|done|]. intros b Hb.
  assert (Hal : aligned_network (s, mask)).
  { assert (maxMask s = maxMask a) as E by (unfold maxMask; by rewrite Hls).
    split_and!; [done|simpl; lia|simpl; lia|]. simpl. rewrite E. fold h. rewrite Hvs. apply Z.mod_mul. lia. }
  assert (Hsa : Z.shiftr (be_value s) h = Z.shiftr (be_value a) h).
  { rewrite Hvs, <- (Z.add_0_r (_ * _)). apply shiftr_add_low; lia. }
  pose proof (in_network_interval s mask b Hal Hb) as E. unfold in_network in *; simpl in *.
  assert (maxMask s = maxMask a) as E' by (unfold maxMask; by rewrite Hls).
  rewrite E', Hls in E. fold h in E |- *. rewrite Hsa in E. rewrite E. unfold mem; simpl. lia.
Qed.

(** ** Adding to and removing from a set *)

Lemma set_add_spec (s : list IpRange) (r : IpRange) :
  wf_set s -> wf_range r ->
  exists s', set_add s r = Some s' /\ wf_set s'
             /\ forall k, set_mem s' k <-> set_mem s k \/ mem r k.
Proof.
  intros Hs Hr. unfold set_add.
  destruct (add_loop_spec s r Hs Hr) as (kept & [r'|] & -> & Hk & _ & Hres); simpl.
  - destruct Hres as (Hr' & Hap & _ & Hmem).
    destruct (set_insert_spec r' kept Hr' Hk Hap) as (H1 & H2 & _).
    eexists. split_and!; [done|done|]. intros k. rewrite H2, <- Hmem. tauto.
  - by eexists.
Qed.

Lemma set_remove_spec (s : list IpRange) (r : IpRange) :
  wf_set s -> wf_range r ->
  exists s', set_remove s r = Some s' /\ wf_set s'
             /\ forall k, set_mem s' k <-> set_mem s k /\ ~ mem r k.
Proof.
  intros Hs Hr. unfold set_remove.
  destruct (remove_loop_spec s r Hs Hr) as (kept & split & -> & Hk & Hsp & Hap & _ & Hmem). simpl.
  destruct (insert_all_spec split kept Hk Hsp Hap) as [H1 H2].
  eexists. split_and!; [done|done|]. intros k. by rewrite H2.
Qed.

(** ** Properties *)

(** Adding a range to a set keeps the ranges in order with gaps between
    them, raises no exception, and adds exactly the addresses of the range. *)
Theorem set_add_union (s : list IpRange) (r : IpRange) :
  wf_set s -> wf_range r ->
  exists s', set_add s r = Some s' /\ wf_set s'
             /\ forall a, set_mem s' (key a) <-> set_mem s (key a) \/ mem r (key a).
Proof. intros Hs Hr. destruct (set_add_spec s r Hs Hr) as (s' & ? & ? & ?). eauto. Qed.

(** Removing a range from a set keeps the set's invariant, raises no
    exception, and removes exactly the addresses of the range. *)
Theorem set_remove_difference (s : list IpRange) (r : IpRange) :
  wf_set s -> wf_range r ->
  exists s', set_remove s r = Some s' /\ wf_set s'
             /\ forall a, set_mem s' (key a) <-> set_mem s (key a) /\ ~ mem r (key a).
Proof. intros Hs Hr. destruct (set_remove_spec s r Hs Hr) as (s' & ? & ? & ?). eauto. Qed.

(** C15: the networks of a range are aligned, come in the order of their
    addresses without an overlap, and cover exactly the addresses of the
    range, and both loops finish: at most twice as many networks as address bits. *)
Theorem subnets_exact_cover (r : IpRange) :
  wf_range r ->
  exists nets, range_subnets subnets_fuel r = Some nets
    /\ Forall aligned_network nets
    /\ StronglySorted before nets
    /\ forall a, wf_addr a ->
         Exists (fun n => in_network n a) nets <-> mem r (key a).
Proof.
  intros Hr. destruct (range_subnets_spec r Hr) as (nets & ? & ? & ? & ?).
  exists nets. split_and!; assumption.
Qed.

(** incrementing an address and decrementing it again gives it back; only
    the greatest address has no successor. *)
Theorem inc_dec_roundtrip (a : list Z) :
  wf_addr a ->
  match inc a with
  | Some a' => wf_addr a' /\ dec a' = Some a /\ key a' = key a + 1
  | None => be_value a = 2 ^ maxMask a - 1
  end.
Proof.
  intros Ha. destruct (isMaxIp a) eqn:Hm.
  - unfold inc. unfold isMaxIp in Hm. rewrite Hm. pose proof (all_bytes_255 a (proj2 Ha)) as E.
    rewrite Hm in E. unfold maxMask. by rewrite Z.mul_comm.
  - destruct (inc_key a Ha Hm) as (a' & -> & Ha' & Hl & Hk).
    destruct (dec_key a' Ha') as (a'' & -> & Ha'' & _ & Hk');
      [apply (above_not_min _ a); auto; lia|].
    split_and!; [done| |done]. f_equal. apply key_inj; auto. lia.
Qed.

(** ** Witnesses *)

Definition example_range : IpRange := mkRange [10; 0; 0; 5] [10; 0; 1; 7].

Lemma example_addr (a b c d : Z) :
  is_byte a -> is_byte b -> is_byte c -> is_byte d -> wf_addr [a; b; c; d].
Proof. intros. split; [by left|]. by rewrite !Forall_cons, Forall_nil. Qed.

Lemma example_range_wf : wf_range example_range.
Proof.
  do 2 (split; [apply example_addr; unfold is_byte; lia|]). split; [done|]. by vm_compute.
Qed.

Lemma set_add_union_witness :
  exists s', set_add [] example_range = Some s' /\ wf_set s'.
Proof.
  destruct (set_add_union [] example_range) as (s' & ? & ? & _);
    [apply wf_set_nil|apply example_range_wf|by exists s'].
Defined.

Lemma set_remove_difference_witness :
  exists s', set_remove [example_range] (mkRange [10; 0; 0; 9] [10; 0; 0; 9]) = Some s' /\ wf_set s'.
Proof.
  destruct (set_remove_difference [example_range] (mkRange [10; 0; 0; 9] [10; 0; 0; 9]))
    as (s' & ? & ? & _); [apply wf_set_single, example_range_wf| |by exists s'].
  do 2 (split; [apply example_addr; unfold is_byte; lia|]). split; [done|]. by vm_compute.
Defined.

Lemma subnets_exact_cover_witness :
  exists nets, range_subnets subnets_fuel example_range = Some nets /\ Forall aligned_network nets.
Proof.
  destruct (subnets_exact_cover example_range example_range_wf) as (nets & ? & ? & _).
  exists nets. split; assumption.
Defined.

Lemma inc_dec_roundtrip_witness : dec [10; 0; 1; 0] = Some [10; 0; 0; 255].
Proof.
  assert (E : inc [10; 0; 0; 255] = Some [10; 0; 1; 0]) by (vm_compute; reflexivity).
  pose proof (inc_dec_roundtrip [10; 0; 0; 255]) as H. rewrite E in H.
  apply H. apply example_addr; unfold is_byte; lia.
Defined.
