(* ===== verification/AndroidRoutes.v ===== *)
(** * Routes of the Android tunnel

    Model of [ProtocolConfig.Builder] of
    [client/android/protocolApi/src/main/kotlin/ProtocolConfig.kt]: the routes
    of a tunnel, how split tunnelling rewrites them, and how versions of
    Android without excluded routes get a list of networks instead, computed
    with the range sets of [IpRange].  An [InetNetwork] is its address bytes
    and its mask; a [mutableSetOf] is the list of its elements in insertion
    order.

    The reference semantics of a route list is [decides]: of the routes that
    cover an address the last one says whether it is tunnelled. *)

From stdpp Require Import base numbers list sets.
From Stdlib Require Import ZArith Lia.
From S2P Require Import Prelude IpRange.
Local Open Scope Z_scope.

Abbreviation InetNetwork := (list Z * Z)%type.

Record Route := mkRoute { inetNetwork : InetNetwork; include : bool }.

#[export] Instance Route_eq_dec : EqDecision Route.
Proof. solve_decision. Defined.

(** The fields of the builder that routing and validation use. *)
Record Builder := mkBuilder {
  addresses : list InetNetwork;
  routes : list Route;
  includedAddresses : list InetNetwork;
  excludedAddresses : list InetNetwork;
  mtu : Z
}.

Definition set_routes (b : Builder) (r : list Route) : Builder :=
  mkBuilder (addresses b) r (includedAddresses b) (excludedAddresses b) (mtu b).

(** [routes += r] *)
Definition put_route (l : list Route) (r : Route) : list Route :=
  if decide (r ∈ l) then l else l ++ [r].

Definition put_routes (l rs : list Route) : list Route := foldl put_route l rs.

Definition addRoute (n : InetNetwork) (b : Builder) : Builder :=
  set_routes b (put_route (routes b) (mkRoute n true)).

Definition addRoutes (ns : list InetNetwork) (b : Builder) : Builder :=
  set_routes b (put_routes (routes b) (map (fun n => mkRoute n true) ns)).

Definition excludeRoutes (ns : list InetNetwork) (b : Builder) : Builder :=
  set_routes b (put_routes (routes b) (map (fun n => mkRoute n false) ns)).

Definition removeRoute (n : InetNetwork) (b : Builder) : Builder :=
  set_routes b (filter (fun r => inetNetwork r <> n) (routes b)).

Definition prependRoutes (block : Builder -> Builder) (b : Builder) : Builder :=
  let savedRoutes := routes b in
  let b' := block (set_routes b []) in
  set_routes b' (put_routes (routes b') savedRoutes).

(** 0.0.0.0/0, ::/0, 2000::/3, 127.0.0.0/8 and ::1/128 *)
Definition ipv4Default : InetNetwork := ([0; 0; 0; 0], 0).
Definition ipv6Default : InetNetwork := (replicate 16 0, 0).
Definition ipv6Global : InetNetwork := (32 :: replicate 15 0, 3).
Definition ipv4Loopback : InetNetwork := ([127; 0; 0; 0], 8).
Definition ipv6Loopback : InetNetwork := (replicate 15 0 ++ [1], 128).

(** [None] is the [BadConfigException]. *)
Definition processSplitTunneling (b : Builder) : option Builder :=
  if bool_decide (includedAddresses b <> []) && bool_decide (excludedAddresses b <> []) then None
  else if bool_decide (includedAddresses b <> []) then
    Some (prependRoutes (addRoutes (includedAddresses b))
            (removeRoute ipv6Global (removeRoute ipv6Default (removeRoute ipv4Default b))))
  else if bool_decide (excludedAddresses b <> []) then
    Some (prependRoutes
            (fun b' => excludeRoutes (excludedAddresses b) (addRoute ipv6Global (addRoute ipv4Default b')))
            b)
  else Some b.

(** [IpRange(it.inetNetwork)] *)
Definition network_range (n : InetNetwork) : option IpRange := IpRange_of_network n.1 n.2.

(** [routes.forEach { if (it.include) add else remove }] *)
Fixpoint apply_routes (l : list Route) (s : list IpRange) : option (list IpRange) :=
  match l with
  | [] => Some s
  | r :: l' =>
      range ← network_range (inetNetwork r);
      s' ← (if include r then set_add s range else set_remove s range);
      apply_routes l' s'
  end.

(** The routes without exclusions, for versions of Android before 13. *)
Definition flatten_routes (l : list Route) : option (list Route) :=
  s ← apply_routes l [];
  lo4 ← network_range ipv4Loopback;
  s ← set_remove s lo4;
  lo6 ← network_range ipv6Loopback;
  s ← set_remove s lo6;
  nets ← set_subnets subnets_fuel s;
  Some (put_routes [] (map (fun n => mkRoute n true) nets)).

Definition isIpv4 (n : InetNetwork) : bool := (length n.1 =? 4)%nat.

(** [it.include && if (isIpv4) address[0] == 127 else it == ipv6Loopback] *)
Definition is_loopback_route (r : Route) : bool :=
  include r &&
  (if isIpv4 (inetNetwork r) then bool_decide (head (inetNetwork r).1 = Some 127)
   else bool_decide (inetNetwork r = ipv6Loopback)).

(** An included ::/0 is replaced by 2000::/3, put first. *)
Definition is_default6 (r : Route) : bool := include r && bool_decide (inetNetwork r = ipv6Default).

Definition replace_default6 (b : Builder) : Builder :=
  if existsb is_default6 (routes b)
  then prependRoutes (addRoute ipv6Global)
         (set_routes b (filter (fun r => is_default6 r = false) (routes b)))
  else b.

(** [SDK_INT < TIRAMISU] is [sdk_lt_33]. *)
Definition processRoutes (sdk_lt_33 : bool) (b : Builder) : option Builder :=
  let b1 := replace_default6 b in
  b2 ← (if sdk_lt_33 && existsb (fun r => negb (include r)) (routes b1)
        then l ← flatten_routes (routes b1); Some (set_routes b1 l)
        else Some b1);
  Some (set_routes b2 (filter (fun r => is_loopback_route r = false) (routes b2))).

Definition validate (b : Builder) : option Builder :=
  if bool_decide (addresses b = []) || bool_decide (routes b = []) || (mtu b =? 0)
  then None else Some b.

Definition configBuild (sdk_lt_33 : bool) (b : Builder) : option Builder :=
  b ← processSplitTunneling b;
  b ← processRoutes sdk_lt_33 b;
  validate b.

(** ** Reference semantics *)

Definition in_networkb (n : InetNetwork) (a : list Z) : bool :=
  (length a =? length n.1)%nat
  && (Z.shiftr (be_value a) (maxMask n.1 - n.2) =? Z.shiftr (be_value n.1) (maxMask n.1 - n.2)).

(** The last route that covers [a] decides; [d] is what holds before. *)
Definition decides_from (d : bool) (l : list Route) (a : list Z) : bool :=
  foldl (fun d r => if in_networkb (inetNetwork r) a then include r else d) d l.

Definition decides (l : list Route) (a : list Z) : bool := decides_from false l a.

Definition wf_net (n : InetNetwork) : Prop := wf_addr n.1 /\ 0 <= n.2 <= maxMask n.1.

Definition wf_routes (l : list Route) : Prop := Forall (fun r => wf_net (inetNetwork r)) l.

(** The address is in some included route. *)
Definition routes_cover (l : list Route) (a : list Z) : Prop :=
  Exists (fun r => include r = true /\ in_network (inetNetwork r) a) l.

Definition is_loopback (a : list Z) : Prop :=
  in_network ipv4Loopback a \/ in_network ipv6Loopback a.

(** Only the default routes, included. *)
Definition default_routes (l : list Route) : Prop :=
  Forall (fun r => r = mkRoute ipv4Default true \/ r = mkRoute ipv6Default true
                   \/ r = mkRoute ipv6Global true) l.

(** Exclusive split tunnelling over the default routes: two default routes in
    some order, then the exclusions. *)
Definition exclusive_shape (l : list Route) (ex : list InetNetwork) : Prop :=
  exists d1 d2 m, l = [mkRoute d1 true; mkRoute d2 true] ++ m
    /\ (d1 = ipv4Default /\ d2 = ipv6Global \/ d1 = ipv6Global /\ d2 = ipv4Default)
    /\ Forall (fun r => include r = false) m
    /\ forall n, mkRoute n false ∈ m <-> n ∈ ex.

(** The routes of a configuration that lists the IPv4 default route in halves,
    with 8.8.8.8 excluded from the tunnel. *)
Definition halves_example : Builder :=
  mkBuilder [([10; 8; 0; 2], 32)]
    [mkRoute ([0; 0; 0; 0], 1) true; mkRoute ([128; 0; 0; 0], 1) true]
    [] [([8; 8; 8; 8], 32)] 1280.

(** The same exclusion over the two default routes. *)
Definition exclusive_example : Builder :=
  mkBuilder [([10; 8; 0; 2], 32)] [mkRoute ipv4Default true; mkRoute ipv6Default true]
    [] [([8; 8; 8; 8], 32)] 1280.

(** ** Lemmas *)

Lemma in_networkb_spec (n : InetNetwork) (a : list Z) :
  in_networkb n a = true <-> in_network n a.
Proof. unfold in_networkb, in_network. by rewrite andb_true_iff, Nat.eqb_eq, Z.eqb_eq. Qed.

Lemma routes_coverb_spec (l : list Route) (a : list Z) :
  existsb (fun r => include r && in_networkb (inetNetwork r) a) l = true -> routes_cover l a.
Proof.
  intros (r & Hr & [Hi Hn]%andb_true_iff)%existsb_exists. apply Exists_exists. exists r.
  split; [by apply list_elem_of_In|]. by rewrite in_networkb_spec in Hn.
Qed.

Lemma network_range_spec (n : InetNetwork) :
  wf_net n ->
  exists r, network_range n = Some r /\ wf_range r
            /\ forall a, wf_addr a -> mem r (key a) <-> in_network n a.
Proof. destruct n as [addr m]. intros [Ha Hm]. by apply IpRange_of_network_spec. Qed.

#[local] Opaque network_range.

Lemma elem_of_put_routes (r : Route) (l rs : list Route) :
  r ∈ put_routes l rs <-> r ∈ l \/ r ∈ rs.
Proof.
  revert l. induction rs as [|x rs IH]; intros l; simpl; [set_solver|].
  rewrite IH. unfold put_route. case_decide; set_solver.
Qed.

Lemma apply_routes_spec (l : list Route) (s : list IpRange) :
  wf_routes l -> wf_set s ->
  exists s', apply_routes l s = Some s' /\ wf_set s'
    /\ forall a d, wf_addr a -> (set_mem s (key a) <-> d = true) ->
                   (set_mem s' (key a) <-> decides_from d l a = true).
Proof.
  intros Hl. revert s. induction Hl as [|r l Hr Hl IH]; intros s Hs; simpl.
  { exists s. by split_and!. }
  destruct (network_range_spec _ Hr) as (range & -> & Hrange & Hmem). simpl.
  assert (exists s', (if include r then set_add s range else set_remove s range) = Some s'
            /\ wf_set s'
            /\ forall k, set_mem s' k <-> if include r then set_mem s k \/ mem range k
                                         else set_mem s k /\ ~ mem range k) as (s1 & -> & Hs1 & Hm1)
    by (destruct (include r); [by apply set_add_spec|by apply set_remove_spec]).
  destruct (IH s1 Hs1) as (s2 & E & Hs2 & Hm2). exists s2. split_and!; [done|done|].
  intros a d Ha Hd. apply Hm2; [done|]. rewrite Hm1. specialize (Hmem a Ha).
  destruct (in_networkb (inetNetwork r) a) eqn:E'.
  - apply in_networkb_spec in E'. destruct (include r); naive_solver.
  - assert (~ in_network (inetNetwork r) a) by (by rewrite <- in_networkb_spec, E').
    destruct (include r); tauto.
Qed.

Lemma wf_net_loopback4 : wf_net ipv4Loopback.
Proof. split; [split; [by left|]|done]. repeat constructor; unfold is_byte; lia. Qed.

Lemma wf_net_loopback6 : wf_net ipv6Loopback.
Proof. split; [split; [by right|]|done]. repeat constructor; unfold is_byte; lia. Qed.

Lemma routes_cover_included (nets : list InetNetwork) (a : list Z) :
  routes_cover (put_routes [] (map (fun n => mkRoute n true) nets)) a
  <-> Exists (fun n => in_network n a) nets.
Proof.
  unfold routes_cover. rewrite !Exists_exists. split.
  - intros (r & Hr & _ & Hin). apply elem_of_put_routes in Hr as [Hr|Hr]; [set_solver|].
    apply list_elem_of_fmap in Hr as (n & -> & Hn). eauto.
  - intros (n & Hn & Hin). exists (mkRoute n true). split_and!; [|done|done].
    apply elem_of_put_routes. right. apply list_elem_of_fmap. eauto.
Qed.

(** Flattening: the networks tunnel exactly what the routes decide, less the
    loopback addresses. *)
Lemma flatten_routes_spec (l : list Route) :
  wf_routes l ->
  exists l', flatten_routes l = Some l'
    /\ Forall (fun r => include r = true /\ aligned_network (inetNetwork r)) l'
    /\ forall a, wf_addr a ->
         routes_cover l' a <-> decides l a = true /\ ~ is_loopback a.
Proof.
  intros Hl. unfold flatten_routes.
  destruct (apply_routes_spec l [] Hl wf_set_nil) as (s & -> & Hs & Hm). simpl.
  destruct (network_range_spec _ wf_net_loopback4) as (r4 & -> & Hr4 & Hm4). simpl.
  destruct (set_remove_spec s r4 Hs Hr4) as (s1 & -> & Hs1 & Hm1). simpl.
  destruct (network_range_spec _ wf_net_loopback6) as (r6 & -> & Hr6 & Hm6). simpl.
  destruct (set_remove_spec s1 r6 Hs1 Hr6) as (s2 & -> & Hs2 & Hm2). simpl.
  destruct (set_subnets_spec s2 (proj1 Hs2)) as (nets & -> & Hal & Hcov). simpl.
  eexists. split_and!; [done| |].
  - apply Forall_forall. intros r [Hr|Hr]%elem_of_put_routes; [set_solver|].
    apply list_elem_of_fmap in Hr as (n & -> & Hn). split; [done|]. by eapply Forall_forall in Hal.
  - intros a Ha. rewrite routes_cover_included, Hcov, Hm2, Hm1, (Hm4 a Ha), (Hm6 a Ha) by done.
    rewrite (Hm a false Ha) by (pose proof (set_mem_nil (key a)); naive_solver).
    unfold is_loopback, decides. tauto.
Qed.

Lemma in_network_self (n : InetNetwork) : in_network n n.1.
Proof. done. Qed.

(** An address whose first byte is 127 is in 127.0.0.0/8. *)
Lemma head_127_loopback (a : list Z) :
  wf_addr a -> length a = 4%nat -> head a = Some 127 -> in_network ipv4Loopback a.
Proof.
  intros [_ Hb] Hlen Hh. split; [done|]. destruct a as [|x a]; [done|]. injection Hh as ->.
  apply Forall_cons in Hb as [_ Hb%be_value_bound]. injection Hlen as Hlen.
  cbn [be_value]. rewrite Hlen in *. change (maxMask ipv4Loopback.1 - ipv4Loopback.2) with 24.
  change (8 * Z.of_nat 3) with 24 in *. rewrite shiftr_add_low by lia. by vm_compute.
Qed.

Lemma loopback_route_covers (r : Route) :
  aligned_network (inetNetwork r) -> is_loopback_route r = true -> is_loopback (inetNetwork r).1.
Proof.
  intros (Ha & _) [_ Hr]%andb_true_iff. unfold isIpv4 in Hr.
  destruct (Nat.eqb_spec (length (inetNetwork r).1) 4) as [Hl|Hl]; apply bool_decide_eq_true in Hr.
  - left. by apply head_127_loopback.
  - right. rewrite Hr. apply in_network_self.
Qed.

Lemma filter_all {A} (P : A -> Prop) `{forall x, Decision (P x)} (l : list A) :
  Forall P l -> filter P l = l.
Proof. induction 1; [done|]. rewrite filter_cons_True by done. by f_equal. Qed.

Lemma filter_none {A} (P : A -> Prop) `{forall x, Decision (P x)} (l : list A) :
  Forall (fun x => ~ P x) l -> filter P l = [].
Proof. induction 1; [done|]. by rewrite filter_cons_False. Qed.

Lemma wf_routes_put (l rs : list Route) :
  wf_routes l -> wf_routes rs -> wf_routes (put_routes l rs).
Proof.
  unfold wf_routes. rewrite !Forall_forall. intros Hl Hrs r [Hr|Hr]%elem_of_put_routes; auto.
Qed.

Lemma wf_net_global6 : wf_net ipv6Global.
Proof. split; [split; [by right|]|done]. repeat constructor; unfold is_byte; lia. Qed.

Lemma wf_net_default4 : wf_net ipv4Default.
Proof. split; [split; [by left|]|done]. repeat constructor; unfold is_byte; lia. Qed.

Lemma wf_net_default6 : wf_net ipv6Default.
Proof. split; [split; [by right|]|done]. repeat constructor; unfold is_byte; lia. Qed.

Lemma wf_routes_filter (P : Route -> Prop) `{forall x, Decision (P x)} (l : list Route) :
  wf_routes l -> wf_routes (filter P l).
Proof.
  unfold wf_routes. rewrite !Forall_forall. intros Hl r [_ Hr]%list_elem_of_filter. by apply Hl.
Qed.

Lemma wf_replace_default6 (b : Builder) :
  wf_routes (routes b) -> wf_routes (routes (replace_default6 b)).
Proof.
  intros Hb. unfold replace_default6. destruct (existsb _ _); [|done]. simpl.
  apply wf_routes_put; [|by apply wf_routes_filter].
  unfold put_route. case_decide; constructor; [apply wf_net_global6|constructor].
Qed.

(** Without excluded routes in the platform, what is left are included routes
    that tunnel exactly the addresses the route list decides. *)
Lemma processRoutes_old (b : Builder) :
  wf_routes (routes b) ->
  Exists (fun r => include r = false) (routes (replace_default6 b)) ->
  exists b', processRoutes true b = Some b'
    /\ Forall (fun r => include r = true) (routes b')
    /\ addresses b' = addresses (replace_default6 b) /\ mtu b' = mtu (replace_default6 b)
    /\ forall a, wf_addr a ->
         routes_cover (routes b') a
         <-> decides (routes (replace_default6 b)) a = true /\ ~ is_loopback a.
Proof.
  intros Hb Hex. unfold processRoutes. pose proof (wf_replace_default6 b Hb) as Hw.
  destruct (flatten_routes_spec _ Hw) as (l' & El & Hl' & Hcov).
  assert (existsb (fun r => negb (include r)) (routes (replace_default6 b)) = true) as ->.
  { apply existsb_exists. apply Exists_exists in Hex as (r & Hr & E). exists r.
    split; [by apply list_elem_of_In|by rewrite E]. }
  cbn [andb]. rewrite El. simpl. eexists. split_and!; [done| |done|done|]; simpl.
  - apply Forall_forall. intros r [_ Hr]%list_elem_of_filter. by eapply Forall_forall in Hl' as [? _].
  - rewrite filter_all; [done|]. apply Forall_forall. intros r Hr.
    pose proof Hl' as Hl2. eapply Forall_forall in Hl2 as [Hinc Hal]; [|done].
    apply not_true_iff_false. intros Hlo. apply loopback_route_covers in Hlo; [|done].
    destruct (proj1 (Hcov (inetNetwork r).1 (proj1 Hal))) as [_ Hn]; [|done].
    apply Exists_exists. exists r. split_and!; [done|done|apply in_network_self].
Qed.

(** What adding routes appends. *)
Lemma put_routes_app (l rs : list Route) :
  exists m, put_routes l rs = l ++ m
    /\ (forall r, r ∈ m -> r ∈ rs /\ r ∉ l) /\ (forall r, r ∈ rs -> r ∈ l \/ r ∈ m).
Proof.
  revert l. induction rs as [|x rs IH]; intros l; simpl.
  { exists []. rewrite app_nil_r. set_solver. }
  unfold put_route. case_decide as Hx.
  - destruct (IH l) as (m & -> & H1 & H2). exists m. split_and!; [done|set_solver|set_solver].
  - destruct (IH (l ++ [x])) as (m & -> & H1 & H2). exists (x :: m).
    rewrite <- app_assoc. split_and!; [done|set_solver|set_solver].
Qed.

Lemma decides_app (l m : list Route) (a : list Z) :
  decides (l ++ m) a = decides_from (decides l a) m a.
Proof. unfold decides, decides_from. by rewrite foldl_app. Qed.

(** Excluded routes at the end take their addresses away. *)
Lemma decides_excluded (d : bool) (m : list Route) (a : list Z) :
  Forall (fun r => include r = false) m ->
  decides_from d m a = true <-> d = true /\ ~ Exists (fun r => in_network (inetNetwork r) a) m.
Proof.
  intros Hm. revert d. induction Hm as [|r m Hr Hm IH]; intros d; simpl.
  { rewrite Exists_nil. tauto. }
  unfold decides_from in *. simpl. rewrite IH, Exists_cons, <- in_networkb_spec.
  destruct (in_networkb (inetNetwork r) a); rewrite ?Hr; naive_solver.
Qed.

Lemma exclusive_decides (l : list Route) (ex : list InetNetwork) (a : list Z) :
  exclusive_shape l ex ->
  decides l a = true <->
  (in_network ipv4Default a \/ in_network ipv6Global a)
  /\ ~ Exists (fun n => in_network n a) ex.
Proof.
  intros (d1 & d2 & m & -> & Hd & Hm & Hex). rewrite decides_app, decides_excluded by done.
  assert (decides [mkRoute d1 true; mkRoute d2 true] a = true
          <-> in_network ipv4Default a \/ in_network ipv6Global a) as ->.
  { unfold decides, decides_from. simpl. rewrite <- !in_networkb_spec.
    destruct Hd as [[-> ->]|[-> ->]]; destruct (in_networkb ipv4Default a), (in_networkb ipv6Global a);
      naive_solver. }
  assert (Exists (fun r => in_network (inetNetwork r) a) m <-> Exists (fun n => in_network n a) ex) as ->;
    [|done].
  rewrite !Exists_exists. split.
  - intros ([n i] & Hr & Hin). pose proof Hm as Hi. eapply Forall_forall in Hi; [|done].
    simpl in *. subst i. exists n. split; [by apply Hex|done].
  - intros (n & Hn & Hin). exists (mkRoute n false). split; [by apply Hex|done].
Qed.

(** The routes after the exclusions are only an included ::/0, if any; it is
    replaced by 2000::/3, which is there already. *)
Lemma exclusive_replace (b1 : Builder) (ex : list InetNetwork) (m1 m2 : list Route) :
  routes b1 = [mkRoute ipv4Default true; mkRoute ipv6Global true] ++ m1 ++ m2 ->
  Forall (fun r => include r = false) m1 -> (forall n, mkRoute n false ∈ m1 <-> n ∈ ex) ->
  Forall (fun r => r = mkRoute ipv6Default true) m2 ->
  exclusive_shape (routes (replace_default6 b1)) ex.
Proof.
  intros Er Hm1 Hex Hm2. unfold replace_default6.
  assert (Hf1 : Forall (fun r => is_default6 r = false) m1)
    by (apply (Forall_impl _ _ _ Hm1); intros r Hr; unfold is_default6; by rewrite Hr).
  destruct (existsb is_default6 (routes b1)) eqn:E.
  - cbn [prependRoutes addRoute set_routes routes]. rewrite Er.
    rewrite filter_app, (filter_app _ m1 m2), (filter_all _ m1 Hf1).
    replace (filter (fun r => is_default6 r = false) m2) with ([] : list Route)
      by (symmetry; apply filter_none, (Forall_impl _ _ _ Hm2); by intros r ->).
    destruct (put_routes_app [mkRoute ipv6Global true; mkRoute ipv4Default true] m1)
      as (m3 & Em3 & H3 & H4).
    exists ipv6Global, ipv4Default, m3. rewrite app_nil_r. split_and!; [exact Em3|by right| |].
    + apply Forall_forall. intros r [Hr _]%H3. by eapply Forall_forall in Hm1.
    + intros n. rewrite <- Hex. split; [by intros [? _]%H3|]. intros [Hn|Hn]%H4; [|done].
      set_solver.
  - exists ipv4Default, ipv6Global, m1. split_and!; [|by left|done|done]. rewrite Er.
    destruct Hm2 as [|r m2 -> _]; [by rewrite app_nil_r|].
    rewrite Er, !existsb_app in E. simpl in E. by rewrite !orb_true_r in E.
Qed.

Lemma exclusive_routes (b : Builder) :
  includedAddresses b = [] -> excludedAddresses b <> [] -> default_routes (routes b) ->
  Forall wf_net (excludedAddresses b) ->
  exists b1, processSplitTunneling b = Some b1 /\ wf_routes (routes b1)
    /\ exclusive_shape (routes (replace_default6 b1)) (excludedAddresses b).
Proof.
  intros Hin Hex Hdef Hwf. unfold processSplitTunneling. rewrite Hin.
  rewrite (bool_decide_false ([] <> [])) by tauto. rewrite bool_decide_true by done. cbn [andb].
  eexists. split; [done|].
  change (put_route (put_route [] _) _) with [mkRoute ipv4Default true; mkRoute ipv6Global true].
  split.
  { apply wf_routes_put; [apply wf_routes_put|].
    - repeat constructor; simpl; apply wf_net_default4 || apply wf_net_global6.
    - unfold wf_routes. by rewrite Forall_map.
    - apply (Forall_impl _ _ _ Hdef). intros r [-> | [-> | ->]]; simpl;
        [apply wf_net_default4|apply wf_net_default6|apply wf_net_global6]. }
  destruct (put_routes_app [mkRoute ipv4Default true; mkRoute ipv6Global true]
              (map (fun n => mkRoute n false) (excludedAddresses b))) as (m1 & E1 & H1 & H1').
  destruct (put_routes_app ([mkRoute ipv4Default true; mkRoute ipv6Global true] ++ m1) (routes b))
    as (m2 & E2 & H2 & _).
  apply (exclusive_replace _ _ m1 m2).
  - cbn [prependRoutes excludeRoutes addRoute set_routes routes].
    change (put_route (put_route [] _) _) with [mkRoute ipv4Default true; mkRoute ipv6Global true].
    rewrite E1, E2. by rewrite <- app_assoc.
  - apply Forall_forall. intros r [Hr _]%H1. by apply list_elem_of_fmap in Hr as (n & -> & _).
  - intros n. split.
    + intros [Hr _]%H1. apply list_elem_of_fmap in Hr as (n' & [= ->] & Hn). done.
    + intros Hn. destruct (H1' (mkRoute n false)) as [Hr|Hr]; [|set_solver|done].
      apply list_elem_of_fmap. eauto.
  - apply Forall_forall. intros r [Hr Hn]%H2. eapply Forall_forall in Hdef; [|done].
    set_solver.
Qed.

Lemma exclusive_shape_excludes (l : list Route) (ex : list InetNetwork) :
  ex <> [] -> exclusive_shape l ex -> Exists (fun r => include r = false) l.
Proof.
  intros Hne (d1 & d2 & m & -> & _ & _ & Hex). destruct ex as [|n ex]; [done|].
  apply Exists_app. right. apply Exists_exists. exists (mkRoute n false).
  split; [|done]. apply Hex. set_solver.
Qed.

(** ** Properties *)

(** Exclusive split tunnelling before Android 13.  Over the default routes,
    the tunnel's routes are all included ones and cover exactly the IPv4 and
    global IPv6 addresses outside the excluded networks and the loopback
    networks; the configuration then only has to pass validation. *)
Theorem exclusive_split_tunnel (b : Builder) :
  includedAddresses b = [] -> excludedAddresses b <> [] ->
  Forall wf_net (excludedAddresses b) -> default_routes (routes b) ->
  exists b', configBuild true b = validate b'
    /\ Forall (fun r => include r = true) (routes b')
    /\ forall a, wf_addr a ->
         routes_cover (routes b') a <->
         (in_network ipv4Default a \/ in_network ipv6Global a)
         /\ ~ Exists (fun n => in_network n a) (excludedAddresses b) /\ ~ is_loopback a.
Proof.
  intros Hin Hex Hwf Hdef. unfold configBuild.
  destruct (exclusive_routes b Hin Hex Hdef Hwf) as (b1 & -> & Hw1 & Hsh). simpl.
  destruct (processRoutes_old b1 Hw1) as (b2 & -> & Hinc & _ & _ & Hcov);
    [by eapply exclusive_shape_excludes|]. simpl.
  exists b2. split_and!; [done|done|]. intros a Ha.
  rewrite Hcov, (exclusive_decides _ _ _ Hsh) by done. tauto.
Qed.

(** Flattening before Android 13.  Whenever a route is excluded, the routes
    that result are all included ones and cover exactly the addresses for which
    the last covering route is an included one, less loopback. *)
Theorem processRoutes_last_route_decides (b : Builder) :
  wf_routes (routes b) ->
  Exists (fun r => include r = false) (routes (replace_default6 b)) ->
  exists b', processRoutes true b = Some b'
    /\ Forall (fun r => include r = true) (routes b')
    /\ forall a, wf_addr a ->
         routes_cover (routes b') a
         <-> decides (routes (replace_default6 b)) a = true /\ ~ is_loopback a.
Proof.
  intros Hw Hex. destruct (processRoutes_old b Hw Hex) as (b' & ? & ? & _ & _ & ?). eauto.
Qed.

(** Inclusive split tunnelling.  With addresses to include and none to
    exclude, the routes that result are the included networks and the
    configuration's own routes other than the default ones, less loopback
    routes, on every version of Android. *)
Theorem inclusive_split_tunnel (sdk_lt_33 : bool) (b : Builder) :
  includedAddresses b <> [] -> excludedAddresses b = [] ->
  Forall (fun r => include r = true) (routes b) -> ipv6Default ∉ includedAddresses b ->
  exists b', configBuild sdk_lt_33 b = validate b'
    /\ forall r, r ∈ routes b' <->
         is_loopback_route r = false
         /\ ((include r = true /\ inetNetwork r ∈ includedAddresses b)
             \/ (r ∈ routes b /\ inetNetwork r <> ipv4Default /\ inetNetwork r <> ipv6Default
                 /\ inetNetwork r <> ipv6Global)).
Proof.
  intros Hin Hex Hinc Hd6. unfold configBuild, processSplitTunneling. rewrite Hex.
  rewrite (bool_decide_true (includedAddresses b <> [])), (bool_decide_false ([] <> [])) by tauto.
  cbn [andb mbind option_bind].
  set (b1 := prependRoutes _ _).
  assert (Hr : forall r, r ∈ routes b1 <->
    (include r = true /\ inetNetwork r ∈ includedAddresses b)
    \/ (r ∈ routes b /\ inetNetwork r <> ipv4Default /\ inetNetwork r <> ipv6Default
        /\ inetNetwork r <> ipv6Global)).
  { intros r. unfold b1. cbn [prependRoutes addRoutes removeRoute set_routes routes].
    rewrite !elem_of_put_routes, list_elem_of_fmap, !list_elem_of_filter.
    destruct r as [n i]; simpl. split.
    - intros [[H|(y & [= -> ->] & Hy)]|H]; [by apply not_elem_of_nil in H|by left|right; tauto].
    - intros [[-> Hn]|H]; [left; right; eauto|right; tauto]. }
  assert (Hall : Forall (fun r => include r = true /\ inetNetwork r <> ipv6Default) (routes b1)).
  { apply Forall_forall. intros r Hb. apply Hr in Hb as [[? Hn]|(Hn & _ & ? & _)].
    - split; [done|]. by intros E; rewrite E in Hn.
    - split; [by eapply Forall_forall in Hinc|done]. }
  clearbody b1. unfold processRoutes, replace_default6.
  replace (existsb is_default6 (routes b1)) with false.
  2: { symmetry. apply not_true_iff_false. intros (r & Hb & [_ E%bool_decide_eq_true]%andb_true_iff)%existsb_exists.
       apply list_elem_of_In in Hb. eapply Forall_forall in Hall as [_ ?]; done. }
  replace (existsb (fun r => negb (include r)) (routes b1)) with false.
  2: { symmetry. apply not_true_iff_false. intros (r & Hb & E%negb_true_iff)%existsb_exists.
       apply list_elem_of_In in Hb. eapply Forall_forall in Hall as [? _]; [|done]. congruence. }
  rewrite andb_false_r. cbn [mbind option_bind]. eexists. split; [reflexivity|].
  intros r. cbn [set_routes routes]. rewrite list_elem_of_filter, Hr. reflexivity.
Qed.

(** Routes of the configuration other than the defaults are put behind the
    exclusions, so before Android 13 a default route given as two halves
    brings an excluded address back into the tunnel. *)
Theorem halves_override_exclusion :
  exists b', configBuild true halves_example = Some b'
    /\ ([8; 8; 8; 8], 32) ∈ excludedAddresses halves_example
    /\ routes_cover (routes b') [8; 8; 8; 8].
Proof.
  eexists. split; [vm_compute; reflexivity|]. split; [by apply list_elem_of_singleton|].
  apply routes_coverb_spec. by vm_compute.
Qed.

Lemma wf_dns_net : wf_net ([8; 8; 8; 8], 32).
Proof. split; [split; [by left|]|done]. repeat constructor; unfold is_byte; lia. Qed.

Lemma exclusive_split_tunnel_witness :
  exists b', configBuild true exclusive_example = validate b'
    /\ Forall (fun r => include r = true) (routes b')
    /\ forall a, wf_addr a ->
         routes_cover (routes b') a <->
         (in_network ipv4Default a \/ in_network ipv6Global a)
         /\ ~ Exists (fun n => in_network n a) (excludedAddresses exclusive_example)
         /\ ~ is_loopback a.
Proof.
  apply (exclusive_split_tunnel exclusive_example); [reflexivity|discriminate| |].
  - constructor; [apply wf_dns_net|constructor].
  - constructor; [by left|constructor; [by right; left|constructor]].
Defined.

Lemma processRoutes_last_route_decides_witness :
  exists b', processRoutes true
      (mkBuilder [] [mkRoute ipv4Default true; mkRoute ([8; 8; 8; 8], 32) false] [] [] 0) = Some b'
    /\ Forall (fun r => include r = true) (routes b').
Proof.
  edestruct (processRoutes_last_route_decides
    (mkBuilder [] [mkRoute ipv4Default true; mkRoute ([8; 8; 8; 8], 32) false] [] [] 0))
    as (b' & H1 & H2 & _); [| |exists b'; split; assumption].
  - constructor; [apply wf_net_default4|constructor; [apply wf_dns_net|constructor]].
  - apply Exists_cons_tl, Exists_cons_hd. done.
Defined.

Lemma inclusive_split_tunnel_witness :
  exists b', configBuild true (mkBuilder [([10; 8; 0; 2], 32)] [mkRoute ipv4Default true]
                                 [([8; 8; 8; 8], 32)] [] 1280) = validate b'.
Proof.
  edestruct (inclusive_split_tunnel true
    (mkBuilder [([10; 8; 0; 2], 32)] [mkRoute ipv4Default true] [([8; 8; 8; 8], 32)] [] 1280))
    as (b' & H & _); [discriminate|reflexivity|by repeat constructor| |exists b'; exact H].
  intros E. apply list_elem_of_singleton in E. discriminate E.
Defined.
