(* ===== verification/JsText.v ===== *)
(** * JavaScript strings

    The parts of the ECMAScript string library that the scripts of the client
    use: conversion to string, [toUpperCase], [indexOf], [length], and
    [Array.prototype.sort] as the interface [ArraySort].  A string is the list of
    its code points, so a mapping of characters is a mapping of list elements. *)

From stdpp Require Import base numbers list sorting.
From Stdlib Require Import ZArith Lia Strings.Byte.
From S2P Require Import Prelude.

(** ** Strings *)

Abbreviation jsstring := (list Z).

(** The code points of UTF-8 source text; [need] more continuation bytes extend
    [acc]. *)
Fixpoint utf8_points (need : nat) (acc : Z) (l : list Byte.byte) : jsstring :=
  match l with
  | [] => []
  | x :: l' =>
      let b := Z.of_N (Byte.to_N x) in
      match need with
      | O => if b <? 128 then b :: utf8_points 0 0 l'
             else if b <? 224 then utf8_points 1 (b - 192) l'
             else if b <? 240 then utf8_points 2 (b - 224) l'
             else utf8_points 3 (b - 240) l'
      | S O => (acc * 64 + (b - 128)) :: utf8_points 0 0 l'
      | S n => utf8_points n (acc * 64 + (b - 128)) l'
      end
  end.

Definition js (t : text) : jsstring := utf8_points 0 0 (text_bytes t).

(** [length] counts UTF-16 code units: two for a code point beyond the basic
    plane. *)
Definition js_length (s : jsstring) : Z :=
  foldr (fun c n => (if c <? 65536 then 1 else 2) + n) 0 s.

(** The values that the functions of the scripts are given. *)
Inductive jsval :=
| JUndefined
| JNull
| JBool (b : bool)
| JStr (s : jsstring).

(** String concatenation with the empty string on the left. *)
Definition to_string (v : jsval) : jsstring :=
  match v with
  | JUndefined => js "undefined"
  | JNull => js "null"
  | JBool b => if b then js "true" else js "false"
  | JStr s => s
  end.

(** Whether a value counts as true in a condition. *)
Definition truthy (v : jsval) : bool :=
  match v with
  | JUndefined | JNull => false
  | JBool b => b
  | JStr s => negb (bool_decide (s = []))
  end.

Fixpoint prefixb (w s : jsstring) : bool :=
  match w, s with
  | [], _ => true
  | x :: w', y :: s' => (x =? y) && prefixb w' s'
  | _ :: _, [] => false
  end.

(** [s.indexOf(w)]: the first position of [w] in [s], or -1. *)
Fixpoint indexOf (s w : jsstring) : Z :=
  if prefixb w s then 0
  else match s with
       | [] => -1
       | _ :: s' => let r := indexOf s' w in if r <? 0 then -1 else r + 1
       end.

(** The rest of a string from a position in code units on. *)
Fixpoint drop_units (n : Z) (s : jsstring) : jsstring :=
  match s with
  | [] => []
  | c :: s' => if n <=? 0 then s else drop_units (n - (if c <? 65536 then 1 else 2)) s'
  end.

(** [s.indexOf(w, start)]; a negative start is the beginning of the string. *)
Definition indexOf_from (s w : jsstring) (start : Z) : Z :=
  let rest := drop_units start s in
  let r := indexOf rest w in
  if r <? 0 then -1 else Z.of_nat (length s - length rest) + r.

Definition occurs (w s : jsstring) : Prop := exists p q, s = p ++ w ++ q.

(** Upper case of a code point in the blocks of ASCII, Latin-1 and basic
    Cyrillic; [other] is the mapping of the rest of Unicode. *)
Definition upper_point (other : Z -> jsstring) (c : Z) : jsstring :=
  if (97 <=? c) && (c <=? 122) then [c - 32]
  else if c =? 181 then [924]
  else if c =? 223 then [83; 83]
  else if (224 <=? c) && (c <=? 254) && negb (c =? 247) then [c - 32]
  else if c =? 255 then [376]
  else if (1072 <=? c) && (c <=? 1103) then [c - 32]
  else if (1104 <=? c) && (c <=? 1119) then [c - 80]
  else if (c <? 256) || ((1024 <=? c) && (c <=? 1071)) then [c]
  else other c.

Definition toUpperCase (other : Z -> jsstring) (s : jsstring) : jsstring :=
  concat (map (upper_point other) s).

(** ** Sorting

    [Array.prototype.sort] returns a permutation in the order of the comparator,
    if the comparator is a total preorder.  Its treatment of equal elements is
    left open. *)

Definition total_preorder {A} (cmp : A -> A -> Z) : Prop :=
  (forall a b, cmp a b <= 0 \/ cmp b a <= 0)
  /\ forall a b c, cmp a b <= 0 -> cmp b c <= 0 -> cmp a c <= 0.

Class ArraySort := {
  array_sort {A} : (A -> A -> Z) -> list A -> list A;
  array_sort_perm {A} (cmp : A -> A -> Z) (l : list A) : array_sort cmp l ≡ₚ l;
  array_sort_sorted {A} (cmp : A -> A -> Z) (l : list A) :
    total_preorder cmp -> StronglySorted (fun a b => cmp a b <= 0) (array_sort cmp l)
}.

(** A stable sort by insertion, one instance of the interface. *)
Fixpoint sort_insert {A} (cmp : A -> A -> Z) (a : A) (l : list A) : list A :=
  match l with
  | [] => [a]
  | b :: l' => if cmp a b <=? 0 then a :: l else b :: sort_insert cmp a l'
  end.

Definition insertion_sort {A} (cmp : A -> A -> Z) (l : list A) : list A :=
  foldr (sort_insert cmp) [] l.

(** ** Lemmas *)

Lemma sort_insert_perm {A} (cmp : A -> A -> Z) (a : A) (l : list A) :
  sort_insert cmp a l ≡ₚ a :: l.
Proof.
  induction l as [|b l IH]; simpl; [done|]. destruct (_ <=? _); [done|].
  rewrite IH. apply Permutation_swap.
Qed.

Lemma insertion_sort_perm {A} (cmp : A -> A -> Z) (l : list A) : insertion_sort cmp l ≡ₚ l.
Proof. induction l as [|a l IH]; simpl; [done|]. by rewrite sort_insert_perm, IH. Qed.

Lemma sort_insert_sorted {A} (cmp : A -> A -> Z) (a : A) (l : list A) :
  total_preorder cmp -> StronglySorted (fun a b => cmp a b <= 0) l ->
  StronglySorted (fun a b => cmp a b <= 0) (sort_insert cmp a l).
Proof.
  intros [Htot Htr] Hs. induction Hs as [|b l Hs IH Hb]; simpl; [repeat constructor|].
  destruct (Z.leb_spec (cmp a b) 0).
  - constructor; [by constructor|]. constructor; [done|].
    eapply Forall_impl; [exact Hb|]. intros c ?. by apply (Htr a b c).
  - constructor; [done|]. rewrite sort_insert_perm. constructor; [|done].
    destruct (Htot a b); lia.
Qed.

#[export] Instance InsertionSort : ArraySort.
Proof.
  refine {| array_sort := @insertion_sort |}.
  - intros. apply insertion_sort_perm.
  - intros A cmp l Ht. induction l; simpl; [constructor|]. by apply sort_insert_sorted.
Defined.

Lemma prefixb_spec (w s : jsstring) : prefixb w s = true <-> exists q, s = w ++ q.
Proof.
  revert s. induction w as [|x w IH]; intros s; simpl; [naive_solver|].
  destruct s as [|y s]; simpl.
  - split; [done|]. by intros (q & E).
  - rewrite andb_true_iff, Z.eqb_eq, IH. naive_solver.
Qed.

(** [indexOf] finds a word exactly when the word occurs. *)
Lemma indexOf_occurs (s w : jsstring) : 0 <= indexOf s w <-> occurs w s.
Proof.
  induction s as [|c s IH]; cbn [indexOf].
  - destruct (prefixb w []) eqn:E; split; intros H; try lia.
    + apply prefixb_spec in E as (q & E). by exists [], q.
    + destruct H as (p & q & E'). destruct p, w; done.
  - destruct (prefixb w (c :: s)) eqn:E.
    + split; [|lia]. intros _. apply prefixb_spec in E as (q & E). by exists [], q.
    + assert (Hoc : occurs w (c :: s) <-> occurs w s).
      { split; intros (p & q & E').
        - destruct p as [|d p]; simplify_eq/=; [|by exists p, q].
          assert (prefixb w (c :: s) = true) by (apply prefixb_spec; eauto). congruence.
        - exists (c :: p), q. by rewrite E'. }
      rewrite Hoc, <- IH. cbv zeta. destruct (Z.ltb_spec (indexOf s w) 0); lia.
Qed.

Lemma js_length_app (a b : jsstring) : js_length (a ++ b) = js_length a + js_length b.
Proof. unfold js_length. induction a; simpl; lia. Qed.

Lemma js_length_pos (a : jsstring) : 0 <= js_length a /\ (js_length a = 0 -> a = []).
Proof. unfold js_length. induction a as [|c a [IH _]]; simpl; [done|]. case_match; lia. Qed.

(** A word as long as the text it occurs in is that text. *)
Lemma occurs_same_length (w s : jsstring) :
  occurs w s -> js_length s <= js_length w -> w = s.
Proof.
  intros (p & q & ->). rewrite !js_length_app.
  destruct (js_length_pos p) as [? Hp], (js_length_pos q) as [? Hq]. intros.
  rewrite Hp, Hq by lia. simpl. by rewrite app_nil_r.
Qed.

Lemma drop_units_suffix (n : Z) (s : jsstring) :
  exists p, s = p ++ drop_units n s /\ Z.min n (js_length s) <= js_length p.
Proof.
  revert n. induction s as [|c s IH]; intros n; cbn [drop_units].
  - exists []. split; [done|]. unfold js_length. simpl. lia.
  - destruct (Z.leb_spec n 0); [exists []; split; [done|]; unfold js_length at 2; simpl; lia|].
    destruct (IH (n - (if c <? 65536 then 1 else 2))) as (p & E & Hp). exists (c :: p).
    rewrite E at 1. split; [done|]. unfold js_length in *. cbn [foldr]. lia.
Qed.

Lemma drop_units_app (p s : jsstring) : drop_units (js_length p) (p ++ s) = s.
Proof.
  induction p as [|c p IH]; cbn [app].
  - by destruct s.
  - unfold js_length in *. cbn [drop_units foldr].
    pose proof (proj1 (js_length_pos p)). unfold js_length in *.
    rewrite (proj2 (Z.leb_gt _ _)) by (destruct (c <? 65536); lia).
    rewrite <- IH at 2. f_equal. lia.
Qed.

Lemma occurs_refl (s : jsstring) : occurs s s.
Proof. exists [], []. simpl. by rewrite app_nil_r. Qed.

(** A word that starts with a character that the text has only at its start. *)
Lemma occurs_at_start (x : Z) (w s : jsstring) :
  x ∉ s -> occurs (x :: w) (x :: s) <-> exists q, s = w ++ q.
Proof.
  intros Hx. split.
  - intros ([|d p] & q & E); simplify_eq/=; [by exists q|].
    exfalso. apply Hx, elem_of_app. right. left.
  - intros (q & ->). by exists [], q.
Qed.
