(* ===== verification/CountryNames.v ===== *)
(** * Country names

    The library client/ui/qml/Components/countrynames.js: the tables [EN] and
    [RU] of country names, [en], [localName], and [codeFromName] with its index
    [_nameIndex] built at the first call.  The unit of [toUpperCase] for scripts
    other than Latin-1 and Cyrillic, and the sort of the engine, are
    parameters. *)

From stdpp Require Import base numbers list sorting.
From Stdlib Require Import ZArith Lia Strings.Byte.
From S2P Require Import Prelude JsText.

(** The table [EN], in the order of the source: the codes up to L and from M on. *)
Definition EN_A_L : list (text * text) :=
  [ ("AD", "Andorra");
    ("AE", "United Arab Emirates");
    ("AF", "Afghanistan");
    ("AG", "Antigua & Barbuda");
    ("AI", "Anguilla");
    ("AL", "Albania");
    ("AM", "Armenia");
    ("AO", "Angola");
    ("AR", "Argentina");
    ("AS", "American Samoa");
    ("AT", "Austria");
    ("AU", "Australia");
    ("AW", "Aruba");
    ("AX", "Åland Islands");
    ("AZ", "Azerbaijan");
    ("BA", "Bosnia & Herzegovina");
    ("BB", "Barbados");
    ("BD", "Bangladesh");
    ("BE", "Belgium");
    ("BF", "Burkina Faso");
    ("BG", "Bulgaria");
    ("BH", "Bahrain");
    ("BI", "Burundi");
    ("BJ", "Benin");
    ("BL", "St. Barthélemy");
    ("BM", "Bermuda");
    ("BN", "Brunei");
    ("BO", "Bolivia");
    ("BQ", "Bonaire, Sint Eustatius and Saba");
    ("BR", "Brazil");
    ("BS", "Bahamas");
    ("BT", "Bhutan");
    ("BW", "Botswana");
    ("BY", "Belarus");
    ("BZ", "Belize");
    ("CA", "Canada");
    ("CC", "Cocos (Keeling) Islands");
    ("CD", "Congo (DRC)");
    ("CF", "Central African Republic");
    ("CG", "Congo");
    ("CH", "Switzerland");
    ("CI", "Côte d’Ivoire");
    ("CK", "Cook Islands");
    ("CL", "Chile");
    ("CM", "Cameroon");
    ("CN", "China");
    ("CO", "Colombia");
    ("CR", "Costa Rica");
    ("CU", "Cuba");
    ("CV", "Cabo Verde");
    ("CW", "Curaçao");
    ("CX", "Christmas Island");
    ("CY", "Cyprus");
    ("CZ", "Czechia");
    ("DE", "Germany");
    ("DJ", "Djibouti");
    ("DK", "Denmark");
    ("DM", "Dominica");
    ("DO", "Dominican Republic");
    ("DZ", "Algeria");
    ("EC", "Ecuador");
    ("EE", "Estonia");
    ("EG", "Egypt");
    ("ER", "Eritrea");
    ("ES", "Spain");
    ("ET", "Ethiopia");
    ("FI", "Finland");
    ("FJ", "Fiji");
    ("FK", "Falkland Islands");
    ("FM", "Micronesia");
    ("FO", "Faroe Islands");
    ("FR", "France");
    ("GA", "Gabon");
    ("GB", "United Kingdom");
    ("GD", "Grenada");
    ("GE", "Georgia");
    ("GF", "French Guiana");
    ("GG", "Guernsey");
    ("GH", "Ghana");
    ("GI", "Gibraltar");
    ("GL", "Greenland");
    ("GM", "Gambia");
    ("GN", "Guinea");
    ("GP", "Guadeloupe");
    ("GQ", "Equatorial Guinea");
    ("GR", "Greece");
    ("GT", "Guatemala");
    ("GU", "Guam");
    ("GW", "Guinea-Bissau");
    ("GY", "Guyana");
    ("HK", "Hong Kong");
    ("HN", "Honduras");
    ("HR", "Croatia");
    ("HT", "Haiti");
    ("HU", "Hungary");
    ("ID", "Indonesia");
    ("IE", "Ireland");
    ("IL", "Israel");
    ("IM", "Isle of Man");
    ("IN", "India");
    ("IO", "British Indian Ocean Territory");
    ("IQ", "Iraq");
    ("IR", "Iran");
    ("IS", "Iceland");
    ("IT", "Italy");
    ("JE", "Jersey");
    ("JM", "Jamaica");
    ("JO", "Jordan");
    ("JP", "Japan");
    ("KE", "Kenya");
    ("KG", "Kyrgyzstan");
    ("KH", "Cambodia");
    ("KI", "Kiribati");
    ("KM", "Comoros");
    ("KN", "St. Kitts & Nevis");
    ("KP", "North Korea");
    ("KR", "South Korea");
    ("KW", "Kuwait");
    ("KY", "Cayman Islands");
    ("KZ", "Kazakhstan");
    ("LA", "Laos");
    ("LB", "Lebanon");
    ("LC", "St. Lucia");
    ("LI", "Liechtenstein");
    ("LK", "Sri Lanka");
    ("LR", "Liberia");
    ("LS", "Lesotho");
    ("LT", "Lithuania");
    ("LU", "Luxembourg");
    ("LV", "Latvia");
    ("LY", "Libya") ]%text.

Definition EN_M_Z : list (text * text) :=
  [ ("MA", "Morocco");
    ("MC", "Monaco");
    ("MD", "Moldova");
    ("ME", "Montenegro");
    ("MF", "St. Martin");
    ("MG", "Madagascar");
    ("MH", "Marshall Islands");
    ("MK", "North Macedonia");
    ("ML", "Mali");
    ("MM", "Myanmar");
    ("MN", "Mongolia");
    ("MO", "Macau");
    ("MP", "Northern Mariana Islands");
    ("MQ", "Martinique");
    ("MR", "Mauritania");
    ("MS", "Montserrat");
    ("MT", "Malta");
    ("MU", "Mauritius");
    ("MV", "Maldives");
    ("MW", "Malawi");
    ("MX", "Mexico");
    ("MY", "Malaysia");
    ("MZ", "Mozambique");
    ("NA", "Namibia");
    ("NC", "New Caledonia");
    ("NE", "Niger");
    ("NF", "Norfolk Island");
    ("NG", "Nigeria");
    ("NI", "Nicaragua");
    ("NL", "Netherlands");
    ("NO", "Norway");
    ("NP", "Nepal");
    ("NR", "Nauru");
    ("NU", "Niue");
    ("NZ", "New Zealand");
    ("OM", "Oman");
    ("PA", "Panama");
    ("PE", "Peru");
    ("PF", "French Polynesia");
    ("PG", "Papua New Guinea");
    ("PH", "Philippines");
    ("PK", "Pakistan");
    ("PL", "Poland");
    ("PM", "St. Pierre & Miquelon");
    ("PN", "Pitcairn Islands");
    ("PR", "Puerto Rico");
    ("PS", "Palestinian Authority");
    ("PT", "Portugal");
    ("PW", "Palau");
    ("PY", "Paraguay");
    ("QA", "Qatar");
    ("RE", "Réunion");
    ("RO", "Romania");
    ("RS", "Serbia");
    ("RU", "Russia");
    ("RW", "Rwanda");
    ("SA", "Saudi Arabia");
    ("SB", "Solomon Islands");
    ("SC", "Seychelles");
    ("SD", "Sudan");
    ("SE", "Sweden");
    ("SG", "Singapore");
    ("SH", "St Helena, Ascension, Tristan da Cunha");
    ("SI", "Slovenia");
    ("SJ", "Svalbard & Jan Mayen");
    ("SK", "Slovakia");
    ("SL", "Sierra Leone");
    ("SM", "San Marino");
    ("SN", "Senegal");
    ("SO", "Somalia");
    ("SR", "Suriname");
    ("SS", "South Sudan");
    ("ST", "São Tomé & Príncipe");
    ("SV", "El Salvador");
    ("SX", "Sint Maarten");
    ("SY", "Syria");
    ("SZ", "Eswatini");
    ("TC", "Turks & Caicos Islands");
    ("TD", "Chad");
    ("TG", "Togo");
    ("TH", "Thailand");
    ("TJ", "Tajikistan");
    ("TK", "Tokelau");
    ("TL", "Timor-Leste");
    ("TM", "Turkmenistan");
    ("TN", "Tunisia");
    ("TO", "Tonga");
    ("TR", "Turkey");
    ("TT", "Trinidad & Tobago");
    ("TV", "Tuvalu");
    ("TW", "Taiwan");
    ("TZ", "Tanzania");
    ("UA", "Ukraine");
    ("UG", "Uganda");
    ("UM", "U.S. Outlying Islands");
    ("US", "United States");
    ("UY", "Uruguay");
    ("UZ", "Uzbekistan");
    ("VA", "Vatican City");
    ("VC", "St. Vincent & Grenadines");
    ("VE", "Venezuela");
    ("VG", "British Virgin Islands");
    ("VI", "U.S. Virgin Islands");
    ("VN", "Vietnam");
    ("VU", "Vanuatu");
    ("WF", "Wallis & Futuna");
    ("WS", "Samoa");
    ("XK", "Kosovo");
    ("YE", "Yemen");
    ("YT", "Mayotte");
    ("ZA", "South Africa");
    ("ZM", "Zambia");
    ("ZW", "Zimbabwe") ]%text.

Definition EN : list (text * text) := EN_A_L ++ EN_M_Z.

Definition RU : list (text * text) :=
  [ ("FI", "Финляндия"); ("DE", "Германия"); ("NL", "Нидерланды"); ("SE", "Швеция"); ("FR", "Франция");
    ("GB", "Великобритания"); ("US", "США"); ("PL", "Польша"); ("LT", "Литва"); ("LV", "Латвия");
    ("EE", "Эстония"); ("CH", "Швейцария"); ("AT", "Австрия"); ("ES", "Испания"); ("IT", "Италия");
    ("NO", "Норвегия"); ("DK", "Дания"); ("CZ", "Чехия"); ("RO", "Румыния"); ("BG", "Болгария");
    ("TR", "Турция"); ("UA", "Украина"); ("KZ", "Казахстан"); ("AM", "Армения"); ("GE", "Грузия");
    ("RS", "Сербия"); ("MD", "Молдова"); ("HU", "Венгрия"); ("IE", "Ирландия"); ("PT", "Португалия");
    ("BE", "Бельгия"); ("LU", "Люксембург"); ("JP", "Япония"); ("SG", "Сингапур"); ("HK", "Гонконг");
    ("CA", "Канада"); ("AE", "ОАЭ"); ("IL", "Израиль"); ("IN", "Индия"); ("AU", "Австралия"); ("ZA", "ЮАР");
    ("BR", "Бразилия"); ("KR", "Южная Корея"); ("CY", "Кипр"); ("MT", "Мальта"); ("IS", "Исландия"); ("RU", "Россия") ]%text.

(** A property of an object literal.  The codes are in capitals, and no
    inherited property of an object is. *)
Fixpoint obj_get (o : list (text * text)) (k : jsstring) : option jsstring :=
  match o with
  | [] => None
  | (k', v) :: o' => if bool_decide (js k' = k) then Some (js v) else obj_get o' k
  end.

(** [n && n.length]: the property is present and not empty. *)
Definition present (v : option jsstring) : bool :=
  match v with Some n => negb (bool_decide (n = [])) | None => false end.

Section CountryNames.
Context (other : Z -> jsstring) `{Hsort : ArraySort}.

Definition en (code : jsval) : jsstring :=
  let cc := toUpperCase other (to_string code) in
  let n := obj_get EN cc in
  if present n then default [] n else [].

Definition localName (code fallback : jsval) (isEng : bool) : jsstring :=
  let e := if isEng then en code else [] in
  if bool_decide (e <> []) then e
  else if truthy fallback then to_string fallback else [].

(** The entries that [_buildNameIndex] pushes for one code. *)
Definition code_entries (entry : text * text) : list (jsstring * jsstring) :=
  let code := js entry.1 in
  let r := js entry.2 in
  let e := obj_get EN code in
  (if present (Some r) then [(toUpperCase other r, code)] else [])
  ++ (if present e then [(toUpperCase other (default [] e), code)] else []).

Definition name_entries : list (jsstring * jsstring) := concat (map code_entries RU).

(** Longer names come first. *)
Definition name_order (a b : jsstring * jsstring) : Z := js_length b.1 - js_length a.1.

Definition buildNameIndex : list (jsstring * jsstring) := array_sort name_order name_entries.

(** The search loop of [codeFromName]. *)
Fixpoint find_code (n : jsstring) (index : list (jsstring * jsstring)) : jsstring :=
  match index with
  | [] => []
  | (w, c) :: index' => if 0 <=? indexOf n w then c else find_code n index'
  end.

(** [codeFromName], given and returning the library variable [_nameIndex]. *)
Definition codeFromName (nameIndex : option (list (jsstring * jsstring))) (name : jsval)
  : jsstring * option (list (jsstring * jsstring)) :=
  let n := toUpperCase other (to_string name) in
  if bool_decide (n = []) then ([], nameIndex)
  else
    let index := default buildNameIndex nameIndex in
    (find_code n index, Some index).

(** ** Specification *)

(** A sequence of calls, from the load of the library. *)
Fixpoint calls (nameIndex : option (list (jsstring * jsstring))) (names : list jsval)
  : list jsstring :=
  match names with
  | [] => []
  | name :: names' =>
      let (c, nameIndex') := codeFromName nameIndex name in c :: calls nameIndex' names'
  end.

Definition code_of (name : jsval) : jsstring := (codeFromName None name).1.

(** [c] is the code of a longest listed name that occurs in [n], or the empty
    string where none does. *)
Definition longest_match (n c : jsstring) : Prop :=
  (exists w, (w, c) ∈ name_entries /\ occurs w n
     /\ forall w' c', (w', c') ∈ name_entries -> occurs w' n -> js_length w' <= js_length w)
  \/ (c = [] /\ forall w' c', (w', c') ∈ name_entries -> ~ occurs w' n).

(** Each listed name has one code. *)
Definition entries_functional : bool :=
  forallb (fun e => forallb (fun e' =>
    negb (bool_decide (e.1 = e'.1)) || bool_decide (e.2 = e'.2)) name_entries) name_entries.

(** ** Lemmas *)

Lemma obj_get_elem (o : list (text * text)) (k : text) (v : text) :
  NoDup (map (fun e => js e.1) o) -> (k, v) ∈ o -> obj_get o (js k) = Some (js v).
Proof.
  induction o as [|[k' v'] o IH]; simpl; [intros _ H; by apply not_elem_of_nil in H|].
  intros [Hk Hnd]%NoDup_cons [E|Hin]%elem_of_cons.
  - simplify_eq. by rewrite bool_decide_true.
  - rewrite bool_decide_false; [by apply IH|]. intros E. apply Hk. rewrite E.
    apply list_elem_of_fmap. by exists (k, v).
Qed.

Lemma EN_keys_nodup : NoDup (map (fun e => js e.1) EN).
Proof. apply (bool_decide_unpack _). by vm_compute. Qed.

Lemma EN_names_nonempty (k v : text) : (k, v) ∈ EN -> js v <> [].
Proof.
  intros Hin. assert (Hall : forallb (fun e => bool_decide (js e.2 <> [])) EN = true) by by vm_compute.
  rewrite forallb_forall in Hall. apply list_elem_of_In, Hall in Hin. by apply bool_decide_eq_true in Hin.
Qed.

Lemma name_order_preorder : total_preorder name_order.
Proof. split; unfold name_order; intros; lia. Qed.

Lemma index_elem (e : jsstring * jsstring) : e ∈ buildNameIndex <-> e ∈ name_entries.
Proof. unfold buildNameIndex. by rewrite array_sort_perm. Qed.

Lemma find_code_longest (n : jsstring) (index : list (jsstring * jsstring)) :
  StronglySorted (fun a b => name_order a b <= 0) index ->
  (exists w, (w, find_code n index) ∈ index /\ occurs w n
     /\ forall w' c', (w', c') ∈ index -> occurs w' n -> js_length w' <= js_length w)
  \/ (find_code n index = [] /\ forall w' c', (w', c') ∈ index -> ~ occurs w' n).
Proof.
  induction 1 as [|[w c] index Hs IH Hf]; simpl.
  - right. split; [done|]. intros ? ? E. by apply not_elem_of_nil in E.
  - destruct (Z.leb_spec 0 (indexOf n w)) as [Hw|Hw].
    + left. exists w. split; [left|]. split; [by apply indexOf_occurs|].
      intros w' c' [E|E]%elem_of_cons _; [simplify_eq; lia|].
      rewrite Forall_forall in Hf. apply Hf in E. unfold name_order in E. simpl in E. lia.
    + assert (Hno : ~ occurs w n) by (rewrite <- indexOf_occurs; lia).
      destruct IH as [(w1 & ? & ? & Hmax)|[E Hnone]]; [left; exists w1|right].
      * split; [by right|]. split; [done|].
        intros w' c' [E|E]%elem_of_cons Hoc; [simplify_eq; done|eauto].
      * split; [done|]. intros w' c' [E'|E']%elem_of_cons; [by simplify_eq|eauto].
Qed.

Lemma entry_nonempty (w c : jsstring) : (w, c) ∈ name_entries -> w <> [] /\ c <> [].
Proof.
  intros Hin.
  assert (Hall : forallb (fun e => bool_decide (e.1 <> []) && bool_decide (e.2 <> [])) name_entries
    = true) by by vm_compute.
  rewrite forallb_forall in Hall. apply list_elem_of_In, Hall, andb_true_iff in Hin as [H1 H2].
  by apply bool_decide_eq_true in H1, H2.
Qed.

Lemma code_of_longest (name : jsval) :
  longest_match (toUpperCase other (to_string name)) (code_of name).
Proof.
  unfold code_of, codeFromName. case_bool_decide as E; simpl.
  - right. split; [done|]. rewrite E. intros w c Hin%entry_nonempty (p & q & Eq).
    destruct Hin as [Hw _]. symmetry in Eq. by apply app_eq_nil in Eq as [_ [-> _]%app_eq_nil].
  - destruct (find_code_longest (toUpperCase other (to_string name)) buildNameIndex)
      as [(w & Hin & Ho & Hmax)|[E' Hno]].
    + apply array_sort_sorted, name_order_preorder.
    + left. exists w. setoid_rewrite <- index_elem. eauto.
    + right. setoid_rewrite <- index_elem. eauto.
Qed.

Lemma entries_functional_spec (w c c' : jsstring) :
  (w, c) ∈ name_entries -> (w, c') ∈ name_entries -> c = c'.
Proof.
  intros H1 H2. assert (Hall : entries_functional = true) by by vm_compute.
  unfold entries_functional in Hall. rewrite forallb_forall in Hall.
  apply list_elem_of_In, Hall in H1. rewrite forallb_forall in H1.
  apply list_elem_of_In, H1 in H2. simpl in H2. rewrite bool_decide_true in H2 by done.
  by apply bool_decide_eq_true in H2.
Qed.

(** A text that is a listed name has that name's code. *)
Lemma code_of_entry (name : jsval) (c : jsstring) :
  (toUpperCase other (to_string name), c) ∈ name_entries -> code_of name = c.
Proof.
  intros Hin. destruct (code_of_longest name) as [(w & Hw & Ho & Hmax)|[_ Hno]].
  - eapply occurs_same_length in Ho as ->.
    + by eapply entries_functional_spec.
    + eapply Hmax; [exact Hin|apply occurs_refl].
  - exfalso. eapply Hno; [exact Hin|apply occurs_refl].
Qed.

Lemma cache_coherent (nameIndex : option (list (jsstring * jsstring))) (names : list jsval) :
  nameIndex = None \/ nameIndex = Some buildNameIndex ->
  calls nameIndex names = map code_of names.
Proof.
  revert nameIndex. induction names as [|name names IH]; intros nameIndex Hc; [done|].
  simpl. unfold code_of at 1, codeFromName. case_bool_decide as E; simpl; [by rewrite IH|].
  destruct Hc as [-> | ->]; simpl; by rewrite IH by (by right).
Qed.

(** ** Properties *)

(** C32: [codeFromName] returns the code of a longest listed country name that
    occurs in the given text, whatever the sort does with names of one length,
    and the empty string where no listed name occurs. *)
Theorem codeFromName_longest_match (name : jsval) :
  longest_match (toUpperCase other (to_string name)) (codeFromName None name).1.
Proof. apply code_of_longest. Qed.

(** every name of the Russian table, and the English name of each of its
    countries, is mapped back to its code. *)
Theorem codeFromName_listed_names :
  Forall (fun e => code_of (JStr (js e.2)) = js e.1
                   /\ code_of (JStr (en (JStr (js e.1)))) = js e.1) RU.
Proof.
  assert (Hall : Forall (fun e =>
    (toUpperCase other (js e.2), js e.1) ∈ name_entries
    /\ (toUpperCase other (en (JStr (js e.1))), js e.1) ∈ name_entries) RU).
  { apply (bool_decide_unpack _). by vm_compute. }
  eapply Forall_impl; [exact Hall|]. intros e [H1 H2]. split; by apply code_of_entry.
Qed.

(** the index kept in [_nameIndex] is invisible: a sequence of calls returns
    what each call would return on its own. *)
Theorem codeFromName_calls (names : list jsval) : calls None names = map code_of names.
Proof. apply cache_coherent. by left. Qed.

(** in English, a listed country has its English name whatever the fallback
    is; in other languages, and for other codes, the fallback is shown, and
    nothing where it is missing. *)
Theorem localName_spec (code fallback : jsval) :
  (forall k v, (k, v) ∈ EN -> toUpperCase other (to_string code) = js k ->
     localName code fallback true = js v)
  /\ ((forall k v, (k, v) ∈ EN -> toUpperCase other (to_string code) <> js k) ->
     localName code fallback true = localName code fallback false)
  /\ localName code fallback false = (if truthy fallback then to_string fallback else []).
Proof.
  unfold localName, en. split_and!; [| |done].
  - intros k v Hin E. rewrite E, (obj_get_elem _ _ v EN_keys_nodup Hin). simpl.
    pose proof (EN_names_nonempty k v Hin) as Hv.
    rewrite (bool_decide_false (js v = [])) by done. simpl. by rewrite bool_decide_true.
  - intros Hno. replace (obj_get EN _) with (@None jsstring); [done|].
    generalize (toUpperCase other (to_string code)) Hno. intros cc. clear.
    induction EN as [|[k v] l IH]; [done|]. simpl. intros Hno.
    rewrite bool_decide_false by (intros <-; by eapply Hno; [left|]).
    apply IH. intros k' v' ?. eapply Hno. by right.
Qed.

End CountryNames.

(** The properties hold for the instance of the interface by insertion. *)
Lemma codeFromName_longest_match_witness :
  longest_match (fun c => [c]) (toUpperCase (fun c => [c]) (js "Germany, Berlin"))
    (codeFromName (fun c => [c]) None (JStr (js "Germany, Berlin"))).1
  /\ (codeFromName (fun c => [c]) None (JStr (js "Germany, Berlin"))).1 = js "DE".
Proof.
  split; [|vm_compute; reflexivity].
  exact (codeFromName_longest_match (fun c => [c]) (JStr (js "Germany, Berlin"))).
Defined.
