(* ===== verification/Faq.v ===== *)
(** * Help sections

    The data of client/ui/qml/Components/FreshFaq.js with [categoryById], and the
    navigation that the pages PageSettingsApiSupport.qml and
    PageSettingsApiInstructions.qml share: the property [faqCat] holds the chosen
    section, empty while the list of sections is shown.  String literals are the
    source's, with their escapes; [js_literal] is their value. *)

From stdpp Require Import base numbers list relations.
From Stdlib Require Import ZArith Lia Strings.Byte.
From S2P Require Import Prelude JsText.

Record Item := mkItem { q : text; a : text }.

Record Category := mkCategory { id : text; title : text; items : list Item }.

Definition cat_connect : Category :=
  mkCategory "connect" "Подключение и установка"
  [ mkItem "С чего начать?"
      "Три шага. Возьмите ключ в разделе «Подключение», поставьте приложение для своего устройства, вставьте ключ. Дальше — одна кнопка включения.\n\nПошагово под каждое устройство разложено в разделе «Инструкция».";
    mkItem "Что за длинная ссылка-подписка и куда её вставлять?"
      "Это ваш доступ, он заменяет логин и пароль. Приложение по этой ссылке само узнаёт, какие у нас сейчас серверы, и подтягивает новые, когда мы их добавляем.\n\nВставляется она один раз при настройке: в нашем приложении — кнопкой, в Happ — через добавление подписки.";
    mkItem "Как подключиться на Android?"
      "У нас своё приложение для Android. Скачайте его в разделе «Инструкция», установите, откройте — ключ подставится сам, если вы заходили из Telegram.\n\nAndroid предупредит, что источник неизвестный: это нормально для приложений вне магазина. Разрешите установку и продолжайте.";
    mkItem "Как подключиться на iPhone?"
      "Через приложение Happ из App Store. Скопируйте нашу ссылку-подписку в разделе «Подключение» и добавьте её в Happ — дальше обычная кнопка включения.\n\nВажно при добавлении: Happ спросит, применить ли настройки маршрутизации от Fresh VPN — согласитесь. Благодаря им российские сайты идут напрямую, мимо VPN, и банки с маркетплейсами продолжают работать.\n\nЕсли раньше пользовались другим VPN, проверьте отдельно: Настройки → Маршрутизация → переключатель «Использовать роутинг» должен быть включён, а в списке ниже выбран профиль Fresh VPN.";
    mkItem "Почему на iPhone чужое приложение, а не ваше? Это безопасно?"
      "Своего приложения для iPhone у нас пока нет: Apple пускает VPN в магазин только от компаний, а не от индивидуальных предпринимателей.\n\nHapp — обычное приложение из App Store, оно прошло проверку Apple. Оно просто открывает соединение по нашей ссылке: серверы, ключи и ваш трафик остаются нашими, Happ здесь только «пульт».";
    mkItem "Как подключиться на Windows?"
      "Скачайте нашу программу в разделе «Инструкция» и установите. Ключ подставится автоматически либо вставьте его вручную.\n\nWindows может показать предупреждение о неизвестном издателе — нажмите «Подробнее», затем «Выполнить в любом случае». Так бывает у любых программ без дорогой подписи издателя.";
    mkItem "Как подключиться на Mac?"
      "На Mac ставится Happ из App Store, туда добавляется та же ссылка-подписка, что и на телефоне.";
    mkItem "Как настроить на роутере?"
      "Нужна прошивка, которая умеет работать с нашими протоколами: OpenWRT или Keenetic с дополнениями. В роутер добавляется та же ссылка-подписка.\n\nПлюс: защищены сразу все устройства дома, включая те, куда приложение не поставишь. Минус: настройка сложнее и на каждой модели своя. Не уверены — напишите нам модель, подскажем.";
    mkItem "Как настроить на телевизоре?"
      "Если телевизор на Android TV — ставится наше приложение для Android, файлом.\n\nЕсли система другая (Samsung, LG), приложение поставить нельзя. Тогда единственный рабочий путь — настроить роутер, и телевизор пойдёт через него.";
    mkItem "Приложение не устанавливается"
      "На Android разрешите установку из источника, откуда качаете — браузера или Telegram, в настройках безопасности. На Windows в окне защиты нажмите «Подробнее», затем «Выполнить в любом случае».\n\nЕсли не помогло, напишите нам устройство и текст ошибки, лучше со снимком экрана.";
    mkItem "Антивирус ругается на установщик"
      "Это ложное срабатывание. Любая программа VPN ставит системный сетевой драйвер, и антивирусы относятся к таким установщикам настороженно, особенно если у программы нет дорогой подписи издателя.\n\nСкачивайте только по ссылке из приложения или бота. Если сомневаетесь — напишите нам, подтвердим размер и контрольную сумму файла.";
    mkItem "Как понять, что VPN действительно работает?"
      "Откройте любой сервис проверки адреса, например 2ip.ru, и посмотрите страну. До включения будет ваша, после — страна выбранного сервера.\n\nВ самом приложении рядом с сервером виден отклик: если он показывается числом, соединение живое.";
    mkItem "Ключ не подходит, пишет ошибку"
      "Чаще всего копируется не вся строка. Скопируйте заново кнопкой «Скопировать ключ», а не выделением пальцем.\n\nЕсли ошибка осталась — проверьте срок подписки и напишите нам текст ошибки.";
    mkItem "Нужно ли что-то настраивать после установки?"
      "Нет. Приложение само выберет рабочий сервер и подходящий способ соединения.\n\nОстальное — по желанию: вручную выбрать страну или включить, чтобы российские сайты шли напрямую, мимо VPN.";
    mkItem "Вы добавили новые серверы — мне что-то делать?"
      "Ничего. Список серверов приложение берёт по вашей ссылке-подписке и обновляет сам. Новые страны появятся в списке, старый ключ менять не нужно.";
    mkItem "Как поменять страну и что означают цифры рядом?"
      "В списке серверов нажмите на нужную страну — переключение занимает пару секунд. Число рядом — отклик в миллисекундах, то есть насколько быстро сервер отвечает.\n\nПравило простое: меньше число — живее связь. Для игр и видеозвонков берите самое маленькое." ].

Definition cat_billing : Category :=
  mkCategory "billing" "Оплата и подписка"
  [ mkItem "Сколько стоит?"
      "Цены и сроки — в разделе «Тарифы». Чем длиннее срок, тем дешевле выходит месяц.";
    mkItem "Как оплатить?"
      "В разделе «Тарифы»: выбираете срок и способ. Принимаем оплату по СБП, банковской картой, криптовалютой и звёздами Telegram.\n\nПосле оплаты доступ включается автоматически, обычно за минуту.";
    mkItem "Оплатил, а доступа нет"
      "Сначала закройте и откройте приложение, а в мини-приложении обновите страницу: доступ иногда доезжает с задержкой в минуту.\n\nЕсли за несколько минут ничего не изменилось — напишите нам через «Новое обращение», укажите время и способ оплаты. Проверим и включим вручную.";
    mkItem "Как продлить подписку?"
      "Тем же путём: раздел «Тарифы», выбираете срок. Дни прибавляются к текущим, ничего не сгорает — продлевать можно заранее.";
    mkItem "Деньги списываются автоматически?"
      "Нет. По умолчанию автопродление выключено: каждое продление вы делаете сами, а мы напомним, когда срок будет подходить к концу.\n\nЕсли вам удобнее не следить за датой, автопродление можно включить отдельной настройкой — и выключить в любой момент там же.";
    mkItem "Где посмотреть, сколько дней осталось?"
      "На главном экране и в разделе «Подключение» — там показан статус подписки и дата окончания.";
    mkItem "Как вернуть деньги?"
      "Если сервис не подошёл, напишите нам в первые 14 дней после оплаты через «Новое обращение» — вернём деньги, объяснять причину не нужно.\n\nПеред покупкой можно ничем не рисковать: подпишитесь на канал и попробуйте бесплатно.";
    mkItem "Что будет, когда подписка закончится?"
      "Соединение перестанет устанавливаться, но ключ и настройки останутся на месте. Продлите — заработает снова, заново настраивать не нужно.";
    mkItem "Как получить пробный доступ?"
      "Подпишитесь на наш канал — кнопка появится на главном экране, дни начислятся автоматически.";
    mkItem "Можно взять пробный доступ второй раз? А если отписаться от канала?"
      "Пробный доступ даётся один раз на аккаунт. Если отписаться от канала раньше срока, оставшиеся пробные дни сгорают — купленные дни это не затрагивает." ].

Definition cat_speed : Category :=
  mkCategory "speed" "Скорость и неполадки"
  [ mkItem "Почему скорость ниже, чем без VPN?"
      "Трафик идёт не напрямую, а через сервер, и шифруется — небольшая потеря есть всегда. Обычно она незаметна: ограничений по скорости и трафику мы не ставим.\n\nЕсли просело сильно, дело почти всегда в далёком сервере. Смените страну на ту, где отклик меньше.";
    mkItem "Подключился, а сайты не грузятся"
      "По шагам: 1) переподключитесь; 2) смените страну; 3) проверьте, открывается ли что-нибудь вообще, или только один сайт; 4) выключите VPN и убедитесь, что интернет есть сам по себе.\n\nЕсли не работает только один сервис, а остальное открывается — напишите нам его название, лечится сменой сервера. Если не работает ничего и без VPN тоже — проблема на стороне связи, не у нас.";
    mkItem "Соединение рвётся каждые несколько минут"
      "Обычно это переключение между Wi-Fi и мобильным интернетом, слабый сигнал или энергосбережение телефона, которое усыпляет приложение. Разрешите приложению работать в фоне без ограничений.\n\nЕсли рвётся на всех серверах и разных сетях — напишите нам город, оператора и время обрывов.";
    mkItem "На домашнем Wi-Fi работает, а на мобильном интернете нет"
      "Это не поломка приложения. Мобильные операторы фильтруют соединения жёстче домашних провайдеров, а в дни ограничений могут пропускать только свои разрешённые сервисы.\n\nЧто помогает: сменить страну, переподключиться через минуту, попробовать позже. Напишите нам оператора и город — у нас есть обходные настройки, но их подбирают под конкретного оператора.";
    mkItem "Какую страну выбрать?"
      "Ту, где отклик меньше — обычно это ближайшая. Для игр, звонков и видео это важнее всего.\n\nЕсли нужен сервис, доступный только в определённой стране, выбирайте её, даже если отклик выше.";
    mkItem "Подходит ли для игр?"
      "Да. Берите страну с самым низким откликом: в играх задержка заметнее, чем скорость закачки.";
    mkItem "Потянет ли видео в высоком качестве?"
      "Да, ограничений по скорости у нас нет. Подтормаживает — смените страну на ближнюю.";
    mkItem "Что такое «российские сайты напрямую» и когда это включать?"
      "Это режим, при котором российские сервисы идут в обход VPN, а всё остальное — через него. Нужен потому, что банки, госуслуги и маркетплейсы не любят заграничные адреса и могут блокировать вход.\n\nВ нашем приложении и программе он включён по умолчанию, трогать ничего не надо.\n\nВ Happ правила приходят вместе с подпиской, но работают только при включённом переключателе: Настройки → Маршрутизация → «Использовать роутинг», профиль Fresh VPN. Если раньше стоял другой VPN, переключатель мог остаться выключенным.\n\nЕсли какой-то российский сайт всё равно не открывается — пришлите нам адрес, добавим в список.";
    mkItem "Банк или госуслуги не пускают при включённом VPN"
      "Сначала проверьте, включён ли режим «российские сайты напрямую».\n\nВ Happ: Настройки → Маршрутизация → переключатель «Использовать роутинг» включён, профиль Fresh VPN выбран. Это самая частая причина у тех, кто раньше пользовался другим VPN: профиль приходит, а переключатель остаётся выключенным, и тогда весь трафик идёт через заграничный сервер.\n\nЕсли режим включён, а сайт всё равно не пускает — значит он ещё не попал в список. Быстрое решение: выключить VPN на минуту и войти. Пришлите нам адрес сайта, добавим — в следующий раз откроется сразу, не выключая защиту.";
    mkItem "Показывает не ту страну, которую я выбрал"
      "Сначала убедитесь, что подключение установилось, и переподключитесь.\n\nНекоторые сайты определяют местоположение не по адресу, а по настройкам вашей учётной записи или спутниковой геолокации телефона — тогда они будут показывать вашу настоящую страну, даже если VPN работает исправно.";
    mkItem "Перестали работать принтер, камеры и другие устройства в домашней сети"
      "При включённом VPN весь трафик уходит в туннель, включая обращения к устройствам внутри квартиры. В нашей программе есть настройка, разрешающая локальную сеть — включите её.\n\nВ Happ проще временно выключить VPN на время работы с принтером.";
    mkItem "Что такое аварийный стоп (kill switch)?"
      "Это защита от случайной утечки: если туннель внезапно оборвётся, интернет отключится совсем, вместо того чтобы молча пойти напрямую.\n\nВключается в настройках нашей программы. Если интернет пропадает при обрыве связи — скорее всего, у вас включён именно он.";
    mkItem "Ничего не помогло"
      "Напишите нам через «Новое обращение». Чтобы решить с первого раза, укажите: устройство и систему, город и оператора, выбранную страну и что именно происходит. Снимок экрана экономит целый круг переписки." ].

Definition cat_devices : Category :=
  mkCategory "devices" "Устройства и ключ"
  [ mkItem "Сколько устройств можно подключить?"
      "Ставить ключ можно на любое число своих устройств. Тариф ограничивает не установку, а сколько устройств работают в сети одновременно: от 2 на «Обычном» до 10 на «Семейном».\n\nТочное число указано рядом с каждым тарифом в разделе «Тарифы».";
    mkItem "Можно пользоваться на телефоне и компьютере одновременно?"
      "Да, это самый частый случай. Оба подключения занимают места из вашего лимита; если лимит исчерпан, новое соединение не установится, пока не отключится одно из работающих.";
    mkItem "На каких устройствах работает, а на каких нет?"
      "Работает: Android, Windows, iPhone и iPad, Mac, Android TV, роутеры с подходящей прошивкой.\n\nНе получится: телевизоры Samsung и LG без Android, игровые приставки — их защищают через роутер.";
    mkItem "Как перенести на новое устройство?"
      "Ничего переносить не нужно. Поставьте приложение и вставьте тот же ключ — он не привязан к конкретному телефону.";
    mkItem "Сменил телефон, потерял ключ — как восстановить доступ?"
      "Доступ привязан к вашему аккаунту Telegram, а не к устройству. Зайдите в нашего бота с нового телефона, откройте «Подключение» — ключ будет на месте.\n\nПароли и почта тут ни при чём: пока у вас есть доступ к своему Telegram, подписка никуда не денется.";
    mkItem "Можно ли показывать ключ другим людям?"
      "Нет. Ключ — это и есть доступ: у кого он есть, тот пользуется вашей подпиской и занимает ваши подключения.\n\nЕсли ключ утёк — напишите нам, перевыпустим. Старый сразу перестанет работать.";
    mkItem "Как отключить старое устройство?"
      "Удалите приложение или профиль на нём. Если устройство потеряно и хочется быть уверенным — напишите нам, перевыпустим ключ.";
    mkItem "Можно поделиться с семьёй?"
      "Да, в рамках вашего тарифа: раздайте им тот же ключ. Если устройств в семье много, посмотрите «Семейный» — там лимит одновременных подключений самый большой.";
    mkItem "Бот не отвечает, что делать?"
      "Напишите ему любое сообщение ещё раз или нажмите «Перезапустить». Если молчит дольше нескольких минут, попробуйте открыть мини-приложение — оно работает отдельно от переписки с ботом.\n\nПодписка при этом не страдает: она живёт на сервере, а не в чате." ].

Definition cat_privacy : Category :=
  mkCategory "privacy" "Приватность и безопасность"
  [ mkItem "Вы храните, какие сайты я открываю?"
      "Нет. Мы не записываем адреса, которые вы открываете, и содержимое трафика. Это обещание, на котором держится весь сервис.\n\nМы видим только объём израсходованного трафика и факт соединения — этого достаточно, чтобы работали тарифы.";
    mkItem "Какие мои данные вы храните?"
      "Идентификатор Telegram и имя пользователя, срок подписки, объём трафика, платежи. Это нужно, чтобы вы не потеряли доступ.\n\nПолный список открыт в мини-приложении Fresh, раздел «Мои данные» — там ровно то, что у нас лежит.";
    mkItem "Видит ли мой оператор или провайдер, что я включил VPN?"
      "Он видит факт зашифрованного соединения, но не видит, что внутри: какие сайты вы открываете и что там делаете, ему недоступно.\n\nПолностью спрятать сам факт использования VPN не может ни один сервис, который обещает обратное.";
    mkItem "Кто может видеть мой трафик?"
      "Между вашим устройством и нашим сервером трафик зашифрован — владелец Wi-Fi в кафе и провайдер видят только соединение.\n\nЧестно о границах: VPN защищает канал, но не делает вас невидимым для сайтов, куда вы заходите под своей учётной записью.";
    mkItem "Законно ли этим пользоваться?"
      "VPN — обычная технология защищённого соединения, её применяют и компании, и частные пользователи. Наши условия и политика открыты, ссылки есть в настройках приложения.";
    mkItem "Что будет, если у вас запросят мои данные?"
      "Мы можем отдать только то, что у нас есть: идентификатор Telegram, срок подписки и объём трафика. Истории посещений у нас не существует физически — её невозможно передать, потому что мы её не пишем.";
    mkItem "Можно удалить мои данные?"
      "Да. Напишите через «Новое обращение» — удалим и подтвердим. Вместе с данными пропадёт и доступ по текущей подписке.";
    mkItem "Зачем боту доступ к моему Telegram?"
      "Только чтобы узнать вас: идентификатор и имя пользователя. Читать переписку боты не могут, Telegram такого не позволяет.\n\nВ розыгрышах бот дополнительно спрашивает у Telegram, подписаны ли вы на канал и бустили ли его. Ничего сверх этого.";
    mkItem "У вас есть двойной VPN?"
      "Нет, и мы объясняем почему. Двойной VPN — это цепочка из двух серверов: скорость падает, отклик растёт вдвое, а реальную пользу это даёт только против того, кто следит за одним из серверов.\n\nПротив блокировок он не помогает: там смотрят не на количество прыжков, а на почерк соединения. Мы вкладываемся именно в устойчивость связи, а не в громкие слова на витрине.";
    mkItem "У вас есть выделенный IP?"
      "Нет. Выделенный адрес закреплён за одним человеком, а значит, нам пришлось бы хранить связку «пользователь — адрес» — ровно то, чего мы не делаем принципиально.\n\nК тому же при блокировке персонального адреса у человека не остаётся запасного, а в общем пуле мы просто переключаем на живой сервер." ].

Definition categories : list Category :=
  [cat_connect; cat_billing; cat_speed; cat_devices; cat_privacy].

(** The value of a string literal; a line break is the one escape of the file. *)
Fixpoint unescape (s : jsstring) : jsstring :=
  match s with
  | 92 :: 110 :: s' => 10 :: unescape s'
  | c :: s' => c :: unescape s'
  | [] => []
  end.

Definition js_literal (t : text) : jsstring := unescape (js t).

(** The loop of [categoryById] over the sections not yet seen. *)
Fixpoint category_loop (l : list Category) (i : jsstring) : option Category :=
  match l with
  | [] => None
  | c :: l' => if bool_decide (js_literal (id c) = i) then Some c else category_loop l' i
  end.

Definition categoryById (i : jsstring) : option Category := category_loop categories i.

(** ** The pages *)

(** The heading, where [none] is the page's own heading for the list. *)
Definition faq_heading (none faqCat : jsstring) : jsstring :=
  if bool_decide (faqCat = []) then none
  else match categoryById faqCat with Some c => js_literal (title c) | None => [] end.

(** The model of the repeater of sections. *)
Definition shown_sections (faqCat : jsstring) : list Category :=
  if bool_decide (faqCat = []) then categories else [].

(** The model of the repeater of questions. *)
Definition shown_items (faqCat : jsstring) : list Item :=
  if bool_decide (faqCat = []) then []
  else match categoryById faqCat with Some c => items c | None => [] end.

(** Whether the way back to the sections is visible. *)
Definition back_visible (faqCat : jsstring) : bool := negb (bool_decide (faqCat = [])).

(** A click on a section that is shown, or on the way back while visible. *)
Inductive faq_step : jsstring -> jsstring -> Prop :=
| choose_section faqCat c :
    c ∈ shown_sections faqCat -> faq_step faqCat (js_literal (id c))
| back_to_sections faqCat :
    back_visible faqCat = true -> faq_step faqCat [].

(** ** Specification *)

(** The list of sections, or the questions of one section. *)
Definition faq_view (none faqCat : jsstring) : Prop :=
  (faqCat = [] /\ faq_heading none faqCat = none /\ shown_sections faqCat = categories
   /\ shown_items faqCat = [] /\ back_visible faqCat = false)
  \/ exists c, c ∈ categories /\ faqCat = js_literal (id c)
       /\ faq_heading none faqCat = js_literal (title c) /\ shown_sections faqCat = []
       /\ shown_items faqCat = items c /\ items c <> [] /\ back_visible faqCat = true.

(** An item with a question and an answer. *)
Definition item_ok (i : Item) : bool :=
  negb (bool_decide (js_literal (q i) = [])) && negb (bool_decide (js_literal (a i) = [])).

Definition category_ok (c : Category) : bool :=
  negb (bool_decide (js_literal (id c) = [])) && negb (bool_decide (js_literal (title c) = []))
  && negb (match items c with [] => true | _ => false end) && forallb item_ok (items c).

(** ** Lemmas *)

Lemma category_loop_elem (l : list Category) (c : Category) :
  NoDup (map (fun c => js_literal (id c)) l) -> c ∈ l ->
  category_loop l (js_literal (id c)) = Some c.
Proof.
  induction l as [|d l IH]; cbn [category_loop]; [intros _ H; by apply not_elem_of_nil in H|].
  intros [Hd Hnd]%NoDup_cons [E|Hin]%elem_of_cons.
  - subst. by rewrite bool_decide_true.
  - rewrite bool_decide_false; [by apply IH|]. intros E. apply Hd. rewrite E.
    apply list_elem_of_fmap. by exists c.
Qed.

Lemma category_loop_Some (l : list Category) (i : jsstring) (c : Category) :
  category_loop l i = Some c -> c ∈ l /\ js_literal (id c) = i.
Proof.
  induction l as [|d l IH]; cbn [category_loop]; [done|].
  case_bool_decide as E; intros H; [injection H as <-; split; [left|done]|].
  destruct (IH H). split; [by right|done].
Qed.

Lemma category_ids_nodup : NoDup (map (fun c => js_literal (id c)) categories).
Proof. apply (bool_decide_unpack _). by vm_compute. Qed.

Lemma categories_ok (c : Category) : c ∈ categories -> category_ok c = true.
Proof.
  assert (Hall : forallb category_ok categories = true) by by vm_compute.
  rewrite forallb_forall in Hall. intros Hin. by apply Hall, list_elem_of_In.
Qed.

Lemma section_view (none : jsstring) (c : Category) :
  c ∈ categories -> faq_view none (js_literal (id c)).
Proof.
  intros Hc. right. exists c.
  pose proof (categories_ok c Hc) as Hok. unfold category_ok in Hok.
  rewrite !andb_true_iff, !negb_true_iff, !bool_decide_eq_false in Hok.
  destruct Hok as [[[Hid _] Hit] _].
  unfold faq_heading, shown_sections, shown_items, back_visible, categoryById.
  rewrite (bool_decide_false (js_literal (id c) = [])) by exact Hid.
  rewrite (category_loop_elem _ _ category_ids_nodup Hc).
  split_and!; try reflexivity; [exact Hc|]. intros E. by rewrite E in Hit.
Qed.

Lemma start_view (none : jsstring) : faq_view none [].
Proof. left. split_and!; reflexivity. Qed.

(** ** Properties *)

(** C35: whatever is clicked, the help pages show either the list of sections
    under their own heading, or the title and the questions, at least one, of
    exactly the section that was chosen, with the way back visible. *)
Theorem faq_navigation (none faqCat : jsstring) :
  rtc faq_step [] faqCat -> faq_view none faqCat.
Proof.
  intros Hr. destruct (rtc_inv_r _ _ Hr) as [<- | (prev & _ & Hs)]; [apply start_view|].
  destruct Hs as [prev c Hc|]; [|apply start_view].
  apply section_view. unfold shown_sections in Hc.
  case_bool_decide; [exact Hc|by apply not_elem_of_nil in Hc].
Qed.

(** [categoryById] is exact: it finds a section exactly for the identifiers
    of the sections, the one section with that identifier, and every section
    has a title and only questions with answers. *)
Theorem categoryById_exact (i : jsstring) (c : Category) :
  (categoryById i = Some c <-> c ∈ categories /\ js_literal (id c) = i)
  /\ forallb category_ok categories = true.
Proof.
  split; [|by vm_compute]. split; [apply category_loop_Some|].
  intros [Hc <-]. exact (category_loop_elem _ _ category_ids_nodup Hc).
Qed.

Lemma faq_navigation_witness :
  faq_view (js "FAQ") (js_literal (id cat_speed)).
Proof.
  apply (faq_navigation (js "FAQ") (js_literal (id cat_speed))).
  eapply rtc_l; [apply (choose_section [] cat_connect); left|].
  eapply rtc_l; [apply (back_to_sections (js_literal (id cat_connect))); by vm_compute|].
  apply rtc_once, (choose_section [] cat_speed). right. right. left.
Defined.
