(* ===== verification/Json.v ===== *)
(** * JSON values and strings of Qt

    The parts of [QJsonValue], [QJsonObject], [QJsonArray] and [QString] that the
    client and the daemon use, as their documentation describes them.  A string is
    [None] where it is null; a value is [None] where it is undefined. *)

From stdpp Require Import base numbers list strings.
From Stdlib Require Import ZArith Lia QArith Strings.String Strings.Ascii.
From S2P Require Import Prelude.
Open Scope string_scope.
Open Scope list_scope.
Open Scope Z_scope.

(** ** Strings *)

Abbreviation QString := (option string).

(** The characters of a string; a null string has none. *)
Definition chars (s : QString) : string := default EmptyString s.

(** [operator==]: a null string equals an empty one. *)
Definition q_eq (a b : QString) : bool := String.eqb (chars a) (chars b).

Definition isEmpty (s : QString) : bool := String.eqb (chars s) EmptyString.

Definition isNull (s : QString) : bool := match s with None => true | Some _ => false end.

(** [split(c)] for a single character. *)
Fixpoint split_on (c : ascii) (s : string) : list string :=
  match s with
  | EmptyString => [EmptyString]
  | String d s' =>
      match split_on c s' with
      | [] => []
      | w :: ws => if Ascii.eqb c d then EmptyString :: w :: ws else String d w :: ws
      end
  end.

(** [join(sep)]. *)
Fixpoint join (sep : string) (l : list string) : string :=
  match l with
  | [] => EmptyString
  | [s] => s
  | s :: l' => s ++ sep ++ join sep l'
  end%string.

(** Whether a text contains another. *)
Fixpoint contains_text (w s : string) : bool :=
  String.prefix w s
  || match s with EmptyString => false | String _ s' => contains_text w s' end.

Definition digit_value (c : ascii) : option Z :=
  let n := Z.of_N (N_of_ascii c) in
  if (48 <=? n) && (n <=? 57) then Some (n - 48) else None.

(** The digits at the start of a text. *)
Fixpoint atoi_digits (acc : Z) (s : string) : Z :=
  match s with
  | EmptyString => acc
  | String c s' => match digit_value c with Some d => atoi_digits (acc * 10 + d) s' | None => acc end
  end.

(** White space of the C locale. *)
Definition c_space (c : ascii) : bool :=
  let n := Z.of_N (N_of_ascii c) in ((9 <=? n) && (n <=? 13)) || (n =? 32).

(** [atoi]: white space, a sign, and digits. *)
Fixpoint atoi (s : string) : Z :=
  match s with
  | EmptyString => 0
  | String c s' =>
      if c_space c then atoi s'
      else if Ascii.eqb c "-" then - atoi_digits 0 s'
      else if Ascii.eqb c "+" then atoi_digits 0 s'
      else atoi_digits 0 s
  end.

(** ** Values *)

Inductive json :=
| JNull
| JBool (b : bool)
| JDouble (q : Q)
| JString (s : string)
| JArray (l : list json)
| JObject (o : list (string * json)).

Abbreviation QJsonValue := (option json).
Abbreviation QJsonObject := (list (string * json)).

Fixpoint obj_value (o : QJsonObject) (k : string) : QJsonValue :=
  match o with
  | [] => None
  | (k', v) :: o' => if String.eqb k k' then Some v else obj_value o' k
  end.

Definition obj_contains (o : QJsonObject) (k : string) : bool :=
  match obj_value o k with Some _ => true | None => false end.

(** Removal of a key. *)
Definition obj_remove (o : QJsonObject) (k : string) : QJsonObject :=
  List.filter (fun e => negb (String.eqb k e.1)) o.

(** [insert]: an undefined value removes the key. *)
Definition obj_insert (o : QJsonObject) (k : string) (v : QJsonValue) : QJsonObject :=
  match v with
  | Some j => obj_remove o k ++ [(k, j)]
  | None => obj_remove o k
  end.

Definition toString (v : QJsonValue) : QString :=
  match v with Some (JString s) => Some s | _ => None end.

Definition isString (v : QJsonValue) : bool := match v with Some (JString _) => true | _ => false end.
Definition isDouble (v : QJsonValue) : bool := match v with Some (JDouble _) => true | _ => false end.
Definition isBool (v : QJsonValue) : bool := match v with Some (JBool _) => true | _ => false end.

(** [QJsonValue::isNull]: an undefined value is not null. *)
Definition value_isNull (v : QJsonValue) : bool := match v with Some JNull => true | _ => false end.

(** [toInt]: zero unless the value is an integer that fits. *)
Definition toInt (v : QJsonValue) : Z :=
  match v with
  | Some (JDouble q) =>
      let n := Z.quot (Qnum q) (Zpos (Qden q)) in
      if (Z.rem (Qnum q) (Zpos (Qden q)) =? 0) && (- 2 ^ 31 <=? n) && (n <? 2 ^ 31) then n else 0
  | _ => 0
  end.

Definition toArray (v : QJsonValue) : list json := match v with Some (JArray l) => l | _ => [] end.
Definition toObject (v : QJsonValue) : QJsonObject := match v with Some (JObject o) => o | _ => [] end.

Definition number (n : Z) : QJsonValue := Some (JDouble (inject_Z n)).

(** ** Lemmas *)

Lemma obj_value_app (o1 o2 : QJsonObject) (k : string) :
  obj_value (o1 ++ o2) k = match obj_value o1 k with Some v => Some v | None => obj_value o2 k end.
Proof.
  induction o1 as [|[k' v] o1 IH]; simpl; [done|]. by destruct (String.eqb k k').
Qed.

Lemma obj_value_remove (o : QJsonObject) (k k' : string) :
  obj_value (obj_remove o k) k' = if String.eqb k k' then None else obj_value o k'.
Proof.
  induction o as [|[k1 v] o IH]; simpl; [by destruct (String.eqb k k')|].
  destruct (String.eqb_spec k k1) as [->|Hne]; simpl.
  - rewrite IH. destruct (String.eqb_spec k1 k') as [->|Hne]; [done|].
    destruct (String.eqb_spec k' k1) as [->|]; [done|done].
  - rewrite IH. destruct (String.eqb_spec k' k1) as [->|]; [|done].
    by rewrite (proj2 (String.eqb_neq _ _)).
Qed.

(** What is inserted is found, and other keys are untouched. *)
Lemma obj_value_insert (o : QJsonObject) (k k' : string) (v : QJsonValue) :
  obj_value (obj_insert o k v) k' = if String.eqb k k' then v else obj_value o k'.
Proof.
  destruct v as [j|]; unfold obj_insert; [|by rewrite obj_value_remove; destruct (String.eqb k k')].
  rewrite obj_value_app, obj_value_remove. simpl. rewrite (String.eqb_sym k' k).
  destruct (String.eqb k k'); [done|]. by destruct (obj_value o k').
Qed.

Lemma obj_value_None (o : QJsonObject) (k : string) : k ∉ map fst o -> obj_value o k = None.
Proof.
  induction o as [|[k' v] o IH]; [done|]. cbn. rewrite elem_of_cons. intros Hk.
  rewrite (proj2 (String.eqb_neq k k')) by naive_solver. apply IH. naive_solver.
Qed.

Lemma obj_remove_keys (o : QJsonObject) (k k' : string) :
  k' ∈ map fst (obj_remove o k) -> k' ∈ map fst o /\ k' <> k.
Proof.
  induction o as [|[k1 v] o IH]; cbn; [by rewrite elem_of_nil|].
  destruct (String.eqb_spec k k1) as [->|Hne]; cbn; rewrite ?elem_of_cons; naive_solver.
Qed.

(** The keys of an object are distinct. *)
Lemma obj_insert_NoDup (o : QJsonObject) (k : string) (v : QJsonValue) :
  NoDup (map fst o) -> NoDup (map fst (obj_insert o k v)).
Proof.
  intros Hd. assert (Hr : NoDup (map fst (obj_remove o k))).
  { induction o as [|[k1 v1] o IH]; cbn in *; [done|]. apply NoDup_cons in Hd as [Hn Hd].
    destruct (String.eqb k k1); cbn; [by apply IH|]. apply NoDup_cons. split; [|by apply IH].
    intros Hin. by apply obj_remove_keys in Hin as [? _]. }
  destruct v as [j|]; [|done]. unfold obj_insert. rewrite map_app. apply NoDup_app.
  split; [done|]. split; [|cbn; apply NoDup_singleton].
  intros k' Hin. apply obj_remove_keys in Hin as [_ Hne]. cbn. by rewrite list_elem_of_singleton.
Qed.

Lemma toInt_number (n : Z) : - 2 ^ 31 <= n < 2 ^ 31 -> toInt (number n) = n.
Proof.
  intros Hn. unfold toInt, number, inject_Z. cbn [Qnum Qden].
  rewrite Z.quot_1_r, Z.rem_1_r, Z.eqb_refl.
  rewrite (proj2 (Z.leb_le _ _)), (proj2 (Z.ltb_lt _ _)) by lia. done.
Qed.

(** ** Texts *)

Lemma string_app_assoc (a b c : string) : ((a ++ b) ++ c = a ++ b ++ c)%string.
Proof.
  induction a as [|d a IH]; [done|].
  change (String d ((a ++ b) ++ c) = String d (a ++ b ++ c))%string. by rewrite IH.
Qed.

Lemma string_app_nil_r (s : string) : (s ++ EmptyString)%string = s.
Proof.
  induction s as [|c s IH]; [done|]. change (String c (s ++ EmptyString) = String c s)%string. by rewrite IH.
Qed.

Lemma string_length_app (a b : string) :
  String.length (a ++ b) = (String.length a + String.length b)%nat.
Proof.
  induction a as [|c a IH]; [done|].
  change (S (String.length (a ++ b)) = S (String.length a + String.length b))%nat. by rewrite IH.
Qed.

Lemma prefix_app (a b : string) : String.prefix a (a ++ b) = true.
Proof.
  induction a as [|c a IH]; [by destruct b|].
  change (String c a ++ b)%string with (String c (a ++ b)). cbn [String.prefix].
  by destruct (ascii_dec c c).
Qed.

Lemma substring_all (s : string) : String.substring 0 (String.length s) s = s.
Proof. induction s as [|c s IH]; [done|]. cbn [String.substring String.length]. by rewrite IH. Qed.

Lemma substring_app (a b : string) (n : nat) :
  String.substring (String.length a) n (a ++ b) = String.substring 0 n b.
Proof. induction a as [|c a IH]; [done|]. exact IH. Qed.
