(* ===== verification/Config.v ===== *)
(** * The configuration of an interface

    client/daemon/interfaceconfig.h and .cpp, and [Daemon::parseConfig]: the
    configuration that the client sends as JSON, how the daemon reads it, and how
    it is written as JSON and as a WireGuard file.  The classes of Qt for addresses
    and enumerations are the interface [Qt]. *)

From stdpp Require Import base numbers list strings pretty sorting.
From Stdlib Require Import ZArith Lia QArith Strings.String Strings.Ascii.
From S2P Require Import Prelude IpAddress JsText Json.
Open Scope string_scope.
Open Scope list_scope.
Open Scope Z_scope.

(** ** Data *)

Inductive HopType := SingleHop | MultiHopEntry | MultiHopExit.

#[export] Instance HopType_eq_dec : EqDecision HopType.
Proof. solve_decision. Defined.

Record InterfaceConfig := mkConfig {
  m_hopType : HopType;
  m_privateKey : QString;
  m_deviceIpv4Address : QString;
  m_deviceIpv6Address : QString;
  m_serverIpv4Gateway : QString;
  m_serverIpv6Gateway : QString;
  m_serverPublicKey : QString;
  m_serverIpv4AddrIn : QString;
  m_serverPskKey : QString;
  m_serverIpv6AddrIn : QString;
  m_primaryDnsServer : QString;
  m_secondaryDnsServer : QString;
  m_serverPort : Z;
  m_deviceMTU : Z;
  m_allowedIPAddressRanges : list IPAddress;
  m_excludedAddresses : list string;
  m_vpnDisabledApps : list string;
  m_allowedDnsServers : list string;
  m_killSwitchEnabled : bool;
  m_junkPacketCount : QString;
  m_junkPacketMinSize : QString;
  m_junkPacketMaxSize : QString;
  m_initPacketJunkSize : QString;
  m_responsePacketJunkSize : QString;
  m_cookieReplyPacketJunkSize : QString;
  m_transportPacketJunkSize : QString;
  m_initPacketMagicHeader : QString;
  m_responsePacketMagicHeader : QString;
  m_underloadPacketMagicHeader : QString;
  m_transportPacketMagicHeader : QString;
  m_specialJunk : list (string * QString)
}.

(** A configuration as its constructor leaves it; the hop is not initialised
    there. *)
Definition empty_config : InterfaceConfig :=
  mkConfig SingleHop None None None None None None None None None None None 0 1420 [] [] [] [] false
    None None None None None None None None None None None [].

(** [QHostAddress(QString)], [QHostAddress::parseSubnet], [QHostAddress::toString]
    and [QMetaEnum::keyToValue] for [HopType]. *)
Class Qt := {
  hostAddress : string -> QHostAddress;
  parseSubnet : string -> QHostAddress * Z;
  host_text : QHostAddress -> string;
  keyToValue : string -> option HopType
}.

(** [QMetaEnum::valueToKey]. *)
Definition valueToKey (h : HopType) : string :=
  match h with
  | SingleHop => "SingleHop"
  | MultiHopEntry => "MultiHopEntry"
  | MultiHopExit => "MultiHopExit"
  end.

(** ** Conversions of strings *)

Fixpoint drop_space (s : string) : string :=
  match s with
  | EmptyString => EmptyString
  | String c s' => if c_space c then drop_space s' else s
  end.

(** A number, with white space after it; [seen] tells whether a digit came
    before. *)
Fixpoint whole_digits (seen : bool) (acc : Z) (s : string) : option Z :=
  match s with
  | EmptyString => if seen then Some acc else None
  | String c s' =>
      match digit_value c with
      | Some d => whole_digits true (acc * 10 + d) s'
      | None => if seen && String.eqb (drop_space s) EmptyString then Some acc else None
      end
  end.

Definition signed_digits (s : string) : option Z :=
  match s with
  | EmptyString => None
  | String c s' =>
      if Ascii.eqb c "-" then Z.opp <$> whole_digits false 0 s'
      else if Ascii.eqb c "+" then whole_digits false 0 s'
      else whole_digits false 0 s
  end.

(** [QString::toInt(&ok)]: none where the text is not a number or does not fit. *)
Definition string_toInt_ok (s : string) : option Z :=
  match signed_digits (drop_space s) with
  | Some n => if (- 2 ^ 31 <=? n) && (n <? 2 ^ 31) then Some n else None
  | None => None
  end.

(** [QString::toInt]: zero where there is no conversion. *)
Definition string_toInt (s : string) : Z := default 0 (string_toInt_ok s).

Definition lower_ascii (c : ascii) : ascii :=
  let n := N_of_ascii c in if ((65 <=? n) && (n <=? 90))%N then ascii_of_N (n + 32) else c.

Fixpoint lower_text (s : string) : string :=
  match s with EmptyString => EmptyString | String c s' => String (lower_ascii c) (lower_text s') end.

(** [QVariant(s).toBool()]: false for an empty string, 0 and false. *)
Definition variant_toBool (s : QString) : bool :=
  let t := lower_text (chars s) in
  negb (String.eqb t EmptyString || String.eqb t "0" || String.eqb t "false").

(** The conversion of a double to an int, which drops the fraction. *)
Definition double_to_int (q : Q) : Z := Z.quot (Qnum q) (Zpos (Qden q)).

Section Config.
Context `{Qt, ArraySort}.

(** ** Reading *)

(** [GETVALUE]: none where the function returns. *)
Definition get_string (obj : QJsonObject) (name : string) : option string :=
  match obj_value obj name with Some (JString s) => Some s | _ => None end.
Definition get_double (obj : QJsonObject) (name : string) : option Q :=
  match obj_value obj name with Some (JDouble q) => Some q | _ => None end.

(** The strings of an array; an absent key gives an empty list. *)
Definition parseStringList (obj : QJsonObject) (name : string) : option (list string) :=
  match obj_value obj name with
  | None => Some []
  | Some (JArray array) => mapM (fun i => toString (Some i)) array
  | Some _ => None
  end.

Definition parse_mtu (windows : bool) (obj : QJsonObject) : Z :=
  let n := string_toInt (chars (toString (obj_value obj "deviceMTU"))) in
  if negb (obj_contains obj "deviceMTU") || (n =? 0) then 1420
  else if windows && (n <? 1280) then 1280
  else n.

(** A server for names: null where the key is absent. *)
Definition parse_dns (obj : QJsonObject) (name : string) : option QString :=
  match obj_value obj name with
  | None => Some None
  | Some (JString s) => Some (Some s)
  | Some _ => None
  end.

Definition parse_hop (obj : QJsonObject) : option HopType :=
  match obj_value obj "hopType" with
  | None => Some SingleHop
  | Some (JString s) => keyToValue s
  | Some _ => None
  end.

Definition parse_range (i : json) : option IPAddress :=
  match i with
  | JObject ipObj =>
      match obj_value ipObj "address", obj_value ipObj "range", obj_value ipObj "isIpv6" with
      | Some (JString address), Some (JDouble range), Some (JBool _) =>
          Some (mkIPAddress (hostAddress address) (toInt (Some (JDouble range))))
      | _, _, _ => None
      end
  | _ => None
  end.

(** The order of the sort: decreasing length of the prefix. *)
Definition longer_first (a b : IPAddress) : Z := m_prefixLength b - m_prefixLength a.

Definition parse_ranges (obj : QJsonObject) : option (list IPAddress) :=
  match obj_value obj "allowedIPAddressRanges" with
  | Some (JArray array) => array_sort longer_first <$> mapM parse_range array
  | _ => None
  end.

(** A field that a JSON null leaves as it was. *)
Definition unless_null (v : QJsonValue) : QString := if value_isNull v then None else toString v.

Definition parse_special (obj : QJsonObject) : list (string * QString) :=
  map (fun k => (k, toString (obj_value obj k)))
    (List.filter (fun k => negb (value_isNull (obj_value obj k))) ["I1"; "I2"; "I3"; "I4"; "I5"]).

(** A pair of addresses of which one must be there. *)
Definition one_of (a b : QString) : option unit := if isNull a && isNull b then None else Some tt.

(** [config] is new at each call; the result is none where the code returns
    false. *)
Definition parseConfig (windows : bool) (obj : QJsonObject) : option InterfaceConfig :=
  let text k := toString (obj_value obj k) in
  let field k := unless_null (obj_value obj k) in
  privateKey ← get_string obj "privateKey";
  serverPublicKey ← get_string obj "serverPublicKey";
  serverPort ← get_double obj "serverPort";
  _ ← one_of (text "deviceIpv4Address") (text "deviceIpv6Address");
  _ ← one_of (text "serverIpv4AddrIn") (text "serverIpv6AddrIn");
  primaryDns ← parse_dns obj "primaryDnsServer";
  secondaryDns ← parse_dns obj "secondaryDnsServer";
  hop ← parse_hop obj;
  ranges ← parse_ranges obj;
  excluded ← parseStringList obj "excludedAddresses";
  apps ← parseStringList obj "vpnDisabledApps";
  dns ← parseStringList obj "allowedDnsServers";
  Some {|
    m_hopType := hop;
    m_privateKey := Some privateKey;
    m_deviceIpv4Address := text "deviceIpv4Address";
    m_deviceIpv6Address := text "deviceIpv6Address";
    m_serverIpv4Gateway := text "serverIpv4Gateway";
    m_serverIpv6Gateway := text "serverIpv6Gateway";
    m_serverPublicKey := Some serverPublicKey;
    m_serverIpv4AddrIn := text "serverIpv4AddrIn";
    m_serverPskKey := text "serverPskKey";
    m_serverIpv6AddrIn := text "serverIpv6AddrIn";
    m_primaryDnsServer := primaryDns;
    m_secondaryDnsServer := secondaryDns;
    m_serverPort := double_to_int serverPort;
    m_deviceMTU := parse_mtu windows obj;
    m_allowedIPAddressRanges := ranges;
    m_excludedAddresses := excluded;
    m_vpnDisabledApps := apps;
    m_allowedDnsServers := dns;
    m_killSwitchEnabled := variant_toBool (text "killSwitchOption");
    m_junkPacketCount := field "Jc";
    m_junkPacketMinSize := field "Jmin";
    m_junkPacketMaxSize := field "Jmax";
    m_initPacketJunkSize := field "S1";
    m_responsePacketJunkSize := field "S2";
    m_cookieReplyPacketJunkSize := field "S3";
    m_transportPacketJunkSize := field "S4";
    m_initPacketMagicHeader := field "H1";
    m_responsePacketMagicHeader := field "H2";
    m_underloadPacketMagicHeader := field "H3";
    m_transportPacketMagicHeader := field "H4";
    m_specialJunk := parse_special obj
  |}.

(** ** Writing *)

Definition json_text (s : QString) : QJsonValue := Some (JString (chars s)).
Definition json_strings (l : list string) : QJsonValue := Some (JArray (map JString l)).

Definition range_json (i : IPAddress) : json :=
  JObject (obj_insert (obj_insert (obj_insert []
    "address" (Some (JString (host_text (m_address i)))))
    "range" (number (m_prefixLength i)))
    "isIpv6" (Some (JBool (bool_decide (IPAddress_type i = IPv6Protocol))))).

(** Insertions in the order of the code. *)
Definition insert_all (o : QJsonObject) (l : list (string * QJsonValue)) : QJsonObject :=
  fold_left (fun o e => obj_insert o e.1 e.2) l o.

Definition config_entries (c : InterfaceConfig) : list (string * QJsonValue) :=
  [("hopType", Some (JString (valueToKey (m_hopType c))));
   ("privateKey", json_text (m_privateKey c));
   ("deviceIpv4Address", json_text (m_deviceIpv4Address c));
   ("deviceIpv6Address", json_text (m_deviceIpv6Address c));
   ("serverPublicKey", json_text (m_serverPublicKey c));
   ("serverPskKey", json_text (m_serverPskKey c));
   ("serverIpv4AddrIn", json_text (m_serverIpv4AddrIn c));
   ("serverIpv6AddrIn", json_text (m_serverIpv6AddrIn c));
   ("serverPort", number (m_serverPort c));
   ("deviceMTU", number (m_deviceMTU c))]
  ++ (match m_hopType c with
      | MultiHopExit | SingleHop =>
          [("serverIpv4Gateway", json_text (m_serverIpv4Gateway c));
           ("serverIpv6Gateway", json_text (m_serverIpv6Gateway c));
           ("primaryDnsServer", json_text (m_primaryDnsServer c));
           ("secondaryDnsServer", json_text (m_secondaryDnsServer c))]
      | MultiHopEntry => []
      end)
  ++ [("allowedIPAddressRanges", Some (JArray (map range_json (m_allowedIPAddressRanges c))));
      ("excludedAddresses", json_strings (m_excludedAddresses c));
      ("allowedDnsServers", json_strings (m_allowedDnsServers c));
      ("vpnDisabledApps", json_strings (m_vpnDisabledApps c))].

Definition toJson (c : InterfaceConfig) : QJsonObject := insert_all [] (config_entries c).

Definition newline : ascii := ascii_of_N 10.

Definition has_newline (s : QString) : bool := string_has newline (chars s).

(** [IPAddress::toString] *)
Definition ip_text (ip : IPAddress) : string :=
  (host_text (m_address ip) ++ "/" ++ pretty (m_prefixLength ip))%string.

Definition setting (key value : string) : string := (key ++ " = " ++ value)%string.

(** A setting that is written unless its value is null. *)
Definition optional (key : string) (value : QString) : list string :=
  match value with Some v => [setting key v] | None => [] end.

Definition wg_addresses (c : InterfaceConfig) : list string :=
  option_list (m_deviceIpv4Address c) ++ option_list (m_deviceIpv6Address c).

Definition wg_dns (c : InterfaceConfig) : list string :=
  if isEmpty (m_primaryDnsServer c) then []
  else
    let servers :=
      [chars (m_primaryDnsServer c)]
      ++ (if isEmpty (m_secondaryDnsServer c) then [] else [chars (m_secondaryDnsServer c)])
      ++ (if q_eq (m_primaryDnsServer c) (m_serverIpv4Gateway c)
          then [chars (m_serverIpv6Gateway c)] else []) in
    [setting "DNS" (join ", " servers)].

Definition wg_junk (c : InterfaceConfig) : list string :=
  optional "Jc" (m_junkPacketCount c)
  ++ optional "JMin" (m_junkPacketMinSize c)
  ++ optional "JMax" (m_junkPacketMaxSize c)
  ++ optional "S1" (m_initPacketJunkSize c)
  ++ optional "S2" (m_responsePacketJunkSize c)
  ++ optional "S3" (m_cookieReplyPacketJunkSize c)
  ++ optional "S4" (m_transportPacketJunkSize c)
  ++ optional "H1" (m_initPacketMagicHeader c)
  ++ optional "H2" (m_responsePacketMagicHeader c)
  ++ optional "H3" (m_underloadPacketMagicHeader c)
  ++ optional "H4" (m_transportPacketMagicHeader c).

(** The entries of a map, in the order of its keys. *)
Definition wg_entries (l : list (string * QString)) : list string :=
  map (fun e => setting e.1 (chars e.2)) l.

(** What is written, line by line. *)
Definition wg_lines (extra : list (string * QString)) (c : InterfaceConfig) : list string :=
  ["[Interface]"; setting "PrivateKey" (chars (m_privateKey c));
   setting "Address" (join ", " (wg_addresses c))]
  ++ (if m_deviceMTU c =? 0 then [] else [setting "MTU" (pretty (m_deviceMTU c))])
  ++ wg_dns c
  ++ wg_junk c
  ++ wg_entries (m_specialJunk c)
  ++ wg_entries extra
  ++ [EmptyString; "[Peer]"; setting "PublicKey" (chars (m_serverPublicKey c));
      setting "Endpoint" (chars (m_serverIpv4AddrIn c) ++ ":" ++ pretty (m_serverPort c))%string;
      setting "AllowedIPs" (join ", " (map ip_text (m_allowedIPAddressRanges c)))].

Fixpoint write_lines (l : list string) : string :=
  match l with
  | [] => EmptyString
  | s :: l' => (s ++ String newline (write_lines l'))%string
  end.

(** The fields that [VALIDATE] checks. *)
Definition validated (c : InterfaceConfig) : list QString :=
  [m_privateKey c; m_deviceIpv4Address c; m_deviceIpv6Address c; m_serverIpv4Gateway c;
   m_serverIpv6Gateway c; m_serverPublicKey c; m_serverIpv4AddrIn c; m_serverIpv6AddrIn c].

Definition toWgConf (extra : list (string * QString)) (c : InterfaceConfig) : string :=
  if existsb has_newline (validated c) then EmptyString
  else match wg_addresses c with
       | [] => EmptyString
       | _ :: _ => write_lines (wg_lines extra c)
       end.

(** ** Specification *)

(** The last value that is inserted under a key. *)
Definition last_value (l : list (string * QJsonValue)) (k : string) (d : QJsonValue) : QJsonValue :=
  fold_left (fun d e => if String.eqb e.1 k then e.2 else d) l d.

(** The texts that are written without a check. *)
Definition unchecked (extra : list (string * QString)) (c : InterfaceConfig) : list QString :=
  [m_primaryDnsServer c; m_secondaryDnsServer c; m_junkPacketCount c; m_junkPacketMinSize c;
   m_junkPacketMaxSize c; m_initPacketJunkSize c; m_responsePacketJunkSize c;
   m_cookieReplyPacketJunkSize c; m_transportPacketJunkSize c; m_initPacketMagicHeader c;
   m_responsePacketMagicHeader c; m_underloadPacketMagicHeader c; m_transportPacketMagicHeader c]
  ++ map snd (m_specialJunk c) ++ map (fun e => Some e.1) (m_specialJunk c)
  ++ map snd extra ++ map (fun e => Some e.1) extra
  ++ map (fun ip => Some (host_text (m_address ip))) (m_allowedIPAddressRanges c).

Definition one_line (s : string) : bool := negb (string_has newline s).

Definition int_range (n : Z) : Prop := - 2 ^ 31 <= n < 2 ^ 31.

(** What is left of a configuration that is written as JSON and read again: what is sent
    comes back, and what is not written, or is read in another form, has the default of
    the reader. *)
Definition as_read (c : InterfaceConfig) : InterfaceConfig :=
  let sent s := Some (chars s) in
  let kept s := match m_hopType c with MultiHopEntry => None | _ => sent s end in
  {|
    m_hopType := m_hopType c;
    m_privateKey := sent (m_privateKey c);
    m_deviceIpv4Address := sent (m_deviceIpv4Address c);
    m_deviceIpv6Address := sent (m_deviceIpv6Address c);
    m_serverIpv4Gateway := kept (m_serverIpv4Gateway c);
    m_serverIpv6Gateway := kept (m_serverIpv6Gateway c);
    m_serverPublicKey := sent (m_serverPublicKey c);
    m_serverIpv4AddrIn := sent (m_serverIpv4AddrIn c);
    m_serverPskKey := sent (m_serverPskKey c);
    m_serverIpv6AddrIn := sent (m_serverIpv6AddrIn c);
    m_primaryDnsServer := kept (m_primaryDnsServer c);
    m_secondaryDnsServer := kept (m_secondaryDnsServer c);
    m_serverPort := m_serverPort c;
    m_deviceMTU := 1420;
    m_allowedIPAddressRanges := array_sort longer_first (m_allowedIPAddressRanges c);
    m_excludedAddresses := m_excludedAddresses c;
    m_vpnDisabledApps := m_vpnDisabledApps c;
    m_allowedDnsServers := m_allowedDnsServers c;
    m_killSwitchEnabled := false;
    m_junkPacketCount := None;
    m_junkPacketMinSize := None;
    m_junkPacketMaxSize := None;
    m_initPacketJunkSize := None;
    m_responsePacketJunkSize := None;
    m_cookieReplyPacketJunkSize := None;
    m_transportPacketJunkSize := None;
    m_initPacketMagicHeader := None;
    m_responsePacketMagicHeader := None;
    m_underloadPacketMagicHeader := None;
    m_transportPacketMagicHeader := None;
    m_specialJunk := [("I1", None); ("I2", None); ("I3", None); ("I4", None); ("I5", None)]
  |}.

(** Parsers that know a few addresses. *)
Definition example_qt : Qt := {|
  hostAddress := fun i =>
    if String.eqb i "203.0.113.1" then HostV4 3405803777
    else if String.eqb i "0.0.0.0" then HostV4 0
    else if String.eqb i "::" then HostV6 (replicate 16 0)
    else HostNull;
  parseSubnet := fun i => if String.eqb i "10.0.0.0/8" then (HostV4 167772160, 8) else (HostNull, -1);
  host_text := fun h =>
    match h with
    | HostV4 n => if n =? 0 then "0.0.0.0" else "203.0.113.1"
    | HostV6 _ => "::"
    | HostNull => EmptyString
    end;
  keyToValue := fun k =>
    if String.eqb k "SingleHop" then Some SingleHop
    else if String.eqb k "MultiHopEntry" then Some MultiHopEntry
    else if String.eqb k "MultiHopExit" then Some MultiHopExit
    else None
|}.

(** A configuration for a key of the server, texts for the servers of names, and
    excluded addresses. *)
Definition config_for (key dns : string) (excluded : list string) : InterfaceConfig :=
  mkConfig SingleHop (Some "private") (Some "10.8.0.2") (Some "fd00::2") (Some "10.8.0.1") (Some "fd00::1")
    (Some key) (Some "203.0.113.1") None None (Some dns) None 51820 1280
    [mkIPAddress (HostV4 0) 0; mkIPAddress (HostV6 (replicate 16 0)) 0] excluded [] [] true
    None None None None None None None None None None None [].

Definition example_config : InterfaceConfig := config_for "key" "1.1.1.1" ["203.0.113.1"].
Definition example_dns (more : string) : InterfaceConfig := config_for "key" ("1.1.1.1" ++ more)%string [].

(** ** Lemmas *)

Lemma obj_value_insert_all (o : QJsonObject) (l : list (string * QJsonValue)) (k : string) :
  obj_value (insert_all o l) k = last_value l k (obj_value o k).
Proof.
  revert o. induction l as [|e l IH]; intros o; [done|].
  unfold insert_all, last_value in *. cbn [fold_left]. by rewrite IH, obj_value_insert.
Qed.

Lemma string_has_app (c : ascii) (a b : string) :
  string_has c (a ++ b) = string_has c a || string_has c b.
Proof. induction a as [|d a IH]; simpl; [done|]. by rewrite IH, orb_assoc. Qed.

Lemma one_line_app (a b : string) : one_line (a ++ b) = one_line a && one_line b.
Proof. unfold one_line. by rewrite string_has_app, negb_orb. Qed.

Lemma one_line_setting (k v : string) : one_line (setting k v) = one_line k && one_line v.
Proof. unfold setting. by rewrite !one_line_app. Qed.

Lemma one_line_join (l : list string) : forallb one_line l = true -> one_line (join ", " l) = true.
Proof.
  induction l as [|s [|t l] IH]; [done|by simpl; rewrite andb_true_r|].
  cbn [forallb]. rewrite andb_true_iff. intros [Hs Hl].
  change (join ", " (s :: t :: l)) with (s ++ ", " ++ join ", " (t :: l))%string.
  rewrite !one_line_app, Hs, IH by done. done.
Qed.

(** Numbers are written on one line. *)
Lemma one_line_digits (n : N) (s : string) : one_line s = true -> one_line (pretty_N_go n s) = true.
Proof.
  revert s. induction (N.lt_wf_0 n) as [n _ IH]. intros s Hs.
  destruct (decide (0 < n)%N) as [Hn|Hn].
  - rewrite pretty_N_go_step by done. apply IH; [apply N.div_lt; lia|].
    unfold pretty_N_char. by repeat case_match.
  - by replace n with 0%N by lia.
Qed.

Lemma one_line_positive (p : positive) : one_line (pretty p) = true.
Proof.
  change (pretty p) with (pretty (Npos p)). unfold pretty, pretty_N.
  case_decide; [done|]. by apply one_line_digits.
Qed.

Lemma one_line_number (n : Z) : one_line (pretty n) = true.
Proof.
  destruct n as [|p|p]; [done|apply one_line_positive|].
  change (pretty (Zneg p)) with ("-" ++ pretty p)%string.
  by rewrite one_line_app, one_line_positive.
Qed.

Lemma split_on_nonempty (c : ascii) (s : string) : split_on c s <> [].
Proof. induction s as [|d s IH]; simpl; [done|]. by repeat case_match. Qed.

Lemma split_on_cons (c d : ascii) (s : string) :
  split_on c (String d s) =
    if Ascii.eqb c d then EmptyString :: split_on c s
    else match split_on c s with [] => [] | w :: ws => String d w :: ws end.
Proof.
  cbn [split_on]. destruct (split_on c s) eqn:E; [by destruct (split_on_nonempty c s)|done].
Qed.

(** The first part of a text ends at the first separator. *)
Lemma split_on_first (c : ascii) (s t : string) :
  string_has c s = false -> split_on c (s ++ String c t) = s :: split_on c t.
Proof.
  induction s as [|d s IH]; intros Hs.
  - change (EmptyString ++ String c t)%string with (String c t).
    by rewrite split_on_cons, Ascii.eqb_refl.
  - change (String d s ++ String c t)%string with (String d (s ++ String c t)).
    cbn [string_has] in Hs. apply orb_false_iff in Hs as [Hc Hs].
    by rewrite split_on_cons, Hc, IH.
Qed.

Lemma split_on_single (c : ascii) (s : string) : string_has c s = false -> split_on c s = [s].
Proof.
  induction s as [|d s IH]; intros Hs; [done|].
  cbn [string_has] in Hs. apply orb_false_iff in Hs as [Hc Hs]. by rewrite split_on_cons, Hc, IH.
Qed.

Lemma split_on_line (s t : string) :
  one_line s = true -> split_on newline (s ++ String newline t) = s :: split_on newline t.
Proof. intros Hs. apply split_on_first. by apply negb_true_iff. Qed.

(** Lines that are written are read back. *)
Lemma split_write_lines (l : list string) :
  forallb one_line l = true -> split_on newline (write_lines l) = l ++ [EmptyString].
Proof.
  induction l as [|s l IH]; [done|]. cbn [forallb write_lines app].
  rewrite andb_true_iff. intros [Hs Hl]. by rewrite split_on_line, IH.
Qed.

Lemma not_has_newline (s : QString) : has_newline s = false <-> one_line (chars s) = true.
Proof. unfold has_newline, one_line. by rewrite negb_true_iff. Qed.

(** Lists of texts without a line break, as a hypothesis on each. *)
Lemma existsb_false {A} (f : A -> bool) (l : list A) :
  existsb f l = false <-> Forall (fun a => f a = false) l.
Proof.
  induction l as [|a l IH]; simpl; [by split|].
  rewrite orb_false_iff, IH, Forall_cons. done.
Qed.

Lemma forallb_app_true {A} (f : A -> bool) (l1 l2 : list A) :
  forallb f l1 = true -> forallb f l2 = true -> forallb f (l1 ++ l2) = true.
Proof. intros H1 H2. by rewrite forallb_app, H1, H2. Qed.

Lemma option_list_one_line (v : QString) :
  has_newline v = false -> forallb one_line (option_list v) = true.
Proof.
  intros Hv. apply not_has_newline in Hv. destruct v as [v|]; [|done].
  change (one_line v && true = true). by rewrite andb_true_r.
Qed.

Lemma optional_one_line (k : string) (v : QString) :
  one_line k = true -> has_newline v = false -> forallb one_line (optional k v) = true.
Proof.
  intros Hk Hv. apply not_has_newline in Hv. destruct v as [v|]; [|done].
  cbn [optional forallb]. rewrite one_line_setting, Hk. change (one_line v = true) in Hv. by rewrite Hv.
Qed.

Lemma entries_one_line (l : list (string * QString)) :
  Forall (fun s => has_newline s = false) (map snd l) ->
  Forall (fun s => has_newline s = false) (map (fun e => Some e.1) l) ->
  forallb one_line (wg_entries l) = true.
Proof.
  induction l as [|[k v] l IH]; [done|]. cbn [map wg_entries forallb fst snd].
  rewrite !Forall_cons, !not_has_newline. intros [Hv Hl] [Hk Hl'].
  rewrite one_line_setting, Hv. change (one_line k = true) in Hk. rewrite Hk. by apply IH.
Qed.

Lemma ranges_one_line (l : list IPAddress) :
  Forall (fun s => has_newline s = false) (map (fun ip => Some (host_text (m_address ip))) l) ->
  forallb one_line (map ip_text l) = true.
Proof.
  induction l as [|ip l IH]; [done|]. cbn [map forallb].
  rewrite Forall_cons, not_has_newline. intros [Hip Hl].
  apply andb_true_iff. split; [|by apply IH]. unfold ip_text. rewrite !one_line_app, one_line_number.
  change (one_line (host_text (m_address ip)) = true) in Hip. by rewrite Hip.
Qed.

#[local] Hint Resolve forallb_app_true optional_one_line option_list_one_line entries_one_line : texts.
#[local] Hint Extern 0 (one_line _ = true) => reflexivity : texts.

Lemma dns_one_line (c : InterfaceConfig) :
  has_newline (m_primaryDnsServer c) = false -> has_newline (m_secondaryDnsServer c) = false ->
  has_newline (m_serverIpv6Gateway c) = false -> forallb one_line (wg_dns c) = true.
Proof.
  rewrite !not_has_newline. intros H1 H2 H3. unfold wg_dns.
  destruct (isEmpty (m_primaryDnsServer c)); [done|]. cbn [forallb].
  rewrite one_line_setting, one_line_join; [done|].
  apply forallb_app_true; [cbn [forallb]; by rewrite H1|].
  apply forallb_app_true; case_match; cbn [forallb]; by rewrite ?H2, ?H3.
Qed.

Lemma addresses_one_line (c : InterfaceConfig) :
  has_newline (m_deviceIpv4Address c) = false -> has_newline (m_deviceIpv6Address c) = false ->
  forallb one_line (wg_addresses c) = true.
Proof.
  unfold wg_addresses. auto with texts.
Qed.

Lemma junk_one_line (c : InterfaceConfig) :
  Forall (fun s => has_newline s = false) (unchecked [] c) -> forallb one_line (wg_junk c) = true.
Proof.
  unfold unchecked. rewrite !Forall_app, !Forall_cons. intros [H1 _]. destruct_and! H1.
  unfold wg_junk. auto 20 with texts.
Qed.

(** What is written has one line for each setting. *)
Lemma wg_lines_one_line (extra : list (string * QString)) (c : InterfaceConfig) :
  Forall (fun s => has_newline s = false) (validated c) ->
  Forall (fun s => has_newline s = false) (unchecked extra c) ->
  forallb one_line (wg_lines extra c) = true.
Proof.
  intros Hv Hu. assert (Hj : forallb one_line (wg_junk c) = true).
  { apply junk_one_line. revert Hu. unfold unchecked. rewrite !Forall_app. naive_solver. }
  revert Hv Hu. unfold validated, unchecked. rewrite !Forall_app, !Forall_cons.
  intros Hv (Hu & Hs & Hs' & He & He' & Hr). destruct_and! Hv. destruct_and! Hu.
  unfold wg_lines.
  apply forallb_app_true.
  { cbn [forallb]. rewrite !one_line_setting, one_line_join by by apply addresses_one_line.
    rewrite (proj1 (not_has_newline _)) by done. done. }
  apply forallb_app_true.
  { case_match; [done|]. cbn [forallb]. by rewrite one_line_setting, one_line_number. }
  apply forallb_app_true; [by apply dns_one_line|].
  repeat (apply forallb_app_true; [by auto with texts|]).
  cbn [forallb]. rewrite !one_line_setting, !one_line_app, one_line_number.
  rewrite one_line_join by by apply ranges_one_line.
  rewrite !(proj1 (not_has_newline _)) by done. done.
Qed.

Lemma toWgConf_written (extra : list (string * QString)) (c : InterfaceConfig) :
  toWgConf extra c <> EmptyString ->
  toWgConf extra c = write_lines (wg_lines extra c)
  /\ Forall (fun s => has_newline s = false) (validated c).
Proof.
  unfold toWgConf. destruct (existsb has_newline (validated c)) eqn:E; [done|].
  apply existsb_false in E. by destruct (wg_addresses c).
Qed.

(** A line that is written stands between line breaks. *)
Lemma write_lines_elem (s : string) (l : list string) :
  s ∈ l -> exists p q, String newline (write_lines l) = (p ++ String newline (s ++ String newline q))%string.
Proof.
  induction l as [|t l IH]; [by rewrite elem_of_nil|]. rewrite elem_of_cons. intros [<-|Hs].
  - by exists EmptyString, (write_lines l).
  - destruct (IH Hs) as (p & q & E). exists (String newline (t ++ p)), q.
    cbn [write_lines]. rewrite E. change (String newline (t ++ p) ++ ?x)%string
      with (String newline ((t ++ p) ++ x)). by rewrite string_app_assoc.
Qed.

(** A setting of the file stands on a line of its own. *)
Lemma toWgConf_elem (extra : list (string * QString)) (c : InterfaceConfig) (s : string) :
  toWgConf extra c <> EmptyString -> s ∈ wg_dns c ++ wg_entries (m_specialJunk c) ->
  exists p q, toWgConf extra c = (p ++ String newline (s ++ String newline q))%string.
Proof.
  intros Hne Hs. destruct (toWgConf_written _ _ Hne) as [-> _]. unfold wg_lines.
  match goal with |- context [write_lines (?l ++ ?m)] =>
    destruct (write_lines_elem s (tail l ++ m)) as (p & q & E) end.
  { rewrite !elem_of_app in *. naive_solver. }
  exists ("[Interface]" ++ p)%string, q. by rewrite string_app_assoc, <- E.
Qed.

Lemma mapM_map {A B C} (f : B -> option C) (g : A -> B) (h : A -> C) (l : list A) :
  (forall a, a ∈ l -> f (g a) = Some (h a)) -> mapM f (map g l) = Some (map h l).
Proof.
  intros Hl. rewrite mapM_Some. rewrite Forall2_fmap. apply Forall2_same_length_lookup_2; [done|].
  intros i a b Ha Hb. rewrite Ha in Hb. injection Hb as <-. apply Hl. by eapply list_elem_of_lookup_2.
Qed.

Lemma parse_range_json (i : IPAddress) :
  hostAddress (host_text (m_address i)) = m_address i -> int_range (m_prefixLength i) ->
  parse_range (range_json i) = Some i.
Proof.
  intros Hh Hp. unfold parse_range, range_json, number.
  rewrite !obj_value_insert. cbn [String.eqb Ascii.eqb Bool.eqb].
  rewrite Hh. pose proof (toInt_number (m_prefixLength i) Hp) as E. unfold number in E.
  rewrite E. by destruct i.
Qed.

Lemma parseStringList_json (obj : QJsonObject) (name : string) (l : list string) :
  obj_value obj name = json_strings l -> parseStringList obj name = Some l.
Proof.
  unfold parseStringList. intros ->. cbn [json_strings].
  rewrite (mapM_map _ JString id) by done. by rewrite map_id.
Qed.

Lemma parseConfig_special (windows : bool) (obj : QJsonObject) (c : InterfaceConfig) :
  parseConfig windows obj = Some c -> m_specialJunk c = parse_special obj.
Proof. unfold parseConfig. intros E. by simplify_option_eq. Qed.

Lemma toJson_value (c : InterfaceConfig) (k : string) :
  obj_value (toJson c) k = last_value (config_entries c) k None.
Proof. apply obj_value_insert_all. Qed.

Lemma parse_special_absent (obj : QJsonObject) :
  Forall (fun k => obj_value obj k = None) ["I1"; "I2"; "I3"; "I4"; "I5"] ->
  parse_special obj = [("I1", None); ("I2", None); ("I3", None); ("I4", None); ("I5", None)].
Proof.
  rewrite !Forall_cons. intros (H1 & H2 & H3 & H4 & H5 & _). unfold parse_special.
  cbn [List.filter]. rewrite H1, H2, H3, H4, H5. cbn. by rewrite H1, H2, H3, H4, H5.
Qed.

(** Finds a value of a configuration that is written as JSON. *)
Ltac json_lookup c :=
  rewrite toJson_value; unfold config_entries; by destruct (m_hopType c).

Lemma parse_ranges_toJson (c : InterfaceConfig) :
  (forall i, i ∈ m_allowedIPAddressRanges c ->
     hostAddress (host_text (m_address i)) = m_address i /\ int_range (m_prefixLength i)) ->
  parse_ranges (toJson c) = Some (array_sort longer_first (m_allowedIPAddressRanges c)).
Proof.
  intros Hr. unfold parse_ranges.
  assert (E : obj_value (toJson c) "allowedIPAddressRanges"
    = Some (JArray (map range_json (m_allowedIPAddressRanges c)))).
  { json_lookup c. }
  rewrite E, (mapM_map _ _ id), map_id; [done|].
  intros i Hi. destruct (Hr i Hi). by apply parse_range_json.
Qed.

(** ** Theorems *)

(** C29: The file for WireGuard is written only if no checked field breaks a line
    and there is an address of the device.  If no other text breaks a line either,
    the lines of the file are the settings that were meant, one line each, so no
    field can add a setting. *)
Theorem toWgConf_lines (extra : list (string * QString)) (c : InterfaceConfig) :
  Forall (fun s => has_newline s = false) (unchecked extra c) ->
  if existsb has_newline (validated c) || bool_decide (wg_addresses c = [])
  then toWgConf extra c = EmptyString
  else split_on newline (toWgConf extra c) = wg_lines extra c ++ [EmptyString].
Proof.
  intros Hu. unfold toWgConf. destruct (existsb has_newline (validated c)) eqn:E; [done|].
  apply existsb_false in E. cbn [orb]. case_bool_decide as Ea; [by rewrite Ea|].
  destruct (wg_addresses c); [done|]. by apply split_write_lines, wg_lines_one_line.
Qed.

(** The text of the server for names is not checked: a line break in it puts
    what follows on a line of its own in the file for WireGuard. *)
Theorem toWgConf_dns_breaks (extra : list (string * QString)) (c : InterfaceConfig) (dns line : string) :
  toWgConf extra c <> EmptyString ->
  m_primaryDnsServer c = Some (dns ++ String newline line)%string ->
  m_secondaryDnsServer c = None ->
  q_eq (m_primaryDnsServer c) (m_serverIpv4Gateway c) = false ->
  exists p q, toWgConf extra c = (p ++ String newline (line ++ String newline q))%string.
Proof.
  intros Hne Hd Hs Hg.
  destruct (toWgConf_elem extra c (setting "DNS" (dns ++ String newline line))) as (p & q & E); [done| |].
  { apply elem_of_app. left. unfold wg_dns. rewrite Hg, Hs, Hd. destruct dns; apply list_elem_of_singleton; done. }
  exists (p ++ String newline ("DNS = " ++ dns))%string, q. rewrite E. unfold setting.
  rewrite !string_app_assoc. change (String newline ?x ++ ?y)%string with (String newline (x ++ y)).
  by rewrite !string_app_assoc.
Qed.

(** A message without the keys I1 to I5 gives a configuration with five empty
    settings under these keys, and they are written to the file for WireGuard. *)
Theorem absent_junk_written (windows : bool) (obj : QJsonObject) (extra : list (string * QString))
    (c : InterfaceConfig) (k : string) :
  k ∈ ["I1"; "I2"; "I3"; "I4"; "I5"] -> obj_value obj k = None ->
  parseConfig windows obj = Some c -> toWgConf extra c <> EmptyString ->
  exists p q, toWgConf extra c = (p ++ String newline (k ++ " = " ++ String newline q))%string.
Proof.
  intros Hk Hn Hc Hne.
  destruct (toWgConf_elem extra c (setting k EmptyString)) as (p & q & E); [done| |].
  - apply elem_of_app. right. rewrite (parseConfig_special _ _ _ Hc).
    apply list_elem_of_fmap. exists (k, None). split; [done|].
    apply list_elem_of_fmap. exists k. rewrite Hn. split; [done|].
    apply list_elem_of_In, filter_In. rewrite Hn. split; [by apply list_elem_of_In|done].
  - exists p, q. rewrite E. unfold setting. by rewrite !string_app_assoc.
Qed.

(** C31: What is left of a configuration that is written as JSON and read again, for
    addresses that are read as they were written.  It is accepted; the hop, the keys,
    the addresses, the port and the lists come back (an absent text as an empty one),
    the ranges in decreasing length of the prefix.  The rest does not come back: the
    MTU is 1420, for it is written as a number and read as a text; the kill switch is
    off and the settings from Jc to H4 are absent, for they are not written; the special
    junk becomes I1 to I5 without values; and the gateways and the servers for names of
    an entry hop are not written. *)
Theorem parseConfig_toJson (windows : bool) (c : InterfaceConfig) :
  (forall h, keyToValue (valueToKey h) = Some h) ->
  (forall i, i ∈ m_allowedIPAddressRanges c ->
     hostAddress (host_text (m_address i)) = m_address i /\ int_range (m_prefixLength i)) ->
  parseConfig windows (toJson c) = Some (as_read c).
Proof.
  intros Hk Hr. unfold parseConfig.
  rewrite (parse_ranges_toJson c Hr).
  rewrite (parseStringList_json _ "excludedAddresses" (m_excludedAddresses c)) by json_lookup c.
  rewrite (parseStringList_json _ "vpnDisabledApps" (m_vpnDisabledApps c)) by json_lookup c.
  rewrite (parseStringList_json _ "allowedDnsServers" (m_allowedDnsServers c)) by json_lookup c.
  rewrite parse_special_absent by (rewrite !Forall_cons, Forall_nil; repeat split; json_lookup c).
  unfold get_string, get_double, parse_dns, parse_hop, parse_mtu, obj_contains.
  rewrite !toJson_value. unfold as_read, config_entries.
  destruct (m_hopType c) eqn:Eh; cbn -[Z.quot pretty array_sort valueToKey keyToValue];
    rewrite Hk; cbn -[Z.quot pretty array_sort]; unfold double_to_int; cbn [inject_Z Qnum Qden];
    rewrite Z.quot_1_r; reflexivity.
Qed.
End Config.

Lemma toWgConf_lines_witness :
  split_on newline (@toWgConf example_qt [] example_config) = @wg_lines example_qt [] example_config ++ [EmptyString].
Proof.
  apply (@toWgConf_lines example_qt [] example_config).
  apply (bool_decide_unpack _). by vm_compute.
Defined.

Lemma toWgConf_dns_breaks_witness :
  exists p q, @toWgConf example_qt [] (example_dns (String newline "PostUp = x")) =
    (p ++ String newline ("PostUp = x" ++ String newline q))%string.
Proof.
  by apply (@toWgConf_dns_breaks example_qt [] (example_dns (String newline "PostUp = x"))
    "1.1.1.1" "PostUp = x").
Defined.

Lemma absent_junk_written_witness :
  exists c p q, @parseConfig example_qt InsertionSort false (@toJson example_qt example_config) = Some c
  /\ @toWgConf example_qt [] c = (p ++ String newline ("I1" ++ " = " ++ String newline q))%string.
Proof.
  exists (@as_read InsertionSort example_config).
  assert (E : @parseConfig example_qt InsertionSort false (@toJson example_qt example_config)
    = Some (@as_read InsertionSort example_config)) by (vm_compute; reflexivity).
  destruct (@absent_junk_written example_qt InsertionSort false (@toJson example_qt example_config) []
    (@as_read InsertionSort example_config) "I1"
    ltac:(apply list_elem_of_here) ltac:(vm_compute; reflexivity) E
    ltac:(vm_compute; discriminate)) as (p & q & Epq).
  exists p, q. split; [exact E|exact Epq].
Defined.

Lemma parseConfig_toJson_witness :
  @parseConfig example_qt InsertionSort true (@toJson example_qt example_config)
  = Some (@as_read InsertionSort example_config).
Proof.
  apply (@parseConfig_toJson example_qt InsertionSort true example_config).
  - by intros [].
  - intros i Hi.
    change (i ∈ [mkIPAddress (HostV4 0) 0; mkIPAddress (HostV6 (replicate 16 0)) 0]) in Hi.
    rewrite !elem_of_cons, elem_of_nil in Hi.
    destruct Hi as [->|[->|[]]]; split; try reflexivity; unfold int_range; cbn; lia.
Defined.
