(* ===== verification/NetworkUtils.v ===== *)
(** * Texts of addresses

    client/core/utils/networkUtilities.cpp: what the client accepts as an address or
    a subnet, and the mask that the routers of the service take from it.  A shift
    that C++ leaves undefined has no result. *)

From stdpp Require Import base numbers list strings pretty.
From Stdlib Require Import ZArith Lia Strings.String Strings.Ascii.
From S2P Require Import Prelude IpAddress Json Config.
Open Scope string_scope.
Open Scope list_scope.
Open Scope Z_scope.

(** [count] of a character. *)
Fixpoint count_char (c : ascii) (s : string) : nat :=
  match s with
  | EmptyString => 0
  | String d s' => (if Ascii.eqb c d then 1 else 0) + count_char c s'
  end%nat.

Definition dotted (n : Z) : string :=
  join "." [pretty (Z.shiftr n 24); pretty (Z.land (Z.shiftr n 16) 255);
            pretty (Z.land (Z.shiftr n 8) 255); pretty (Z.land n 255)].

(** ** Patterns *)

Definition digit_between (lo hi : Z) (c : ascii) : bool :=
  match digit_value c with Some d => (lo <=? d) && (d <=? hi) | None => false end.

(** A number up to 255 without leading zeros. *)
Definition octet_text (s : string) : bool :=
  match s with
  | String a EmptyString => digit_between 0 9 a
  | String a (String b EmptyString) => digit_between 1 9 a && digit_between 0 9 b
  | String a (String b (String c EmptyString)) =>
      (digit_between 1 1 a && digit_between 0 9 b && digit_between 0 9 c)
      || (digit_between 2 2 a && digit_between 0 4 b && digit_between 0 9 c)
      || (digit_between 2 2 a && digit_between 5 5 b && digit_between 0 5 c)
  | _ => false
  end.

Definition octets_text (s : string) : bool :=
  let parts := split_on "." s in
  Nat.eqb (List.length parts) 4 && forallb octet_text parts.

Definition prefix_text (s : string) : bool :=
  match s with
  | String a EmptyString => digit_between 0 9 a
  | String a (String b EmptyString) => digit_between 0 9 a && digit_between 0 9 b
  | _ => false
  end.

(** [exactMatch] of the pattern. *)
Definition ipAddressWithSubnetRegExp (s : string) : bool :=
  match split_on "/" s with
  | [a] => octets_text a
  | [a; p] => octets_text a && prefix_text p
  | _ => false
  end.

(** ** Masks *)

(** [(0xFFFFFFFF << (32 - prefix)) & 0xFFFFFFFF] on 32 bits. *)
Definition mask_of_prefix (prefix : Z) : option Z :=
  let n := 32 - prefix in
  if (0 <=? n) && (n <? 32) then Some (Z.land (Z.shiftl 4294967295 n) 4294967295) else None.

Definition netMaskFromIpWithSubnet (ip : string) : option string :=
  if negb (string_has "/" ip) then Some "255.255.255.255"
  else match string_toInt_ok (nth 1 (split_on "/" ip) EmptyString) with
       | None => Some "255.255.255.255"
       | Some prefix => dotted <$> mask_of_prefix prefix
       end.

Definition ipAddressFromIpWithSubnet (ip : string) : string :=
  if negb (Nat.eqb (count_char "." ip) 3) then EmptyString
  else default EmptyString (head (split_on "/" ip)).

Section Network.
Context `{Qt}.

(** [names] is what [QHostInfo::fromName] gives, as texts. *)
Definition getIPAddress (names : string -> list string) (host : string) : string :=
  match protocol (hostAddress host) with
  | IPv4Protocol | IPv6Protocol => host
  | UnknownNetworkLayerProtocol => default EmptyString (head (names host))
  end.

Definition checkIPv4Format (ip : string) : bool :=
  if String.eqb ip EmptyString then false
  else if negb (Nat.eqb (count_char "." ip) 3) then false
  else match protocol (hostAddress ip) with IPv4Protocol => true | _ => false end.

Definition checkIpSubnetFormat (ip : string) : bool :=
  if negb (string_has "/" ip) then checkIPv4Format ip
  else match split_on "/" ip with
       | [a; p] =>
           match string_toInt_ok p with
           | Some subnet => if (0 <=? subnet) && (subnet <=? 32) then checkIPv4Format a else false
           | None => false
           end
       | _ => false
       end.

(** Every mask, by evaluation. *)
Definition mask_ok (p : Z) : bool :=
  (p =? 0)
  || match mask_of_prefix p with
     | Some m => m =? value (netmask (mkIPAddress (HostV4 0) p))
     | None => false
     end.

(** ** Lemmas *)

Lemma mask_of_prefix_netmask (p a : Z) :
  1 <= p <= 32 -> mask_of_prefix p = Some (value (netmask (mkIPAddress (HostV4 a) p))).
Proof.
  intros Hp. assert (Hr : range_forallb 33 mask_ok = true) by (vm_compute; reflexivity).
  assert (Hm := range_forallb_spec 33 mask_ok Hr p ltac:(lia)). unfold mask_ok in Hm.
  destruct (Z.eqb_spec p 0); [lia|]. cbn [orb] in Hm.
  destruct (mask_of_prefix p) as [m|]; [|done]. apply Z.eqb_eq in Hm. by rewrite Hm.
Qed.

Lemma split_on_two (c : ascii) (s a b : string) :
  split_on c s = [a; b] -> s = (a ++ String c b)%string.
Proof.
  revert a. induction s as [|d s IH]; intros a; [done|]. rewrite split_on_cons.
  destruct (Ascii.eqb_spec c d) as [->|].
  - intros [= <- Hs]. assert (Hb : s = b); [|by subst b]. clear IH. revert b Hs.
    induction s as [|e s IH]; intros b; [by intros [= <-]|]. rewrite split_on_cons.
    destruct (Ascii.eqb d e); [by intros [= _ Hs]; destruct (split_on_nonempty d s)|].
    destruct (split_on d s) as [|w [|w' ws]]; [done | | done]. intros [= <-]. f_equal. by apply IH.
  - destruct (split_on c s) as [|w ws]; [done|]. intros [= <- ->].
    change (String d w ++ String c b)%string with (String d (w ++ String c b)). f_equal. by apply IH.
Qed.

Lemma count_char_app (c : ascii) (a b : string) :
  count_char c (a ++ b) = (count_char c a + count_char c b)%nat.
Proof.
  induction a as [|d a IH]; [done|].
  change (String d a ++ b)%string with (String d (a ++ b)). cbn [count_char]. rewrite IH. lia.
Qed.

Lemma drop_space_no_dot (s : string) :
  count_char "." (drop_space s) = 0%nat -> count_char "." s = 0%nat.
Proof.
  induction s as [|c s IH]; [done|]. cbn [drop_space]. destruct (c_space c) eqn:E; [|done].
  intros Hs. cbn [count_char]. destruct (Ascii.eqb_spec "." c) as [<-|]; [done | by rewrite IH].
Qed.

Lemma whole_digits_no_dot (seen : bool) (acc n : Z) (s : string) :
  whole_digits seen acc s = Some n -> count_char "." s = 0%nat.
Proof.
  revert seen acc. induction s as [|c s IH]; intros seen acc; [done|]. cbn [whole_digits].
  destruct (digit_value c) eqn:E.
  - intros Hs. cbn [count_char]. rewrite (IH _ _ Hs).
    destruct (Ascii.eqb_spec "." c) as [<-|]; [done | lia].
  - destruct (seen && _) eqn:Hd; [|done]. intros _. apply andb_true_iff in Hd as [_ Hd].
    apply String.eqb_eq in Hd. apply drop_space_no_dot. by rewrite Hd.
Qed.

Lemma toInt_no_dot (s : string) (n : Z) : string_toInt_ok s = Some n -> count_char "." s = 0%nat.
Proof.
  unfold string_toInt_ok. destruct (signed_digits (drop_space s)) as [m|] eqn:E; [|done]. intros _.
  apply drop_space_no_dot. revert E. destruct (drop_space s) as [|c t]; [done|]. cbn [signed_digits].
  destruct (Ascii.eqb_spec c "-") as [->|].
  - destruct (whole_digits false 0 t) eqn:E; [|done]. intros _. by apply whole_digits_no_dot in E.
  - destruct (Ascii.eqb_spec c "+") as [->|]; intros E; by apply whole_digits_no_dot in E.
Qed.

Lemma checkIPv4Format_dots (ip : string) : checkIPv4Format ip = true -> count_char "." ip = 3%nat.
Proof.
  unfold checkIPv4Format. destruct (String.eqb ip EmptyString); [done|].
  by destruct (Nat.eqb_spec (count_char "." ip) 3).
Qed.

(** ** Theorems *)

(** Every subnet text that passes the check consists of an address that passes
    the check for addresses and a prefix length of at most 32; the routers take that
    address from it, and as its mask the netmask of the prefix, the one that the
    daemon computes.  The length 0 passes too, but its mask is a shift by 32 of a
    32 bit number, which is undefined. *)
Theorem accepted_subnet_mask (ip : string) :
  checkIpSubnetFormat ip = true -> string_has "/" ip = true ->
  exists a p,
    ip = (a ++ String "/" p)%string /\ checkIPv4Format a = true
    /\ ipAddressFromIpWithSubnet ip = a
    /\ exists n, string_toInt_ok p = Some n /\ 0 <= n <= 32
       /\ netMaskFromIpWithSubnet ip
          = if n =? 0 then None else Some (dotted (value (netmask (mkIPAddress (HostV4 0) n)))).
Proof.
  unfold checkIpSubnetFormat, ipAddressFromIpWithSubnet, netMaskFromIpWithSubnet.
  intros Hc Hs. rewrite Hs in *. cbn [negb] in *.
  destruct (split_on "/" ip) as [|a [|p [|]]] eqn:Hsplit; try done.
  destruct (string_toInt_ok p) as [n|] eqn:Hn; [|done].
  destruct ((0 <=? n) && (n <=? 32)) eqn:Hr; [|done].
  apply andb_true_iff in Hr as [H0%Z.leb_le H32%Z.leb_le].
  assert (Hip := split_on_two _ _ _ _ Hsplit). exists a, p.
  assert (Hdots : count_char "." ip = 3%nat).
  { rewrite Hip, count_char_app. cbn [count_char].
    rewrite (toInt_no_dot _ _ Hn), (checkIPv4Format_dots _ Hc). done. }
  rewrite Hdots. cbn [nth]. rewrite Hn. split_and!; [done..|]. exists n. split_and!; [done..|].
  destruct (Z.eqb_spec n 0) as [->|]; [done|]. by rewrite (mask_of_prefix_netmask n 0) by lia.
Qed.
End Network.

Lemma accepted_subnet_mask_witness :
  netMaskFromIpWithSubnet "10.0.0.0/8" = Some "255.0.0.0" /\
  exists a p, "10.0.0.0/8" = (a ++ String "/" p)%string.
Proof.
  split; [by vm_compute|].
  destruct (accepted_subnet_mask (H := Build_Qt (fun _ => HostV4 0) (fun _ => (HostNull, 0))
              (fun _ => EmptyString) (fun _ => None)) "10.0.0.0/8") as (a & p & Ha & _);
    [by vm_compute | by vm_compute | by exists a, p].
Defined.
