(* ===== verification/SecureSettings.v ===== *)
(** * The encrypted settings

    client/secureQSettings.cpp: the settings of the application with their cache,
    the encryption of the list of servers, and the keys of the cipher.  [QSettings]
    is a map from keys to values, whose keys are in normal form (single slashes
    between the names of groups); the removal of a key removes what is below it, and
    after a new start a value is what the file gives back for it.  The cipher, the
    serialization of values, the storage of the file and the key chain are the
    interface [Cipher]. *)

From stdpp Require Import base numbers list strings gmap pretty.
From Stdlib Require Import ZArith Lia Strings.String Strings.Ascii.
From S2P Require Import Prelude Json Config.
Open Scope string_scope.
Open Scope list_scope.
Open Scope Z_scope.

(** ** Values *)

(** The kinds of [QVariant] that the settings hold; a map is listed in the order of
    its keys. *)
Inductive QVariant :=
| VInvalid
| VBool (b : bool)
| VInt (n : Z)
| VString (s : string)
| VBytes (s : string)
| VStringList (l : list string)
| VMap (m : list (string * string))
| VJson (j : json)
| VDate (n : Z).

(** [toBool]. *)
Definition var_toBool (v : QVariant) : bool :=
  match v with
  | VBool b => b
  | VInt n => negb (n =? 0)
  | VString s | VBytes s => variant_toBool (Some s)
  | _ => false
  end.

(** [toInt]: zero where there is no conversion. *)
Definition var_toInt (v : QVariant) : Z :=
  match v with
  | VBool b => if b then 1 else 0
  | VInt n => n
  | VString s | VBytes s => string_toInt s
  | _ => 0
  end.

(** [toString]; dates are not read as texts. *)
Definition var_toString (v : QVariant) : string :=
  match v with
  | VBool b => if b then "true" else "false"
  | VInt n => pretty n
  | VString s | VBytes s => s
  | VStringList [s] => s
  | _ => EmptyString
  end.

Definition var_toStringList (v : QVariant) : list string :=
  match v with VStringList l => l | VString s => [s] | _ => [] end.

Definition var_toMap (v : QVariant) : list (string * string) :=
  match v with VMap m => m | _ => [] end.

Definition var_toBytes (v : QVariant) : string :=
  match v with
  | VBool b => if b then "true" else "false"
  | VInt n => pretty n
  | VString s | VBytes s => s
  | _ => EmptyString
  end.

Definition var_toJsonArray (v : QVariant) : list json :=
  match v with VJson (JArray l) => l | _ => [] end.

Definition isValid (v : QVariant) : bool := match v with VInvalid => false | _ => true end.

(** ** State *)

Record SecureQSettings := mkSettings {
  m_settings : gmap string QVariant;
  m_cache : gmap string QVariant
}.

(** The key and the vector of the cipher, which stay the same once they are there
    ([key_stays]); encryption and decryption, none where they throw; the stream format
    of values; the value that the file gives back for a value that was written, in
    which a number can have become a text; the conversion of values to and from JSON;
    and the platform. *)
Class Cipher := {
  getEncKey : string;
  getEncIv : string;
  aes_encrypt : string -> string -> string -> option string;
  aes_decrypt : string -> string -> string -> option string;
  ds_write : QVariant -> string;
  ds_read : string -> QVariant;
  reloaded : QVariant -> QVariant;
  fromVariant : QVariant -> json;
  toVariant : json -> QVariant;
  encryptionRequired : bool
}.

Definition encryptedKeys : list string := ["Servers/serversList"].
Definition m_fieldsToBackup : list string := ["Conf/"; "Servers/"].
Definition magicString : string := "EncData".
Definition uuid_key : string := "Conf/installationUuid".

Definition is_encrypted_key (key : string) : bool := existsb (String.eqb key) encryptedKeys.

(** What follows the magic text of an encrypted value. *)
Definition encrypted_body (v : QVariant) : option string :=
  match v with
  | VBytes s =>
      if String.prefix magicString s
      then Some (String.substring (String.length magicString) (String.length s - String.length magicString) s)
      else None
  | _ => None
  end.

(** ** The keys of the cipher *)

Section Keys.
Context {Chain : Type} (getSecTag : string -> Chain -> string) (setSecTag : string -> string -> Chain -> Chain).

(** [getEncKey], and [getEncIv] with its own tag: the key in memory [m_key], the one of
    the key chain, or the new one [generated]; with the key in memory and the chain. *)
Definition load_key (tag generated : string) (m_key : string) (chain : Chain) : string * (string * Chain) :=
  if negb (String.eqb m_key EmptyString) then (m_key, (m_key, chain))
  else
    let m_key1 := getSecTag tag chain in
    if String.eqb m_key1 EmptyString then
      let chain1 := setSecTag tag generated chain in
      let m_key2 := getSecTag tag chain1 in
      if String.eqb generated m_key2 then (m_key2, (m_key2, chain1)) else (EmptyString, (m_key2, chain1))
    else (m_key1, (m_key1, chain)).
End Keys.

Section Settings.
Context `{Cipher}.

(** ** Operations *)

Definition encryptText (value : string) : string :=
  default EmptyString (aes_encrypt getEncKey getEncIv value).
Definition decryptText (ba : string) : string :=
  default EmptyString (aes_decrypt getEncKey getEncIv ba).

Definition no_key : bool := String.eqb getEncKey EmptyString || String.eqb getEncIv EmptyString.

(** What a stored value means; none where the key is missing, which is not cached. *)
Definition decode (v : QVariant) : option QVariant :=
  match encrypted_body v with
  | Some body => if no_key then None else Some (ds_read (decryptText body))
  | None => Some v
  end.

Definition cached (key : string) (v : QVariant) (s : SecureQSettings) : SecureQSettings :=
  mkSettings (m_settings s) (<[key := v]> (m_cache s)).

Definition value (key : string) (defaultValue : QVariant) (s : SecureQSettings)
  : QVariant * SecureQSettings :=
  match m_cache s !! key with
  | Some v => (v, s)
  | None =>
      match m_settings s !! key with
      | None => (defaultValue, s)
      | Some stored =>
          match decode stored with
          | Some v => (v, cached key v s)
          | None => (VInvalid, s)
          end
      end
  end.

Definition encode (v : QVariant) : QVariant := VBytes (magicString ++ encryptText (ds_write v)).

Definition setValue (key : string) (v : QVariant) (s : SecureQSettings) : SecureQSettings :=
  if encryptionRequired && is_encrypted_key key then
    if no_key then s
    else mkSettings (<[key := encode v]> (m_settings s)) (<[key := v]> (m_cache s))
  else mkSettings (<[key := v]> (m_settings s)) (<[key := v]> (m_cache s)).

(** [QSettings::remove]: the key and all below it, and everything for an empty key. *)
Definition sub_setting (key k : string) : bool := String.prefix (key ++ "/") k.

Definition disk_remove (key : string) (disk : gmap string QVariant) : gmap string QVariant :=
  if String.eqb key EmptyString then ∅
  else filter (fun e => e.1 <> key /\ sub_setting key e.1 = false) disk.

Definition remove (key : string) (s : SecureQSettings) : SecureQSettings :=
  mkSettings (disk_remove key (m_settings s)) (delete key (m_cache s)).

Definition clearSettings (s : SecureQSettings) : SecureQSettings := mkSettings ∅ ∅.

(** [allKeys]. *)
Definition allKeys (s : SecureQSettings) : list string := map fst (map_to_list (m_settings s)).

Definition needToBackup (key : string) : bool :=
  negb (String.eqb key uuid_key) && existsb (fun item => String.prefix item key) m_fieldsToBackup.

(** The object of the backup; reading fills the cache. *)
Fixpoint backup_keys (keys : list string) (cfg : QJsonObject) (s : SecureQSettings)
  : QJsonObject * SecureQSettings :=
  match keys with
  | [] => (cfg, s)
  | key :: keys' =>
      if needToBackup key then
        let '(v, s') := value key VInvalid s in
        backup_keys keys' (obj_insert cfg key (Some (fromVariant v))) s'
      else backup_keys keys' cfg s
  end.

Definition backupAppConfig (s : SecureQSettings) : QJsonObject * SecureQSettings :=
  backup_keys (allKeys s) [] s.

Definition restore_entry (s : SecureQSettings) (e : string * json) : SecureQSettings :=
  if String.eqb e.1 uuid_key then s else setValue e.1 (toVariant e.2) s.

(** The object is what the text of the backup holds. *)
Definition restoreAppConfig (cfg : QJsonObject) (s : SecureQSettings) : bool * SecureQSettings :=
  match cfg with
  | [] => (false, s)
  | _ :: _ => (true, fold_left restore_entry cfg s)
  end.

(** Values that must be encrypted are written again. *)
Definition migrate_key (s : SecureQSettings) (key : string) : SecureQSettings :=
  if is_encrypted_key key then let '(v, s') := value key VInvalid s in setValue key v s' else s.

(** The constructor, on the values that [QSettings] has. *)
Definition open_settings (disk : gmap string QVariant) : SecureQSettings :=
  let s := mkSettings disk ∅ in
  let encrypted := var_toBool (default VInvalid (disk !! "Conf/encrypted")) in
  if encryptionRequired && negb encrypted then
    let s' := fold_left migrate_key (allKeys s) s in
    mkSettings (<["Conf/encrypted" := VBool true]> (m_settings s')) (m_cache s')
  else s.

(** ** Specification *)

(** The value that a key has: what reading it gives. *)
Definition view (s : SecureQSettings) (key : string) : option QVariant :=
  match m_cache s !! key with
  | Some v => Some v
  | None => default VInvalid ∘ decode <$> m_settings s !! key
  end.

(** The values of the keys that are encrypted. *)
Definition raw (v : QVariant) : bool := match v with VInvalid | VBytes _ => true | _ => false end.

(** The cache holds only what could be read again, only values that must be
    encrypted are, and these are byte arrays. *)
Definition settings_ok (s : SecureQSettings) : Prop :=
  (forall key v, m_cache s !! key = Some v ->
     exists stored, m_settings s !! key = Some stored /\ decode stored = Some v)
  /\ forall key stored, m_settings s !! key = Some stored ->
       if is_encrypted_key key then raw (default VInvalid (decode stored)) = true
       else encrypted_body stored = None.

(** A value that can be stored under a key: there is a key for the cipher where it
    is needed, the list of servers is a byte array, and a plain value does not look
    like an encrypted one. *)
Definition storable (key : string) (v : QVariant) : bool :=
  (negb (is_encrypted_key key) || raw v)
  && (if encryptionRequired && is_encrypted_key key then negb no_key
      else match encrypted_body v with Some _ => false | None => true end).

(** Uses of the settings; the last one is a new start of the application. *)
Inductive Op :=
| OpGet (key : string) (defaultValue : QVariant)
| OpSet (key : string) (v : QVariant)
| OpRemove (key : string)
| OpClear
| OpRestart.

Definition run_op (o : Op) (s : SecureQSettings) : option QVariant * SecureQSettings :=
  match o with
  | OpGet key d => let '(v, s') := value key d s in (Some v, s')
  | OpSet key v => (None, setValue key v s)
  | OpRemove key => (None, remove key s)
  | OpClear => (None, clearSettings s)
  | OpRestart => (None, open_settings (reloaded <$> m_settings s))
  end.

(** The same uses of a plain map. *)
Definition spec_op (o : Op) (m : gmap string QVariant) : option QVariant * gmap string QVariant :=
  match o with
  | OpGet key d => (Some (default d (m !! key)), m)
  | OpSet key v => (None, <[key := v]> m)
  | OpRemove key => (None, delete key m)
  | OpClear => (None, ∅)
  | OpRestart =>
      let m' := reloaded <$> m in
      (None, if encryptionRequired && negb (var_toBool (default VInvalid (m' !! "Conf/encrypted")))
             then <["Conf/encrypted" := VBool true]> m' else m')
  end.

(** What is set can be stored, and what is removed is no group of other settings. *)
Definition allowed (o : Op) (m : gmap string QVariant) : bool :=
  match o with
  | OpSet key v => storable key v
  | OpRemove key => negb (String.eqb key EmptyString) && forallb (fun e => negb (sub_setting key e.1)) (map_to_list m)
  | _ => true
  end.

Fixpoint all_allowed (l : list Op) (m : gmap string QVariant) : bool :=
  match l with [] => true | o :: l' => allowed o m && all_allowed l' (spec_op o m).2 end.

(** The answers of a sequence of uses. *)
Fixpoint run_ops (l : list Op) (s : SecureQSettings) : list (option QVariant) :=
  match l with [] => [] | o :: l' => let '(r, s') := run_op o s in r :: run_ops l' s' end.

Fixpoint spec_ops (l : list Op) (m : gmap string QVariant) : list (option QVariant) :=
  match l with [] => [] | o :: l' => let '(r, m') := spec_op o m in r :: spec_ops l' m' end.

(** The settings stand for a map. *)
Definition represents (s : SecureQSettings) (m : gmap string QVariant) : Prop :=
  settings_ok s /\ forall key, view s key = m !! key.

(** What a migration of keys keeps. *)
Definition same_settings (s s' : SecureQSettings) : Prop :=
  settings_ok s' /\ (forall k, view s' k = view s k)
  /\ forall k, is_encrypted_key k = false -> m_cache s' !! k = m_cache s !! k.

(** The laws of the cipher and of the stream. *)
Definition cipher_ok : Prop :=
  forall text, exists c, aes_encrypt getEncKey getEncIv text = Some c
                         /\ aes_decrypt getEncKey getEncIv c = Some text.
Definition stream_ok : Prop := forall v, raw v = true -> ds_read (ds_write v) = v.

(** The file gives byte arrays back as they were, and nothing else as one. *)
Definition storage_ok : Prop :=
  (forall v, raw v = true -> reloaded v = v) /\ forall v s, reloaded v = VBytes s -> v = VBytes s.

(** A cipher that leaves texts as they are, on a platform that needs one, and a file of texts. *)
Definition example_cipher : Cipher := {|
  getEncKey := "key";
  getEncIv := "iv";
  aes_encrypt := fun _ _ text => Some text;
  aes_decrypt := fun _ _ text => Some text;
  ds_write := fun v => match v with VBytes s => String "b" s | _ => EmptyString end;
  ds_read := fun t => match t with EmptyString => VInvalid | String _ s => VBytes s end;
  reloaded := fun v => match v with
    | VBool _ | VInt _ | VStringList [_] => VString (var_toString v)
    | VStringList [] => VInvalid
    | _ => v
    end;
  fromVariant := fun v => match v with VBool b => JBool b | _ => JNull end;
  toVariant := fun j => match j with JBool b => VBool b | _ => VInvalid end;
  encryptionRequired := true
|}.

(** ** Lemmas *)

#[local] Arguments is_encrypted_key : simpl never.
#[local] Arguments encrypted_body : simpl never.
#[local] Arguments decode : simpl never.

Lemma encrypted_body_magic (b : string) : encrypted_body (VBytes (magicString ++ b)) = Some b.
Proof.
  unfold encrypted_body. rewrite prefix_app, substring_app, string_length_app.
  rewrite Nat.add_comm, Nat.add_sub. by rewrite substring_all.
Qed.

Section Laws.
Hypothesis Hcipher : cipher_ok.
Hypothesis Hstream : stream_ok.
Hypothesis Hstorage : storage_ok.

Lemma decode_encode (v : QVariant) : no_key = false -> raw v = true -> decode (encode v) = Some v.
Proof.
  intros Hk Hv. unfold decode, encode. rewrite encrypted_body_magic, Hk.
  unfold encryptText, decryptText. destruct (Hcipher (ds_write v)) as (c & -> & Hd). cbn.
  rewrite Hd. cbn. by rewrite Hstream.
Qed.

Lemma decode_plain (v : QVariant) : encrypted_body v = None -> decode v = Some v.
Proof. unfold decode. by intros ->. Qed.

Lemma value_view (s : SecureQSettings) (key : string) (d : QVariant) :
  settings_ok s ->
  (value key d s).1 = default d (view s key) /\ settings_ok (value key d s).2
  /\ (forall k, view (value key d s).2 k = view s k)
  /\ m_settings (value key d s).2 = m_settings s.
Proof.
  intros [Hc Hp]. unfold value, view. destruct (m_cache s !! key) as [v|] eqn:Ec; [done|].
  destruct (m_settings s !! key) as [st|] eqn:Es; [|done]. cbn.
  destruct (decode st) as [v|] eqn:Ed; [|done]. cbn. split; [done|]. split; [|split; [|done]].
  - split; [|done]. intros k w. cbn. destruct (decide (key = k)) as [->|Hne].
    + rewrite lookup_insert_eq. intros [= <-]. eauto.
    + rewrite lookup_insert_ne by done. apply Hc.
  - intros k. destruct (decide (key = k)) as [->|Hne].
    + rewrite lookup_insert_eq, Ec, Es. cbn. by rewrite Ed.
    + by rewrite lookup_insert_ne by done.
Qed.

(** Both maps are updated at one key. *)
Lemma update_view (s : SecureQSettings) (key : string) (st v : QVariant) :
  settings_ok s -> decode st = Some v ->
  (if is_encrypted_key key then raw v = true else encrypted_body st = None) ->
  let s' := mkSettings (<[key := st]> (m_settings s)) (<[key := v]> (m_cache s)) in
  settings_ok s' /\ forall k, view s' k = if decide (key = k) then Some v else view s k.
Proof.
  intros [Hc Hp] Hd He s'. split; [split|].
  - intros k w. cbn. destruct (decide (key = k)) as [->|Hne].
    + rewrite !lookup_insert_eq. intros [= <-]. eauto.
    + rewrite !lookup_insert_ne by done. apply Hc.
  - intros k w. cbn. destruct (decide (key = k)) as [->|Hne].
    + rewrite lookup_insert_eq. intros [= <-]. by rewrite Hd.
    + rewrite lookup_insert_ne by done. apply Hp.
  - intros k. unfold view. cbn. destruct (decide (key = k)) as [->|Hne].
    + by rewrite lookup_insert_eq.
    + by rewrite !lookup_insert_ne by done.
Qed.

Lemma setValue_view (s : SecureQSettings) (key : string) (v : QVariant) :
  settings_ok s -> storable key v = true ->
  settings_ok (setValue key v s)
  /\ forall k, view (setValue key v s) k = if decide (key = k) then Some v else view s k.
Proof.
  unfold storable, setValue. intros Hs [Hr Hv]%andb_true_iff.
  destruct (encryptionRequired && is_encrypted_key key) eqn:E.
  - destruct no_key eqn:Hk; [done|]. apply andb_true_iff in E as [_ E]. rewrite E in Hr.
    apply update_view; [done|by apply decode_encode|by rewrite E].
  - destruct (encrypted_body v) eqn:Eb; [done|]. apply update_view; [done|by apply decode_plain|].
    by destruct (is_encrypted_key key).
Qed.

Lemma view_is_Some (s : SecureQSettings) (key : string) :
  settings_ok s -> is_Some (view s key) <-> is_Some (m_settings s !! key).
Proof.
  intros [Hc _]. unfold view. destruct (m_cache s !! key) as [v|] eqn:Ec; [|by rewrite fmap_is_Some].
  destruct (Hc key v Ec) as (st & -> & _). done.
Qed.

Lemma disk_remove_lookup (key k : string) (disk : gmap string QVariant) :
  String.eqb key EmptyString = false ->
  disk_remove key disk !! k = if decide (k <> key /\ sub_setting key k = false) then disk !! k else None.
Proof.
  intros Hk. unfold disk_remove. rewrite Hk, map_lookup_filter. destruct (disk !! k) as [v|]; cbn.
  - case_guard as Hg; case_decide as Hd; (done || cbn in Hg; tauto).
  - by case_decide.
Qed.

(** Without settings below it, only the key is removed. *)
Lemma disk_remove_leaf (key : string) (disk : gmap string QVariant) :
  String.eqb key EmptyString = false -> (forall k, is_Some (disk !! k) -> sub_setting key k = false) ->
  disk_remove key disk = delete key disk.
Proof.
  intros Hk Hl. apply map_eq. intros k. rewrite (disk_remove_lookup key k disk Hk).
  destruct (decide (key = k)) as [->|Hne]; [rewrite lookup_delete_eq; by case_decide as Hd; [destruct Hd|]|].
  rewrite lookup_delete_ne by done. destruct (disk !! k) as [v|] eqn:E; [|by case_decide].
  rewrite decide_True; [done|]. split; [congruence|]. apply Hl. by rewrite E.
Qed.

Lemma remove_view (s : SecureQSettings) (key : string) :
  settings_ok s -> String.eqb key EmptyString = false -> (forall k, is_Some (view s k) -> sub_setting key k = false) ->
  settings_ok (remove key s)
  /\ forall k, view (remove key s) k = if decide (key = k) then None else view s k.
Proof.
  intros Hs Hk Hl. unfold remove. rewrite disk_remove_leaf; [|done|].
  2: { intros k Hd. apply Hl. by apply view_is_Some. }
  destruct Hs as [Hc Hp]. split; [split|].
  - intros k w. cbn. rewrite !lookup_delete_Some. intros [? Hk']. destruct (Hc k w Hk') as (st & ? & ?).
    exists st. by rewrite lookup_delete_Some.
  - intros k w. cbn. rewrite lookup_delete_Some. intros [? Hk']. by apply Hp.
  - intros k. unfold view. cbn. destruct (decide (key = k)) as [->|Hne].
    + by rewrite !lookup_delete_eq.
    + by rewrite !lookup_delete_ne by done.
Qed.

(** What the file gives back for a stored value. *)
Lemma reloaded_body (v : QVariant) : encrypted_body v = None -> encrypted_body (reloaded v) = None.
Proof.
  intros Hv. destruct (reloaded v) as [| | | |s| | | |] eqn:E; try done. apply (proj2 Hstorage) in E as ->. done.
Qed.

Lemma reloaded_decode (v : QVariant) (b : bool) :
  (if b then raw (default VInvalid (decode v)) = true else encrypted_body v = None) ->
  default VInvalid (decode (reloaded v)) = reloaded (default VInvalid (decode v))
  /\ if b then raw (default VInvalid (decode (reloaded v))) = true else encrypted_body (reloaded v) = None.
Proof.
  intros Hv. assert (Hplain : encrypted_body v = None -> default VInvalid (decode (reloaded v)) = reloaded (default VInvalid (decode v))).
  { intros E. rewrite (decode_plain (reloaded v)), (decode_plain v) by (done || by apply reloaded_body). done. }
  destruct b; [|split; [by apply Hplain | by apply reloaded_body]].
  destruct (encrypted_body v) as [body|] eqn:E.
  - assert (reloaded v = v) as -> by (apply (proj1 Hstorage); by destruct v). by rewrite (proj1 Hstorage _ Hv).
  - rewrite (Hplain eq_refl), (proj1 Hstorage _ Hv). done.
Qed.

(** A new start forgets the cache and reads the file. *)
Lemma restart_view (s : SecureQSettings) :
  settings_ok s ->
  let s' := mkSettings (reloaded <$> m_settings s) ∅ in
  settings_ok s' /\ forall k, view s' k = reloaded <$> view s k.
Proof.
  intros [Hc Hp] s'. split; [split|].
  - intros k v. cbn. by rewrite lookup_empty.
  - intros k st. cbn. rewrite lookup_fmap. intros (v & Hv & ->)%fmap_Some. exact (proj2 (reloaded_decode v _ (Hp k v Hv))).
  - intros k. unfold view. cbn. rewrite lookup_empty, lookup_fmap.
    assert (E : (match m_cache s !! k with Some v => Some v | None => default VInvalid ∘ decode <$> m_settings s !! k end)
                = (fun v => default VInvalid (decode v)) <$> m_settings s !! k).
    { destruct (m_cache s !! k) as [v|] eqn:Ec; [|done]. destruct (Hc k v Ec) as (st & -> & Hd). cbn. by rewrite Hd. }
    rewrite E. destruct (m_settings s !! k) as [st|] eqn:Es; [|done]. cbn. f_equal. exact (proj1 (reloaded_decode st _ (Hp k st Es))).
Qed.

Lemma raw_view (s : SecureQSettings) (key : string) :
  settings_ok s -> is_encrypted_key key = true -> raw (default VInvalid (view s key)) = true.
Proof.
  intros [Hc Hp] He. unfold view. destruct (m_cache s !! key) as [v|] eqn:Ec.
  - destruct (Hc key v Ec) as (st & Hst & Hd). specialize (Hp key st Hst). rewrite He, Hd in Hp. done.
  - destruct (m_settings s !! key) as [st|] eqn:Est; [|done]. cbn.
    specialize (Hp key st Est). by rewrite He in Hp.
Qed.

Lemma migrate_key_same (s : SecureQSettings) (key : string) :
  encryptionRequired = true -> settings_ok s -> is_Some (m_settings s !! key) ->
  same_settings s (migrate_key s key).
Proof.
  intros Hreq Hs Hk. unfold migrate_key, same_settings.
  destruct (is_encrypted_key key) eqn:He; [|done].
  destruct (value_view s key VInvalid Hs) as (E1 & H1 & E2 & _).
  assert (Hcache : forall k, is_encrypted_key k = false -> m_cache (value key VInvalid s).2 !! k = m_cache s !! k).
  { intros k Hk'. unfold value. repeat case_match; try done. cbn.
    rewrite lookup_insert_ne by congruence. done. }
  destruct (value key VInvalid s) as [v s1] eqn:Ev. cbn in E1, H1, E2, Hcache.
  destruct no_key eqn:Hn.
  { unfold setValue. rewrite Hreq, He, Hn. done. }
  destruct (setValue_view s1 key v H1) as [H2 E3].
  { unfold storable. rewrite Hreq, He, Hn. cbn. rewrite andb_true_r. subst v.
    by apply raw_view. }
  split; [done|]. split.
  - intros k. rewrite E3. case_decide as Ek; [subst k|by apply E2].
    apply (view_is_Some s key Hs) in Hk as [w Hw]. rewrite Hw in *. by rewrite E1.
  - intros k Hk'. unfold setValue. rewrite Hreq, He, Hn. cbn.
    rewrite lookup_insert_ne by congruence. by apply Hcache.
Qed.

Lemma migrate_same (keys : list string) (s : SecureQSettings) :
  encryptionRequired = true -> settings_ok s -> Forall (fun k => is_Some (m_settings s !! k)) keys ->
  same_settings s (fold_left migrate_key keys s).
Proof.
  intros Hreq. revert s. induction keys as [|key keys IH]; intros s Hs Hk; [done|].
  apply Forall_cons in Hk as [Hk Hks]. cbn.
  destruct (migrate_key_same s key Hreq Hs Hk) as (H1 & E1 & C1).
  destruct (IH (migrate_key s key) H1) as (H2 & E2 & C2).
  { eapply Forall_impl; [exact Hks|]. intros k Hsome.
    apply (view_is_Some _ k H1). rewrite E1. by apply view_is_Some. }
  split; [done|]. split; intros k; [by rewrite E2, E1|]. intros He. by rewrite C2, C1.
Qed.

Lemma open_view (s : SecureQSettings) (m : gmap string QVariant) :
  represents s m -> represents (open_settings (reloaded <$> m_settings s)) (spec_op OpRestart m).2.
Proof.
  intros [Hs Hm]. destruct (restart_view s Hs) as [H0 E0]. unfold open_settings, represents. cbn.
  assert (E0' : forall k, view (mkSettings (reloaded <$> m_settings s) ∅) k = (reloaded <$> m) !! k)
    by (intros k; by rewrite E0, lookup_fmap, Hm).
  assert (Ed : default VInvalid ((reloaded <$> m_settings s) !! "Conf/encrypted") = default VInvalid ((reloaded <$> m) !! "Conf/encrypted")).
  { rewrite <- E0'. unfold view. cbn. rewrite lookup_empty.
    destruct ((reloaded <$> m_settings s) !! "Conf/encrypted") as [st|] eqn:Es; [|done]. cbn.
    rewrite decode_plain; [done|]. exact (proj2 H0 "Conf/encrypted" st Es). }
  rewrite Ed. destruct encryptionRequired eqn:Hreq; cbn [andb]; [|done].
  case_match; [|done].
  destruct (migrate_same (allKeys (mkSettings (reloaded <$> m_settings s) ∅)) _ Hreq H0) as ([Hc Hp] & E1 & C1).
  { unfold allKeys. cbn. apply Forall_forall. intros k (e & -> & He)%list_elem_of_fmap.
    destruct e as [k v]. apply elem_of_map_to_list in He. cbn. eauto. }
  set (s' := fold_left _ _ _) in *.
  assert (Hn : m_cache s' !! "Conf/encrypted" = None) by by rewrite C1.
  split; [split|].
  - intros k v Hk. cbn in *. rewrite lookup_insert_ne; [by apply Hc|]. intros <-. congruence.
  - intros k st. cbn. destruct (decide ("Conf/encrypted" = k)) as [<-|Hne].
    + rewrite lookup_insert_eq. by intros [= <-].
    + rewrite lookup_insert_ne by done. apply Hp.
  - intros k. unfold view. cbn. destruct (decide ("Conf/encrypted" = k)) as [<-|Hne].
    + by rewrite Hn, !lookup_insert_eq.
    + rewrite !lookup_insert_ne by done. rewrite <- E0', <- E1. done.
Qed.

(** Each use of the settings is the use of the map. *)
Lemma run_op_spec (o : Op) (s : SecureQSettings) (m : gmap string QVariant) :
  represents s m -> allowed o m = true ->
  (run_op o s).1 = (spec_op o m).1 /\ represents (run_op o s).2 (spec_op o m).2.
Proof.
  intros [Hs Hm] Ho. destruct o as [key d|key v|key| |]; cbn [run_op spec_op fst snd].
  - destruct (value_view s key d Hs) as (E1 & H1 & E2 & _). destruct (value key d s). cbn in *.
    rewrite E1, Hm. split; [done|]. split; [done|]. intros k. by rewrite E2.
  - destruct (setValue_view s key v Hs Ho) as [H1 E1]. split; [done|]. split; [done|].
    intros k. rewrite E1. case_decide as Ek; [subst; by rewrite lookup_insert_eq|].
    by rewrite lookup_insert_ne.
  - cbn in Ho. apply andb_true_iff in Ho as [Hk%negb_true_iff Hl]. rewrite forallb_forall in Hl.
    destruct (remove_view s key Hs Hk) as [H1 E1].
    { intros k [v Hv]. rewrite Hm in Hv. apply negb_true_iff, (Hl (k, v)), list_elem_of_In. by apply elem_of_map_to_list. }
    split; [done|]. split; [done|]. intros k. rewrite E1. case_decide as Ek; [subst; by rewrite lookup_delete_eq|].
    by rewrite lookup_delete_ne.
  - split; [done|]. split; [|done]. split; intros ? ?; cbn; by rewrite lookup_empty.
  - split; [done|]. by apply open_view.
Qed.

Lemma allKeys_view (s : SecureQSettings) (k : string) :
  settings_ok s -> k ∈ allKeys s <-> is_Some (view s k).
Proof.
  intros Hs. rewrite (view_is_Some s k Hs). unfold allKeys. split.
  - intros ([k' v] & -> & Hk%elem_of_map_to_list)%list_elem_of_fmap. cbn. eauto.
  - intros [v Hk]. apply list_elem_of_fmap. exists (k, v). by rewrite elem_of_map_to_list.
Qed.

Lemma needToBackup_uuid (k : string) : needToBackup k = true -> String.eqb k uuid_key = false.
Proof. unfold needToBackup. by destruct (String.eqb k uuid_key). Qed.

Lemma backup_keys_spec (keys : list string) (cfg : QJsonObject) (s : SecureQSettings) :
  settings_ok s -> NoDup (map fst cfg) ->
  let r := backup_keys keys cfg s in
  NoDup (map fst r.1)
  /\ forall k, obj_value r.1 k =
       if bool_decide (k ∈ keys) && needToBackup k
       then Some (fromVariant (default VInvalid (view s k))) else obj_value cfg k.
Proof.
  clear Hstorage. revert cfg s. induction keys as [|key keys IH]; intros cfg s Hs Hd; [done|]. cbn [backup_keys].
  destruct (needToBackup key) eqn:Hb.
  - destruct (value_view s key VInvalid Hs) as (E1 & H1 & E2 & _).
    destruct (value key VInvalid s) as [v s1]. cbn in E1, H1, E2. subst v.
    destruct (IH (obj_insert cfg key (Some (fromVariant (default VInvalid (view s key))))) s1 H1) as [N1 V1];
      [by apply obj_insert_NoDup|].
    split; [exact N1|]. intros k. rewrite V1, E2, obj_value_insert.
    destruct (decide (k = key)) as [->|Hne].
    + rewrite String.eqb_refl, Hb, (bool_decide_true (key ∈ key :: keys)) by apply list_elem_of_here.
      by destruct (bool_decide (key ∈ keys)).
    + rewrite (proj2 (String.eqb_neq key k)) by congruence.
      by rewrite (bool_decide_ext (k ∈ key :: keys) (k ∈ keys)) by set_solver.
  - destruct (IH cfg s Hs Hd) as [N1 V1]. split; [exact N1|]. intros k. rewrite V1.
    destruct (decide (k = key)) as [->|Hne]; [by rewrite Hb, !andb_false_r|].
    by rewrite (bool_decide_ext (k ∈ key :: keys) (k ∈ keys)) by set_solver.
Qed.

Lemma restore_view (cfg : QJsonObject) (s : SecureQSettings) :
  settings_ok s -> NoDup (map fst cfg) ->
  (forall k j, obj_value cfg k = Some j -> k <> uuid_key -> storable k (toVariant j) = true) ->
  let s' := fold_left restore_entry cfg s in
  settings_ok s' /\ forall k, view s' k =
    match obj_value cfg k with
    | Some j => if String.eqb k uuid_key then view s k else Some (toVariant j)
    | None => view s k
    end.
Proof.
  revert s. induction cfg as [|[key j] cfg IH]; intros s Hs Hd Hst; [done|].
  cbn [map fst] in Hd. apply NoDup_cons in Hd as [Hnk Hd].
  assert (Hnone : obj_value cfg key = None) by by apply obj_value_None.
  assert (Hst' : forall k j, obj_value cfg k = Some j -> k <> uuid_key -> storable k (toVariant j) = true).
  { intros k j' Hk. apply Hst. cbn. destruct (String.eqb_spec k key) as [->|]; [congruence|done]. }
  cbn [fold_left restore_entry fst snd]. unfold restore_entry at 2 4. cbn [fst snd].
  destruct (String.eqb_spec key uuid_key) as [->|Hu].
  - destruct (IH s Hs Hd Hst') as [H1 E1]. split; [done|]. intros k. rewrite E1. cbn.
    destruct (String.eqb_spec k uuid_key) as [->|]; [by rewrite Hnone|done].
  - assert (Hsk : storable key (toVariant j) = true).
    { apply Hst; [|done]. cbn. by rewrite String.eqb_refl. }
    destruct (setValue_view s key (toVariant j) Hs Hsk) as [H1 E1].
    destruct (IH _ H1 Hd Hst') as [H2 E2]. split; [done|]. intros k. rewrite E2, E1. cbn.
    destruct (String.eqb_spec k key) as [->|Hne].
    + rewrite Hnone, decide_True by done. by rewrite (proj2 (String.eqb_neq _ _)).
    + by rewrite decide_False by congruence.
Qed.

(** ** Theorems *)

(** C20: The settings, with their cache, their encryption and starts of the
    application in between, answer like a plain map: every sequence of uses gets
    the same answers, where a new start replaces each value by the one that the file
    gives back for it (and marks the settings as encrypted where they have to be).
    This is for a cipher and a stream that are read back, a file that gives byte
    arrays back as they were, and uses that are allowed: there is a key for the cipher
    when the list of servers is set where it has to be encrypted, this list is a byte
    array, no plain value looks like an encrypted one, and nothing is removed that is
    empty or a group of other settings. *)
Theorem settings_refine_map (l : list Op) (s : SecureQSettings) (m : gmap string QVariant) :
  represents s m -> all_allowed l m = true -> run_ops l s = spec_ops l m.
Proof.
  revert s m. induction l as [|o l IH]; intros s m Hr Hl; [done|].
  cbn in Hl. apply andb_true_iff in Hl as [Ho Hl].
  destruct (run_op_spec o s m Hr Ho) as [E H1]. cbn [run_ops spec_ops].
  destruct (run_op o s) as [r s'], (spec_op o m) as [r' m']. cbn in *. subst r'.
  by rewrite (IH s' m').
Qed.

(** The removal of a group removes the settings below it from the file but not from
    the cache: one that was read before is still read, until the next start. *)
Theorem removed_group_still_read (s : SecureQSettings) (key k : string) (v d : QVariant) :
  String.eqb key EmptyString = false -> sub_setting key k = true -> key <> k -> m_cache s !! k = Some v ->
  m_settings (remove key s) !! k = None /\ (value k d (remove key s)).1 = v.
Proof.
  intros Hk Hs Hne Hc. split.
  - cbn. rewrite (disk_remove_lookup key k _ Hk), decide_False; [done|]. intros [_ ?]. congruence.
  - unfold value. cbn. by rewrite lookup_delete_ne, Hc.
Qed.

(** A backup restores: each setting of the backup is read again where it is
    restored, and all others, among them the identifier of the installation,
    stay. *)
Theorem backup_restores (s s2 : SecureQSettings) :
  settings_ok s -> settings_ok s2 -> (backupAppConfig s).1 <> [] ->
  (forall k v, view s k = Some v -> toVariant (fromVariant v) = v /\ storable k v = true) ->
  let r := restoreAppConfig (backupAppConfig s).1 s2 in
  r.1 = true /\ forall k, view r.2 k =
    if needToBackup k then match view s k with Some v => Some v | None => view s2 k end else view s2 k.
Proof.
  intros Hs Hs2 Hne Hj. destruct (backup_keys_spec (allKeys s) [] s Hs) as [Hd Hv]; [by constructor|].
  fold (backupAppConfig s) in Hd, Hv. set (cfg := (backupAppConfig s).1) in *.
  assert (Hval : forall k, obj_value cfg k = if needToBackup k then fromVariant <$> view s k else None).
  { intros k. rewrite Hv. destruct (needToBackup k); [rewrite andb_true_r|by rewrite andb_false_r].
    case_bool_decide as Hk.
    - apply allKeys_view in Hk as [v ->]; done.
    - destruct (view s k) eqn:Ev; [|done]. destruct Hk. apply allKeys_view; [done|]. eauto. }
  destruct (restore_view cfg s2 Hs2 Hd) as [_ E].
  { intros k j. rewrite Hval. destruct (needToBackup k); [|done].
    destruct (view s k) as [v|] eqn:Ev; [|done]. intros [= <-] _. destruct (Hj k v Ev) as [-> ?]. done. }
  unfold restoreAppConfig. destruct cfg as [|e cfg'] eqn:Ec; [done|]. rewrite <- Ec in *.
  split; [done|]. cbn [snd]. intros k. rewrite E, Hval.
  destruct (needToBackup k) eqn:Hb; [|done]. destruct (view s k) as [v|] eqn:Ev; [|done]. cbn.
  rewrite needToBackup_uuid by done. by destruct (Hj k v Ev) as [-> _].
Qed.
End Laws.
End Settings.

(** With a key chain that keeps what is written, a key that is not there is made once:
    all later calls give the same, also after a new start. *)
Theorem key_stays {Chain : Type} (getSecTag : string -> Chain -> string) (setSecTag : string -> string -> Chain -> Chain)
    (tag generated : string) (chain : Chain) :
  (forall d c, getSecTag tag (setSecTag tag d c) = d) -> generated <> EmptyString ->
  exists key chain', load_key getSecTag setSecTag tag generated EmptyString chain = (key, (key, chain'))
    /\ key <> EmptyString
    /\ forall other m_key, m_key = key \/ m_key = EmptyString ->
       load_key getSecTag setSecTag tag other m_key chain' = (key, (key, chain')).
Proof.
  intros Hkept Hg. unfold load_key at 1. cbn [String.eqb negb].
  destruct (String.eqb_spec (getSecTag tag chain) EmptyString) as [E|E].
  - rewrite Hkept, String.eqb_refl. exists generated, (setSecTag tag generated chain). split_and!; [done|done|].
    intros other m_key [-> | ->]; unfold load_key; cbn [String.eqb negb];
      by rewrite ?Hkept, (proj2 (String.eqb_neq generated EmptyString) Hg).
  - exists (getSecTag tag chain), chain. split_and!; [done|done|].
    intros other m_key [-> | ->]; unfold load_key; cbn [String.eqb negb];
      by rewrite (proj2 (String.eqb_neq (getSecTag tag chain) EmptyString) E).
Qed.

Lemma settings_refine_map_witness :
  @run_ops example_cipher
    [OpSet "Servers/serversList" (VBytes "[]"); OpSet "Conf/port" (VInt 8); OpRestart; OpGet "Servers/serversList" VInvalid;
     OpGet "Conf/encrypted" VInvalid; OpGet "Conf/port" VInvalid; OpRemove "Conf/port"; OpRestart; OpGet "Conf/encrypted" VInvalid;
     OpGet "Conf/port" VInvalid] (mkSettings ∅ ∅)
  = [None; None; None; Some (VBytes "[]"); Some (VBool true); Some (VString "8"); None; None; Some (VString "true"); Some VInvalid].
Proof.
  rewrite (@settings_refine_map example_cipher) with (m := ∅).
  - reflexivity.
  - intros text. exists text. split; reflexivity.
  - intros [] Hv; try discriminate Hv; reflexivity.
  - split; [intros [] Hv; try discriminate Hv; reflexivity|].
    intros [| | | | |[|? [|? ?]]| | |] body; cbn; try discriminate; intros [= <-]; reflexivity.
  - split; [split; intros ? ?; cbn [m_cache m_settings]; rewrite lookup_empty; discriminate|reflexivity].
  - vm_compute. reflexivity.
Defined.

Lemma backup_restores_witness :
  let s := mkSettings {["Conf/killSwitchEnabled" := VBool false]} ∅ in
  view (H := example_cipher) (@restoreAppConfig example_cipher
    (@backupAppConfig example_cipher s).1 (mkSettings ∅ ∅)).2 "Conf/killSwitchEnabled" = Some (VBool false).
Proof.
  intros s. destruct (@backup_restores example_cipher) with (s := s) (s2 := mkSettings ∅ ∅) as [_ E].
  - intros text. exists text. split; reflexivity.
  - intros [] Hv; try discriminate Hv; reflexivity.
  - split; [intros ? ?; cbn; rewrite lookup_empty; discriminate|].
    intros k st. cbn. rewrite lookup_singleton_Some. intros [<- <-]. reflexivity.
  - split; intros ? ?; cbn [m_cache m_settings]; rewrite lookup_empty; discriminate.
  - vm_compute. discriminate.
  - intros k v. unfold view. cbn. rewrite lookup_empty.
    destruct (decide ("Conf/killSwitchEnabled" = k)) as [<-|Hne].
    + rewrite lookup_singleton_eq. intros [= <-]. split; reflexivity.
    + rewrite lookup_singleton_ne by done. discriminate.
  - rewrite E. vm_compute. reflexivity.
Defined.
