(* ===== verification/AppSettings.v ===== *)
(** * The settings of the application

    client/core/repositories/secureAppSettingsRepository.cpp, over the plain map
    that the encrypted settings refine ([SecureSettings.settings_refine_map]).  A
    setting is a key with a default and a conversion; a map of Qt is listed in the
    order of its keys. *)

From stdpp Require Import base numbers list strings gmap.
From Stdlib Require Import ZArith Lia Strings.String Strings.Ascii.
From S2P Require Import Prelude Json Config SecureSettings.
Open Scope string_scope.
Open Scope list_scope.
Open Scope Z_scope.

(** ** Maps with ordered keys *)

Abbreviation sitemap := (list (string * string)).

Fixpoint qmap_value (m : sitemap) (k : string) : option string :=
  match m with
  | [] => None
  | (k', v) :: m' => if String.eqb k k' then Some v else qmap_value m' k
  end.

Definition qmap_contains (m : sitemap) (k : string) : bool :=
  match qmap_value m k with Some _ => true | None => false end.

Fixpoint qmap_replace (m : sitemap) (k v : string) : sitemap :=
  match m with
  | [] => []
  | (k', v') :: m' => if String.eqb k k' then (k', v) :: m' else (k', v') :: qmap_replace m' k v
  end.

Fixpoint qmap_place (m : sitemap) (k v : string) : sitemap :=
  match m with
  | [] => [(k, v)]
  | (k', v') :: m' => if String.ltb k k' then (k, v) :: m else (k', v') :: qmap_place m' k v
  end.

Definition qmap_insert (m : sitemap) (k v : string) : sitemap :=
  if qmap_contains m k then qmap_replace m k v else qmap_place m k v.

Definition qmap_remove (m : sitemap) (k : string) : sitemap :=
  List.filter (fun e => negb (String.eqb k e.1)) m.

(** ** State *)

(** Modes are the numbers that are stored; other numbers than these are possible. *)
Definition VpnAllSites : Z := 0.
Definition VpnOnlyForwardSites : Z := 1.
Definition VpnAllExceptSites : Z := 2.
Definition VpnAllApps : Z := 0.
Definition VpnOnlyForwardApps : Z := 1.
Definition VpnAllExceptApps : Z := 2.

Record InstalledAppInfo := mkApp { appName : string; packageName : string; appPath : string }.

Inductive Signal :=
| AppLanguageChanged (locale : string)
| UseAmneziaDnsChanged (enabled : bool)
| AllowedDnsServersChanged (servers : list string)
| RouteModeChanged (mode : Z)
| SitesChanged (mode : Z)
| SitesSplitTunnelingEnabledChanged (enabled : bool)
| AppsRouteModeChanged (mode : Z)
| AppsChanged (mode : Z)
| AppsSplitTunnelingEnabledChanged (enabled : bool)
| ScreenshotsEnabledChanged (enabled : bool)
| SaveLogsChanged (enabled : bool)
| SettingsCleared.

Record AppSettings := mkAppSettings {
  store : gmap string QVariant;
  m_gatewayEndpoint : string;
  signals : list Signal
}.

Definition store_set (key : string) (v : QVariant) (s : AppSettings) : AppSettings :=
  mkAppSettings (<[key := v]> (store s)) (m_gatewayEndpoint s) (signals s).

Definition signal (e : Signal) (s : AppSettings) : AppSettings :=
  mkAppSettings (store s) (m_gatewayEndpoint s) (signals s ++ [e]).

(** ** Settings *)

Record Setting (A : Type) := mkSetting {
  key_of : string;
  default_of : QVariant;
  decode_as : QVariant -> A;
  encode_as : A -> QVariant
}.
Arguments mkSetting {A}.
Arguments key_of {A}.
Arguments default_of {A}.
Arguments decode_as {A}.
Arguments encode_as {A}.

Definition read {A} (x : Setting A) (s : AppSettings) : A :=
  decode_as x (default (default_of x) (store s !! key_of x)).
Definition write {A} (x : Setting A) (a : A) (s : AppSettings) : AppSettings :=
  store_set (key_of x) (encode_as x a) s.

Definition bool_setting (key : string) (d : bool) : Setting bool :=
  mkSetting key (VBool d) var_toBool VBool.
Definition int_setting (key : string) (d : Z) : Setting Z := mkSetting key (VInt d) var_toInt VInt.
Definition string_setting (key : string) (d : string) : Setting string :=
  mkSetting key (VString d) var_toString VString.
Definition list_setting (key : string) : Setting (list string) :=
  mkSetting key VInvalid var_toStringList VStringList.

Definition ruDirectSeedDone := bool_setting "Conf/ruDirectSeedDone" false.
Definition ruDirectSeedVersion := int_setting "Conf/ruDirectSeedVersion" 0.
Definition awgDefaultMigrationDone := bool_setting "Conf/awgDefaultMigrationDone" false.
Definition dnsResetMigrationDone := bool_setting "Conf/dnsResetMigrationDone" false.
Definition serverNameMigrationDone := bool_setting "Conf/serverNameMigrationDone" false.
Definition appLanguage := string_setting "Conf/appLanguage" "ru_RU".
Definition useAmneziaDns := bool_setting "Conf/useAmneziaDns" true.
Definition allowedDnsServers := list_setting "Conf/allowedDnsServers".
Definition primaryDns := string_setting "Conf/primaryDns" "94.140.14.14".
Definition secondaryDns := string_setting "Conf/secondaryDns" "94.140.15.15".
Definition routeMode := int_setting "Conf/routeMode" 0.
Definition sitesSplitTunnelingEnabled := bool_setting "Conf/sitesSplitTunnelingEnabled" false.
Definition appsRouteMode := int_setting "Conf/appsRouteMode" 0.
Definition appsSplitTunnelingEnabled := bool_setting "Conf/appsSplitTunnelingEnabled" false.
Definition devGatewayEnv := bool_setting "Conf/devGatewayEnv" false.
Definition killSwitchEnabled := bool_setting "Conf/killSwitchEnabled" true.
Definition autoUpdateEnabled := bool_setting "Conf/autoUpdateEnabled" true.
Definition strictKillSwitchEnabled := bool_setting "Conf/strictKillSwitchEnabled" false.
Definition autoConnect := bool_setting "Conf/autoConnect" false.
Definition startMinimized := bool_setting "Conf/startMinimized" false.
Definition screenshotsEnabled := bool_setting "Conf/screenshotsEnabled" true.
Definition newsNotifications := bool_setting "Conf/newsNotifications" true.
Definition saveLogs := bool_setting "Conf/saveLogs" false.
Definition logEnableDate : Setting (option Z) :=
  mkSetting "Conf/logEnableDate" VInvalid (fun v => match v with VDate d => Some d | _ => None end)
    (fun d => match d with Some n => VDate n | None => VInvalid end).
Definition installationUuid := string_setting "Conf/installationUuid" EmptyString.
Definition readNewsIds := list_setting "News/readIds".
Definition homeAdLabelVisible := bool_setting "Conf/homeAdLabelVisible" true.
Definition premV1MigrationReminderActive := bool_setting "Conf/premV1MigrationReminderActive" true.
Definition xraySavedConfigs : Setting string :=
  mkSetting "Xray/savedConfigs" VInvalid var_toBytes VBytes.
Definition gatewayEndpoint_setting := string_setting "Conf/gatewayEndpoint" EmptyString.

(** ** Operations with signals *)

Definition setAppLanguage (locale : string) (s : AppSettings) : AppSettings :=
  signal (AppLanguageChanged locale) (write appLanguage locale s).
Definition setUseAmneziaDns (enabled : bool) (s : AppSettings) : AppSettings :=
  signal (UseAmneziaDnsChanged enabled) (write useAmneziaDns enabled s).
Definition setAllowedDnsServers (servers : list string) (s : AppSettings) : AppSettings :=
  signal (AllowedDnsServersChanged servers) (write allowedDnsServers servers s).
Definition setRouteMode (mode : Z) (s : AppSettings) : AppSettings :=
  signal (RouteModeChanged mode) (write routeMode mode s).
Definition setSitesSplitTunnelingEnabled (enabled : bool) (s : AppSettings) : AppSettings :=
  signal (SitesSplitTunnelingEnabledChanged enabled) (write sitesSplitTunnelingEnabled enabled s).
Definition setAppsRouteMode (mode : Z) (s : AppSettings) : AppSettings :=
  signal (AppsRouteModeChanged mode) (write appsRouteMode mode s).
Definition setAppsSplitTunnelingEnabled (enabled : bool) (s : AppSettings) : AppSettings :=
  signal (AppsSplitTunnelingEnabledChanged enabled) (write appsSplitTunnelingEnabled enabled s).
Definition setScreenshotsEnabled (enabled : bool) (s : AppSettings) : AppSettings :=
  signal (ScreenshotsEnabledChanged enabled) (write screenshotsEnabled enabled s).
Definition setSaveLogs (enabled : bool) (s : AppSettings) : AppSettings :=
  signal (SaveLogsChanged enabled) (write saveLogs enabled s).
Definition disableHomeAdLabel (s : AppSettings) : AppSettings := write homeAdLabelVisible false s.
Definition disablePremV1MigrationReminder (s : AppSettings) : AppSettings :=
  write premV1MigrationReminderActive false s.

(** ** Sites *)

Definition routeModeString (mode : Z) : string :=
  if mode =? VpnAllSites then "AllSites"
  else if mode =? VpnOnlyForwardSites then "ForwardSites"
  else if mode =? VpnAllExceptSites then "ExceptSites"
  else EmptyString.

Definition sites_setting (mode : Z) : Setting sitemap :=
  mkSetting ("Conf/" ++ routeModeString mode) VInvalid var_toMap VMap.

Definition vpnSites (mode : Z) (s : AppSettings) : sitemap := read (sites_setting mode) s.
Definition setVpnSites (mode : Z) (m : sitemap) (s : AppSettings) : AppSettings :=
  write (sites_setting mode) m s.

Definition addVpnSite (mode : Z) (site ip : string) (s : AppSettings) : bool * AppSettings :=
  let sites := vpnSites mode s in
  if qmap_contains sites site && String.eqb ip EmptyString then (false, s)
  else (true, signal (SitesChanged mode) (setVpnSites mode (qmap_insert sites site ip) s)).

Definition add_site_entry (m : sitemap) (e : string * string) : sitemap :=
  match qmap_value m e.1 with
  | Some ip => if String.eqb ip e.2 then m else qmap_insert m e.1 e.2
  | None => qmap_insert m e.1 e.2
  end.

Definition addVpnSites (mode : Z) (sites : sitemap) (s : AppSettings) : AppSettings :=
  signal (SitesChanged mode) (setVpnSites mode (fold_left add_site_entry sites (vpnSites mode s)) s).

Definition removeVpnSite (mode : Z) (site : string) (s : AppSettings) : AppSettings :=
  let sites := vpnSites mode s in
  if qmap_contains sites site
  then signal (SitesChanged mode) (setVpnSites mode (qmap_remove sites site) s)
  else s.

Definition removeAllVpnSites (mode : Z) (s : AppSettings) : AppSettings :=
  signal (SitesChanged mode) (setVpnSites mode [] s).

(** ** Applications *)

Definition appsRouteModeString (mode : Z) : string :=
  if mode =? VpnAllApps then "AllApps"
  else if mode =? VpnOnlyForwardApps then "ForwardApps"
  else if mode =? VpnAllExceptApps then "ExceptApps"
  else EmptyString.

Definition app_of_json (app : json) : InstalledAppInfo :=
  let text k := chars (toString (obj_value (toObject (Some app)) k)) in
  mkApp (text "appName") (text "packageName") (text "appPath").

Definition app_json (app : InstalledAppInfo) : json :=
  JObject (insert_all []
    [("appName", Some (JString (appName app))); ("packageName", Some (JString (packageName app)));
     ("appPath", Some (JString (appPath app)))]).

Definition apps_setting (mode : Z) : Setting (list InstalledAppInfo) :=
  mkSetting ("Conf/" ++ appsRouteModeString mode) VInvalid
    (fun v => map app_of_json (var_toJsonArray v)) (fun l => VJson (JArray (map app_json l))).

Definition vpnApps (mode : Z) (s : AppSettings) : list InstalledAppInfo := read (apps_setting mode) s.
Definition setVpnApps (mode : Z) (apps : list InstalledAppInfo) (s : AppSettings) : AppSettings :=
  signal (AppsChanged mode) (write (apps_setting mode) apps s).

(** ** The gateway *)

Definition gatewayEndpoint : string := "https://gw.fr3sh.online/".

(** The address of the gateway, in memory and stored. *)
Definition setGatewayEndpoint (endpoint : string) (s : AppSettings) : AppSettings :=
  mkAppSettings (<["Conf/gatewayEndpoint" := VString endpoint]> (store s)) endpoint (signals s).
Definition resetGatewayEndpoint (s : AppSettings) : AppSettings := setGatewayEndpoint gatewayEndpoint s.

(** The constructor: a stored address is not read. *)
Definition open_app_settings (disk : gmap string QVariant) : AppSettings :=
  resetGatewayEndpoint (mkAppSettings disk EmptyString []).

Section Gateway.
(** The address that the build configures for tests. *)
Variable DEV_AGW_ENDPOINT : string.

Definition getGatewayEndpoint (isTestPurchase : bool) (s : AppSettings) : string :=
  if isTestPurchase then DEV_AGW_ENDPOINT else m_gatewayEndpoint s.
Definition setDevGatewayEndpoint (s : AppSettings) : AppSettings :=
  setGatewayEndpoint DEV_AGW_ENDPOINT s.
End Gateway.

Definition isDevGatewayEnv (isTestPurchase : bool) (s : AppSettings) : bool :=
  if isTestPurchase then true else read devGatewayEnv s.

(** ** The number of the installation *)

(** [chop(1)]. *)
Fixpoint chop (s : string) : string :=
  match s with
  | EmptyString => EmptyString
  | String c EmptyString => EmptyString
  | String c s' => String c (chop s')
  end.

(** [remove(0, 1)] and [chop(1)]. *)
Definition strip_ends (s : string) : string :=
  match s with EmptyString => EmptyString | String _ s' => chop s' end.

(** [createUuid] is the text of a new number, with its braces. *)
Definition getInstallationUuid (createUuid : string) (createIfNotExists : bool) (s : AppSettings)
  : string * AppSettings :=
  let uuid := read installationUuid s in
  if createIfNotExists && String.eqb uuid EmptyString then
    let uuid' := strip_ends createUuid in (uuid', write installationUuid uuid' s)
  else if contains_text "{" uuid && contains_text "}" uuid then
    let uuid' := strip_ends uuid in (uuid', write installationUuid uuid' s)
  else (uuid, s).

Definition clearSettings (s : AppSettings) : AppSettings :=
  let '(uuid, s') := getInstallationUuid EmptyString false s in
  signal SettingsCleared
    (write installationUuid uuid (mkAppSettings ∅ (m_gatewayEndpoint s') (signals s'))).

(** ** Specification *)

(** A setting that reads what was written. *)
Class Lossless {A} (x : Setting A) : Prop := decode_encode_as a : decode_as x (encode_as x a) = a.

(** The keys of the settings. *)
Definition setting_keys : list string :=
  [key_of ruDirectSeedDone; key_of ruDirectSeedVersion; key_of awgDefaultMigrationDone;
   key_of dnsResetMigrationDone; key_of serverNameMigrationDone; key_of appLanguage;
   key_of useAmneziaDns; key_of allowedDnsServers; key_of primaryDns; key_of secondaryDns;
   key_of routeMode; key_of sitesSplitTunnelingEnabled; key_of appsRouteMode;
   key_of appsSplitTunnelingEnabled; key_of devGatewayEnv; key_of killSwitchEnabled;
   key_of autoUpdateEnabled; key_of strictKillSwitchEnabled; key_of autoConnect;
   key_of startMinimized; key_of screenshotsEnabled; key_of newsNotifications; key_of saveLogs;
   key_of logEnableDate; key_of installationUuid; key_of readNewsIds; key_of homeAdLabelVisible;
   key_of premV1MigrationReminderActive; key_of xraySavedConfigs; key_of gatewayEndpoint_setting;
   key_of (sites_setting VpnAllSites); key_of (sites_setting VpnOnlyForwardSites);
   key_of (sites_setting VpnAllExceptSites); key_of (apps_setting VpnAllApps);
   key_of (apps_setting VpnOnlyForwardApps); key_of (apps_setting VpnAllExceptApps)].

(** A number without braces. *)
Definition bare (uuid : string) : bool := negb (contains_text "{" uuid && contains_text "}" uuid).

(** The stored number is bare, or is one between braces. *)
Definition uuid_ok (s : AppSettings) : Prop :=
  let uuid := read installationUuid s in
  bare uuid = true
  \/ exists body, uuid = ("{" ++ body ++ "}")%string /\ bare body = true /\ body <> EmptyString.

(** ** Lemmas *)

Lemma read_write {A} (x : Setting A) `{!Lossless x} (a : A) (s : AppSettings) :
  read x (write x a s) = a.
Proof. unfold read, write. cbn [store store_set]. rewrite lookup_insert_eq. apply decode_encode_as. Qed.

Lemma read_write_ne {A B} (x : Setting A) (y : Setting B) (b : B) (s : AppSettings) :
  key_of x <> key_of y -> read x (write y b s) = read x s.
Proof. intros Hk. unfold read, write. cbn [store store_set]. by rewrite lookup_insert_ne by done. Qed.

Lemma read_signal {A} (x : Setting A) (e : Signal) (s : AppSettings) : read x (signal e s) = read x s.
Proof. done. Qed.

#[export] Instance bool_lossless key d : Lossless (bool_setting key d).
Proof. done. Qed.
#[export] Instance int_lossless key d : Lossless (int_setting key d).
Proof. done. Qed.
#[export] Instance string_lossless key d : Lossless (string_setting key d).
Proof. done. Qed.
#[export] Instance list_lossless key : Lossless (list_setting key).
Proof. done. Qed.
#[export] Instance sites_lossless mode : Lossless (sites_setting mode).
Proof. done. Qed.
#[export] Instance installationUuid_lossless : Lossless installationUuid.
Proof. done. Qed.

#[export] Instance apps_lossless mode : Lossless (apps_setting mode).
Proof.
  intros l. cbn [decode_as encode_as apps_setting var_toJsonArray]. rewrite map_map.
  rewrite <- (map_id l) at 2. apply map_ext. by intros [].
Qed.

(** *** Maps *)

Lemma qmap_contains_value (m : sitemap) (k : string) :
  qmap_contains m k = true <-> exists v, qmap_value m k = Some v.
Proof. unfold qmap_contains. destruct (qmap_value m k); split; [eauto | done | done | by intros []]. Qed.

Lemma qmap_value_elem (m : sitemap) (k v : string) : qmap_value m k = Some v -> (k, v) ∈ m.
Proof.
  induction m as [|[k' v'] m IH]; cbn; [done|].
  destruct (String.eqb_spec k k') as [->|]; [intros [= ->]; left | right; auto].
Qed.

Lemma qmap_contains_keys (m : sitemap) (k : string) : qmap_contains m k = true <-> k ∈ map fst m.
Proof.
  unfold qmap_contains. induction m as [|[k' v'] m IH]; cbn.
  - split; [done | by intros ?%not_elem_of_nil].
  - destruct (String.eqb_spec k k') as [->|Hk]; [split; [left | done]|].
    rewrite IH, elem_of_cons. naive_solver.
Qed.

Lemma qmap_contains_false (m : sitemap) (k : string) : qmap_contains m k = false <-> k ∉ map fst m.
Proof. rewrite <- qmap_contains_keys. by destruct (qmap_contains m k). Qed.

Lemma qmap_value_None (m : sitemap) (k : string) : k ∉ map fst m -> qmap_value m k = None.
Proof. rewrite <- qmap_contains_false. unfold qmap_contains. by destruct (qmap_value m k). Qed.

Lemma qmap_value_replace (m : sitemap) (k v k' : string) :
  qmap_contains m k = true ->
  qmap_value (qmap_replace m k v) k' = if String.eqb k' k then Some v else qmap_value m k'.
Proof.
  unfold qmap_contains. induction m as [|[a b] m IH]; cbn; [done|].
  destruct (String.eqb_spec k a) as [->|Ha]; cbn; [by destruct (String.eqb_spec k' a)|].
  intros Hm. destruct (String.eqb_spec k' a) as [->|]; [|by apply IH].
  by destruct (String.eqb_spec a k) as [->|].
Qed.

Lemma qmap_value_place (m : sitemap) (k v k' : string) :
  qmap_contains m k = false ->
  qmap_value (qmap_place m k v) k' = if String.eqb k' k then Some v else qmap_value m k'.
Proof.
  unfold qmap_contains. induction m as [|[a b] m IH]; cbn; [done|].
  destruct (String.eqb_spec k a) as [->|Ha]; [done|]. intros Hm.
  destruct (String.ltb k a); cbn; [done|].
  destruct (String.eqb_spec k' a) as [->|]; [|by apply IH].
  by destruct (String.eqb_spec a k) as [->|].
Qed.

Lemma qmap_value_insert (m : sitemap) (k v k' : string) :
  qmap_value (qmap_insert m k v) k' = if String.eqb k' k then Some v else qmap_value m k'.
Proof.
  unfold qmap_insert. destruct (qmap_contains m k) eqn:E;
    [by apply qmap_value_replace | by apply qmap_value_place].
Qed.

Lemma qmap_value_remove (m : sitemap) (k k' : string) :
  qmap_value (qmap_remove m k) k' = if String.eqb k' k then None else qmap_value m k'.
Proof.
  unfold qmap_remove. induction m as [|[a b] m IH]; cbn; [by destruct (String.eqb k' k)|].
  destruct (String.eqb_spec k a) as [->|Ha]; cbn; rewrite IH.
  - by destruct (String.eqb_spec k' a).
  - destruct (String.eqb_spec k' a) as [->|]; [|done]. by destruct (String.eqb_spec a k) as [->|].
Qed.

Lemma qmap_replace_keys (m : sitemap) (k v : string) : map fst (qmap_replace m k v) = map fst m.
Proof. induction m as [|[a b] m IH]; cbn; [done|]. destruct (String.eqb k a); cbn; by rewrite ?IH. Qed.

Lemma qmap_place_perm (m : sitemap) (k v : string) : qmap_place m k v ≡ₚ (k, v) :: m.
Proof.
  induction m as [|[a b] m IH]; cbn; [done|]. destruct (String.ltb k a); [done|].
  rewrite IH. constructor.
Qed.

Lemma qmap_insert_NoDup (m : sitemap) (k v : string) :
  NoDup (map fst m) -> NoDup (map fst (qmap_insert m k v)).
Proof.
  unfold qmap_insert. intros Hm. destruct (qmap_contains m k) eqn:E.
  - by rewrite qmap_replace_keys.
  - rewrite (Permutation_map fst (qmap_place_perm m k v)). cbn.
    constructor; [by apply qmap_contains_false | done].
Qed.

Lemma qmap_insert_keys (m : sitemap) (k v k' : string) :
  k' ∈ map fst (qmap_insert m k v) <-> k' = k \/ k' ∈ map fst m.
Proof.
  rewrite <- !qmap_contains_keys. unfold qmap_contains. rewrite qmap_value_insert.
  destruct (String.eqb_spec k' k); naive_solver.
Qed.

Lemma qmap_remove_NoDup (m : sitemap) (k : string) :
  NoDup (map fst m) -> NoDup (map fst (qmap_remove m k)).
Proof.
  unfold qmap_remove. induction m as [|[a b] m IH]; cbn; [done|]. rewrite NoDup_cons. intros [Ha Hm].
  destruct (String.eqb k a); cbn; [by apply IH|]. constructor; [|by apply IH].
  intros Hin. apply Ha. apply list_elem_of_In, in_map_iff in Hin as (e & He & Hin).
  apply filter_In in Hin as [Hin _]. subst a. by apply list_elem_of_In, in_map.
Qed.

(** *** The number of the installation *)

Lemma chop_snoc (s : string) (c : ascii) : chop (s ++ String c EmptyString) = s.
Proof.
  induction s as [|d s IH]; [done|].
  change (String d s ++ String c EmptyString)%string with (String d (s ++ String c EmptyString)).
  cbn [chop]. rewrite IH. by destruct s.
Qed.

Lemma strip_ends_braces (body : string) : strip_ends ("{" ++ body ++ "}") = body.
Proof. apply chop_snoc. Qed.

Lemma bare_uuid_kept (createUuid : string) (create : bool) (s : AppSettings) :
  read installationUuid s <> EmptyString -> bare (read installationUuid s) = true ->
  getInstallationUuid createUuid create s = (read installationUuid s, s).
Proof.
  intros Hne Hb. unfold getInstallationUuid. apply String.eqb_neq in Hne. rewrite Hne, andb_false_r.
  unfold bare in Hb. apply negb_true_iff in Hb. by rewrite Hb.
Qed.

Lemma contains_text_app (w a b : string) :
  contains_text w b = true -> contains_text w (a ++ b) = true.
Proof.
  intros Hb. induction a as [|c a IH]; [done|].
  change (String c a ++ b)%string with (String c (a ++ b)). cbn [contains_text].
  by rewrite IH, orb_true_r.
Qed.

Lemma bare_braces (body : string) : bare ("{" ++ body ++ "}") = false.
Proof.
  unfold bare. rewrite (contains_text_app "}" "{" (body ++ "}")) by (by apply contains_text_app).
  change ("{" ++ (body ++ "}"))%string with (String "{" (body ++ "}")). cbn [contains_text String.prefix].
  by destruct (ascii_dec "{" "{"), (body ++ "}")%string.
Qed.

(** What asking for the number gives: a bare one, which is stored. *)
Lemma getInstallationUuid_spec (body : string) (s : AppSettings) :
  uuid_ok s -> bare body = true -> body <> EmptyString ->
  let '(u, s') := getInstallationUuid ("{" ++ body ++ "}") true s in
  u <> EmptyString /\ bare u = true /\ read installationUuid s' = u
  /\ forall key, key <> key_of installationUuid -> store s' !! key = store s !! key.
Proof.
  intros Hs Hb Hne. unfold getInstallationUuid.
  destruct (String.eqb_spec (read installationUuid s) EmptyString) as [He|He]; cbn [andb].
  - rewrite strip_ends_braces, (read_write installationUuid). split_and!; [done..|].
    intros key Hk. by apply lookup_insert_ne.
  - destruct Hs as [Hs | (b & Hs & Hbare & Hb0)].
    + assert (Hc := Hs). unfold bare in Hc. apply negb_true_iff in Hc. by rewrite Hc.
    + assert (Hc := bare_braces b). rewrite <- Hs in Hc. unfold bare in Hc.
      apply negb_false_iff in Hc. rewrite Hc, Hs, strip_ends_braces, (read_write installationUuid).
      split_and!; [done..|]. intros key Hk. by apply lookup_insert_ne.
Qed.

Lemma clearSettings_uuid (s : AppSettings) :
  read installationUuid s <> EmptyString -> bare (read installationUuid s) = true ->
  read installationUuid (clearSettings s) = read installationUuid s.
Proof.
  intros Hne Hb. unfold clearSettings. rewrite bare_uuid_kept by done.
  by rewrite read_signal, (read_write installationUuid).
Qed.

(** ** Theorems *)

(** The number of the installation is stable.  Whether it is stored bare, between
    braces as old versions did, or not at all, asking for it gives a number without
    braces and changes no other setting; asking again, with or without permission to
    create one, gives the same number and changes nothing; and clearing the settings
    keeps it and nothing else. *)
Theorem installationUuid_stable (body : string) (s : AppSettings) :
  uuid_ok s -> bare body = true -> body <> EmptyString ->
  let '(u, s1) := getInstallationUuid ("{" ++ body ++ "}") true s in
  u <> EmptyString /\ bare u = true
  /\ (forall key, key <> key_of installationUuid -> store s1 !! key = store s !! key)
  /\ (forall other create, getInstallationUuid other create s1 = (u, s1))
  /\ store (clearSettings s1) = {[ key_of installationUuid := VString u ]}
  /\ forall other create,
       getInstallationUuid other create (clearSettings s1) = (u, clearSettings s1).
Proof.
  intros Hs Hb Hne. assert (Hu := getInstallationUuid_spec body s Hs Hb Hne).
  destruct (getInstallationUuid _ true s) as [u s1]. destruct Hu as (Hu & Hbu & <- & Hk).
  assert (Hc := clearSettings_uuid s1 Hu Hbu).
  split_and!; [done | done | done | by intros; apply bare_uuid_kept | | ].
  - unfold clearSettings. by rewrite bare_uuid_kept.
  - intros other create. rewrite <- Hc. by apply bare_uuid_kept; rewrite Hc.
Qed.

Lemma installationUuid_stable_witness :
  (getInstallationUuid "{9f-1}" true (mkAppSettings ∅ EmptyString [])).1 = "9f-1" /\
  let '(u, s1) := getInstallationUuid "{9f-1}" true (mkAppSettings ∅ EmptyString []) in
  forall other create, getInstallationUuid other create (clearSettings s1) = (u, clearSettings s1).
Proof.
  split; [by vm_compute|].
  assert (H := installationUuid_stable "9f-1" (mkAppSettings ∅ EmptyString [])
                 (or_introl eq_refl) eq_refl ltac:(done)).
  change ("{" ++ "9f-1" ++ "}")%string with "{9f-1}" in H.
  destruct (getInstallationUuid _ _ _) as [u s1]. apply H.
Defined.
