(* ===== verification/SiteTunnelling.v ===== *)
(** * Split tunnelling by site

    client/core/controllers/ipSplitTunnelingController.cpp: the list of sites of the
    current mode in memory and in the settings, its seeding with a preset, import
    and export.  Taking the first part of a text that has none is undefined and has
    no result. *)

From stdpp Require Import base numbers list strings gmap.
From Stdlib Require Import ZArith Lia Strings.String Strings.Ascii.
From S2P Require Import Prelude Json Config NetworkUtils SecureSettings AppSettings.
Open Scope string_scope.
Open Scope list_scope.
Open Scope Z_scope.

(** ** State *)

Record Controller := mkController {
  repo : AppSettings;
  m_currentRouteMode : Z;
  m_sites : sitemap;
  lookups : list string       (** the names whose lookup was started *)
}.

Definition with_repo (s : AppSettings) (c : Controller) : Controller :=
  mkController s (m_currentRouteMode c) (m_sites c) (lookups c).
Definition with_sites (l : sitemap) (c : Controller) : Controller :=
  mkController (repo c) (m_currentRouteMode c) l (lookups c).

Definition kRuDirectSeedVersion : Z := 2.

Definition russianDirectSites : list string :=
  [ "sberbank.ru"; "online.sberbank.ru"; "sberbank.com"; "tbank.ru"; "tinkoff.ru";
    "alfabank.ru"; "alfabank.com"; "vtb.ru"; "gazprombank.ru"; "raiffeisen.ru";
    "open.ru"; "psbank.ru"; "sovcombank.ru"; "rshb.ru"; "mkb.ru"; "pochtabank.ru";
    "yoomoney.ru"; "nspk.ru"; "mironline.ru"; "cbr.ru"; "qiwi.com";
    "gosuslugi.ru"; "nalog.ru"; "nalog.gov.ru"; "mos.ru"; "pfr.gov.ru"; "sfr.gov.ru";
    "fss.ru"; "government.ru"; "kremlin.ru"; "mvd.ru"; "gibdd.ru"; "rosreestr.ru";
    "rosreestr.gov.ru"; "fedsfm.ru";
    "ozon.ru"; "www.ozon.ru"; "ozone.ru"; "cdn1.ozone.ru"; "cdn2.ozone.ru"; "xapi.ozon.ru";
    "api.ozon.ru"; "ozon.travel"; "wildberries.ru"; "www.wildberries.ru"; "wb.ru"; "wbbasket.ru";
    "basket-01.wbbasket.ru"; "avito.ru"; "www.avito.ru"; "avito.st"; "market.yandex.ru";
    "megamarket.ru"; "sbermegamarket.ru"; "dns-shop.ru"; "mvideo.ru"; "citilink.ru";
    "eldorado.ru"; "lamoda.ru"; "aliexpress.ru"; "leroymerlin.ru"; "vseinstrumenti.ru";
    "petrovich.ru";
    "vk.com"; "vk.ru"; "vkvideo.ru"; "ok.ru"; "dzen.ru"; "kinopoisk.ru"; "rutube.ru";
    "smotrim.ru"; "premier.one"; "ivi.ru"; "okko.tv"; "wink.ru"; "more.tv"; "start.ru";
    "kion.ru"; "music.yandex.ru"; "zvuk.com";
    "yandex.ru"; "ya.ru"; "disk.yandex.ru"; "mail.yandex.ru"; "taxi.yandex.ru";
    "mail.ru"; "list.ru"; "bk.ru"; "inbox.ru"; "rambler.ru";
    "mts.ru"; "beeline.ru"; "megafon.ru"; "tele2.ru"; "rt.ru";
    "rzd.ru"; "aeroflot.ru"; "pobeda.aero"; "s7.ru"; "tutu.ru"; "aviasales.ru";
    "hh.ru"; "2gis.ru"; "gismeteo.ru"; "drom.ru"; "pochta.ru"; "cdek.ru" ].

(** ** Names *)

(** [replace(w, EmptyString)], from the left; [skip] characters belong to the last occurrence. *)
Fixpoint remove_text (w : string) (skip : nat) (s : string) : string :=
  match s with
  | EmptyString => EmptyString
  | String c s' =>
      match skip with
      | S k => remove_text w k s'
      | O => if String.prefix w s then remove_text w (String.length w - 1) s'
             else String c (remove_text w 0 s')
      end
  end.

Definition nonempty (s : string) : bool := negb (String.eqb s EmptyString).

Definition normalizeHostname (hostname : string) : option string :=
  let normalized := remove_text "https://" 0 hostname in
  let normalized := remove_text "http://" 0 normalized in
  let normalized := remove_text "ftp://" 0 normalized in
  head (List.filter nonempty (split_on "/" normalized)).

Definition validateHostname (hostname : string) : bool :=
  if String.eqb hostname EmptyString then false
  else if negb (contains_text "." hostname) && negb (ipAddressWithSubnetRegExp hostname) then false
  else true.

(** ** Operations *)

Definition fillSites (c : Controller) : Controller :=
  with_sites (vpnSites (m_currentRouteMode c) (repo c)) c.

(** The addition to the settings, whose answer is not used. *)
Definition store_site (hostname ip : string) (c : Controller) : Controller :=
  with_repo (addVpnSite (m_currentRouteMode c) hostname ip (repo c)).2 c.

(** The loop of [addSiteInternal]. *)
Inductive Scan := Completed (l : sitemap) | Known | NotFound.

Fixpoint scan_sites (hostname ip : string) (l : sitemap) : Scan :=
  match l with
  | [] => NotFound
  | (h, i) :: l' =>
      if String.eqb h hostname && (String.eqb i EmptyString && nonempty ip)
      then Completed ((h, ip) :: l')
      else if String.eqb h hostname && String.eqb i ip then Known
      else match scan_sites hostname ip l' with
           | Completed l'' => Completed ((h, i) :: l'')
           | r => r
           end
  end.

Definition addSiteInternal (hostname ip : string) (c : Controller) : bool * Controller :=
  let existing := vpnSites (m_currentRouteMode c) (repo c) in
  if qmap_contains existing hostname && String.eqb ip EmptyString then (false, c)
  else match scan_sites hostname ip (m_sites c) with
       | Completed l => (true, store_site hostname ip (with_sites l c))
       | Known => (false, c)
       | NotFound => (true, store_site hostname ip (with_sites (m_sites c ++ [(hostname, ip)]) c))
       end.

Definition processSite (hostname ip : string) (c : Controller) : Controller :=
  (addSiteInternal hostname ip c).2.

Definition lookupHost (hostname : string) (c : Controller) : Controller :=
  mkController (repo c) (m_currentRouteMode c) (m_sites c) (lookups c ++ [hostname]).

Definition addSite (hostname : string) (c : Controller) : option (bool * Controller) :=
  match normalizeHostname hostname with
  | None => None
  | Some normalizedHostname =>
      Some (if negb (validateHostname normalizedHostname) then (false, c)
            else if ipAddressWithSubnetRegExp normalizedHostname
            then (true, processSite normalizedHostname EmptyString c)
            else let '(added, c') := addSiteInternal normalizedHostname EmptyString c in
                 if added then (true, lookupHost normalizedHostname c') else (false, c'))
  end.

(** Adding each of a list, whatever the answers. *)
Fixpoint add_each (l : list string) (c : Controller) : option Controller :=
  match l with
  | [] => Some c
  | site :: l' => match addSite site c with Some (_, c') => add_each l' c' | None => None end
  end.

(** The loop of [addSites] for an entry. *)
Fixpoint merge_site (l : sitemap) (e : string * string) : sitemap :=
  match l with
  | [] => [e]
  | (h, i) :: l' =>
      if String.eqb h e.1 then (h, if nonempty e.2 then e.2 else i) :: l'
      else (h, i) :: merge_site l' e
  end.

Definition addSites (sites : sitemap) (replaceExisting : bool) (c : Controller) : Controller :=
  let c1 := if replaceExisting then with_sites [] c else c in
  let c2 := with_sites (fold_left merge_site sites (m_sites c1)) c1 in
  let mode := m_currentRouteMode c in
  let r := if replaceExisting then removeAllVpnSites mode (repo c2) else repo c2 in
  with_repo (addVpnSites mode sites r) c2.

(** [removeAt] of the first entry of a name, where there is one. *)
Fixpoint remove_first (hostname : string) (l : sitemap) : option sitemap :=
  match l with
  | [] => None
  | (h, i) :: l' =>
      if String.eqb h hostname then Some l' else cons (h, i) <$> remove_first hostname l'
  end.

Definition removeSite (hostname : string) (c : Controller) : bool * Controller :=
  match remove_first hostname (m_sites c) with
  | Some l => (true, with_repo (removeVpnSite (m_currentRouteMode c) hostname (repo c)) (with_sites l c))
  | None => (false, c)
  end.

Definition removeSites (c : Controller) : Controller :=
  with_repo (removeAllVpnSites (m_currentRouteMode c) (repo c)) (with_sites [] c).

Definition setRouteMode (mode : Z) (c : Controller) : Controller :=
  let c1 := fillSites (mkController (repo c) mode (m_sites c) (lookups c)) in
  with_repo (AppSettings.setRouteMode mode (repo c1)) c1.

Definition toggleSplitTunneling (enabled : bool) (c : Controller) : Controller :=
  with_repo (setSitesSplitTunnelingEnabled enabled (repo c)) c.

(** The loop of [processSiteAfterResolve]. *)
Fixpoint resolve_first (hostname ip : string) (l : sitemap) : option sitemap :=
  match l with
  | [] => None
  | (h, i) :: l' =>
      if String.eqb h hostname && String.eqb i EmptyString then Some ((h, ip) :: l')
      else cons (h, i) <$> resolve_first hostname ip l'
  end.

Definition processSiteAfterResolve (hostname ip : string) (c : Controller) : Controller :=
  match resolve_first hostname ip (m_sites c) with
  | Some l => store_site hostname ip (with_sites l c)
  | None => c
  end.

(** The answer of a lookup: addresses with whether they are IPv4. *)
Definition onHostResolved (hostname : string) (addresses : list (bool * string)) (c : Controller)
  : Controller :=
  match List.find fst addresses with
  | Some (_, ip) => processSiteAfterResolve hostname ip c
  | None => c
  end.

(** ** The preset *)

Definition topUpRussianDirectSites (c : Controller) : option Controller :=
  add_each russianDirectSites c.

Definition applyRussianDirectPreset (c : Controller) : option Controller :=
  match add_each russianDirectSites (setRouteMode VpnAllExceptSites c) with
  | Some c' => Some (toggleSplitTunneling true c')
  | None => None
  end.

(** The part of the constructor that seeds the list. *)
Definition seed (c : Controller) : option Controller :=
  let seededVersion := read ruDirectSeedVersion (repo c) in
  if seededVersion <? kRuDirectSeedVersion then
    let neverSeeded := (seededVersion =? 0) && negb (read ruDirectSeedDone (repo c)) in
    let seeded :=
      if neverSeeded then
        match applyRussianDirectPreset c with
        | Some c' => Some (with_repo (write ruDirectSeedVersion kRuDirectSeedVersion
                                        (write ruDirectSeedDone true (repo c'))) c')
        | None => None
        end
      else if m_currentRouteMode c =? VpnAllExceptSites then
        match topUpRussianDirectSites c with
        | Some c' => Some (with_repo (write ruDirectSeedVersion kRuDirectSeedVersion (repo c')) c')
        | None => None
        end
      else Some c in
    match seeded with
    | Some c' => Some (mkController (repo c') (read routeMode (repo c')) (m_sites c') (lookups c'))
    | None => None
    end
  else Some c.

(** The constructor. *)
Definition open_controller (s : AppSettings) : option Controller :=
  match seed (mkController s (read routeMode s) [] []) with
  | Some c =>
      Some (fillSites
        (if m_currentRouteMode c =? VpnAllSites
         then mkController (AppSettings.setRouteMode VpnOnlyForwardSites (repo c))
                VpnOnlyForwardSites (m_sites c) (lookups c)
         else c))
  | None => None
  end.

(** ** Import and export *)

Inductive ImportResult := ParseFailed | NotArray | Imported.

Fixpoint import_entries (l : list json) (sites : sitemap) : option sitemap :=
  match l with
  | [] => Some sites
  | v :: l' =>
      let o := toObject (Some v) in
      let hostname := chars (toString (obj_value o "hostname")) in
      let ip := chars (toString (obj_value o "ip")) in
      match normalizeHostname hostname with
      | None => None
      | Some h => import_entries l' (if validateHostname h then qmap_insert sites h ip else sites)
      end
  end.

(** [doc] is what the text holds, none where it is not JSON. *)
Definition importSitesFromJson (doc : option json) (replaceExisting : bool) (c : Controller)
  : option (ImportResult * Controller) :=
  match doc with
  | None => Some (ParseFailed, c)
  | Some (JArray l) =>
      match import_entries l [] with
      | Some sites => Some (Imported, addSites sites replaceExisting c)
      | None => None
      end
  | Some _ => Some (NotArray, c)
  end.

Definition site_json (e : string * string) : json :=
  JObject (insert_all [] [("hostname", Some (JString e.1)); ("ip", Some (JString e.2))]).

Definition exportSitesToJson (c : Controller) : json := JArray (map site_json (m_sites c)).

(** ** Specification *)

(** No site is stored twice under a mode. *)
Definition sites_ok (s : AppSettings) : Prop := forall mode, NoDup (map fst (vpnSites mode s)).

(** The list in memory is the stored one of the stored mode. *)
Definition synced (c : Controller) : Prop :=
  NoDup (map fst (m_sites c))
  /\ (forall k, qmap_value (m_sites c) k = qmap_value (vpnSites (m_currentRouteMode c) (repo c)) k)
  /\ m_currentRouteMode c = read routeMode (repo c) /\ sites_ok (repo c).

(** Every site in memory is stored. *)
Definition held (c : Controller) : Prop :=
  forall k, qmap_contains (m_sites c) k = true ->
            qmap_contains (vpnSites (m_currentRouteMode c) (repo c)) k = true.

(** The names that the import accepts as they are. *)
Definition normal (k : string) : bool :=
  bool_decide (normalizeHostname k = Some k) && validateHostname k.

(** An entry without an address for a site whose address is known. *)
Definition forgets (l : sitemap) (e : string * string) : bool :=
  String.eqb e.2 EmptyString && nonempty (default EmptyString (qmap_value l e.1)).

(** The sites of a list that are new have no address yet. *)
Definition topped_up (old : sitemap) (names : list string) (k : string) : option string :=
  match qmap_value old k with
  | Some ip => Some ip
  | None => if existsb (String.eqb k) names then Some EmptyString else None
  end.

(** What can happen to the controller; the addresses come from the resolver. *)
Inductive Event :=
| EAdd (hostname : string)
| ERemove (hostname : string)
| ERemoveAll
| EMode (mode : Z)
| EToggle (enabled : bool)
| EPreset
| EResolved (hostname : string) (addresses : list (bool * string))
| EImport (doc : option json) (replaceExisting : bool).

Definition handle (e : Event) (c : Controller) : option Controller :=
  match e with
  | EAdd h => snd <$> addSite h c
  | ERemove h => Some (removeSite h c).2
  | ERemoveAll => Some (removeSites c)
  | EMode m => Some (setRouteMode m c)
  | EToggle b => Some (toggleSplitTunneling b c)
  | EPreset => applyRussianDirectPreset c
  | EResolved h l => Some (onHostResolved h l c)
  | EImport doc r => snd <$> importSitesFromJson doc r c
  end.

(** An import that forgets no address. *)
Definition keeps_addresses (e : Event) (c : Controller) : Prop :=
  match e with
  | EImport (Some (JArray l)) false =>
      forall sites, import_entries l [] = Some sites -> existsb (forgets (m_sites c)) sites = false
  | _ => True
  end.

(** The controllers that a start and such events lead to. *)
Inductive reachable (s : AppSettings) : Controller -> Prop :=
| reach_open c : open_controller s = Some c -> reachable s c
| reach_event c e c' :
    reachable s c -> keeps_addresses e c -> handle e c = Some c' -> reachable s c'.

(** Settings without values, and a controller with a site under the mode that
    excepts sites. *)
Definition no_settings : AppSettings := mkAppSettings ∅ EmptyString [].
Definition one_site : Controller :=
  let s := setVpnSites VpnAllExceptSites [("example.org", "192.0.2.1")]
             (write routeMode VpnAllExceptSites no_settings) in
  mkController s VpnAllExceptSites [("example.org", "192.0.2.1")] [].

(** A name that is added as it is and then looked up. *)
Definition plain_name (h : string) : bool := normal h && negb (ipAddressWithSubnetRegExp h).

(** What adding names to the current mode does to the settings. *)
Definition grown (names : list string) (c c' : Controller) : Prop :=
  m_currentRouteMode c' = m_currentRouteMode c /\ held c'
  /\ (sites_ok (repo c) -> sites_ok (repo c'))
  /\ (forall k, qmap_value (vpnSites (m_currentRouteMode c) (repo c')) k
                = topped_up (vpnSites (m_currentRouteMode c) (repo c)) names k)
  /\ forall key, key <> key_of (sites_setting (m_currentRouteMode c)) ->
       store (repo c') !! key = store (repo c) !! key.

(** The settings after the names of the preset were added to the excepted sites. *)
Definition seeded (s : AppSettings) (enabled : bool) (c : Controller) : Prop :=
  m_currentRouteMode c = VpnAllExceptSites
  /\ read routeMode (repo c) = VpnAllExceptSites /\ sites_ok (repo c)
  /\ (forall k, qmap_value (vpnSites VpnAllExceptSites (repo c)) k
                = topped_up (vpnSites VpnAllExceptSites s) russianDirectSites k)
  /\ read ruDirectSeedVersion (repo c) = kRuDirectSeedVersion
  /\ read sitesSplitTunnelingEnabled (repo c) = enabled
  /\ forall mode, routeModeString mode <> routeModeString VpnAllExceptSites ->
       vpnSites mode (repo c) = vpnSites mode s.

(** Whether a start adds the names of the preset, and whether it is the first. *)
Definition first_launch (s : AppSettings) : bool :=
  (read ruDirectSeedVersion s =? 0) && negb (read ruDirectSeedDone s).
Definition seeds (s : AppSettings) : bool :=
  (read ruDirectSeedVersion s <? kRuDirectSeedVersion)
  && (first_launch s || (read routeMode s =? VpnAllExceptSites)).

(** ** Lemmas *)

#[local] Arguments russianDirectSites : simpl never.
#[local] Arguments addVpnSite : simpl never.
#[local] Arguments routeModeString : simpl never.

(** The fields of a controller. *)
Ltac fields :=
  cbn [repo m_currentRouteMode m_sites lookups with_repo with_sites fst snd] in *.

(** *** The stored sites *)

Lemma conf_key_inj (a b : string) : ("Conf/" ++ a)%string = ("Conf/" ++ b)%string -> a = b.
Proof. intros [= H]. exact H. Qed.

Lemma vpnSites_set (mode mode' : Z) (m : sitemap) (s : AppSettings) :
  vpnSites mode' (setVpnSites mode m s)
  = if String.eqb (routeModeString mode') (routeModeString mode) then m else vpnSites mode' s.
Proof.
  unfold vpnSites, setVpnSites. destruct (String.eqb_spec (routeModeString mode') (routeModeString mode)) as [E|E].
  - unfold read, write, sites_setting. cbn [key_of store store_set decode_as encode_as]. rewrite E.
    by rewrite lookup_insert_eq.
  - apply read_write_ne. intros Hk. by apply E, conf_key_inj.
Qed.

Lemma vpnSites_same (mode : Z) (m : sitemap) (s : AppSettings) :
  vpnSites mode (setVpnSites mode m s) = m.
Proof. by rewrite vpnSites_set, String.eqb_refl. Qed.

(** The keys of the sites are none of the other settings. *)
Lemma sites_key_ne (mode : Z) :
  key_of routeMode <> key_of (sites_setting mode)
  /\ key_of ruDirectSeedVersion <> key_of (sites_setting mode)
  /\ key_of ruDirectSeedDone <> key_of (sites_setting mode)
  /\ key_of sitesSplitTunnelingEnabled <> key_of (sites_setting mode).
Proof.
  unfold sites_setting, routeModeString. cbn [key_of].
  destruct (mode =? VpnAllSites), (mode =? VpnOnlyForwardSites), (mode =? VpnAllExceptSites); done.
Qed.

Lemma read_setVpnSites {A} (x : Setting A) (mode : Z) (m : sitemap) (s : AppSettings) :
  key_of x <> key_of (sites_setting mode) -> read x (setVpnSites mode m s) = read x s.
Proof. intros Hk. by apply read_write_ne. Qed.

Lemma vpnSites_write {A} (x : Setting A) (a : A) (mode : Z) (s : AppSettings) :
  key_of x <> key_of (sites_setting mode) -> vpnSites mode (write x a s) = vpnSites mode s.
Proof. intros Hk. apply read_write_ne. congruence. Qed.

Lemma vpnSites_signal (mode : Z) (e : Signal) (s : AppSettings) :
  vpnSites mode (signal e s) = vpnSites mode s.
Proof. done. Qed.

Lemma sites_ok_signal (e : Signal) (s : AppSettings) : sites_ok s -> sites_ok (signal e s).
Proof. done. Qed.

Lemma sites_ok_set (mode : Z) (m : sitemap) (s : AppSettings) :
  sites_ok s -> NoDup (map fst m) -> sites_ok (setVpnSites mode m s).
Proof. intros Hs Hm mode'. rewrite vpnSites_set. by destruct (String.eqb _ _). Qed.

Lemma sites_ok_write {A} (x : Setting A) (a : A) (s : AppSettings) :
  (forall mode, key_of x <> key_of (sites_setting mode)) -> sites_ok s -> sites_ok (write x a s).
Proof. intros Hk Hs mode. by rewrite vpnSites_write. Qed.

Lemma qmap_value_add_entry (m : sitemap) (e : string * string) (k : string) :
  qmap_value (add_site_entry m e) k = if String.eqb k e.1 then Some e.2 else qmap_value m k.
Proof.
  unfold add_site_entry. destruct (qmap_value m e.1) as [ip|] eqn:E; [|apply qmap_value_insert].
  destruct (String.eqb_spec ip e.2) as [->|]; [|apply qmap_value_insert].
  by destruct (String.eqb_spec k e.1) as [->|].
Qed.

Lemma add_entry_NoDup (m : sitemap) (e : string * string) :
  NoDup (map fst m) -> NoDup (map fst (add_site_entry m e)).
Proof. unfold add_site_entry. intros Hm. repeat case_match; auto using qmap_insert_NoDup. Qed.

(** What a list of entries does to the stored sites. *)
Lemma qmap_value_add_entries (sites m : sitemap) (k : string) :
  NoDup (map fst sites) ->
  qmap_value (fold_left add_site_entry sites m) k
  = match qmap_value sites k with Some ip => Some ip | None => qmap_value m k end.
Proof.
  revert m. induction sites as [|[h ip] sites IH]; intros m; [done|].
  cbn [map fst]. intros [Hh Hs]%NoDup_cons. cbn [fold_left qmap_value]. rewrite IH by done.
  rewrite qmap_value_add_entry. cbn [fst snd].
  destruct (String.eqb_spec k h) as [->|]; [by rewrite (qmap_value_None sites)|done].
Qed.

Lemma add_entries_NoDup (sites m : sitemap) :
  NoDup (map fst m) -> NoDup (map fst (fold_left add_site_entry sites m)).
Proof. revert m. induction sites; cbn; auto using add_entry_NoDup. Qed.

(** *** The sites in memory *)

Lemma qmap_value_merge (l : sitemap) (e : string * string) (k : string) :
  qmap_value (merge_site l e) k
  = if String.eqb k e.1
    then Some (if nonempty e.2 then e.2 else default EmptyString (qmap_value l k))
    else qmap_value l k.
Proof.
  destruct e as [h ip]. cbn [fst snd]. induction l as [|[a b] l IH]; cbn [merge_site qmap_value fst snd].
  - destruct (String.eqb k h); [|done]. unfold nonempty. by destruct (String.eqb_spec ip EmptyString) as [->|].
  - destruct (String.eqb_spec a h) as [->|Ha]; cbn [qmap_value].
    + by destruct (String.eqb k h).
    + destruct (String.eqb_spec k a) as [->|]; [|done]. by destruct (String.eqb_spec a h).
Qed.

Lemma merge_keys (l : sitemap) (e : string * string) (k : string) :
  k ∈ map fst (merge_site l e) <-> k = e.1 \/ k ∈ map fst l.
Proof.
  rewrite <- !qmap_contains_keys. unfold qmap_contains. rewrite qmap_value_merge.
  destruct (String.eqb_spec k e.1); naive_solver.
Qed.

Lemma merge_NoDup (l : sitemap) (e : string * string) :
  NoDup (map fst l) -> NoDup (map fst (merge_site l e)).
Proof.
  induction l as [|[a b] l IH]; cbn [merge_site map fst]; [intros; by apply NoDup_singleton|].
  intros [Ha Hl]%NoDup_cons. destruct (String.eqb_spec a e.1) as [->|Hne]; cbn [map fst].
  - by constructor.
  - constructor; [|by apply IH]. rewrite merge_keys. by intros [|].
Qed.

Lemma qmap_value_merges (sites l : sitemap) (k : string) :
  NoDup (map fst sites) ->
  qmap_value (fold_left merge_site sites l) k
  = match qmap_value sites k with
    | Some ip => Some (if nonempty ip then ip else default EmptyString (qmap_value l k))
    | None => qmap_value l k
    end.
Proof.
  revert l. induction sites as [|[h ip] sites IH]; intros l; [done|].
  cbn [map fst]. intros [Hh Hs]%NoDup_cons. cbn [fold_left qmap_value]. rewrite IH by done.
  rewrite qmap_value_merge. cbn [fst snd].
  destruct (String.eqb_spec k h) as [->|]; [by rewrite (qmap_value_None sites)|done].
Qed.

Lemma merges_NoDup (sites l : sitemap) :
  NoDup (map fst l) -> NoDup (map fst (fold_left merge_site sites l)).
Proof. revert l. induction sites; cbn; auto using merge_NoDup. Qed.

Lemma qmap_value_app (l : sitemap) (h ip k : string) :
  qmap_value (l ++ [(h, ip)]) k
  = match qmap_value l k with Some v => Some v | None => if String.eqb k h then Some ip else None end.
Proof. induction l as [|[a b] l IH]; cbn; [done|]. by destruct (String.eqb k a). Qed.

Lemma scan_not_found (h ip : string) (l : sitemap) :
  qmap_contains l h = false -> scan_sites h ip l = NotFound.
Proof.
  unfold qmap_contains. induction l as [|[a b] l IH]; cbn; [done|].
  rewrite (String.eqb_sym a h). destruct (String.eqb h a); [done|]. intros Hl. by rewrite IH.
Qed.

Lemma remove_first_spec (h : string) (l : sitemap) :
  NoDup (map fst l) ->
  match remove_first h l with
  | Some l' => qmap_contains l h = true /\ l' = qmap_remove l h
  | None => qmap_contains l h = false
  end.
Proof.
  unfold qmap_contains, qmap_remove. induction l as [|[a b] l IH]; cbn; [done|].
  intros [Ha Hl]%NoDup_cons. rewrite (String.eqb_sym a h).
  destruct (String.eqb_spec h a) as [->|Hne]; cbn [negb].
  - split; [done|]. symmetry. apply forallb_filter_id, forallb_forall. intros [k v] Hin.
    apply negb_true_iff, String.eqb_neq. cbn. intros <-. apply Ha.
    by apply list_elem_of_In, in_map_iff; exists (a, v).
  - specialize (IH Hl). destruct (remove_first h l); cbn; [|done]. by destruct IH as [? ->].
Qed.

Lemma resolve_first_spec (h ip : string) (l l' : sitemap) :
  NoDup (map fst l) -> resolve_first h ip l = Some l' ->
  qmap_value l h = Some EmptyString /\ map fst l' = map fst l
  /\ forall k, qmap_value l' k = if String.eqb k h then Some ip else qmap_value l k.
Proof.
  revert l'. induction l as [|[a b] l IH]; cbn; intros l'; [done|]. intros [Ha Hl]%NoDup_cons.
  rewrite (String.eqb_sym a h). destruct (String.eqb_spec h a) as [->|Hne]; cbn [andb].
  - destruct (String.eqb_spec b EmptyString) as [->|Hb].
    + intros [= <-]. split_and!; [done..|]. intros k. cbn. by destruct (String.eqb k a).
    + intros (l1 & Hr & ->)%fmap_Some. destruct (IH l1 Hl Hr) as [Hv _].
      apply qmap_value_elem in Hv. destruct Ha.
      apply list_elem_of_In, in_map_iff. exists (a, EmptyString). split; [done | by apply list_elem_of_In].
  - intros (l1 & Hr & ->)%fmap_Some. destruct (IH l1 Hl Hr) as (Hv & Hf & Hk).
    split_and!; [done | cbn; by rewrite Hf |]. intros k. cbn. rewrite Hk.
    destruct (String.eqb_spec k a) as [->|]; [|done]. by destruct (String.eqb_spec a h) as [->|].
Qed.

(** *** Operations on the stored sites *)

Lemma addVpnSite_sites (mode : Z) (h ip : string) (s : AppSettings) :
  let s' := (addVpnSite mode h ip s).2 in
  let m := vpnSites mode s in
  s' = s /\ qmap_contains m h = true /\ ip = EmptyString
  \/ s' = signal (SitesChanged mode) (setVpnSites mode (qmap_insert m h ip) s)
     /\ (qmap_contains m h = false \/ ip <> EmptyString).
Proof.
  unfold addVpnSite. destruct (qmap_contains (vpnSites mode s) h); cbn [andb]; [|by right; split; [|left]].
  destruct (String.eqb_spec ip EmptyString); [by left | right]. split; [done | by right].
Qed.

(** A site that is added in memory and stored. *)
Lemma store_site_synced (h ip : string) (l : sitemap) (c : Controller) :
  synced c -> NoDup (map fst l) ->
  (forall k, qmap_value l k = if String.eqb k h then Some ip else qmap_value (m_sites c) k) ->
  (qmap_contains (m_sites c) h = true -> qmap_value (m_sites c) h = Some EmptyString) ->
  synced (store_site h ip (with_sites l c)).
Proof.
  intros (Hn & Hv & Hm & Hok) Hl Hk Hold. unfold synced, store_site. fields.
  assert (Hc : qmap_contains (m_sites c) h
               = qmap_contains (vpnSites (m_currentRouteMode c) (repo c)) h)
    by (unfold qmap_contains; by rewrite Hv).
  destruct (sites_key_ne (m_currentRouteMode c)) as [Hr _].
  destruct (addVpnSite_sites (m_currentRouteMode c) h ip (repo c)) as [(-> & Hin & ->) | [-> Hnew]].
  - split_and!; [done | | done | done]. intros k. rewrite Hk, <- Hv.
    destruct (String.eqb_spec k h) as [->|]; [|done]. rewrite Hold by by rewrite Hc. done.
  - split_and!; [done | | | ].
    + intros k. by rewrite Hk, vpnSites_signal, vpnSites_same, qmap_value_insert, Hv.
    + by rewrite read_signal, read_setVpnSites.
    + apply sites_ok_signal, sites_ok_set; [done | by apply qmap_insert_NoDup].
Qed.

Lemma synced_held (c : Controller) : synced c -> held c.
Proof. intros (_ & Hv & _) k. unfold qmap_contains. by rewrite Hv. Qed.

Lemma addSiteInternal_held (h : string) (c : Controller) :
  held c ->
  addSiteInternal h EmptyString c
  = if qmap_contains (vpnSites (m_currentRouteMode c) (repo c)) h then (false, c)
    else (true, store_site h EmptyString (with_sites (m_sites c ++ [(h, EmptyString)]) c)).
Proof.
  intros Hc. unfold addSiteInternal. rewrite String.eqb_refl, andb_true_r.
  destruct (qmap_contains (vpnSites _ _) h) eqn:E; [done|]. rewrite scan_not_found; [done|].
  destruct (qmap_contains (m_sites c) h) eqn:E'; [|done]. by rewrite (Hc _ E') in E.
Qed.

(** *** Operations keep the lists in step *)

Lemma addSiteInternal_synced (h : string) (c : Controller) :
  synced c -> synced (addSiteInternal h EmptyString c).2.
Proof.
  intros Hc. rewrite addSiteInternal_held by by apply synced_held.
  destruct Hc as (Hn & Hv & Hc') eqn:E. clear E.
  destruct (qmap_contains (vpnSites _ _) h) eqn:E; [done|].
  assert (E' : qmap_contains (m_sites c) h = false) by (unfold qmap_contains in *; by rewrite Hv).
  apply store_site_synced; [done | | | by rewrite E'].
  - rewrite map_app. apply NoDup_app. split_and!; [done | | by apply NoDup_singleton].
    intros k Hk Hin%list_elem_of_singleton. cbn in Hin. subst k. by apply qmap_contains_false in E'.
  - intros k. rewrite qmap_value_app. destruct (String.eqb_spec k h) as [->|].
    + unfold qmap_contains in E'. by destruct (qmap_value (m_sites c) h).
    + by destruct (qmap_value (m_sites c) k).
Qed.

Lemma addSite_synced (h : string) (c c' : Controller) (b : bool) :
  synced c -> addSite h c = Some (b, c') -> synced c'.
Proof.
  intros Hc. unfold addSite. destruct (normalizeHostname h) as [n|]; [|done].
  assert (Hi := addSiteInternal_synced n c Hc). unfold processSite.
  destruct (addSiteInternal n EmptyString c) as [added c1]. cbn [snd] in *.
  destruct (validateHostname n); cbn [negb]; [|by intros [= _ <-]].
  destruct (ipAddressWithSubnetRegExp n); [by intros [= _ <-]|].
  by destruct added; intros [= _ <-].
Qed.

Lemma add_each_synced (l : list string) (c c' : Controller) :
  synced c -> add_each l c = Some c' -> synced c'.
Proof.
  revert c. induction l as [|h l IH]; intros c Hc; cbn [add_each]; [by intros [= <-]|].
  destruct (addSite h c) as [[b c1]|] eqn:E; [|done]. apply IH. by apply (addSite_synced h c c1 b).
Qed.

Lemma removeSite_synced (h : string) (c : Controller) : synced c -> synced (removeSite h c).2.
Proof.
  intros (Hn & Hv & Hm & Hok). unfold removeSite.
  assert (Hr := remove_first_spec h (m_sites c) Hn).
  destruct (remove_first h (m_sites c)) as [l|]; [|done]. destruct Hr as [Hin ->].
  unfold removeVpnSite. fields.
  assert (Hs : qmap_contains (vpnSites (m_currentRouteMode c) (repo c)) h = true)
    by (unfold qmap_contains in *; by rewrite <- Hv).
  rewrite Hs. unfold synced. fields. destruct (sites_key_ne (m_currentRouteMode c)) as [Hk _].
  split_and!.
  - by apply qmap_remove_NoDup.
  - intros k. by rewrite vpnSites_signal, vpnSites_same, !qmap_value_remove, Hv.
  - by rewrite read_signal, read_setVpnSites.
  - apply sites_ok_signal, sites_ok_set; [done | by apply qmap_remove_NoDup].
Qed.

Lemma removeSites_synced (c : Controller) : synced c -> synced (removeSites c).
Proof.
  intros (_ & _ & Hm & Hok). unfold removeSites, removeAllVpnSites, synced. fields.
  destruct (sites_key_ne (m_currentRouteMode c)) as [Hk _].
  split_and!; [constructor | | by rewrite read_signal, read_setVpnSites |].
  - intros k. by rewrite vpnSites_signal, vpnSites_same.
  - by apply sites_ok_signal, sites_ok_set; [|constructor].
Qed.

Lemma setRouteMode_synced (mode : Z) (c : Controller) :
  sites_ok (repo c) -> synced (setRouteMode mode c).
Proof.
  intros Hok. unfold setRouteMode, fillSites, AppSettings.setRouteMode, synced. fields.
  assert (Hk : forall m, key_of routeMode <> key_of (sites_setting m)) by (intros m; apply sites_key_ne).
  split_and!; [apply Hok | | | ].
  - intros k. by rewrite vpnSites_signal, vpnSites_write.
  - by rewrite read_signal, (read_write routeMode).
  - by apply sites_ok_signal, sites_ok_write.
Qed.

(** A setting that has nothing to do with the sites. *)
Lemma with_write_synced {A} (x : Setting A) (a : A) (c : Controller) :
  key_of x <> key_of routeMode -> (forall mode, key_of x <> key_of (sites_setting mode)) ->
  synced c -> synced (with_repo (write x a (repo c)) c).
Proof.
  intros Hr Hk (Hn & Hv & Hm & Hok). unfold synced. fields.
  split_and!; [done | | by rewrite read_write_ne by congruence | by apply sites_ok_write].
  intros k. by rewrite vpnSites_write.
Qed.

Lemma toggle_synced (b : bool) (c : Controller) : synced c -> synced (toggleSplitTunneling b c).
Proof.
  apply (with_write_synced sitesSplitTunnelingEnabled b c); [done|]. intros mode. apply sites_key_ne.
Qed.

Lemma resolved_synced (h : string) (addresses : list (bool * string)) (c : Controller) :
  synced c -> synced (onHostResolved h addresses c).
Proof.
  intros Hc. unfold onHostResolved. destruct (List.find fst addresses) as [[_b ip]|]; [|done].
  unfold processSiteAfterResolve. destruct (resolve_first h ip (m_sites c)) as [l|] eqn:E; [|done].
  destruct (resolve_first_spec _ _ _ _ (proj1 Hc) E) as (Hv & Hf & Hk).
  apply store_site_synced; [done | by rewrite Hf; apply Hc | done | done].
Qed.

(** The two lists after an addition of many, at a site. *)
Lemma addSites_values (sites : sitemap) (c : Controller) (k : string) :
  NoDup (map fst sites) -> synced c ->
  let c' := addSites sites false c in
  qmap_value (m_sites c') k = qmap_value (vpnSites (m_currentRouteMode c') (repo c')) k
  <-> forall ip, qmap_value sites k = Some ip -> forgets (m_sites c) (k, ip) = false.
Proof.
  intros Hs (_ & Hv & _). unfold addSites, addVpnSites. fields.
  rewrite vpnSites_signal, vpnSites_same, qmap_value_merges, qmap_value_add_entries by done.
  unfold forgets. cbn [fst snd].
  destruct (qmap_value sites k) as [ip|]; [|by rewrite Hv]. unfold nonempty.
  destruct (String.eqb_spec ip EmptyString) as [->|Hip]; cbn [andb negb].
  - destruct (String.eqb_spec (default EmptyString (qmap_value (m_sites c) k)) EmptyString) as [E|E].
    + split; [by intros _ ? [= <-] | by rewrite E].
    + split; [intros [= Hd]; done | intros Hf; by specialize (Hf _ eq_refl)].
  - split; [intros _ ? [= <-]; by destruct (String.eqb_spec ip EmptyString) | done].
Qed.

(** What an addition of many keeps, whatever it adds. *)
Lemma addSites_rest (sites : sitemap) (r : bool) (c : Controller) :
  synced c ->
  let c' := addSites sites r c in
  NoDup (map fst (m_sites c')) /\ m_currentRouteMode c' = read routeMode (repo c') /\ sites_ok (repo c').
Proof.
  intros (Hn & _ & Hm & Hok). unfold addSites, addVpnSites, removeAllVpnSites.
  destruct (sites_key_ne (m_currentRouteMode c)) as [Hk _].
  destruct r; fields; split_and!.
  - apply merges_NoDup. constructor.
  - by rewrite read_signal, read_setVpnSites, read_signal, read_setVpnSites.
  - apply sites_ok_signal, sites_ok_set.
    + by apply sites_ok_signal, sites_ok_set; [|constructor].
    + apply add_entries_NoDup. rewrite vpnSites_signal, vpnSites_same. constructor.
  - by apply merges_NoDup.
  - by rewrite read_signal, read_setVpnSites.
  - apply sites_ok_signal, sites_ok_set; [done|]. apply add_entries_NoDup, Hok.
Qed.

Lemma qmap_value_NoDup (l : sitemap) (e : string * string) :
  NoDup (map fst l) -> In e l -> qmap_value l e.1 = Some e.2.
Proof.
  induction l as [|[a b] l IH]; cbn; [done|]. intros [Ha Hl]%NoDup_cons [<-|Hin].
  - cbn. by rewrite String.eqb_refl.
  - destruct (String.eqb_spec e.1 a) as [<-|]; [|by apply IH].
    destruct Ha. by apply list_elem_of_In, in_map.
Qed.

Lemma forgets_none (sites l : sitemap) :
  NoDup (map fst sites) ->
  existsb (forgets l) sites = false
  <-> forall k ip, qmap_value sites k = Some ip -> forgets l (k, ip) = false.
Proof.
  intros Hs. split.
  - rewrite existsb_false, Forall_forall. intros Hf k ip Hk%qmap_value_elem. by apply Hf.
  - intros Hf. apply not_true_is_false. intros (e & Hin & He)%existsb_exists.
    rewrite (surjective_pairing e) in He. rewrite Hf in He; [done | by apply qmap_value_NoDup].
Qed.

Lemma addSites_kept (sites : sitemap) (c : Controller) :
  NoDup (map fst sites) -> synced c ->
  synced (addSites sites false c) <-> existsb (forgets (m_sites c)) sites = false.
Proof.
  intros Hs Hc. rewrite forgets_none by done. assert (Hr := addSites_rest sites false c Hc).
  unfold synced at 1. split.
  - intros (_ & Hv & _) k. by apply addSites_values.
  - intros Hf. split_and!; try apply Hr. intros k. apply addSites_values; [done | done | apply Hf].
Qed.

Lemma addSites_replaced (sites : sitemap) (c : Controller) :
  NoDup (map fst sites) -> synced c ->
  synced (addSites sites true c)
  /\ forall k, qmap_value (m_sites (addSites sites true c)) k = qmap_value sites k.
Proof.
  intros Hs Hc. assert (Hr := addSites_rest sites true c Hc).
  assert (Hv : forall k, qmap_value (m_sites (addSites sites true c)) k = qmap_value sites k).
  { intros k. unfold addSites. fields. rewrite qmap_value_merges by done. cbn [qmap_value default].
    destruct (qmap_value sites k) as [ip|]; [|done]. unfold nonempty.
    by destruct (String.eqb_spec ip EmptyString) as [->|]. }
  split; [|done]. split_and!; try apply Hr. intros k. rewrite Hv. unfold addSites, addVpnSites. fields.
  rewrite vpnSites_signal, vpnSites_same, qmap_value_add_entries by done.
  unfold removeAllVpnSites. rewrite vpnSites_signal, vpnSites_same.
  by destruct (qmap_value sites k).
Qed.

Lemma import_NoDup (l : list json) (m sites : sitemap) :
  NoDup (map fst m) -> import_entries l m = Some sites -> NoDup (map fst sites).
Proof.
  revert m. induction l as [|v l IH]; intros m Hm; cbn [import_entries]; [by intros [= <-]|].
  destruct (normalizeHostname _) as [h|]; [|done]. apply IH.
  destruct (validateHostname h); auto using qmap_insert_NoDup.
Qed.

Lemma preset_synced (c c' : Controller) :
  synced c -> applyRussianDirectPreset c = Some c' -> synced c'.
Proof.
  intros (_ & _ & _ & Hok). unfold applyRussianDirectPreset.
  destruct (add_each _ _) as [c1|] eqn:E; [|done]. intros [= <-]. apply toggle_synced.
  apply (add_each_synced _ _ _ (setRouteMode_synced VpnAllExceptSites c Hok) E).
Qed.

Lemma handle_synced (e : Event) (c c' : Controller) :
  synced c -> keeps_addresses e c -> handle e c = Some c' -> synced c'.
Proof.
  intros Hc He Hh. destruct e as [h | h | | m | b | | h l | doc r]; cbn [handle] in Hh.
  - apply fmap_Some in Hh as ([b c1] & Ha & ->). by apply (addSite_synced h c c1 b).
  - injection Hh as <-. by apply removeSite_synced.
  - injection Hh as <-. by apply removeSites_synced.
  - injection Hh as <-. apply setRouteMode_synced, Hc.
  - injection Hh as <-. by apply toggle_synced.
  - by apply (preset_synced c).
  - injection Hh as <-. by apply resolved_synced.
  - apply fmap_Some in Hh as ([w c1] & Hi & ->). cbn [snd].
    destruct doc as [[| | | | l |]|]; cbn [importSitesFromJson] in Hi; try (by injection Hi as _ <-).
    destruct (import_entries l []) as [sites|] eqn:El; [|done]. injection Hi as _ <-.
    assert (Hs : NoDup (map fst sites)) by (apply (import_NoDup l [] sites); [constructor | done]).
    destruct r; [by apply addSites_replaced|]. apply addSites_kept; [done | done|]. by apply He.
Qed.

(** *** Seeding *)

Lemma addSite_plain (h : string) (c : Controller) :
  plain_name h = true -> held c -> exists b c', addSite h c = Some (b, c') /\ grown [h] c c'.
Proof.
  unfold plain_name, normal. intros [[Hn%bool_decide_eq_true Hv]%andb_true_iff Hr%negb_true_iff]%andb_true_iff Hc.
  unfold addSite. rewrite Hn, Hv, Hr. cbn [negb]. rewrite addSiteInternal_held by done.
  destruct (qmap_contains (vpnSites _ _) h) eqn:E.
  - exists false, c. split; [done|]. split_and!; try done. intros k. unfold topped_up. cbn [existsb].
    rewrite orb_false_r. destruct (qmap_value (vpnSites _ _) k) eqn:Ek; [done|].
    destruct (String.eqb_spec k h) as [->|]; [|done]. unfold qmap_contains in E. by rewrite Ek in E.
  - exists true, (lookupHost h (store_site h EmptyString (with_sites (m_sites c ++ [(h, EmptyString)]) c))).
    split; [done|]. unfold grown, held, lookupHost, store_site. fields.
    destruct (addVpnSite_sites (m_currentRouteMode c) h EmptyString (repo c)) as [(_ & E' & _)|[-> _]];
      [by rewrite E in E'|].
    split_and!; [done | | | | ].
    + intros k. rewrite vpnSites_signal, vpnSites_same, !qmap_contains_keys, qmap_insert_keys, map_app.
      cbn [map fst]. rewrite elem_of_app, list_elem_of_singleton. intros [Hk|Hk]; [right | by left].
      by apply qmap_contains_keys, Hc, qmap_contains_keys.
    + intros Hok. apply sites_ok_signal, sites_ok_set; [done | by apply qmap_insert_NoDup].
    + intros k. rewrite vpnSites_signal, vpnSites_same, qmap_value_insert. unfold topped_up. cbn [existsb].
      rewrite orb_false_r. destruct (String.eqb_spec k h) as [->|].
      * unfold qmap_contains in E. by destruct (qmap_value (vpnSites _ _) h).
      * by destruct (qmap_value (vpnSites _ _) k).
    + intros key Hk. by apply lookup_insert_ne.
Qed.

Lemma add_each_grown (names : list string) (c : Controller) :
  forallb plain_name names = true -> held c ->
  exists c', add_each names c = Some c' /\ grown names c c'.
Proof.
  revert c. induction names as [|h names IH]; intros c; cbn [forallb add_each].
  - intros _ Hc. exists c. split; [done|]. split_and!; try done. intros k. unfold topped_up.
    by destruct (qmap_value (vpnSites _ _) k).
  - intros [Hh Hn]%andb_true_iff Hc. destruct (addSite_plain h c Hh Hc) as (b & c1 & -> & Hg).
    destruct Hg as (Hm & Hc1 & Hok & Hv & Hk). destruct (IH c1 Hn Hc1) as (c2 & -> & Hm2 & Hc2 & Hok2 & Hv2 & Hk2).
    exists c2. split; [done|]. rewrite Hm in *. split_and!; [done | done | auto | |].
    + intros k. rewrite Hv2. unfold topped_up at 1. rewrite Hv. unfold topped_up. cbn [existsb].
      rewrite orb_false_r. destruct (qmap_value (vpnSites _ (repo c)) k); [done|].
      by destruct (String.eqb k h).
    + intros key Hkey. by rewrite Hk2, Hk.
Qed.

Lemma russian_plain : forallb plain_name russianDirectSites = true.
Proof. by vm_compute. Qed.

Lemma read_store {A} (x : Setting A) (s s' : AppSettings) :
  store s' !! key_of x = store s !! key_of x -> read x s' = read x s.
Proof. unfold read. by intros ->. Qed.

Lemma vpnSites_store (mode : Z) (s s' : AppSettings) :
  store s' !! key_of (sites_setting mode) = store s !! key_of (sites_setting mode) ->
  vpnSites mode s' = vpnSites mode s.
Proof. apply read_store. Qed.

Lemma sites_key_other (mode mode' : Z) :
  routeModeString mode <> routeModeString mode' ->
  key_of (sites_setting mode) <> key_of (sites_setting mode').
Proof. intros Hm Hk. by apply Hm, conf_key_inj. Qed.

(** The names of the preset were added to the excepted sites, and then settings
    were written that have nothing to do with the sites. *)
Lemma grown_seeded (c c' : Controller) (r : AppSettings) :
  m_currentRouteMode c = VpnAllExceptSites -> read routeMode (repo c) = VpnAllExceptSites ->
  sites_ok (repo c) -> grown russianDirectSites c c' ->
  (forall mode, vpnSites mode r = vpnSites mode (repo c')) ->
  read routeMode r = read routeMode (repo c') ->
  read ruDirectSeedVersion r = kRuDirectSeedVersion ->
  seeded (repo c) (read sitesSplitTunnelingEnabled r) (with_repo r c').
Proof.
  intros Hm Hr Hok (Hm' & _ & Hok' & Hv & Hk) Hs Hrr Hver. rewrite Hm in *. unfold seeded. fields.
  split_and!; [done | | | | done | done | ].
  - rewrite Hrr, <- Hr. apply read_store, Hk, sites_key_ne.
  - intros mode. rewrite Hs. by apply Hok'.
  - intros k. by rewrite Hs, Hv.
  - intros mode Hmode. rewrite Hs. by apply vpnSites_store, Hk, sites_key_other.
Qed.

Lemma seeded_from (s s' : AppSettings) (b : bool) (c : Controller) :
  (forall mode, vpnSites mode s' = vpnSites mode s) -> seeded s' b c -> seeded s b c.
Proof.
  intros Hs (H1 & H2 & H3 & H4 & H5 & H6 & H7). split_and!; try done.
  - intros k. by rewrite H4, Hs.
  - intros mode Hm. by rewrite H7, Hs.
Qed.

Lemma seed_first (s : AppSettings) :
  sites_ok s -> read ruDirectSeedVersion s = 0 -> read ruDirectSeedDone s = false ->
  exists c, seed (mkController s (read routeMode s) [] []) = Some c /\ seeded s true c.
Proof.
  intros Hok Hver Hdone. unfold seed. fields. rewrite Hver, Hdone. cbn [Z.eqb negb andb Z.ltb].
  unfold applyRussianDirectPreset.
  assert (Hs := setRouteMode_synced VpnAllExceptSites (mkController s (read routeMode s) [] []) Hok).
  set (c0 := setRouteMode VpnAllExceptSites _) in *.
  destruct (add_each_grown _ c0 russian_plain (synced_held _ Hs)) as (c1 & -> & Hg).
  assert (Hr : read routeMode (repo c0) = VpnAllExceptSites) by apply (read_write routeMode).
  assert (Hc := grown_seeded c0 c1
    (write ruDirectSeedVersion kRuDirectSeedVersion
       (write ruDirectSeedDone true (setSitesSplitTunnelingEnabled true (repo c1))))
    eq_refl Hr (proj2 (proj2 (proj2 Hs))) Hg).
  destruct Hc as (H1 & H2 & H3 & H4 & H5 & H6 & H7).
  - intros mode. destruct (sites_key_ne mode) as (_ & K2 & K3 & K4).
    rewrite !vpnSites_write by done. unfold setSitesSplitTunnelingEnabled.
    by rewrite vpnSites_signal, vpnSites_write.
  - rewrite !read_write_ne by done. unfold setSitesSplitTunnelingEnabled.
    by rewrite read_signal, read_write_ne.
  - apply (read_write ruDirectSeedVersion).
  - eexists. split; [done|]. apply (seeded_from s (repo c0)).
    + intros mode. apply vpnSites_write, sites_key_ne.
    + unfold toggleSplitTunneling, seeded. fields. rewrite H2. split_and!; try done.
      rewrite !read_write_ne by done. apply (read_write sitesSplitTunnelingEnabled).
Qed.

Lemma seed_upgrade (s : AppSettings) :
  sites_ok s -> read ruDirectSeedVersion s < kRuDirectSeedVersion ->
  (read ruDirectSeedVersion s =? 0) && negb (read ruDirectSeedDone s) = false ->
  read routeMode s = VpnAllExceptSites ->
  exists c, seed (mkController s (read routeMode s) [] []) = Some c
            /\ seeded s (read sitesSplitTunnelingEnabled s) c.
Proof.
  intros Hok Hver Hfirst Hr. unfold seed. fields. rewrite Hfirst, Hr. cbn [Z.eqb Pos.eqb].
  rewrite (proj2 (Z.ltb_lt _ _) Hver). unfold topUpRussianDirectSites.
  set (c0 := mkController s VpnAllExceptSites [] []).
  destruct (add_each_grown _ c0 russian_plain) as (c1 & -> & Hg); [done|].
  assert (Hc := grown_seeded c0 c1 (write ruDirectSeedVersion kRuDirectSeedVersion (repo c1))
                  eq_refl Hr Hok Hg).
  destruct Hc as (H1 & H2 & H3 & H4 & H5 & H6 & H7).
  - intros mode. apply vpnSites_write, sites_key_ne.
  - by rewrite read_write_ne.
  - apply (read_write ruDirectSeedVersion).
  - eexists. split; [done|]. unfold seeded. fields. rewrite H2. split_and!; try done.
    rewrite read_write_ne by done. apply read_store. apply Hg, sites_key_ne.
Qed.

(** Otherwise nothing is added. *)
Lemma seed_idle (s : AppSettings) :
  (read ruDirectSeedVersion s <? kRuDirectSeedVersion)
  && ((read ruDirectSeedVersion s =? 0) && negb (read ruDirectSeedDone s)
      || (read routeMode s =? VpnAllExceptSites)) = false ->
  seed (mkController s (read routeMode s) [] []) = Some (mkController s (read routeMode s) [] []).
Proof.
  unfold seed. fields. destruct (_ <? _); [|done]. cbn [andb]. intros [-> ->]%orb_false_iff. done.
Qed.

Lemma open_seeded (s : AppSettings) :
  sites_ok s -> seeds s = true ->
  exists c, open_controller s = Some c
    /\ seeded s (first_launch s || read sitesSplitTunnelingEnabled s) c
    /\ m_sites c = vpnSites VpnAllExceptSites (repo c).
Proof.
  intros Hok Hs. assert (Hseed : exists c, seed (mkController s (read routeMode s) [] []) = Some c
    /\ seeded s (first_launch s || read sitesSplitTunnelingEnabled s) c).
  { unfold seeds in Hs. apply andb_true_iff in Hs as [Hver%Z.ltb_lt Hs]. unfold first_launch in *.
    destruct ((read ruDirectSeedVersion s =? 0) && negb (read ruDirectSeedDone s)) eqn:E.
    - apply andb_true_iff in E as [Ev%Z.eqb_eq Ed%negb_true_iff]. by apply seed_first.
    - cbn [orb] in *. apply seed_upgrade; [done.. | by apply Z.eqb_eq]. }
  destruct Hseed as (c & Hc & Hsd). unfold open_controller. rewrite Hc.
  rewrite (proj1 Hsd). change (VpnAllExceptSites =? VpnAllSites) with false. eexists. split; [done|]. unfold fillSites. fields.
  rewrite (proj1 Hsd). by split.
Qed.

Lemma open_idle (s : AppSettings) :
  seeds s = false ->
  open_controller s
  = Some (fillSites (if read routeMode s =? VpnAllSites
      then mkController (AppSettings.setRouteMode VpnOnlyForwardSites s) VpnOnlyForwardSites [] []
      else mkController s (read routeMode s) [] [])).
Proof. intros Hs. unfold open_controller. by rewrite seed_idle. Qed.

Lemma fill_synced (c : Controller) :
  m_currentRouteMode c = read routeMode (repo c) -> sites_ok (repo c) -> synced (fillSites c).
Proof. intros Hm Hok. unfold synced, fillSites. fields. split_and!; auto. Qed.

(** A start that has nothing to do changes nothing. *)
Lemma open_again (s : AppSettings) :
  seeds s = false -> read routeMode s <> VpnAllSites ->
  exists c, open_controller s = Some c /\ repo c = s /\ lookups c = [].
Proof.
  intros Hs Hm. rewrite open_idle by done. apply Z.eqb_neq in Hm. rewrite Hm. by eexists.
Qed.

Lemma seeded_no_seeds (s : AppSettings) :
  read ruDirectSeedVersion s = kRuDirectSeedVersion -> seeds s = false.
Proof. intros Hv. unfold seeds. by rewrite Hv. Qed.

(** A start that only replaces the old mode. *)
Lemma mode_seeds (s : AppSettings) :
  seeds s = false -> read routeMode s = VpnAllSites ->
  seeds (AppSettings.setRouteMode VpnOnlyForwardSites s) = false.
Proof.
  unfold seeds, first_launch, AppSettings.setRouteMode. intros Hs Hr.
  rewrite !read_signal, (read_write routeMode), !(read_write_ne _ routeMode) by done.
  rewrite Hr in Hs. done.
Qed.

(** The list in memory of a new controller is the stored one. *)
Lemma open_synced (s : AppSettings) (c : Controller) :
  sites_ok s -> open_controller s = Some c -> synced c.
Proof.
  intros Hok Hc. destruct (seeds s) eqn:E.
  - destruct (open_seeded s Hok E) as (c' & Hc' & (H1 & H2 & H3 & _) & Hm).
    rewrite Hc in Hc'. injection Hc' as <-. unfold synced. rewrite H1, H2, Hm. split_and!; auto.
  - rewrite open_idle in Hc by done. apply (inj Some) in Hc as <-. apply fill_synced.
    + destruct (read routeMode s =? VpnAllSites); [|done]. symmetry. apply (read_write routeMode).
    + destruct (read routeMode s =? VpnAllSites); [|done].
      apply sites_ok_signal, sites_ok_write; [intros mode; apply sites_key_ne | done].
Qed.

(** *** Names *)

Lemma prefix_count (c : ascii) (w s : string) :
  String.prefix w s = true -> (count_char c w <= count_char c s)%nat.
Proof.
  revert s. induction w as [|a w IH]; intros [|b s]; cbn [String.prefix count_char]; [lia | lia | done |].
  destruct (ascii_dec a b) as [->|]; [|done]. intros Hp. specialize (IH s Hp). lia.
Qed.

Lemma contains_count (c : ascii) (w s : string) :
  contains_text w s = true -> (count_char c w <= count_char c s)%nat.
Proof.
  induction s as [|b s IH]; cbn [contains_text]; intros [Hp|Hs]%orb_true_iff; try done;
    [by apply prefix_count.. |]. cbn [count_char]. specialize (IH Hs). lia.
Qed.

Lemma remove_text_absent (w s : string) : contains_text w s = false -> remove_text w 0 s = s.
Proof.
  induction s as [|b s IH]; [done|]. cbn [contains_text remove_text].
  intros [Hp Hs]%orb_false_iff. by rewrite Hp, IH.
Qed.

(** A text with at most one slash names no scheme. *)
Lemma remove_text_one_slash (w s : string) :
  (count_char "/" s < count_char "/" w)%nat -> remove_text w 0 s = s.
Proof.
  intros Hs. apply remove_text_absent, not_true_is_false. intros Hc%(contains_count "/"). lia.
Qed.

Lemma normalize_one_slash (s : string) :
  (count_char "/" s < 2)%nat -> normalizeHostname s = head (List.filter nonempty (split_on "/" s)).
Proof.
  intros Hs. unfold normalizeHostname. rewrite (remove_text_one_slash "https://") by (cbn; lia).
  rewrite (remove_text_one_slash "http://") by (cbn; lia).
  by rewrite (remove_text_one_slash "ftp://") by (cbn; lia).
Qed.

Lemma count_char_none (c : ascii) (s : string) : string_has c s = false -> count_char c s = 0%nat.
Proof.
  induction s as [|d s IH]; [done|]. cbn [string_has count_char].
  intros [Hd Hs]%orb_false_iff. by rewrite Hd, IH.
Qed.

Lemma split_on_parts (c : ascii) (s w : string) : In w (split_on c s) -> string_has c w = false.
Proof.
  revert w. induction s as [|d s IH]; intros w; [by intros [<-|[]]|]. rewrite split_on_cons.
  destruct (Ascii.eqb c d) eqn:E; [intros [<-|Hw]; [done | by apply IH]|].
  destruct (split_on c s) as [|v ws]; [done|]. intros [<-|Hw]; [|apply IH; by right].
  cbn [string_has]. rewrite E. apply IH. by left.
Qed.

Lemma normalize_result (h n : string) :
  normalizeHostname h = Some n -> string_has "/" n = false /\ nonempty n = true.
Proof.
  unfold normalizeHostname. intros Hn. assert (Hin : In n (List.filter nonempty
    (split_on "/" (remove_text "ftp://" 0 (remove_text "http://" 0 (remove_text "https://" 0 h)))))).
  { revert Hn. destruct (List.filter _ _); [done|]. intros [= ->]. by left. }
  apply filter_In in Hin as [Hin Hne]. split; [by apply split_on_parts in Hin | done].
Qed.

Lemma normalize_fixed (n : string) :
  string_has "/" n = false -> nonempty n = true -> normalizeHostname n = Some n.
Proof.
  intros Hs Hn. rewrite normalize_one_slash by (rewrite count_char_none by done; lia).
  rewrite split_on_single by done. cbn [List.filter]. by rewrite Hn.
Qed.

(** *** Import *)

Lemma import_export (l m : sitemap) :
  forallb normal (map fst l) = true ->
  import_entries (map site_json l) m = Some (fold_left (fun m e => qmap_insert m e.1 e.2) l m).
Proof.
  revert m. induction l as [|[h ip] l IH]; intros m; [done|]. cbn [map fst forallb].
  unfold normal at 1. intros [[Hn%bool_decide_eq_true Hv]%andb_true_iff Hl]%andb_true_iff.
  cbn [import_entries].
  change (chars (toString (obj_value (toObject (Some (site_json (h, ip)))) "hostname"))) with h.
  change (chars (toString (obj_value (toObject (Some (site_json (h, ip)))) "ip"))) with ip.
  rewrite Hn, Hv. by apply IH.
Qed.

Lemma qmap_value_inserts (l m : sitemap) (k : string) :
  NoDup (map fst l) ->
  qmap_value (fold_left (fun m e => qmap_insert m e.1 e.2) l m) k
  = match qmap_value l k with Some ip => Some ip | None => qmap_value m k end.
Proof.
  revert m. induction l as [|[h ip] l IH]; intros m; [done|]. cbn [map fst].
  intros [Hh Hl]%NoDup_cons. cbn [fold_left qmap_value fst snd]. rewrite IH, qmap_value_insert by done.
  destruct (String.eqb_spec k h) as [->|]; [by rewrite (qmap_value_None l) | done].
Qed.

(** *** Examples *)

Lemma no_settings_ok : sites_ok no_settings.
Proof.
  intros mode. unfold vpnSites, read, no_settings. cbn [store]. rewrite lookup_empty. constructor.
Qed.

Lemma one_site_synced : synced one_site.
Proof.
  unfold synced, one_site. fields. split_and!.
  - apply NoDup_singleton.
  - intros k. by rewrite vpnSites_same.
  - done.
  - apply sites_ok_set; [|apply NoDup_singleton].
    apply sites_ok_write; [intros mode; apply sites_key_ne | apply no_settings_ok].
Qed.

(** ** Theorems *)

(** What a start does with the preset of sites that go around the VPN.  On the
    first launch, and on an upgrade while sites are excepted, every site of the preset
    is excepted, sites that were there keep their addresses, no other site appears,
    other modes keep their sites, and the version is recorded; the switch of split
    tunnelling is turned on by the first launch only.  On any other start no site and
    no version changes, and the mode only where it was the one of old versions.  A
    second start changes no setting and looks up no name. *)
Theorem open_seeds (s : AppSettings) :
  sites_ok s ->
  exists c, open_controller s = Some c /\ synced c
    /\ (if seeds s
        then m_currentRouteMode c = VpnAllExceptSites
          /\ (forall k, qmap_value (m_sites c) k
                        = topped_up (vpnSites VpnAllExceptSites s) russianDirectSites k)
          /\ read ruDirectSeedVersion (repo c) = kRuDirectSeedVersion
          /\ read sitesSplitTunnelingEnabled (repo c)
             = first_launch s || read sitesSplitTunnelingEnabled s
          /\ forall mode, routeModeString mode <> routeModeString VpnAllExceptSites ->
               vpnSites mode (repo c) = vpnSites mode s
        else m_currentRouteMode c
             = (if read routeMode s =? VpnAllSites then VpnOnlyForwardSites else read routeMode s)
          /\ (forall mode, vpnSites mode (repo c) = vpnSites mode s)
          /\ forall key, key <> key_of routeMode -> store (repo c) !! key = store s !! key)
    /\ exists c', open_controller (repo c) = Some c' /\ repo c' = repo c /\ lookups c' = [].
Proof.
  intros Hok. destruct (seeds s) eqn:E.
  - destruct (open_seeded s Hok E) as (c & Hc & (H1 & H2 & H3 & H4 & H5 & H6 & H7) & Hm).
    exists c. split_and!; [done | by apply (open_synced s) | done | by rewrite Hm | done.. |].
    apply open_again; [by apply seeded_no_seeds | by rewrite H2].
  - assert (Hc := open_idle s E). assert (Hsync := open_synced s _ Hok Hc). eexists.
    split_and!; [done | done | | | |]; unfold fillSites in *; fields;
      destruct (Z.eqb_spec (read routeMode s) VpnAllSites) as [Hr|Hr]; fields; try done.
    + intros mode. apply vpnSites_write, sites_key_ne.
    + intros key Hk. by apply lookup_insert_ne.
    + apply open_again; [by apply mode_seeds|]. unfold AppSettings.setRouteMode.
      by rewrite read_signal, (read_write routeMode).
    + by apply open_again.
Qed.

(** C28: whatever the user, the resolver and imports do, the sites in memory are the
    stored sites of the stored mode, without duplicates, as long as no import leaves
    out an address that is known; so that what the user sees is what the next start
    loads. *)
Theorem sites_stay_synced (s : AppSettings) (c : Controller) :
  sites_ok s -> reachable s c -> synced c.
Proof.
  intros Hok Hc. induction Hc as [c Hc | c e c' _ IH He Hh];
    [by apply (open_synced s) | by apply (handle_synced e c)].
Qed.

(** An addition of many sites that does not replace them leaves memory and settings
    in step exactly when no entry without an address names a site whose address is
    known: the list in memory keeps that address, the stored one loses it. *)
Theorem addSites_forgets_address (sites : sitemap) (c : Controller) :
  NoDup (map fst sites) -> synced c ->
  synced (addSites sites false c) <-> existsb (forgets (m_sites c)) sites = false.
Proof. apply addSites_kept. Qed.

(** A list of sites that is exported and imported in place of another one, in the
    same or in another controller, gives the same sites with the same addresses, in
    memory and stored, under the mode that is current there. *)
Theorem export_import (c c2 : Controller) :
  NoDup (map fst (m_sites c)) -> forallb normal (map fst (m_sites c)) = true -> synced c2 ->
  exists c', importSitesFromJson (Some (exportSitesToJson c)) true c2 = Some (Imported, c')
    /\ synced c' /\ m_currentRouteMode c' = m_currentRouteMode c2
    /\ forall k, qmap_value (m_sites c') k = qmap_value (m_sites c) k.
Proof.
  intros Hd Hn Hc2. unfold importSitesFromJson, exportSitesToJson.
  assert (Hi := import_export (m_sites c) [] Hn). rewrite Hi.
  apply import_NoDup in Hi; [|constructor]. destruct (addSites_replaced _ c2 Hi Hc2) as [Hs Hv].
  eexists. split_and!; [done | done | done |]. intros k. rewrite Hv, qmap_value_inserts by done.
  by destruct (qmap_value (m_sites c) k).
Qed.

(** A name is normalized once: what the first normalization gives has no slash, is
    not empty, and is its own normal form, so that a site that was added, exported and
    imported keeps its name. *)
Theorem normalizeHostname_idempotent (h n : string) :
  normalizeHostname h = Some n ->
  normalizeHostname n = Some n /\ string_has "/" n = false /\ n <> EmptyString.
Proof.
  intros Hn. destruct (normalize_result h n Hn) as [Hs Hne].
  split_and!; [by apply normalize_fixed | done | intros ->; done].
Qed.

(** Adding a subnet adds only its address: the prefix length is cut off with the
    path, although the pattern that is tested next accepts one. *)
Theorem addSite_drops_prefix (a p : string) (c : Controller) :
  string_has "/" a = false -> string_has "/" p = false -> a <> EmptyString ->
  addSite (a ++ String "/" p) c = addSite a c.
Proof.
  intros Ha Hp Hne. assert (Hn : nonempty a = true) by by apply negb_true_iff, String.eqb_neq.
  unfold addSite. rewrite normalize_one_slash, split_on_first, (normalize_fixed a) by
    (done || (rewrite count_char_app; cbn [count_char]; rewrite !count_char_none by done; cbn; lia)).
  cbn [List.filter]. by rewrite Hn.
Qed.

(** ** Witnesses *)

Lemma open_seeds_witness :
  seeds no_settings = true
  /\ exists c, open_controller no_settings = Some c /\ m_currentRouteMode c = VpnAllExceptSites.
Proof.
  split; [by vm_compute|]. destruct (open_seeds no_settings no_settings_ok) as (c & Hc & _ & H & _).
  exists c. split; [done | apply H].
Defined.

Lemma sites_stay_synced_witness :
  match open_controller no_settings with
  | Some c => synced (onHostResolved "vk.com" [(false, "::1"); (true, "192.0.2.7")] c)
  | None => False
  end.
Proof.
  destruct (open_controller no_settings) as [c|] eqn:E; [|by vm_compute in E].
  apply (sites_stay_synced no_settings); [apply no_settings_ok|].
  apply (reach_event _ c (EResolved "vk.com" [(false, "::1"); (true, "192.0.2.7")]));
    [by apply reach_open | done | done].
Defined.

Lemma addSites_forgets_address_witness :
  m_sites (addSites [("example.org", EmptyString)] false one_site) = [("example.org", "192.0.2.1")]
  /\ ~ synced (addSites [("example.org", EmptyString)] false one_site).
Proof.
  split; [by vm_compute|].
  rewrite (addSites_forgets_address [("example.org", EmptyString)] one_site);
    [by vm_compute | apply NoDup_singleton | apply one_site_synced].
Defined.

Lemma export_import_witness :
  exists c', importSitesFromJson (Some (exportSitesToJson one_site)) true one_site = Some (Imported, c')
             /\ synced c'.
Proof.
  destruct (export_import one_site one_site) as (c' & Hi & Hs & _);
    [apply NoDup_singleton | by vm_compute | apply one_site_synced | by exists c'].
Defined.

Lemma normalizeHostname_idempotent_witness :
  normalizeHostname "https://vk.com/feed" = Some "vk.com" /\ normalizeHostname "vk.com" = Some "vk.com".
Proof.
  split; [by vm_compute|]. apply (normalizeHostname_idempotent "https://vk.com/feed" "vk.com"). by vm_compute.
Defined.

Lemma addSite_drops_prefix_witness :
  addSite ("10.0.0.0" ++ String "/" "8") one_site = addSite "10.0.0.0" one_site.
Proof. by apply (addSite_drops_prefix "10.0.0.0" "8"). Defined.
