(* ===== verification/AppTunnelling.v ===== *)
(** * Split tunnelling by application, and allowed DNS servers

    client/core/controllers/appSplitTunnelingController.cpp and
    client/core/controllers/allowedDnsController.cpp: lists in memory that are written
    to the settings whenever they change. *)

From stdpp Require Import base numbers list strings gmap.
From Stdlib Require Import ZArith Lia Strings.String.
From S2P Require Import Prelude SecureSettings AppSettings.
Open Scope string_scope.
Open Scope list_scope.
Open Scope Z_scope.

(** [removeAt(index)] behind its bounds check; none where the index is out of range. *)
Definition remove_at {A} (index : Z) (l : list A) : option (list A) :=
  if (index <? 0) || (Z.of_nat (List.length l) <=? index) then None
  else Some (List.firstn (Z.to_nat index) l ++ List.skipn (S (Z.to_nat index)) l).

Lemma remove_at_sublist {A} (index : Z) (l l' : list A) : remove_at index l = Some l' -> sublist l' l.
Proof.
  unfold remove_at. destruct (_ || _); [done|]. intros [= <-].
  rewrite <- (firstn_skipn (Z.to_nat index) l) at 3. apply sublist_app; [done|].
  replace (S (Z.to_nat index)) with (1 + Z.to_nat index)%nat by lia.
  rewrite <- skipn_skipn. by destruct (List.skipn (Z.to_nat index) l); [|apply sublist_cons].
Qed.

(** ** Applications *)

Module Apps.

(** [InstalledAppInfo::operator==]: by package, or by path where there is none. *)
Definition app_eq (a other : InstalledAppInfo) : bool :=
  if negb (String.eqb (packageName a) EmptyString)
  then String.eqb (packageName a) (packageName other)
  else String.eqb (appPath a) (appPath other).

Record AppController := mkAppController {
  repo : AppSettings;
  m_currentRouteMode : Z;
  m_apps : list InstalledAppInfo
}.

Definition open_apps (s : AppSettings) : AppController :=
  let mode := read appsRouteMode s in
  if mode =? VpnAllApps
  then mkAppController (AppSettings.setAppsRouteMode VpnAllExceptApps s) VpnAllExceptApps
         (vpnApps VpnAllExceptApps s)
  else mkAppController s mode (vpnApps mode s).

(** A new list, in memory and stored. *)
Definition set_apps (l : list InstalledAppInfo) (c : AppController) : AppController :=
  mkAppController (setVpnApps (m_currentRouteMode c) l (repo c)) (m_currentRouteMode c) l.

Definition addApp (app : InstalledAppInfo) (c : AppController) : bool * AppController :=
  if existsb (fun a => app_eq a app) (m_apps c) then (false, c)
  else (true, set_apps (m_apps c ++ [app]) c).

Definition removeApp (index : Z) (c : AppController) : AppController :=
  match remove_at index (m_apps c) with Some l => set_apps l c | None => c end.

Definition clearAppsList (c : AppController) : AppController := set_apps [] c.

Definition setRouteMode (mode : Z) (c : AppController) : AppController :=
  mkAppController (setAppsRouteMode mode (repo c)) mode (vpnApps mode (repo c)).

Definition toggleSplitTunneling (enabled : bool) (c : AppController) : AppController :=
  mkAppController (setAppsSplitTunnelingEnabled enabled (repo c)) (m_currentRouteMode c) (m_apps c).

(** *** Specification *)

(** No application is found again later in the list. *)
Definition distinct (l : list InstalledAppInfo) : Prop :=
  forall i j a b, (i < j)%nat -> l !! i = Some a -> l !! j = Some b -> app_eq a b = false.

Definition apps_ok (s : AppSettings) : Prop := forall mode, distinct (vpnApps mode s).

(** The list in memory is the stored one of the stored mode. *)
Definition synced (c : AppController) : Prop :=
  m_apps c = vpnApps (m_currentRouteMode c) (repo c)
  /\ m_currentRouteMode c = read appsRouteMode (repo c)
  /\ m_currentRouteMode c <> VpnAllApps /\ apps_ok (repo c).

Inductive Event :=
| EAdd (app : InstalledAppInfo)
| ERemove (index : Z)
| EClear
| EMode (mode : Z)
| EToggle (enabled : bool).

Definition handle (c : AppController) (e : Event) : AppController :=
  match e with
  | EAdd a => (addApp a c).2
  | ERemove i => removeApp i c
  | EClear => clearAppsList c
  | EMode m => setRouteMode m c
  | EToggle b => toggleSplitTunneling b c
  end.

(** The interface offers the other modes only. *)
Definition offered (e : Event) : bool :=
  match e with EMode m => negb (m =? VpnAllApps) | _ => true end.

(** *** Lemmas *)

Lemma apps_key_ne (mode : Z) :
  key_of appsRouteMode <> key_of (apps_setting mode)
  /\ key_of appsSplitTunnelingEnabled <> key_of (apps_setting mode).
Proof.
  unfold apps_setting, appsRouteModeString. cbn [key_of].
  destruct (mode =? VpnAllApps), (mode =? VpnOnlyForwardApps), (mode =? VpnAllExceptApps); done.
Qed.

Lemma vpnApps_set (mode mode' : Z) (l : list InstalledAppInfo) (s : AppSettings) :
  vpnApps mode' (setVpnApps mode l s) = l \/ vpnApps mode' (setVpnApps mode l s) = vpnApps mode' s.
Proof.
  unfold vpnApps, setVpnApps. rewrite read_signal.
  destruct (decide (key_of (apps_setting mode') = key_of (apps_setting mode))) as [E|E].
  - left. unfold read, write. cbn [store store_set]. rewrite E, lookup_insert_eq.
    apply (apps_lossless mode l).
  - right. by apply read_write_ne.
Qed.

Lemma vpnApps_write {A} (x : Setting A) (a : A) (mode : Z) (s : AppSettings) :
  key_of x <> key_of (apps_setting mode) -> vpnApps mode (write x a s) = vpnApps mode s.
Proof. intros Hk. apply read_write_ne. congruence. Qed.

Lemma set_apps_synced (l : list InstalledAppInfo) (c : AppController) :
  synced c -> distinct l -> synced (set_apps l c).
Proof.
  intros (_ & Hm & Hne & Hok) Hl. unfold synced, set_apps. cbn [m_apps m_currentRouteMode repo].
  split_and!; [ | | done | ].
  - unfold vpnApps, setVpnApps. by rewrite read_signal, (read_write (apps_setting _)).
  - unfold setVpnApps. by rewrite read_signal, read_write_ne by apply apps_key_ne.
  - intros mode. by destruct (vpnApps_set (m_currentRouteMode c) mode l (repo c)) as [-> | ->].
Qed.

Lemma distinct_snoc (l : list InstalledAppInfo) (a : InstalledAppInfo) :
  distinct l -> existsb (fun b => app_eq b a) l = false -> distinct (l ++ [a]).
Proof.
  intros Hl Ha i j x y Hij Hx Hy.
  assert (Hi : l !! i = Some x).
  { apply lookup_app_Some in Hx as [|[Hle Hx]]; [done|]. apply lookup_lt_Some in Hy.
    rewrite length_app in Hy. cbn in Hy. lia. }
  apply lookup_app_Some in Hy as [Hy|[_ Hy]]; [by apply (Hl i j)|].
  apply list_lookup_singleton_Some in Hy as [_ ->].
  destruct (app_eq x y) eqn:E; [|done]. apply not_true_iff_false in Ha. destruct Ha.
  apply existsb_exists. exists x. split; [|done]. by apply list_elem_of_In, (list_elem_of_lookup_2 _ i).
Qed.

Lemma distinct_cons (a : InstalledAppInfo) (l : list InstalledAppInfo) :
  distinct (a :: l) <-> Forall (fun b => app_eq a b = false) l /\ distinct l.
Proof.
  split.
  - intros H. split.
    + apply Forall_lookup. intros j b Hb. by apply (H 0%nat (S j)); [lia | |].
    + intros i j x y Hij Hx Hy. by apply (H (S i) (S j)); [lia | |].
  - intros [Ha Hl] [|i] [|j] x y Hij Hx Hy; try lia.
    + injection Hx as <-. by apply (Forall_lookup_1 _ _ _ _ Ha Hy).
    + by apply (Hl i j); [lia | |].
Qed.

Lemma distinct_sublist (l l' : list InstalledAppInfo) : sublist l' l -> distinct l -> distinct l'.
Proof.
  induction 1 as [|a l1 l2 Hs IH|a l1 l2 Hs IH]; [done | |];
    rewrite ?distinct_cons; [|naive_solver]. intros [Ha Hl]. split; [|auto].
  rewrite Forall_forall in *. intros x Hx. by apply Ha, (elem_of_sublist l1).
Qed.

Lemma apps_handle_synced (e : Event) (c : AppController) :
  offered e = true -> synced c -> synced (handle c e).
Proof.
  intros Ho Hc. assert (Hd : distinct (m_apps c)) by (destruct Hc as (-> & _ & _ & Hok); apply Hok).
  destruct e as [a | i | | m | b]; cbn [handle].
  - unfold addApp. destruct (existsb _ _) eqn:E; [done|]. by apply set_apps_synced, distinct_snoc.
  - unfold removeApp. destruct (remove_at i (m_apps c)) as [l|] eqn:E; [|done].
    apply set_apps_synced; [done|]. by apply (distinct_sublist _ _ (remove_at_sublist _ _ _ E)).
  - apply set_apps_synced; [done|]. by intros [] [] ? ? ? ?.
  - destruct Hc as (_ & _ & _ & Hok). unfold synced, setRouteMode, setAppsRouteMode.
    cbn [m_apps m_currentRouteMode repo]. split_and!.
    + by rewrite <- (vpnApps_write appsRouteMode m) by apply apps_key_ne.
    + by rewrite read_signal, (read_write appsRouteMode).
    + by apply Z.eqb_neq, negb_true_iff.
    + intros mode. pose proof (vpnApps_write appsRouteMode m mode (repo c) (proj1 (apps_key_ne mode))) as E.
      unfold vpnApps in *. rewrite read_signal, E. apply Hok.
  - destruct Hc as (Ha & Hm & Hne & Hok). unfold synced, toggleSplitTunneling, setAppsSplitTunnelingEnabled.
    cbn [m_apps m_currentRouteMode repo]. unfold apps_ok, vpnApps in *. split_and!; [ | | done | ].
    + by rewrite read_signal, read_write_ne by (apply not_eq_sym, apps_key_ne).
    + by rewrite read_signal, read_write_ne.
    + intros mode. rewrite read_signal, read_write_ne by (apply not_eq_sym, apps_key_ne). apply Hok.
Qed.

Lemma apps_open_synced (s : AppSettings) : apps_ok s -> synced (open_apps s).
Proof.
  intros Hok. unfold open_apps. destruct (Z.eqb_spec (read appsRouteMode s) VpnAllApps) as [E|E].
  - unfold synced, AppSettings.setAppsRouteMode. cbn [m_apps m_currentRouteMode repo].
    unfold apps_ok, vpnApps in *. split_and!; [ | | done | ].
    + by rewrite read_signal, read_write_ne by (apply not_eq_sym, apps_key_ne).
    + by rewrite read_signal, (read_write appsRouteMode).
    + intros mode. rewrite read_signal, read_write_ne by (apply not_eq_sym, apps_key_ne). apply Hok.
  - by split_and!.
Qed.

(** *** Theorem *)

(** Whatever is added, removed, cleared or switched, the applications in memory are
    the stored ones of the stored mode, no application is listed twice, and the mode of
    old versions never comes back; an index that is out of range changes nothing. *)
Theorem apps_stay_stored (s : AppSettings) (events : list Event) :
  apps_ok s -> forallb offered events = true ->
  let c := fold_left handle events (open_apps s) in
  m_apps c = vpnApps (m_currentRouteMode c) (repo c) /\ distinct (m_apps c)
  /\ m_currentRouteMode c = read appsRouteMode (repo c) /\ m_currentRouteMode c <> VpnAllApps
  /\ forall i, ~ 0 <= i < Z.of_nat (List.length (m_apps c)) -> removeApp i c = c.
Proof.
  intros Hok Ho. assert (Hs : synced (fold_left handle events (open_apps s))).
  { pose proof (apps_open_synced s Hok) as Hs. revert Hs Ho. generalize (open_apps s).
    induction events as [|e events IH]; intros c Hc; [done|]. cbn [forallb fold_left].
    intros [He Hes]%andb_true_iff. by apply IH; [apply apps_handle_synced|]. }
  cbv zeta. destruct Hs as (Ha & Hm & Hne & Hk). split_and!; [done | rewrite Ha; apply Hk | done | done |].
  intros i Hi. unfold removeApp, remove_at.
  destruct (Z.ltb_spec i 0), (Z.leb_spec (Z.of_nat (List.length (m_apps (fold_left handle events (open_apps s))))) i);
    [done.. | lia].
Qed.

Lemma apps_stay_stored_witness :
  let events := [EAdd (mkApp "A" "org.a" EmptyString); EAdd (mkApp "B" "org.b" EmptyString);
                 EAdd (mkApp "C" "org.a" EmptyString); ERemove 0; ERemove 7] in
  let c := fold_left handle events (open_apps (mkAppSettings ∅ EmptyString [])) in
  m_apps c = [mkApp "B" "org.b" EmptyString] /\ distinct (m_apps c).
Proof.
  split; [by vm_compute|]. apply apps_stay_stored; [|done]. intros mode.
  unfold vpnApps, read. cbn [store]. rewrite lookup_empty. by intros [] [] ? ? ? ?.
Defined.
End Apps.

(** ** Allowed DNS servers *)

Module AllowedDns.

Record DnsController := mkDnsController { repo : AppSettings; m_dnsServers : list string }.

(** The constructor and [fillDnsServers]. *)
Definition open_dns (s : AppSettings) : DnsController := mkDnsController s (read allowedDnsServers s).

Definition set_dns (l : list string) (c : DnsController) : DnsController :=
  mkDnsController (setAllowedDnsServers l (repo c)) l.

Definition contains (l : list string) (ip : string) : bool := existsb (String.eqb ip) l.

Definition addDns (ip : string) (c : DnsController) : bool * DnsController :=
  if contains (m_dnsServers c) ip then (false, c) else (true, set_dns (m_dnsServers c ++ [ip]) c).

Definition append_new (l : list string) (ip : string) : list string :=
  if contains l ip then l else l ++ [ip].

Definition addDnsList (dnsServers : list string) (replaceExisting : bool) (c : DnsController)
  : DnsController :=
  set_dns (fold_left append_new dnsServers (if replaceExisting then [] else m_dnsServers c)) c.

Definition removeDns (index : Z) (c : DnsController) : DnsController :=
  match remove_at index (m_dnsServers c) with Some l => set_dns l c | None => c end.

Inductive Event :=
| EAdd (ip : string)
| EAddList (l : list string) (replaceExisting : bool)
| ERemove (index : Z)
| ERestart.

Definition handle (c : DnsController) (e : Event) : DnsController :=
  match e with
  | EAdd ip => (addDns ip c).2
  | EAddList l r => addDnsList l r c
  | ERemove i => removeDns i c
  | ERestart => open_dns (repo c)
  end.

(** *** Lemmas *)

Lemma contains_spec (l : list string) (ip : string) : contains l ip = false <-> ip ∉ l.
Proof.
  unfold contains. rewrite <- not_true_iff_false, existsb_exists. setoid_rewrite String.eqb_eq.
  setoid_rewrite <- list_elem_of_In. naive_solver.
Qed.

Lemma append_new_NoDup (l : list string) (ip : string) : NoDup l -> NoDup (append_new l ip).
Proof.
  unfold append_new. intros Hl. destruct (contains l ip) eqn:E; [done|]. apply contains_spec in E.
  apply NoDup_app. split_and!; [done | | by apply NoDup_singleton].
  intros x Hx ->%list_elem_of_singleton. done.
Qed.

Lemma append_new_elem (l : list string) (ip x : string) : x ∈ append_new l ip <-> x ∈ l \/ x = ip.
Proof.
  unfold append_new. destruct (contains l ip) eqn:E.
  - split; [by left|]. intros [ | -> ]; [done|]. destruct (decide (ip ∈ l)) as [|Hn]; [done|].
    apply contains_spec in Hn. by rewrite E in Hn.
  - by rewrite elem_of_app, list_elem_of_singleton.
Qed.

Lemma append_all (l1 l2 : list string) :
  NoDup l1 -> NoDup (fold_left append_new l2 l1)
              /\ forall x, x ∈ fold_left append_new l2 l1 <-> x ∈ l1 \/ x ∈ l2.
Proof.
  revert l1. induction l2 as [|a l2 IH]; intros l1 Hl; cbn [fold_left]; [set_solver|].
  destruct (IH _ (append_new_NoDup l1 a Hl)) as [Hn Hx]. split; [done|].
  intros x. rewrite Hx, append_new_elem, elem_of_cons. naive_solver.
Qed.

Definition stored (c : DnsController) : Prop :=
  m_dnsServers c = read allowedDnsServers (repo c) /\ NoDup (m_dnsServers c).

Lemma set_dns_stored (l : list string) (c : DnsController) : NoDup l -> stored (set_dns l c).
Proof. intros Hl. split; [|done]. symmetry. apply (read_write allowedDnsServers). Qed.

Lemma handle_stored (c : DnsController) (e : Event) : stored c -> stored (handle c e).
Proof.
  intros [Hs Hn]. destruct e as [ip | l r | i |]; cbn [handle].
  - unfold addDns. destruct (contains _ ip) eqn:E; [done|]. apply set_dns_stored.
    assert (Ha := append_new_NoDup _ ip Hn). unfold append_new in Ha. by rewrite E in Ha.
  - apply set_dns_stored, append_all. destruct r; [constructor | done].
  - unfold removeDns. destruct (remove_at i (m_dnsServers c)) as [l|] eqn:E; [|done].
    apply set_dns_stored. by apply (sublist_NoDup _ _ Hn), (remove_at_sublist i).
  - split; [done|]. cbn [m_dnsServers open_dns]. by rewrite <- Hs.
Qed.

(** *** Theorem *)

(** Whatever is added, removed or started again, the allowed servers in memory are
    the stored ones, none is listed twice, and a list that is added makes all of its
    servers allowed, with those of before unless it replaces them. *)
Theorem dns_stay_stored (s : AppSettings) (events : list Event) :
  NoDup (read allowedDnsServers s) ->
  let c := fold_left handle events (open_dns s) in
  m_dnsServers c = read allowedDnsServers (repo c) /\ NoDup (m_dnsServers c)
  /\ forall l r x, x ∈ m_dnsServers (addDnsList l r c)
                   <-> x ∈ l \/ (r = false /\ x ∈ m_dnsServers c).
Proof.
  intros Hn. assert (Hs : stored (fold_left handle events (open_dns s))).
  { assert (Hs : stored (open_dns s)) by done. revert Hs. generalize (open_dns s).
    induction events as [|e events IH]; intros c Hc; [done|]. by apply IH, handle_stored. }
  cbv zeta. destruct Hs as [Hs Hd]. split_and!; [done | done |]. intros l r x.
  unfold addDnsList, set_dns. cbn [m_dnsServers].
  destruct r; [rewrite (proj2 (append_all [] l NoDup_nil_2)) | rewrite (proj2 (append_all _ l Hd))];
    set_solver.
Qed.

Lemma dns_stay_stored_witness :
  let c := fold_left handle [EAdd "1.1.1.1"; EAddList ["8.8.8.8"; "1.1.1.1"] false; ERestart; ERemove 0]
             (open_dns (mkAppSettings ∅ EmptyString [])) in
  m_dnsServers c = ["8.8.8.8"] /\ NoDup (m_dnsServers c).
Proof. split; [by vm_compute|]. apply dns_stay_stored. constructor. Defined.
End AllowedDns.
