(* ===== verification/Script.v ===== *)
(** * Scripts

    Programs that call on their surroundings.  A script is a state transformer
    over its variables and the sequence of calls it has made so far, the answer
    of each call a function of the calls before it.  It can also end in an error
    or run out of the fuel given to a loop.  Used for the installer's scripts and
    for the daemon. *)

From stdpp Require Import base numbers list.
From S2P Require Import Prelude.

Record State (E G : Type) := mkState { globals : G; history : list E }.
Arguments mkState {E G}.
Arguments globals {E G}.
Arguments history {E G}.

Inductive Outcome (E G A : Type) :=
| Done (a : A) (s : State E G)
| ScriptError (s : State E G)
| NoFuel (s : State E G).
Arguments Done {E G A}.
Arguments ScriptError {E G A}.
Arguments NoFuel {E G A}.

(** The state at the end. *)
Definition final {E G A} (o : Outcome E G A) : State E G :=
  match o with Done _ s | ScriptError s | NoFuel s => s end.

Definition Script (E G A : Type) : Type := State E G -> Outcome E G A.

Definition ret {E G A} (a : A) : Script E G A := fun s => Done a s.

Definition bind {E G A B} (m : Script E G A) (k : A -> Script E G B) : Script E G B :=
  fun s => match m s with
           | Done a s' => k a s'
           | ScriptError s' => ScriptError s'
           | NoFuel s' => NoFuel s'
           end.

Declare Scope script_scope.
Delimit Scope script_scope with script.
Notation "'let*' x ':=' m 'in' k" := (bind m (fun x => k))
  (at level 10, x name, k at level 200) : script_scope.
Notation "m ;;; k" := (bind m (fun _ => k)) (at level 199, right associativity) : script_scope.
Open Scope script_scope.

Definition throw {E G A} : Script E G A := fun s => ScriptError s.
Definition out_of_fuel {E G A} : Script E G A := fun s => NoFuel s.
Definition gets {E G A} (f : G -> A) : Script E G A := fun s => Done (f (globals s)) s.
Definition modify {E G} (f : G -> G) : Script E G unit :=
  fun s => Done tt (mkState (f (globals s)) (history s)).

(** A call: its answer is taken from the calls made so far, and it is recorded. *)
Definition call {E G A} (answer : list E -> A) (event : A -> E) : Script E G A :=
  fun s => let a := answer (history s) in
           Done a (mkState (globals s) (history s ++ [event a])).

Definition emit {E G} (e : E) : Script E G unit := call (fun _ => tt) (fun _ => e).

(** A loop over a list. *)
Fixpoint for_each {E G A} (l : list A) (f : A -> Script E G unit) : Script E G unit :=
  match l with
  | [] => ret tt
  | a :: l' => f a ;;; for_each l' f
  end.

(** A test that ends the enclosing function with [false] where it fails. *)
Definition and_then {E G} (m k : Script E G bool) : Script E G bool :=
  let* ok := m in if ok then k else ret false.

(** A query without effect. *)
Definition query {E G A} (answer : list E -> A) : Script E G A :=
  fun s => Done (answer (history s)) s.

Definition when {E G} (b : bool) (m : Script E G unit) : Script E G unit :=
  if b then m else ret tt.

(** ** Reasoning about scripts *)

(** A run only adds calls. *)
Class Extends {E G A} (m : Script E G A) : Prop :=
  extends_run s a s' : m s = Done a s' -> history s `prefix_of` history s'.

(** Every run ends with a result. *)
Class Total {E G A} (m : Script E G A) : Prop := total_run s : exists a s', m s = Done a s'.

(** A run leaves a view of the global variables as it is. *)
Class Keeps {E G A B} (f : G -> B) (m : Script E G A) : Prop :=
  keeps_run s a s' : m s = Done a s' -> f (globals s') = f (globals s).

(** A run keeps an invariant of the state. *)
Class Preserves {E G A} (I : State E G -> Prop) (m : Script E G A) : Prop :=
  preserves_run s a s' : I s -> m s = Done a s' -> I s'.

Lemma bind_Done {E G A B} (m : Script E G A) (k : A -> Script E G B) s b s' :
  bind m k s = Done b s' -> exists a s1, m s = Done a s1 /\ k a s1 = Done b s'.
Proof. unfold bind. destruct (m s) eqn:Em; try done. eauto. Qed.

Lemma call_Done {E G A} (answer : list E -> A) (event : A -> E) (s : State E G) a s' :
  call answer event s = Done a s' ->
  a = answer (history s) /\ s' = mkState (globals s) (history s ++ [event a]).
Proof. unfold call. intros [= <- <-]. done. Qed.

(** Takes a finished run apart into its steps. *)
Ltac script_inv :=
  repeat match goal with
  | H : bind _ _ _ = Done _ _ |- _ => apply bind_Done in H as (? & ? & ? & H)
  | H : call _ _ _ = Done _ _ |- _ => apply call_Done in H as [? ?]; simplify_eq/=
  | H : emit _ _ = Done _ _ |- _ => unfold emit in H
  | H : ret _ _ = Done _ _ |- _ => unfold ret in H; simplify_eq/=
  | H : gets _ _ = Done _ _ |- _ => unfold gets in H; simplify_eq/=
  | H : modify _ _ = Done _ _ |- _ => unfold modify in H; simplify_eq/=
  | H : query _ _ = Done _ _ |- _ => unfold query in H; simplify_eq/=
  | H : throw _ = Done _ _ |- _ => discriminate H
  | H : out_of_fuel _ = Done _ _ |- _ => discriminate H
  end.

Section Instances.
Context {E G : Type}.
Implicit Types s : State E G.

#[export] Instance bind_extends {A B} (m : Script E G A) (k : A -> Script E G B) :
  Extends m -> (forall a, Extends (k a)) -> Extends (bind m k).
Proof.
  intros Hm Hk s b s' (a & s1 & H1 & H2)%bind_Done.
  etrans; [by eapply Hm|by eapply Hk].
Qed.

#[export] Instance bind_total {A B} (m : Script E G A) (k : A -> Script E G B) :
  Total m -> (forall a, Total (k a)) -> Total (bind m k).
Proof.
  intros Hm Hk s. unfold bind. destruct (Hm s) as (a & s1 & ->). apply Hk.
Qed.

#[export] Instance bind_keeps {A B C} (f : G -> C) (m : Script E G A) (k : A -> Script E G B) :
  Keeps f m -> (forall a, Keeps (E := E) f (k a)) -> Keeps (E := E) f (bind m k).
Proof.
  intros Hm Hk s b s' (a & s1 & H1 & H2)%bind_Done.
  rewrite (Hk a _ _ _ H2). by eapply Hm.
Qed.

#[export] Instance bind_preserves {A B} (I : State E G -> Prop) (m : Script E G A)
    (k : A -> Script E G B) :
  Preserves I m -> (forall a, Preserves I (k a)) -> Preserves I (bind m k).
Proof.
  intros Hm Hk s b s' Hi (a & s1 & H1 & H2)%bind_Done.
  eapply Hk; [|exact H2]. by eapply Hm.
Qed.

#[export] Instance ret_preserves {A} (I : State E G -> Prop) (a : A) : Preserves I (ret a).
Proof. intros s b s' Hi [= <- <-]. done. Qed.
#[export] Instance gets_preserves {A} (I : State E G -> Prop) (x : G -> A) : Preserves I (gets x).
Proof. intros s b s' Hi [= <- <-]. done. Qed.
#[export] Instance query_preserves {A} (I : State E G -> Prop) (x : list E -> A) :
  Preserves I (query x).
Proof. intros s b s' Hi [= <- <-]. done. Qed.
#[export] Instance out_of_fuel_preserves {A} (I : State E G -> Prop) :
  Preserves (A := A) I out_of_fuel.
Proof. intros s b s' Hi [=]. Qed.
#[export] Instance if_preserves {A} (I : State E G -> Prop) (b : bool) (m n : Script E G A) :
  Preserves I m -> Preserves I n -> Preserves I (if b then m else n).
Proof. by destruct b. Qed.
#[export] Instance when_preserves (I : State E G -> Prop) (b : bool) (m : Script E G unit) :
  Preserves I m -> Preserves I (when b m).
Proof. intros. apply if_preserves; apply _. Qed.

#[export] Instance ret_extends {A} (a : A) : Extends (E := E) (G := G) (ret a).
Proof. intros s b s' [= <- <-]. done. Qed.
#[export] Instance ret_total {A} (a : A) : Total (E := E) (G := G) (ret a).
Proof. intros s. by eexists _, _. Qed.
#[export] Instance ret_keeps {A C} (f : G -> C) (a : A) : Keeps (E := E) f (ret a).
Proof. intros s b s' [= <- <-]. done. Qed.

#[export] Instance call_extends {A} (x : list E -> A) (e : A -> E) : Extends (E := E) (G := G) (call x e).
Proof. intros s b s' [-> ->]%call_Done. simpl. by apply prefix_app_r. Qed.
#[export] Instance call_total {A} (x : list E -> A) (e : A -> E) : Total (E := E) (G := G) (call x e).
Proof. intros s. by eexists _, _. Qed.
#[export] Instance call_keeps {A C} (f : G -> C) (x : list E -> A) (e : A -> E) :
  Keeps (E := E) f (call x e).
Proof. intros s b s' [-> ->]%call_Done. done. Qed.

#[export] Instance emit_extends (e : E) : Extends (E := E) (G := G) (emit e).
Proof. apply call_extends. Qed.
#[export] Instance emit_total (e : E) : Total (E := E) (G := G) (emit e).
Proof. apply call_total. Qed.
#[export] Instance emit_keeps {C} (f : G -> C) (e : E) : Keeps (E := E) f (emit e).
Proof. apply call_keeps. Qed.

#[export] Instance query_extends {A} (x : list E -> A) : Extends (E := E) (G := G) (query x).
Proof. intros s b s' [= <- <-]. done. Qed.
#[export] Instance query_total {A} (x : list E -> A) : Total (E := E) (G := G) (query x).
Proof. intros s. by eexists _, _. Qed.
#[export] Instance query_keeps {A C} (f : G -> C) (x : list E -> A) : Keeps (E := E) f (query x).
Proof. intros s b s' [= <- <-]. done. Qed.

#[export] Instance gets_extends {A} (x : G -> A) : Extends (E := E) (gets x).
Proof. intros s b s' [= <- <-]. done. Qed.
#[export] Instance gets_total {A} (x : G -> A) : Total (E := E) (gets x).
Proof. intros s. by eexists _, _. Qed.
#[export] Instance gets_keeps {A C} (f : G -> C) (x : G -> A) : Keeps (E := E) f (gets x).
Proof. intros s b s' [= <- <-]. done. Qed.

#[export] Instance modify_extends (x : G -> G) : Extends (E := E) (modify x).
Proof. intros s b s' [= <- <-]. done. Qed.
#[export] Instance modify_total (x : G -> G) : Total (E := E) (modify x).
Proof. intros s. by eexists _, _. Qed.

Lemma modify_keeps {C} (f : G -> C) (x : G -> G) :
  (forall g, f (x g) = f g) -> Keeps (E := E) f (modify x).
Proof. intros Hx s b s' [= <- <-]. apply Hx. Qed.

#[export] Instance throw_extends {A} : Extends (E := E) (G := G) (A := A) throw.
Proof. intros s b s' [=]. Qed.
#[export] Instance throw_keeps {A C} (f : G -> C) : Keeps (E := E) (A := A) f throw.
Proof. intros s b s' [=]. Qed.
#[export] Instance out_of_fuel_extends {A} : Extends (E := E) (G := G) (A := A) out_of_fuel.
Proof. intros s b s' [=]. Qed.

#[export] Instance if_extends {A} (b : bool) (m n : Script E G A) :
  Extends m -> Extends n -> Extends (if b then m else n).
Proof. by destruct b. Qed.
#[export] Instance if_total {A} (b : bool) (m n : Script E G A) :
  Total m -> Total n -> Total (if b then m else n).
Proof. by destruct b. Qed.
#[export] Instance if_keeps {A C} (f : G -> C) (b : bool) (m n : Script E G A) :
  Keeps f m -> Keeps f n -> Keeps (E := E) f (if b then m else n).
Proof. by destruct b. Qed.

#[export] Instance when_extends (b : bool) (m : Script E G unit) : Extends m -> Extends (when b m).
Proof. intros. apply if_extends; apply _. Qed.
#[export] Instance when_total (b : bool) (m : Script E G unit) : Total m -> Total (when b m).
Proof. intros. apply if_total; apply _. Qed.
#[export] Instance when_keeps {C} (f : G -> C) (b : bool) (m : Script E G unit) :
  Keeps f m -> Keeps (E := E) f (when b m).
Proof. intros. apply if_keeps; apply _. Qed.

#[export] Instance for_each_extends {A} (l : list A) (f : A -> Script E G unit) :
  (forall a, Extends (f a)) -> Extends (for_each l f).
Proof. intros Hf. induction l; simpl; apply _. Qed.
#[export] Instance for_each_total {A} (l : list A) (f : A -> Script E G unit) :
  (forall a, Total (f a)) -> Total (for_each l f).
Proof. intros Hf. induction l; simpl; apply _. Qed.
#[export] Instance for_each_keeps {A C} (g : G -> C) (l : list A) (f : A -> Script E G unit) :
  (forall a, Keeps g (f a)) -> Keeps g (for_each l f).
Proof. intros Hf. induction l; simpl; apply _. Qed.
#[export] Instance for_each_preserves {A} (I : State E G -> Prop) (l : list A)
    (f : A -> Script E G unit) :
  (forall a, Preserves I (f a)) -> Preserves I (for_each l f).
Proof. intros Hf. induction l; simpl; apply _. Qed.

#[export] Instance and_then_extends (m k : Script E G bool) :
  Extends m -> Extends k -> Extends (and_then m k).
Proof. intros. unfold and_then. apply _. Qed.
#[export] Instance and_then_total (m k : Script E G bool) :
  Total m -> Total k -> Total (and_then m k).
Proof. intros. unfold and_then. apply _. Qed.
#[export] Instance and_then_keeps {C} (f : G -> C) (m k : Script E G bool) :
  Keeps f m -> Keeps f k -> Keeps f (and_then m k).
Proof. intros. unfold and_then. apply _. Qed.
#[export] Instance and_then_preserves (I : State E G -> Prop) (m k : Script E G bool) :
  Preserves I m -> Preserves I k -> Preserves I (and_then m k).
Proof. intros. unfold and_then. apply _. Qed.

Lemma and_then_true (m k : Script E G bool) s s' :
  and_then m k s = Done true s' -> exists s1, m s = Done true s1 /\ k s1 = Done true s'.
Proof.
  intros (ok & s1 & Hm & Hk)%bind_Done. destruct ok; [eauto|discriminate Hk].
Qed.

(** Each round of a loop makes a call for its element. *)
Lemma for_each_calls {A} (P : A -> E -> Prop) (l : list A) (f : A -> Script E G unit) s u s' :
  (forall a s u s', f a s = Done u s' ->
     exists t, history s' = history s ++ t /\ Exists (P a) t) ->
  for_each l f s = Done u s' ->
  exists t, history s' = history s ++ t /\ forall a, a ∈ l -> Exists (P a) t.
Proof.
  intros Hf. revert s. induction l as [|a l IH]; intros s; cbn [for_each].
  - intros [= <- <-]. exists []. rewrite app_nil_r. split; [done|]. intros a Ha.
    by apply not_elem_of_nil in Ha.
  - intros (? & s1 & (t1 & E1 & H1)%Hf & (t2 & E2 & H2)%IH)%bind_Done.
    exists (t1 ++ t2). split; [by rewrite E2, E1, app_assoc|].
    intros b [->|Hb]%elem_of_cons; rewrite Exists_app; [by left|right; by apply H2].
Qed.

End Instances.

(** The classes for a script follow from those of its steps. *)
Ltac script_steps :=
  repeat (first [apply _ | apply bind_extends | apply bind_total | apply bind_keeps
    | apply if_extends | apply if_total | apply if_keeps
    | apply bind_preserves | apply if_preserves
    | apply and_then_total | apply for_each_total | apply when_total
    | apply modify_keeps; intros; reflexivity
    | progress intros | case_match]).

(** The classes for a defined script follow its definition. *)
Ltac script_solve m := unfold m; script_steps.
