(* ===== verification/InstallerEnv.v ===== *)
(** * The installer framework as the scripts see it

    The scripts of deploy/installer/qif run inside the Qt Installer Framework.
    Its objects ([installer], [gui], [systemInfo], message boxes) are not part of
    the repository: [Env] is their interface, each answer a function of the calls
    made before it, and [Event] are the calls that its scripts record. *)

From stdpp Require Import base numbers list.
From Stdlib Require Import ZArith Lia QArith Strings.String DecimalString.
From S2P Require Import Prelude JsText Script.
Open Scope script_scope.
Open Scope Z_scope.

Inductive Button := NextButton | FinishButton | CancelButton | CommitButton.

Inductive Page :=
| IntroductionPage | TargetDirectory | ComponentSelection | LicenseCheck
| StartMenuSelection | StartMenuDirectoryPage | ReadyForInstallation
| PerformInstallation | FinishedPage.

(** The buttons of message boxes. *)
Inductive Answer := Ok | Cancel | Retry | Abort | Yes | No.

#[export] Instance Answer_eq_dec : EqDecision Answer.
Proof. solve_decision. Defined.

(** Calls with an effect, and the answers of the framework and the user. *)
Inductive Event :=
| FileExists (path : option jsstring) (found : bool)
| Execute (program : jsstring) (args : list jsstring) (result : option (jsstring * Z))
| MessageBox (title : jsstring) (answer : Answer)
| SetCancelled
| SetValue (key v : jsstring)
| SetPageVisible (p : Page) (visible : bool)
| Click (b : Button)
| AutoAnswer (identifier : text) (a : Answer)
| AutoAccept
| Disconnect (signal : text)
| Connect (signal : text)
| Sleep (milliseconds : Z)
| HideChild (name : text)
| SetLineEdit (s : jsstring)
| GainAdminRights (granted : bool)
| DropAdminRights
| ExecuteDetached (program : jsstring) (args : list jsstring) (dir : jsstring)
| DefaultOperations
| AddOperation (elevated : bool) (operation : list (list jsstring)).

Abbreviation History := (list Event).

(** The answers of the framework.  [execute] gives the output and the exit code,
    or nothing where the program could not be started; [number_other] is the
    conversion of strings other than plain decimal numbers to a number, and
    [print_other] that of numbers other than the natural ones to a string. *)
Class Env := {
  value : History -> jsstring -> jsstring;
  fileExists : History -> option jsstring -> bool;
  execute : History -> jsstring -> list jsstring -> option (jsstring * Z);
  message_box : History -> jsstring -> Answer;
  isInstaller : bool;
  isUninstaller : bool;
  isUpdater : bool;
  targetDirectoryText : History -> option jsstring;
  currentPageWidget : History -> bool;
  gainAdminRights : History -> bool;
  status_success : History -> bool;
  findPath : jsstring -> jsstring -> jsstring;
  desktopLocation : jsstring;
  kernelType : jsstring;
  currentCpuArchitecture : jsstring;
  number_other : jsstring -> option Q;
  print_other : Q -> jsstring
}.

(** ** Calls *)

Section Calls.
Context {G : Type} `{Env}.

Definition installer_value (key : text) : Script Event G jsstring :=
  query (fun h => value h (js key)).
Definition installer_fileExists (path : option jsstring) : Script Event G bool :=
  call (fun h => fileExists h path) (FileExists path).
Definition installer_execute (program : jsstring) (args : list jsstring)
  : Script Event G (option (jsstring * Z)) :=
  call (fun h => execute h program args) (Execute program args).
Definition messageBox (title : jsstring) : Script Event G Answer :=
  call (fun h => message_box h title) (MessageBox title).
Definition installer_setValue (key v : jsstring) : Script Event G unit := emit (SetValue key v).
Definition clickButton (b : Button) : Script Event G unit := emit (Click b).
Definition setDefaultPageVisible (p : Page) (visible : bool) : Script Event G unit :=
  emit (SetPageVisible p visible).

End Calls.

(** ** Numbers *)

Fixpoint digits_value (acc : Z) (s : jsstring) : option Z :=
  match s with
  | [] => Some acc
  | c :: s' => if (48 <=? c) && (c <=? 57) then digits_value (acc * 10 + (c - 48)) s' else None
  end.

(** White space and line terminators of ECMAScript below U+0100. *)
Definition js_space (c : Z) : bool := ((9 <=? c) && (c <=? 13)) || (c =? 32) || (c =? 160).

Fixpoint trim_start (s : jsstring) : jsstring :=
  match s with
  | c :: s' => if js_space c then trim_start s' else s
  | [] => []
  end.

Definition trim (s : jsstring) : jsstring := rev (trim_start (rev (trim_start s))).

(** [Number] of a string: white space around it is ignored, and an empty string
    is zero. *)
Definition js_Number `{Env} (s : jsstring) : option Q :=
  match digits_value 0 (trim s) with
  | Some n => Some (inject_Z n)
  | None => number_other (trim s)
  end.

(** A number as a string. *)
Definition print_number `{Env} (r : Q) : jsstring :=
  if (Zpos (Qden r) =? 1) && (0 <=? Qnum r) && (Qnum r <? 10 ^ 21)
  then map (fun c => Z.of_N (Ascii.N_of_ascii c))
         (String.list_ascii_of_string (NilEmpty.string_of_uint (N.to_uint (Z.to_N (Qnum r)))))
  else print_other r.

(** Comparison with an integer; not a number compares as false. *)
Definition num_geb (n : option Q) (k : Z) : bool :=
  match n with Some r => Qle_bool (inject_Z k) r | None => false end.

Definition num_gtb (n : option Q) (k : Z) : bool :=
  match n with Some r => negb (Qle_bool r (inject_Z k)) | None => false end.
