(* ===== verification/ControlScript.v ===== *)
(** * The control script of the installer

    deploy/installer/qif/controlscript.js: the constructor [Controller], which
    sees to it that the application is closed and an old installation removed,
    the page callbacks, and their helpers.  Lines for the log are not modelled,
    nor are the texts of message boxes; the calls evaluated for them are. *)

From stdpp Require Import base numbers list.
From Stdlib Require Import ZArith Lia QArith.
From S2P Require Import Prelude JsText Script InstallerEnv.
Open Scope Z_scope.
Open Scope script_scope.

(** The variables at the head of the script; an unset path is [undefined]. *)
Record Globals := mkGlobals {
  requestToQuitFromApp : bool;
  updaterCompleted : Z;
  desktopAppProcessRunning : bool;
  appInstalledUninstallerPath : option jsstring;
  appInstalledUninstallerPath_x86 : option jsstring
}.

Definition globals0 : Globals := mkGlobals false 0 false None None.

Definition set_quit (b : bool) (g : Globals) : Globals :=
  mkGlobals b (updaterCompleted g) (desktopAppProcessRunning g)
    (appInstalledUninstallerPath g) (appInstalledUninstallerPath_x86 g).
Definition set_updaterCompleted (n : Z) (g : Globals) : Globals :=
  mkGlobals (requestToQuitFromApp g) n (desktopAppProcessRunning g)
    (appInstalledUninstallerPath g) (appInstalledUninstallerPath_x86 g).
Definition set_running (b : bool) (g : Globals) : Globals :=
  mkGlobals (requestToQuitFromApp g) (updaterCompleted g) b
    (appInstalledUninstallerPath g) (appInstalledUninstallerPath_x86 g).
Definition set_path (p : jsstring) (g : Globals) : Globals :=
  mkGlobals (requestToQuitFromApp g) (updaterCompleted g) (desktopAppProcessRunning g)
    (Some p) (appInstalledUninstallerPath_x86 g).
Definition set_path_x86 (p : jsstring) (g : Globals) : Globals :=
  mkGlobals (requestToQuitFromApp g) (updaterCompleted g) (desktopAppProcessRunning g)
    (appInstalledUninstallerPath g) (Some p).

Section ControlScript.
Context `{Env}.

Abbreviation script := (Script Event Globals).

Definition appName : script jsstring := installer_value "Name".

Definition runningOnWindows : script bool :=
  let* os := installer_value "os" in ret (bool_decide (os = js "win")).

Definition runningOnMacOS : script bool :=
  let* os := installer_value "os" in ret (bool_decide (os = js "mac")).

Definition runningOnLinux : script bool :=
  let* os := installer_value "os" in
  ret (bool_decide (os = js "linux") || bool_decide (os = js "x11")).

Definition appExecutableFileName : script jsstring :=
  let* windows := runningOnWindows in
  let* name := appName in
  ret (if windows then name ++ js ".exe" else name).

(** The paths of the uninstaller for the system at hand. *)
Definition set_uninstaller_paths : script unit :=
  let* windows := runningOnWindows in
  if windows then
    let* root := installer_value "RootDir" in
    modify (set_path (root ++ js "Program Files/Fresh VPN/maintenancetool.exe")) ;;;
    let* root' := installer_value "RootDir" in
    modify (set_path_x86 (root' ++ js "Program Files (x86)/Fresh VPN/maintenancetool.exe"))
  else
    let* mac := runningOnMacOS in
    if mac then
      let* name := appName in
      modify (set_path (js "/Applications/" ++ name
        ++ js ".app/maintenancetool.app/Contents/MacOS/maintenancetool"))
    else
      let* linux := runningOnLinux in
      if linux then
        let* name := appName in
        modify (set_path (js "/opt/" ++ name ++ js "/maintenancetool"))
      else ret tt.

Definition appInstalled : script bool :=
  set_uninstaller_paths ;;;
  let* path := gets appInstalledUninstallerPath in
  let* found := installer_fileExists path in
  if found then ret true
  else
    let* path_x86 := gets appInstalledUninstallerPath_x86 in
    installer_fileExists path_x86.

Definition endsWith (str suffix : jsstring) : bool :=
  negb (indexOf_from str suffix (js_length str - js_length suffix) =? -1).

Definition sleep (milliseconds : Z) : script unit := emit (Sleep milliseconds).

(** The output of a program as a number; a program that did not start has none. *)
Definition output_number (result : option (jsstring * Z)) : option Q :=
  match result with Some (out, _) => js_Number out | None => None end.

Definition raiseInstallerWindow : script unit :=
  let* mac := runningOnMacOS in
  if negb mac then ret tt
  else
    let* name := appName in
    let* result := installer_execute (js "/bin/bash")
      [js "-c"; js "ps -A | grep -m1 '" ++ name ++ js "' | awk '{print $1}'"] in
    match output_number result with
    | Some pid =>
        if num_gtb (Some pid) 0 then
          let arg := js "tell application " ++ [34] ++ js "System Events" ++ [34; 32; 10]
            ++ js "      set frontmost of the first process whose unix id is "
            ++ print_number pid ++ js " to true " ++ [10] ++ js "      end tell" ++ [10]
            ++ js "       " in
          let* _ := installer_execute (js "osascript") [js "-e"; arg] in ret tt
        else ret tt
    | None => ret tt
    end.

(** The first line of a trimmed output, as a number; a program that did not
    start has no output to trim, which is a script error. *)
Definition checkProcessIsRunning (arg : jsstring) : script bool :=
  let* result := installer_execute (js "/bin/bash") [js "-c"; arg] in
  match result with
  | None => throw
  | Some (out, _) =>
      let line := (fix first_line (s : jsstring) :=
        match s with c :: s' => if c =? 10 then [] else c :: first_line s' | [] => [] end) (trim out) in
      ret (num_geb (js_Number line) 2)
  end.

Definition appProcessIsRunning : script bool :=
  let* windows := runningOnWindows in
  if windows then
    let* result := installer_execute (js "tasklist") [] in
    match result with
    | Some (out, code) =>
        if code =? 0 then
          let* exe := appExecutableFileName in ret (negb (indexOf out exe =? -1))
        else ret false
    | None => ret false
    end
  else
    let* name := appName in
    checkProcessIsRunning (js "pgrep -x '" ++ name ++ js "'").

Definition requestToQuit : script unit :=
  modify (set_quit true) ;;;
  setDefaultPageVisible IntroductionPage false ;;;
  setDefaultPageVisible TargetDirectory false ;;;
  setDefaultPageVisible ComponentSelection false ;;;
  setDefaultPageVisible LicenseCheck false ;;;
  setDefaultPageVisible StartMenuSelection false ;;;
  setDefaultPageVisible ReadyForInstallation false ;;;
  setDefaultPageVisible PerformInstallation false ;;;
  setDefaultPageVisible FinishedPage false ;;;
  clickButton NextButton ;;;
  clickButton FinishButton ;;;
  clickButton CancelButton ;;;
  let* windows := runningOnWindows in
  when windows (emit SetCancelled).

(** ** Pages *)

Definition PerformInstallationPageCallback : script unit := clickButton NextButton.
Definition LicenseAgreementPageCallback : script unit := clickButton NextButton.
Definition StartMenuDirectoryPageCallback : script unit := clickButton NextButton.
Definition ComponentSelectionPageCallback : script unit := clickButton NextButton.

Definition FinishedPageCallback : script unit :=
  let* running := gets desktopAppProcessRunning in
  if running then clickButton FinishButton
  else when isUpdater (emit AutoAccept ;;; clickButton FinishButton).

Definition RestartPageCallback : script unit :=
  modify (set_updaterCompleted 1) ;;; clickButton FinishButton.

Definition ReadyForInstallationPageCallback : script unit :=
  when isUpdater (clickButton CommitButton).

Definition TargetDirectoryPageCallback : script unit :=
  let* widget := query targetDirectoryText in
  match widget with
  | Some _ =>
      emit (Disconnect "BrowseDirectoryButton.clicked") ;;;
      emit (Connect "BrowseDirectoryButton.clicked") ;;;
      clickButton NextButton
  | None => ret tt
  end.

Definition IntroductionPageCallback : script unit :=
  let* widget := query currentPageWidget in
  let* completed := gets updaterCompleted in
  if isUpdater && (completed =? 1) then
    clickButton FinishButton ;;; clickButton CancelButton
  else
    when (isUninstaller && widget)
      (emit (HideChild "PackageManagerRadioButton") ;;; emit (HideChild "UpdaterRadioButton")) ;;;
    when isUpdater (clickButton NextButton).

Definition onBrowseButtonClicked : script unit :=
  let* widget := query targetDirectoryText in
  match widget with
  | None => ret tt
  | Some targetDir =>
      let* windows := runningOnWindows in
      if windows then
        let* name := appName in
        let targetDir' := if endsWith targetDir name then targetDir
                          else targetDir ++ js "\" ++ name in
        installer_setValue (js "TargetDir") targetDir' ;;;
        let* v := installer_value "TargetDir" in
        emit (SetLineEdit v)
      else ret tt
  end.

Definition onNextButtonClicked : script unit :=
  let* widget := query targetDirectoryText in
  match widget with
  | None => ret tt
  | Some s => installer_setValue (js "APP_BUNDLE_TARGET_DIR") s
  end.

(** ** The constructor *)

(** The rounds of the updater's loop that waits for the application to end. *)
Fixpoint updater_poll (rounds : nat) : script unit :=
  match rounds with
  | O => ret tt
  | S n =>
      let* running := appProcessIsRunning in
      modify (set_running running) ;;;
      if running then updater_poll n else ret tt
  end.

(** Each call of the loop function takes one unit of fuel. *)
Fixpoint isDesktopAppProcessRunningMessageLoop (fuel : nat) : script unit :=
  match fuel with
  | O => out_of_fuel
  | S fuel' =>
      let* quit := gets requestToQuitFromApp in
      if quit then ret tt
      else
        when isUpdater (updater_poll 400) ;;;
        let* running := appProcessIsRunning in
        modify (set_running running) ;;;
        if running then
          let* name := appName in
          let* answer := messageBox (name ++ js " installer") in
          if bool_decide (answer = Retry) then isDesktopAppProcessRunningMessageLoop fuel'
          else modify (set_quit true)
        else ret tt
  end.

(** Waits until the uninstaller is gone, for at most [rounds] rounds. *)
Fixpoint wait_removed (rounds : nat) : script unit :=
  match rounds with
  | O => ret tt
  | S n =>
      sleep 100 ;;;
      let* path := gets appInstalledUninstallerPath in
      let* found := installer_fileExists path in
      if found then wait_removed n else ret tt
  end.

(** Starts the uninstaller at [path] where it is present; [prev] is the result
    so far, and a missing path does not name a program. *)
Definition run_uninstaller (path : option jsstring) (prev : option (jsstring * Z))
  : script (option (jsstring * Z)) :=
  let* found := installer_fileExists path in
  if found then installer_execute (default (js "undefined") path) [] else ret prev.

(** The removal of an old installation; false where the constructor returns. *)
Definition remove_old : script bool :=
  let* installed := appInstalled in
  if installed then
    let* path_x86 := gets appInstalledUninstallerPath_x86 in
    let* result := run_uninstaller path_x86 None in
    let* path := gets appInstalledUninstallerPath in
    let* result' := run_uninstaller path result in
    match result' with
    | Some (_, 0) => wait_removed 300 ;;; ret true
    | _ => emit SetCancelled ;;; ret false
    end
  else ret true.

(** The part of the constructor for an installer after the message loop. *)
Definition install_over : script unit :=
  let* mac := runningOnMacOS in
  when mac (emit (AutoAnswer "OverwriteTargetDirectory" Yes)) ;;;
  let* installed := appInstalled in
  if installed then
    let* name := appName in
    let* answer := messageBox name in
    if bool_decide (answer = Ok) then
      let* continue := remove_old in
      when continue raiseInstallerWindow
    else emit SetCancelled
  else ret tt.

(** The start of the constructor: the check made for the log, and the setting
    for all users. *)
Definition setup : script unit :=
  when (isInstaller || isUpdater) (let* _ := appInstalled in ret tt) ;;;
  let* windows := runningOnWindows in
  when windows (installer_setValue (js "AllUsers") (js "true")).

Definition hide_pages : script unit :=
  setDefaultPageVisible ComponentSelection false ;;;
  setDefaultPageVisible TargetDirectory false ;;;
  setDefaultPageVisible StartMenuDirectoryPage false ;;;
  setDefaultPageVisible LicenseCheck false.

Definition Controller (fuel : nat) : script unit :=
  setup ;;;
  if isInstaller then
    hide_pages ;;;
    isDesktopAppProcessRunningMessageLoop fuel ;;;
    let* quit := gets requestToQuitFromApp in
    if quit then requestToQuit else install_over
  else if isUninstaller then
    isDesktopAppProcessRunningMessageLoop fuel ;;;
    let* quit := gets requestToQuitFromApp in
    when quit requestToQuit
  else if isUpdater then
    emit (AutoAnswer "cancelInstallation" No) ;;;
    emit (Connect "installationFinished")
  else ret tt.

(** ** Specification *)

(** How often the user has asked to try again. *)
Definition retries (h : History) : nat :=
  length (List.filter (fun e => match e with MessageBox _ Retry => true | _ => false end) h).

(** A call that looks for a file. *)
Definition is_check (e : Event) : bool := match e with FileExists _ _ => true | _ => false end.

(** The calls [t] of a run show that no uninstaller was there when last looked
    for. *)
Definition nothing_installed (g : Globals) (t : History) : Prop :=
  exists t0 t1,
    t = t0 ++ [FileExists (appInstalledUninstallerPath g) false;
               FileExists (appInstalledUninstallerPath_x86 g) false] ++ t1
    /\ Forall (fun e => is_check e = false) t1.

(** The start of an uninstaller where it was found. *)
Definition started (path : option jsstring) (found : bool) (result : option (jsstring * Z)) : History :=
  FileExists path found :: if found then [Execute (default (js "undefined") path) [] result] else [].

Definition success (result : option (jsstring * Z)) : Prop := exists out, result = Some (out, 0).

(** The wait for the removal: rounds of a tenth of a second in which the file is
    still there, at most [n], or fewer and then one where it is gone. *)
Fixpoint still_there (path : option jsstring) (k : nat) : History :=
  match k with O => [] | S k' => Sleep 100 :: FileExists path true :: still_there path k' end.

Definition waited (path : option jsstring) (n : nat) (t : History) : Prop :=
  t = still_there path n
  \/ exists k, (k < n)%nat /\ t = still_there path k ++ [Sleep 100; FileExists path false].

(** The uninstallers that were found were run, the last of them with success, and
    then the removal of the second was waited for. *)
Definition uninstalled (g : Globals) (t : History) : Prop :=
  exists t0 found_x86 result_x86 found result tw t1,
    t = t0 ++ started (appInstalledUninstallerPath_x86 g) found_x86 result_x86
          ++ started (appInstalledUninstallerPath g) found result ++ tw ++ t1
    /\ (if found then success result else found_x86 = true /\ success result_x86)
    /\ waited (appInstalledUninstallerPath g) 300 tw
    /\ Forall (fun e => is_check e = false) t1.

(** The user agreed before. *)
Definition agreed_and_uninstalled (g : Globals) (t : History) : Prop :=
  exists t0 title t1, t = t0 ++ MessageBox title Ok :: t1 /\ uninstalled g t1.

(** A look at the processes, after the calls [h], that does not show the
    application: on Windows its file is not in the list of the tasks (which is also
    so where there is no list), and elsewhere the first line of what pgrep writes for
    its name is not a number from two on. *)
Definition app_file (h : History) : jsstring :=
  if bool_decide (value h (js "os") = js "win") then value h (js "Name") ++ js ".exe" else value h (js "Name").

Definition not_seen (h : History) (e : Event) : Prop :=
  if bool_decide (value h (js "os") = js "win") then
    exists result, e = Execute (js "tasklist") [] result
      /\ forall out, result = Some (out, 0) -> ~ occurs (app_file (h ++ [e])) out
  else
    exists out code line rest,
      e = Execute (js "/bin/bash") [js "-c"; js "pgrep -x '" ++ value h (js "Name") ++ js "'"] (Some (out, code))
      /\ trim out = line ++ rest /\ (10 ∉ line) /\ (rest = [] \/ exists rest', rest = 10 :: rest')
      /\ forall n, js_Number line = Some n -> Qlt n 2.

(** A Windows machine on which both uninstallers are present, the one of the
    32-bit program fails, and the user agrees to everything. *)
Definition native_path : jsstring := js "C:/Program Files/Fresh VPN/maintenancetool.exe".
Definition x86_path : jsstring := js "C:/Program Files (x86)/Fresh VPN/maintenancetool.exe".

Definition was_run (p : jsstring) (h : History) : bool :=
  existsb (fun e => match e with Execute q _ _ => bool_decide (p = q) | _ => false end) h.

Definition windows_value (k : jsstring) : jsstring :=
  if bool_decide (k = js "os") then js "win"
  else if bool_decide (k = js "Name") then js "Fresh VPN"
  else if bool_decide (k = js "RootDir") then js "C:/"
  else [].

Definition last_value (h : History) (k : jsstring) : jsstring :=
  fold_left (fun v e => match e with
                        | SetValue k' v' => if bool_decide (k = k') then v' else v
                        | _ => v
                        end) h (windows_value k).

Definition windows_env (x86 : bool) : Env := {|
  value := last_value;
  fileExists := fun h p =>
    bool_decide (p = Some native_path) && negb (was_run native_path h)
    || x86 && bool_decide (p = Some x86_path);
  execute := fun h p _ => Some ([], if bool_decide (p = x86_path) then 1 else 0);
  message_box := fun _ _ => Ok;
  isInstaller := true;
  isUninstaller := false;
  isUpdater := false;
  targetDirectoryText := fun _ => Some (js "D:\Apps");
  currentPageWidget := fun _ => true;
  gainAdminRights := fun _ => true;
  status_success := fun _ => true;
  findPath := fun _ _ => [];
  desktopLocation := js "C:/Users/Public/Desktop";
  kernelType := js "winnt";
  currentCpuArchitecture := js "x86_64";
  number_other := fun _ => None;
  print_other := fun _ => []
|}.

Definition start : State Event Globals := mkState globals0 [].

(** ** Lemmas *)

#[local] Arguments wait_removed : simpl never.
#[local] Arguments updater_poll : simpl never.

#[export] Instance appName_total : Total appName.
Proof. script_solve appName. Qed.
#[export] Instance paths_extends : Extends set_uninstaller_paths.
Proof. script_solve set_uninstaller_paths. Qed.
#[export] Instance paths_total : Total set_uninstaller_paths.
Proof. script_solve set_uninstaller_paths. Qed.
#[export] Instance appInstalled_extends : Extends appInstalled.
Proof. script_solve appInstalled. Qed.
#[export] Instance appInstalled_total : Total appInstalled.
Proof. script_solve appInstalled. Qed.
#[export] Instance process_extends : Extends appProcessIsRunning.
Proof. script_solve appProcessIsRunning. Qed.
#[export] Instance process_keeps {C} (f : Globals -> C) : Keeps f appProcessIsRunning.
Proof. script_solve appProcessIsRunning. Qed.
#[export] Instance raise_extends : Extends raiseInstallerWindow.
Proof. script_solve raiseInstallerWindow. Qed.
#[export] Instance raise_total : Total raiseInstallerWindow.
Proof. script_solve raiseInstallerWindow. Qed.
#[export] Instance raise_keeps {C} (f : Globals -> C) : Keeps f raiseInstallerWindow.
Proof. script_solve raiseInstallerWindow. Qed.
#[export] Instance paths_keeps_quit : Keeps requestToQuitFromApp set_uninstaller_paths.
Proof. script_solve set_uninstaller_paths. Qed.
#[export] Instance paths_keeps_running : Keeps desktopAppProcessRunning set_uninstaller_paths.
Proof. script_solve set_uninstaller_paths. Qed.
#[export] Instance appInstalled_keeps_quit : Keeps requestToQuitFromApp appInstalled.
Proof. script_solve appInstalled. Qed.
#[export] Instance appInstalled_keeps_running : Keeps desktopAppProcessRunning appInstalled.
Proof. script_solve appInstalled. Qed.

#[export] Instance wait_extends (n : nat) : Extends (wait_removed n).
Proof. induction n; script_solve wait_removed. Qed.
#[export] Instance wait_total (n : nat) : Total (wait_removed n).
Proof. induction n; script_solve wait_removed. Qed.
#[export] Instance wait_keeps {C} (f : Globals -> C) (n : nat) : Keeps f (wait_removed n).
Proof. induction n; script_solve wait_removed. Qed.

#[export] Instance run_uninstaller_total p r : Total (run_uninstaller p r).
Proof. script_solve run_uninstaller. Qed.
#[export] Instance run_uninstaller_keeps {C} (f : Globals -> C) p r : Keeps f (run_uninstaller p r).
Proof. script_solve run_uninstaller. Qed.
#[export] Instance run_uninstaller_extends p r : Extends (run_uninstaller p r).
Proof. script_solve run_uninstaller. Qed.
#[export] Instance remove_old_extends : Extends remove_old.
Proof. script_solve remove_old. Qed.
#[export] Instance remove_old_total : Total remove_old.
Proof. script_solve remove_old. Qed.
#[export] Instance remove_old_keeps_quit : Keeps requestToQuitFromApp remove_old.
Proof. script_solve remove_old. Qed.
#[export] Instance remove_old_keeps_running : Keeps desktopAppProcessRunning remove_old.
Proof. script_solve remove_old. Qed.
#[export] Instance install_over_total : Total install_over.
Proof. script_solve install_over. Qed.
#[export] Instance install_over_keeps_quit : Keeps requestToQuitFromApp install_over.
Proof. script_solve install_over. Qed.
#[export] Instance install_over_keeps_running : Keeps desktopAppProcessRunning install_over.
Proof. script_solve install_over. Qed.
#[export] Instance requestToQuit_total : Total requestToQuit.
Proof. script_solve requestToQuit. Qed.

#[export] Instance poll_extends (n : nat) : Extends (updater_poll n).
Proof. induction n; script_solve updater_poll. Qed.
#[export] Instance poll_keeps_quit (n : nat) : Keeps requestToQuitFromApp (updater_poll n).
Proof. induction n; script_solve updater_poll. Qed.

Lemma paths_history s u s' : set_uninstaller_paths s = Done u s' -> history s' = history s.
Proof.
  unfold set_uninstaller_paths, runningOnWindows, runningOnMacOS, runningOnLinux, appName,
    installer_value.
  intros Hr. script_inv. repeat (case_match; script_inv; simpl); done.
Qed.

(** A check that finds nothing has looked at both paths. *)
Lemma appInstalled_false s s' :
  appInstalled s = Done false s' ->
  history s' = history s ++ [FileExists (appInstalledUninstallerPath (globals s')) false;
                             FileExists (appInstalledUninstallerPath_x86 (globals s')) false].
Proof.
  unfold appInstalled, installer_fileExists. intros Hr. script_inv.
  destruct (fileExists _ _) eqn:E; script_inv. simpl.
  match goal with Hp : set_uninstaller_paths _ = _ |- _ => apply paths_history in Hp as <- end.
  rewrite <- app_assoc. simpl. congruence.
Qed.

Lemma run_uninstaller_run path prev s r s' :
  run_uninstaller path prev s = Done r s' ->
  exists found, (found = false -> r = prev) /\ history s' = history s ++ started path found r.
Proof.
  unfold run_uninstaller, installer_fileExists, installer_execute. intros Hr. script_inv.
  destruct (fileExists _ _) eqn:E; script_inv; [exists true | by exists false].
  split; [done|]. by rewrite <- app_assoc.
Qed.

Lemma wait_history (n : nat) s u s' :
  wait_removed n s = Done u s' ->
  globals s' = globals s
  /\ exists t, history s' = history s ++ t /\ waited (appInstalledUninstallerPath (globals s)) n t.
Proof.
  revert s. induction n as [|n IH]; intros s.
  - intros [= <- <-]. split; [done|]. exists []. rewrite app_nil_r. split; [done|]. by left.
  - unfold wait_removed; fold wait_removed. unfold sleep, installer_fileExists. intros Hr. script_inv.
    set (p := appInstalledUninstallerPath (globals s)) in *.
    destruct (fileExists _ p) eqn:E; script_inv.
    + apply IH in Hr as (Hg & t & Et & Hw). cbn [globals history] in *. split; [done|].
      exists (Sleep 100 :: FileExists p true :: t). rewrite Et, <- !app_assoc. split; [done|].
      destruct Hw as [-> | (k & Hk & ->)]; [by left|]. right. exists (S k). split; [lia|done].
    + split; [done|]. exists [Sleep 100; FileExists p false]. rewrite <- app_assoc. split; [done|].
      right. exists 0%nat. split; [lia|done].
Qed.

(** The constructor goes on only where nothing was left to remove, or an
    uninstaller has ended with success. *)
Lemma remove_old_true s s' :
  remove_old s = Done true s' ->
  exists t, history s' = history s ++ t /\
    (t = [FileExists (appInstalledUninstallerPath (globals s')) false;
          FileExists (appInstalledUninstallerPath_x86 (globals s')) false]
     \/ uninstalled (globals s') t).
Proof.
  unfold remove_old. intros (b & s1 & Hi & Hr)%bind_Done. destruct b.
  2: { script_inv. eexists. split; [by apply appInstalled_false|by left]. }
  destruct (appInstalled_extends _ _ _ Hi) as [t0 E0].
  apply bind_Done in Hr as (? & ? & [= <- <-] & (r1 & s2 & H1 & Hr)%bind_Done).
  apply bind_Done in Hr as (? & ? & [= <- <-] & (r2 & s3 & H2 & Hr)%bind_Done).
  pose proof (keeps_run (f := id) _ _ _ H1) as G1. pose proof (keeps_run (f := id) _ _ _ H2) as G2.
  unfold id in G1, G2. destruct r2 as [[out [|?|?]]|]; [|script_inv..].
  apply bind_Done in Hr as (? & s4 & (G3 & tw & E3 & Hw)%wait_history & [= <-]).
  rewrite G2, G1 in G3, Hw. rewrite G1 in H2. rewrite G3.
  apply run_uninstaller_run in H1 as (f1 & H1 & E1), H2 as (f2 & H2 & E2).
  exists (t0 ++ started (appInstalledUninstallerPath_x86 (globals s1)) f1 r1
         ++ started (appInstalledUninstallerPath (globals s1)) f2 (Some (out, 0)) ++ tw).
  split; [by rewrite E3, E2, E1, E0, <- !app_assoc|]. right.
  exists t0, f1, r1, f2, (Some (out, 0)), tw, []. rewrite app_nil_r. split_and!; [done| |done|done].
  destruct f2; [by exists out|]. specialize (H2 eq_refl). destruct f1; [|by rewrite H1 in H2].
  split; [done|]. by exists out.
Qed.

(** An uninstaller that fails or is not found leads to cancellation. *)
Lemma remove_old_false s s' :
  remove_old s = Done false s' -> exists t, history s' = history s ++ t ++ [SetCancelled].
Proof.
  unfold remove_old. intros (b & s1 & Hi & Hr)%bind_Done. destruct b; [|script_inv].
  destruct (appInstalled_extends _ _ _ Hi) as [t0 E0].
  apply bind_Done in Hr as (? & ? & [= <- <-] & (r1 & s2 & H1 & Hr)%bind_Done).
  apply bind_Done in Hr as (? & ? & [= <- <-] & (r2 & s3 & H2 & Hr)%bind_Done).
  destruct (extends_run _ _ _ H1) as [ta Ea], (extends_run _ _ _ H2) as [tb Eb].
  assert (Hc : (emit SetCancelled ;;; ret false) s3 = Done false s').
  { destruct r2 as [[out [|?|?]]|]; [script_inv|done..]. }
  clear Hr. script_inv. exists (t0 ++ ta ++ tb). by rewrite Eb, Ea, E0, !app_assoc.
Qed.

Lemma raise_no_checks s u s' :
  raiseInstallerWindow s = Done u s' ->
  globals s' = globals s
  /\ exists t, history s' = history s ++ t /\ Forall (fun e => is_check e = false) t.
Proof.
  unfold raiseInstallerWindow, installer_execute, runningOnMacOS, appName, installer_value.
  intros Hr. script_inv. repeat (case_match; script_inv); (split; [done|]); simpl.
  - exists []. by rewrite app_nil_r.
  - eexists. rewrite <- app_assoc. split; [done|]. by repeat constructor.
  - eexists. split; [done|]. by repeat constructor.
  - eexists. split; [done|]. by repeat constructor.
Qed.

Lemma uninstalled_app_r (g : Globals) (t t' : History) :
  uninstalled g t -> Forall (fun e => is_check e = false) t' -> uninstalled g (t ++ t').
Proof.
  intros (t0 & f1 & r1 & f2 & r2 & tw & t1 & -> & Hs & Hw & Hc) Hc'.
  exists t0, f1, r1, f2, r2, tw, (t1 ++ t'). split_and!; [by rewrite <- !app_assoc|done|done|].
  by apply Forall_app.
Qed.

(** The end of [install_over], after the user has agreed. *)
Lemma replace_run s u s' t :
  (let* continue := remove_old in when continue raiseInstallerWindow) s = Done u s' ->
  history s' = history s ++ t -> SetCancelled ∉ t ->
  nothing_installed (globals s') t \/ uninstalled (globals s') t.
Proof.
  intros (b & s1 & Hr & Hw)%bind_Done Et Hno. destruct b; cbn [when] in Hw.
  - apply remove_old_true in Hr as (t1 & E1 & Hr).
    apply raise_no_checks in Hw as (Eg & t2 & E2 & Hc).
    assert (t = t1 ++ t2) as ->.
    { apply (app_inv_head (history s)). by rewrite <- Et, E2, E1, app_assoc. }
    rewrite Eg. destruct Hr as [-> | Hr]; [left|right; by apply uninstalled_app_r].
    by exists [], t2.
  - script_inv. apply remove_old_false in Hr as (t1 & E1).
    assert (t = t1 ++ [SetCancelled]) as ->.
    { apply (app_inv_head (history s)). by rewrite <- Et, E1. }
    exfalso. apply Hno, elem_of_app. right. left.
Qed.

(** What [install_over] has done where it did not cancel. *)
Lemma install_over_run s u s' t :
  install_over s = Done u s' -> history s' = history s ++ t -> SetCancelled ∉ t ->
  nothing_installed (globals s') t \/ agreed_and_uninstalled (globals s') t.
Proof.
  unfold install_over. intros (mac & s1 & Hm & (? & s2 & Ha & Hr)%bind_Done)%bind_Done Et Hno.
  assert (exists t0, history s2 = history s ++ t0) as [t0 E0].
  { destruct (extends_run _ _ _ Hm) as [ta Ea], (extends_run _ _ _ Ha) as [tb Eb].
    exists (ta ++ tb). by rewrite Eb, Ea, app_assoc. }
  apply bind_Done in Hr as (b & s3 & Hi & Hr). destruct b.
  - destruct (appInstalled_extends _ _ _ Hi) as [t1 E1].
    apply bind_Done in Hr as (name & s4 & [= <- <-] & (ans & s5 & [-> ->]%call_Done & Hr)%bind_Done).
    destruct (bool_decide_reflect (message_box (history s3) (value (history s3) (js "Name")) = Ok))
      as [Eok|_].
    + rewrite Eok in Hr. destruct (extends_run _ _ _ Hr) as [t2 E2].
      pose proof (replace_run _ _ _ t2 Hr E2) as Hd. cbn [history] in E2.
      set (m := MessageBox _ Ok) in *. assert (t = t0 ++ t1 ++ m :: t2) as ->.
      { apply (app_inv_head (history s)). by rewrite <- Et, E2, E1, E0, <- !app_assoc. }
      destruct Hd as [(ta & tb & -> & Hc)|Hu].
      * intros Hin. apply Hno. rewrite !elem_of_app, elem_of_cons. auto.
      * left. exists (t0 ++ t1 ++ m :: ta), tb. split; [|done]. by rewrite <- !app_assoc.
      * right. eexists (t0 ++ t1), _, t2. split; [by rewrite <- app_assoc|done].
    + exfalso. script_inv. cbn [history] in Et. apply Hno.
      rewrite E1, E0, <- !app_assoc in Et. apply app_inv_head in Et as <-.
      rewrite !elem_of_app. right. right. right. left.
  - left. script_inv. apply appInstalled_false in Hi. exists t0, []. split; [|done].
    apply (app_inv_head (history s)). by rewrite <- Et, Hi, E0, <- !app_assoc.
Qed.

#[export] Instance loop_extends (fuel : nat) : Extends (isDesktopAppProcessRunningMessageLoop fuel).
Proof. induction fuel; script_solve isDesktopAppProcessRunningMessageLoop. Qed.

(** What the code takes for the end of the application is a look at the processes
    that does not show it. *)
Lemma first_line_spec (s : jsstring) :
  let line := (fix first_line (s : jsstring) :=
    match s with c :: s' => if c =? 10 then [] else c :: first_line s' | [] => [] end) s in
  exists rest, s = line ++ rest /\ (10 ∉ line) /\ (rest = [] \/ exists rest', rest = 10 :: rest').
Proof.
  induction s as [|c s (rest & E & Hn & Hr)]; cbv zeta.
  - exists []. split_and!; [done|apply not_elem_of_nil|by left].
  - destruct (Z.eqb_spec c 10) as [->|Hc].
    + exists (10 :: s). split_and!; [done|apply not_elem_of_nil|right; by eexists].
    + exists rest. split_and!; [cbn; by f_equal| |done].
      apply not_elem_of_cons. split; [congruence|exact Hn].
Qed.

Lemma process_not_seen s s' :
  appProcessIsRunning s = Done false s' ->
  exists e, history s' = history s ++ [e] /\ not_seen (history s) e.
Proof.
  unfold appProcessIsRunning, runningOnWindows, checkProcessIsRunning, installer_value, appName, not_seen.
  intros (w & ? & (? & ? & [= <- <-] & [= <- <-])%bind_Done & Hr)%bind_Done.
  destruct (bool_decide (value (history s) (js "os") = js "win")).
  - apply bind_Done in Hr as (r & s1 & [-> ->]%call_Done & Hr). set (r := execute _ _ _) in *.
    exists (Execute (js "tasklist") [] r). assert (Hg : history s' = history s ++ [Execute (js "tasklist") [] r]).
    { unfold appExecutableFileName, runningOnWindows, appName, installer_value in Hr.
      repeat (case_match; script_inv); done. }
    split; [done|]. exists r. split; [done|]. clearbody r. intros out ->. cbn [Z.eqb] in Hr.
    unfold appExecutableFileName, runningOnWindows, appName, installer_value in Hr. script_inv.
    unfold app_file. rewrite <- indexOf_occurs. intros Hf. cbn [history] in *.
    match goal with Hn : negb _ = false |- _ => apply negb_false_iff, Z.eqb_eq in Hn end. lia.
  - apply bind_Done in Hr as (name & ? & [= <- <-] & Hr).
    apply bind_Done in Hr as (r & s1 & [-> ->]%call_Done & Hr).
    destruct (execute _ _ _) as [[out code]|]; [|discriminate Hr].
    pose proof (first_line_spec (trim out)) as (rest & E & Hn & Hrest).
    injection Hr as Hf <-. eexists. split; [done|]. eexists out, code, _, rest. split_and!; [done|exact E|exact Hn|done|].
    intros n Hnum. rewrite Hnum in Hf. cbn [num_geb] in Hf.
    apply Qnot_le_lt. intros Hle%Qle_bool_iff. change (inject_Z 2) with 2%Q in Hf. congruence.
Qed.

(** The loop ends with the application closed, or with the wish to quit. *)
Lemma loop_closed (fuel : nat) s u s' :
  isDesktopAppProcessRunningMessageLoop fuel s = Done u s' ->
  requestToQuitFromApp (globals s) = false -> requestToQuitFromApp (globals s') = false ->
  exists t e, history s' = history s ++ t ++ [e] /\ not_seen (history s ++ t) e.
Proof.
  revert s. induction fuel as [|fuel IH]; intros s; [discriminate|].
  cbn [isDesktopAppProcessRunningMessageLoop].
  intros (quit & ? & [= <- <-] & Hr)%bind_Done Hq Hq'. rewrite Hq in Hr.
  apply bind_Done in Hr as (? & s1 & H1 & (running & s2 & H2 & Hr)%bind_Done).
  destruct (extends_run _ _ _ H1) as [t1 E1].
  apply bind_Done in Hr as (? & ? & [= <- <-] & Hr). destruct running.
  2: { injection Hr as <- <-. apply process_not_seen in H2 as (e & E2 & He). exists t1, e. cbn [history].
       by rewrite E2, E1, <- app_assoc in *. }
  destruct (extends_run _ _ _ H2) as [t2 E2].
  apply bind_Done in Hr as (? & ? & [= <- <-] & (ans & s3 & [-> ->]%call_Done & Hr)%bind_Done).
  case_bool_decide.
  - apply IH in Hr as (t3 & e & E3 & He); [| |done].
    + cbn [history] in *. rewrite E2, E1, <- !app_assoc in E3, He.
      match type of E3 with _ = _ ++ _ ++ _ ++ ?m ++ _ => exists (t1 ++ t2 ++ m ++ t3), e end.
      split; [by rewrite E3, <- !app_assoc | exact He].
    + cbn. rewrite (keeps_run (f := requestToQuitFromApp) _ _ _ H2).
      by rewrite (keeps_run (f := requestToQuitFromApp) _ _ _ H1).
  - injection Hr as <- <-. discriminate Hq'.
Qed.

Lemma retries_app (h t : History) : retries (h ++ t) = (retries h + retries t)%nat.
Proof. unfold retries. by rewrite List.filter_app, length_app. Qed.

Lemma retries_prefix (h h' : History) : h `prefix_of` h' -> (retries h <= retries h')%nat.
Proof. intros [t ->]. rewrite retries_app. lia. Qed.

(** Where programs start and the user asks to try again at most [patience]
    times, the loop ends. *)
Section Patience.
Context (patience : nat).
Hypothesis startable : forall h p a, execute h p a <> None.
Hypothesis patient : forall h title, (patience <= retries h)%nat -> message_box h title <> Retry.

Lemma process_total : Total appProcessIsRunning.
Proof.
  intros s. unfold appProcessIsRunning, checkProcessIsRunning, runningOnWindows, installer_execute,
    installer_value, appName, appExecutableFileName, bind, query, call, ret.
  repeat (case_match; simplify_eq/=); try by eexists _, _.
  all: by exfalso; eapply startable.
Qed.

Lemma poll_total (n : nat) : Total (updater_poll n).
Proof. pose proof process_total. induction n; script_solve updater_poll. Qed.

Lemma loop_total (fuel : nat) s :
  (patience < retries (history s) + fuel)%nat -> (0 < fuel)%nat ->
  exists s', isDesktopAppProcessRunningMessageLoop fuel s = Done tt s'.
Proof.
  revert s. induction fuel as [|fuel IH]; intros s Hp Hf; [lia|].
  cbn [isDesktopAppProcessRunningMessageLoop]. unfold bind at 1. cbn [gets].
  destruct (requestToQuitFromApp _); [by eexists|].
  pose proof process_total. pose proof poll_total.
  assert (Hw : Total (when isUpdater (updater_poll 400))) by apply _.
  destruct (Hw s) as ([] & s1 & E1), (process_total s1) as (running & s2 & E2).
  unfold bind at 1. rewrite E1. unfold bind at 1. rewrite E2. unfold bind at 1. cbn [modify].
  destruct running; [|by eexists].
  unfold bind, appName, installer_value, query, messageBox, call. cbn [history globals].
  apply extends_run in E1, E2. apply retries_prefix in E1, E2.
  case_bool_decide as Ea; [|by eexists].
  assert (retries (history s2) < patience)%nat.
  { apply Nat.nle_gt. intros Hle. by eapply patient. }
  apply IH; cbn [history]; [|lia]. rewrite retries_app, Ea. unfold retries at 2. simpl. lia.
Qed.

End Patience.

#[export] Instance setup_extends : Extends setup.
Proof. script_solve setup. Qed.
#[export] Instance setup_total : Total setup.
Proof. script_solve setup. Qed.
#[export] Instance setup_keeps_quit : Keeps requestToQuitFromApp setup.
Proof. script_solve setup. Qed.
#[export] Instance hide_pages_total : Total hide_pages.
Proof. script_solve hide_pages. Qed.
#[export] Instance hide_pages_extends : Extends hide_pages.
Proof. script_solve hide_pages. Qed.
#[export] Instance hide_pages_keeps {C} (f : Globals -> C) : Keeps f hide_pages.
Proof. script_solve hide_pages. Qed.

Lemma requestToQuit_quits s u s' :
  requestToQuit s = Done u s' -> requestToQuitFromApp (globals s') = true.
Proof.
  unfold requestToQuit. intros (? & s1 & H1 & Hr)%bind_Done.
  match type of Hr with ?m _ = _ =>
    assert (Hk : Keeps requestToQuitFromApp m) by apply _ end.
  rewrite (Hk _ _ _ Hr). by injection H1 as <- <-.
Qed.

Lemma endsWith_iff (str suffix : jsstring) :
  endsWith str suffix = true <-> exists p, str = p ++ suffix.
Proof.
  unfold endsWith, indexOf_from. set (n := js_length str - js_length suffix).
  set (rest := drop_units n str). rewrite negb_true_iff, Z.eqb_neq.
  assert (Hi : (if indexOf rest suffix <? 0 then -1
                else Z.of_nat (length str - length rest) + indexOf rest suffix) <> -1
               <-> occurs suffix rest).
  { rewrite <- indexOf_occurs. destruct (Z.ltb_spec (indexOf rest suffix) 0); lia. }
  rewrite Hi. clear Hi. split.
  - intros Ho. destruct (drop_units_suffix n str) as (p & E & Hp). fold rest in E.
    exists p. rewrite E. f_equal. symmetry. apply occurs_same_length; [done|].
    pose proof (proj1 (js_length_pos suffix)). pose proof (f_equal js_length E) as El.
    rewrite js_length_app in El. destruct (proj1 (Z.le_lteq 0 (js_length p)) ltac:(apply js_length_pos)); lia.
  - intros (p & ->). unfold rest, n. rewrite js_length_app.
    replace (js_length p + js_length suffix - js_length suffix) with (js_length p) by lia.
    rewrite drop_units_app. apply occurs_refl.
Qed.

(** ** Properties *)

(** C14: when the installer goes on.  Where its constructor ends without cancelling
    or asking to quit, a look at the processes did not show the application, and after
    it either no uninstaller was there when last looked for, or the user agreed, the
    uninstallers that were found were run, the last of them with exit code zero, and
    the removal of the one that is not for the 32-bit program was waited for, thirty
    seconds at most.  Where both are found, the exit code of the 32-bit one is not
    among this: the code does not look at it. *)
Theorem Controller_replaces_old (fuel : nat) s s' t :
  isInstaller = true -> requestToQuitFromApp (globals s) = false ->
  Controller fuel s = Done tt s' -> history s' = history s ++ t ->
  SetCancelled ∉ t -> requestToQuitFromApp (globals s') = false ->
  exists t1 e t2, t = t1 ++ e :: t2 /\ not_seen (history s ++ t1) e
    /\ (nothing_installed (globals s') t2 \/ agreed_and_uninstalled (globals s') t2).
Proof.
  intros Hins Hq Hr Et Hno Hq'. unfold Controller in Hr. rewrite Hins in Hr.
  apply bind_Done in Hr as (? & s1 & H1 & (? & s2 & H2 & (? & s3 & H3 & Hr)%bind_Done)%bind_Done).
  apply bind_Done in Hr as (quit & ? & [= <- <-] & Hr).
  destruct (requestToQuitFromApp (globals s3)) eqn:Eq.
  { apply requestToQuit_quits in Hr. congruence. }
  assert (Hq2 : requestToQuitFromApp (globals s2) = false).
  { by rewrite (keeps_run (f := requestToQuitFromApp) _ _ _ H2),
      (keeps_run (f := requestToQuitFromApp) _ _ _ H1). }
  destruct (loop_closed _ _ _ _ H3 Hq2 Eq) as (t3 & e & E3 & He).
  destruct (extends_run _ _ _ H1) as [t1 E1], (extends_run _ _ _ H2) as [t2 E2],
    (extends_run _ _ _ Hr) as [t4 E4].
  assert (t = (t1 ++ t2 ++ t3) ++ e :: t4) as ->.
  { apply (app_inv_head (history s)). by rewrite <- Et, E4, E3, E2, E1, <- !app_assoc. }
  exists (t1 ++ t2 ++ t3), e, t4. split_and!; [done|by rewrite E2, E1, <- !app_assoc in He|].
  apply (install_over_run _ _ _ t4 Hr E4). intros Hin. apply Hno, elem_of_app. right. by right.
Qed.

(** C34: the constructor ends, if programs can be started and the user does not
    press Retry more than [patience] times while the application runs. *)
Theorem Controller_ends (patience : nat) s :
  (forall h p a, execute h p a <> None) ->
  (forall h title, (patience <= retries h)%nat -> message_box h title <> Retry) ->
  exists s', Controller (S patience) s = Done tt s'.
Proof.
  intros Hst Hpa. unfold Controller.
  destruct (setup_total s) as ([] & s1 & E1). unfold bind at 1. rewrite E1.
  assert (Hl : forall s0, exists s', isDesktopAppProcessRunningMessageLoop (S patience) s0 = Done tt s').
  { intros s0. apply (loop_total patience); [done|done|lia|lia]. }
  destruct isInstaller; [|destruct isUninstaller].
  - destruct (hide_pages_total s1) as ([] & s2 & E2), (Hl s2) as (s3 & E3).
    unfold bind at 1. rewrite E2. unfold bind at 1. rewrite E3. unfold bind at 1. cbn [gets].
    assert (Ht : Total (if requestToQuitFromApp (globals s3) then requestToQuit else install_over))
      by apply _.
    destruct (Ht s3) as ([] & s' & ->). eauto.
  - destruct (Hl s1) as (s3 & E3). unfold bind at 1. rewrite E3. unfold bind at 1. cbn [gets].
    assert (Ht : Total (when (requestToQuitFromApp (globals s3)) requestToQuit)) by apply _.
    destruct (Ht s3) as ([] & s' & ->). eauto.
  - assert (Ht : Total (if isUpdater then emit (AutoAnswer "cancelInstallation" No) ;;;
      emit (Connect "installationFinished") else ret tt : Script Event Globals unit)) by apply _.
    destruct (Ht s1) as ([] & s' & ->). eauto.
Qed.

(** on Windows, choosing a directory sets the target to a directory whose
    path ends with the application's name, the chosen one if it already does,
    and shows it; values that are set are assumed to be read back. *)
Theorem browse_target_dir s dir :
  (forall h k v, value (h ++ [SetValue k v]) k = v) ->
  value (history s) (js "os") = js "win" -> targetDirectoryText (history s) = Some dir ->
  let name := value (history s) (js "Name") in
  exists s' target, onBrowseButtonClicked s = Done tt s'
    /\ history s' = history s ++ [SetValue (js "TargetDir") target; SetLineEdit target]
    /\ (exists p, target = p ++ name)
    /\ ((exists p, dir = p ++ name) -> target = dir).
Proof.
  intros Hv Hw Hd name. unfold onBrowseButtonClicked, runningOnWindows, appName, installer_value,
    installer_setValue, emit, call, query, bind, ret.
  rewrite Hd, Hw. rewrite bool_decide_true by done. cbn [history]. rewrite Hv. fold name.
  eexists _, _. split; [reflexivity|]. cbn [history]. rewrite <- app_assoc. split; [reflexivity|].
  pose proof (endsWith_iff dir name) as He. destruct (endsWith dir name).
  - split; [by apply He|done].
  - split; [by exists (dir ++ js "\"); rewrite <- app_assoc|]. intros Hp. by apply He in Hp.
Qed.

End ControlScript.

(** The exit code of the uninstaller of the 32-bit program is dropped where
    the other uninstaller is present too, and the wait for the removal looks at
    the path of the latter only: the installation goes on while the old 32-bit
    installation, whose removal failed, is still there. *)
Theorem Controller_x86_failure_ignored :
  exists s', @Controller (windows_env true) 1 start = Done tt s'
    /\ Execute x86_path [] (Some ([], 1)) ∈ history s'
    /\ SetCancelled ∉ history s' /\ requestToQuitFromApp (globals s') = false
    /\ @fileExists (windows_env true) (history s') (Some x86_path) = true.
Proof.
  eexists. split; [vm_compute; reflexivity|]. cbn [history globals requestToQuitFromApp].
  split_and!; [|  |reflexivity|vm_compute; reflexivity].
  - repeat (left || right).
  - intros Hin. repeat (apply elem_of_cons in Hin as [Hin|Hin]; [discriminate Hin|]).
    by apply not_elem_of_nil in Hin.
Qed.

Lemma Controller_replaces_old_witness :
  exists s' t1 e t2, @Controller (windows_env false) 1 start = Done tt s'
    /\ history s' = t1 ++ e :: t2 /\ not_seen (H := windows_env false) t1 e
    /\ (nothing_installed (globals s') t2 \/ agreed_and_uninstalled (globals s') t2).
Proof.
  eexists.
  edestruct (@Controller_replaces_old (windows_env false) 1 start) as (t1 & e & t2 & Ht & He & Hd);
    [reflexivity|reflexivity|vm_compute; reflexivity|reflexivity| |reflexivity|].
  { intros Hin. repeat (apply elem_of_cons in Hin as [Hin|Hin]; [discriminate Hin|]).
    by apply not_elem_of_nil in Hin. }
  exists t1, e, t2. split; [vm_compute; reflexivity|]. split; [exact Ht|]. split; [exact He|exact Hd].
Defined.

Lemma Controller_ends_witness : exists s', @Controller (windows_env true) 1 start = Done tt s'.
Proof. apply (@Controller_ends (windows_env true) 0 start); discriminate. Defined.

Lemma last_value_set (h : History) (k v : jsstring) : last_value (h ++ [SetValue k v]) k = v.
Proof. unfold last_value. rewrite fold_left_app. simpl. by rewrite bool_decide_true. Qed.

Lemma browse_target_dir_witness :
  exists s' target, @onBrowseButtonClicked (windows_env true) start = Done tt s'
    /\ exists p, target = p ++ js "Fresh VPN".
Proof.
  edestruct (@browse_target_dir (windows_env true) start (js "D:\Apps")) as (s' & target & H1 & _ & H2 & _);
    [apply last_value_set|reflexivity|reflexivity|].
  exists s', target. split; [exact H1|exact H2].
Defined.
