(* ===== verification/ComponentScript.v ===== *)
(** * The component script of the installer

    deploy/installer/qif/componentscript.js: the operations that install the
    application and register its service, and what happens when the installer
    is closed.  Lines for the log are not modelled.  An argument of an operation
    that is an array is a list; the other arguments are lists of one string. *)

From stdpp Require Import base numbers list.
From Stdlib Require Import ZArith Lia.
From S2P Require Import Prelude JsText Script InstallerEnv.
Open Scope Z_scope.
Open Scope script_scope.

Section ComponentScript.
Context `{Env}.

Abbreviation script := (Script Event unit).

Definition appName : script jsstring := installer_value "Name".

Definition serviceName : script jsstring := let* name := appName in ret (name ++ js "-service").

Definition runningOnWindows : bool := bool_decide (kernelType = js "winnt").
Definition runningOnMacOS : bool := bool_decide (kernelType = js "darwin").
Definition runningOnLinux : bool := bool_decide (kernelType = js "linux").

Definition appExecutableFileName : script jsstring :=
  let* name := appName in ret (if runningOnWindows then name ++ js ".exe" else name).

Definition vcRuntimeIsInstalled : script bool :=
  let* root := installer_value "RootDir" in
  ret (negb (js_length (findPath (js "msvcp140.dll") (root ++ js "\Windows\System32\")) =? 0)).

Definition Component : script unit :=
  emit (Connect "component.loaded") ;;;
  emit (Connect "installer.installationFinished") ;;;
  emit (Connect "installer.finishButtonClicked").

Definition componentLoaded : script unit := ret tt.

Definition installationFinishedPageIsShown : script unit :=
  let* success := query status_success in
  when (isInstaller && success) (clickButton FinishButton).

Definition addOperation (args : list (list jsstring)) : script unit := emit (AddOperation false args).
Definition addElevatedOperation (args : list (list jsstring)) : script unit :=
  emit (AddOperation true args).

(** [replace(/\//g, '\\')]. *)
Definition backslashes (s : jsstring) : jsstring := map (fun c => if c =? 47 then 92 else c) s.

(** The shortcuts on the desktop and in the start menu. *)
Definition shortcut (exe target : jsstring) : list (list jsstring) :=
  [[js "CreateShortcut"]; [js "@TargetDir@/" ++ exe]; [target];
   [js "workingDirectory=@TargetDir@"]; [js "iconPath=@TargetDir@\" ++ exe]; [js "iconId=0"]].

Definition vc_redist (installer_file : text) : list (list jsstring) :=
  [[js "Execute"]; [js "@TargetDir@\" ++ js installer_file]; [js "/install"]; [js "/quiet"];
   [js "/norestart"]; [js "/log"]; [js "vc_redist.log"]].

Definition windows_operations : script unit :=
  let* exe := appExecutableFileName in
  let* name := appName in
  addOperation (shortcut exe (desktopLocation ++ js "/" ++ name ++ js ".lnk")) ;;;
  let* exe' := appExecutableFileName in
  let* startMenu := installer_value "AllUsersStartMenuProgramsPath" in
  let* name' := appName in
  addElevatedOperation (shortcut exe' (startMenu ++ js "/" ++ name' ++ js ".lnk")) ;;;
  let* vc := vcRuntimeIsInstalled in
  when (negb vc)
    (if indexOf currentCpuArchitecture (js "64") <? 0
     then addElevatedOperation (vc_redist "vc_redist.x86.exe")
     else addElevatedOperation (vc_redist "vc_redist.x64.exe")) ;;;
  let* target := installer_value "TargetDir" in
  let pu_path := backslashes target ++ js "\" in
  let* service := serviceName in
  addElevatedOperation
    [[js "Execute"];
     [js "sc"; js "create"; service; js "binpath="; pu_path ++ service ++ js ".exe";
      js "start="; js "auto"; js "depend="; js "BFE/nsi"];
     [js "UNDOEXECUTE"]; [js "cmd"]; [js "/c"]; [pu_path ++ js "post_uninstall.cmd"]] ;;;
  addElevatedOperation [[js "Execute"]; [js "cmd"]; [js "/c"]; [pu_path ++ js "post_install.cmd"]].

Definition createOperations : script unit :=
  emit DefaultOperations ;;;
  if runningOnWindows then windows_operations
  else if runningOnMacOS then
    addElevatedOperation
      [[js "Execute"]; [js "@TargetDir@/post_install.sh"]; [js "UNDOEXECUTE"];
       [js "@TargetDir@/post_uninstall.sh"]]
  else if runningOnLinux then
    addElevatedOperation
      [[js "Execute"]; [js "bash"]; [js "@TargetDir@/post_install.sh"]; [js "UNDOEXECUTE"];
       [js "bash"]; [js "@TargetDir@/post_uninstall.sh"]]
  else ret tt.

(** The calls made with administrator rights, and the command to start. *)
Definition elevated_part : script jsstring :=
  let* name := appName in
  if runningOnWindows then
    let* exe := appExecutableFileName in
    let* service := serviceName in
    let* _ := installer_execute (js "net") [js "start"; service] in
    let* service' := serviceName in
    let* _ := installer_execute (js "sc")
      [js "failure"; service'; js "reset="; js "100"; js "actions=";
       js "restart/2000/restart/2000/restart/2000"] in
    ret (js "@TargetDir@/" ++ exe)
  else if runningOnMacOS then
    ret (js "/Applications/" ++ name ++ js ".app/Contents/MacOS/" ++ name)
  else if runningOnLinux then ret (js "@TargetDir@/client/" ++ name)
  else ret [].

Definition installationFinished : script unit :=
  let* success := query status_success in
  if success && (isInstaller || isUpdater) then
    let* granted := call gainAdminRights GainAdminRights in
    if granted then
      let* command := elevated_part in
      emit DropAdminRights ;;;
      let* dir := installer_value "TargetDir" in
      emit (ExecuteDetached command [] dir)
    else ret tt
  else ret tt.

(** ** Specification *)

(** No program is left running with administrator rights: whenever one is
    detached, the rights have been dropped.  [rights] says whether they are held
    before. *)
Fixpoint least_privilege (rights : bool) (t : History) : bool :=
  match t with
  | [] => negb rights
  | GainAdminRights granted :: t' => least_privilege granted t'
  | DropAdminRights :: t' => least_privilege false t'
  | ExecuteDetached _ _ _ :: t' => negb rights && least_privilege rights t'
  | _ :: t' => least_privilege rights t'
  end.

(** The program that the calls end with. *)
Definition launches (t : History) (command : jsstring) : Prop :=
  exists t0 dir, t = t0 ++ [ExecuteDetached command [] dir].

Definition launch_command (name : jsstring) : jsstring :=
  if runningOnWindows then js "@TargetDir@/" ++ name ++ js ".exe"
  else if runningOnMacOS then js "/Applications/" ++ name ++ js ".app/Contents/MacOS/" ++ name
  else if runningOnLinux then js "@TargetDir@/client/" ++ name
  else [].

(** An elevated operation that is undone by a command whose last word ends with
    [script]. *)
Definition registers_undo (script : text) (e : Event) : Prop :=
  exists op1 op2 p, e = AddOperation true (op1 ++ [js "UNDOEXECUTE"] :: op2 ++ [[p ++ js script]]).

(** An operation that runs an installer. *)
Definition installs_program (e : Event) : bool :=
  match e with
  | AddOperation _ ([w] :: _ :: [a] :: _) =>
      bool_decide (w = js "Execute") && bool_decide (a = js "/install")
  | _ => false
  end.

(** Whether the runtime is found below the system directory [root]. *)
Definition has_runtime (root : jsstring) : bool :=
  negb (js_length (findPath (js "msvcp140.dll") (root ++ js "\Windows\System32\")) =? 0).

(** A Linux machine with the application in its usual place. *)
Definition linux_env : Env := {|
  value := fun _ k => if bool_decide (k = js "Name") then js "FreshVPN" else [];
  fileExists := fun _ _ => false;
  execute := fun _ _ _ => Some ([], 0);
  message_box := fun _ _ => Ok;
  isInstaller := true;
  isUninstaller := false;
  isUpdater := false;
  targetDirectoryText := fun _ => None;
  currentPageWidget := fun _ => true;
  gainAdminRights := fun _ => true;
  status_success := fun _ => true;
  findPath := fun _ _ => [];
  desktopLocation := [];
  kernelType := js "linux";
  currentCpuArchitecture := js "x86_64";
  number_other := fun _ => None;
  print_other := fun _ => []
|}.

(** ** Lemmas *)

Lemma undo_words (script : text) a b c d (p q : jsstring) :
  registers_undo script
    (AddOperation true [a; b; [js "UNDOEXECUTE"]; c; d; [p ++ q ++ js script]]).
Proof. exists [a; b], [c; d], (p ++ q). by rewrite <- app_assoc. Qed.

(** ** Properties *)

(** C33: when the installer is closed after a success, the application is started
    without administrator rights: the rights that were granted are dropped before
    it is detached, the service is set up before that, and the command is the one
    of the system at hand.  Where the rights are refused, or nothing was
    installed, nothing is run. *)
Theorem installationFinished_launch s :
  exists t, installationFinished s = Done tt (mkState tt (history s ++ t))
    /\ least_privilege false t = true
    /\ (status_success (history s) && (isInstaller || isUpdater) = false -> t = [])
    /\ (status_success (history s) && (isInstaller || isUpdater) = true ->
        if gainAdminRights (history s)
        then launches t (launch_command (value (history s ++ [GainAdminRights true]) (js "Name")))
        else t = [GainAdminRights false]).
Proof.
  destruct s as [[] h].
  unfold installationFinished, launch_command, launches, elevated_part, appExecutableFileName,
    serviceName, appName, installer_value, installer_execute, emit, call, query, bind, ret.
  cbv beta iota delta [history globals].
  destruct (status_success h && (isInstaller || isUpdater)).
  2: { exists []. rewrite app_nil_r. split_and!; done. }
  destruct (gainAdminRights h).
  2: { eexists. split_and!; [reflexivity|reflexivity|done|done]. }
  destruct runningOnWindows; [|destruct runningOnMacOS; [|destruct runningOnLinux]];
    rewrite <- !app_assoc; eexists;
    (split_and!; [reflexivity|reflexivity|done|]); intros _; cbn [app].
  - by eexists [_; _; _; _], _.
  - by eexists [_; _], _.
  - by eexists [_; _], _.
  - by eexists [_; _], _.
Qed.

(** C36: what the installer sets up with administrator rights can be undone: on
    Windows, macOS and Linux an elevated operation is registered that runs the
    system's clean-up script on removal.  The C++ runtime is installed on Windows
    exactly where it is missing, in the version for the processor. *)
Theorem createOperations_undoable (root : jsstring) s :
  (forall h, value h (js "RootDir") = root) ->
  runningOnWindows || runningOnMacOS || runningOnLinux = true ->
  exists t, createOperations s = Done tt (mkState tt (history s ++ t))
    /\ Exists (registers_undo
         (if runningOnWindows then "post_uninstall.cmd" else "post_uninstall.sh")) t
    /\ List.filter installs_program t =
         (if runningOnWindows && negb (has_runtime root)
          then [AddOperation true (vc_redist
            (if indexOf currentCpuArchitecture (js "64") <? 0
             then "vc_redist.x86.exe" else "vc_redist.x64.exe"))]
          else []).
Proof.
  intros Hroot Hos. destruct s as [[] h].
  unfold createOperations, windows_operations, vcRuntimeIsInstalled, appExecutableFileName,
    serviceName, appName, installer_value, addOperation, addElevatedOperation, emit, call, query,
    when, bind, ret.
  destruct runningOnWindows; [|destruct runningOnMacOS; [|destruct runningOnLinux; [|done]]];
    cbv beta iota delta [history globals].
  - rewrite Hroot. fold (has_runtime root).
    destruct (has_runtime root), (indexOf currentCpuArchitecture (js "64") <? 0);
      cbn [negb andb]; rewrite <- !app_assoc; eexists; (split; [reflexivity|]); cbn [app];
      (split; [|reflexivity]); do 3 apply Exists_cons_tl.
    + apply Exists_cons_hd. apply undo_words.
    + apply Exists_cons_hd. apply undo_words.
    + apply Exists_cons_tl, Exists_cons_hd. apply undo_words.
    + apply Exists_cons_tl, Exists_cons_hd. apply undo_words.
  - rewrite <- app_assoc. eexists. split; [reflexivity|]. split; [|reflexivity].
    apply Exists_cons_tl, Exists_cons_hd.
    by exists [[js "Execute"]; [js "@TargetDir@/post_install.sh"]], [], (js "@TargetDir@/").
  - rewrite <- app_assoc. eexists. split; [reflexivity|]. split; [|reflexivity].
    apply Exists_cons_tl, Exists_cons_hd.
    by exists [[js "Execute"]; [js "bash"]; [js "@TargetDir@/post_install.sh"]], [[js "bash"]], (js "@TargetDir@/").
Qed.

End ComponentScript.

Lemma createOperations_undoable_witness :
  exists t, @createOperations linux_env (mkState tt []) = Done tt (mkState tt t)
    /\ Exists (registers_undo "post_uninstall.sh") t.
Proof.
  edestruct (@createOperations_undoable linux_env [] (mkState tt [])) as (t & H1 & H2 & _);
    [reflexivity|reflexivity|].
  exists t. split; [exact H1|exact H2].
Defined.
