(* ===== verification/Language.v ===== *)
(** * The language of the user interface

    The choice of the language (LanguageUiController, LanguageModel, the setting
    of SecureAppSettingsRepository) and its translator
    ([CoreController::updateTranslator]).  [QLocale], the resources of the program,
    [QTranslator::load] and the contents of a translation are parameters. *)

From stdpp Require Import base numbers list.
From Stdlib Require Import ZArith Lia Strings.Byte.
From S2P Require Import Prelude JsText.

(** ** Languages *)

(** The constants of [QLocale::Language] that the code names. *)
Inductive QLanguage :=
| QEnglish | QRussian | QChinese | QUkrainian | QPersian | QArabic | QBurmese | QUrdu | QHindi
| QOtherLanguage.

Inductive AvailableLanguageEnum :=
| English | Russian | China_cn | Ukrainian | Persian | Arabic | Burmese | Urdu | Hindi.

(** The value of a constant, by its place in the enumeration. *)
Definition language_index (l : AvailableLanguageEnum) : Z :=
  match l with
  | English => 0 | Russian => 1 | China_cn => 2 | Ukrainian => 3 | Persian => 4
  | Arabic => 5 | Burmese => 6 | Urdu => 7 | Hindi => 8
  end.

(** The cast of an index back to the enumeration; [None] is a value that is no
    constant of it. *)
Definition language_of_index (i : Z) : option AvailableLanguageEnum :=
  match i with
  | 0 => Some English | 1 => Some Russian | 2 => Some China_cn | 3 => Some Ukrainian
  | 4 => Some Persian | 5 => Some Arabic | 6 => Some Burmese | 7 => Some Urdu | 8 => Some Hindi
  | _ => None
  end.

(** [LanguageUiController::languageEnumToLocale], as the language it names. *)
Definition languageEnumToLocale (l : AvailableLanguageEnum) : QLanguage :=
  match l with
  | English => QEnglish | Russian => QRussian | China_cn => QChinese | Ukrainian => QUkrainian
  | Persian => QPersian | Arabic => QArabic | Burmese => QBurmese | Urdu => QUrdu | Hindi => QHindi
  end.

(** [LanguageUiController::getLocalLanguageName]. *)
Definition getLocalLanguageName (l : option AvailableLanguageEnum) : text :=
  match l with
  | Some English => "English"
  | Some Russian => "Русский"
  | Some Ukrainian => "Українська"
  | Some China_cn => "简体中文"
  | Some Persian => "فارسی"
  | Some Arabic => "العربية"
  | Some Burmese => "မြန်မာဘာသာ"
  | Some Urdu => "اُرْدُوْ"
  | Some Hindi => "हिन्दी"
  | None => Text []
  end.

(** [LanguageModel::getLocalLanguageName], a second copy of the table. *)
Definition LanguageModel_getLocalLanguageName (l : option AvailableLanguageEnum) : text :=
  match l with
  | Some English => "English"
  | Some Russian => "Русский"
  | Some Ukrainian => "Українська"
  | Some China_cn => "简体中文"
  | Some Persian => "فارسی"
  | Some Arabic => "العربية"
  | Some Burmese => "မြန်မာဘာသာ"
  | Some Urdu => "اُرْدُوْ"
  | Some Hindi => "हिन्दी"
  | None => Text []
  end.

(** The languages that the selector offers, with their names. *)
Definition LanguageModel_languages : list (text * AvailableLanguageEnum) :=
  map (fun l => (LanguageModel_getLocalLanguageName (Some l), l)) [English; Russian].

Section Language.

(** [QLocale]: its name, its language, and its constructors from a name and from
    a language. *)
Context {Locale : Type} (locale_name : Locale -> jsstring) (locale_language : Locale -> QLanguage)
  (of_name : jsstring -> Locale) (of_language : QLanguage -> Locale).

(** The files below [:/translations], and whether a file can be loaded. *)
Context (resources : list jsstring) (load : jsstring -> bool).

(** ** Settings *)

(** The value of [Conf/appLanguage], if set. *)
Definition getAppLanguage (conf : option jsstring) : Locale :=
  of_name (default (js "ru_RU") conf).

Definition setAppLanguage (locale : Locale) : option jsstring := Some (locale_name locale).

Definition changeLanguage (l : AvailableLanguageEnum) : option jsstring :=
  setAppLanguage (of_language (languageEnumToLocale l)).

Definition getCurrentLanguageIndex (conf : option jsstring) : Z :=
  match locale_language (getAppLanguage conf) with
  | QEnglish => language_index English
  | QRussian => language_index Russian
  | QChinese => language_index China_cn
  | QUkrainian => language_index Ukrainian
  | QPersian => language_index Persian
  | QArabic => language_index Arabic
  | QBurmese => language_index Burmese
  | QUrdu => language_index Urdu
  | QHindi => language_index Hindi
  | QOtherLanguage => language_index English
  end.

Definition getCurrentLanguageName (conf : option jsstring) : text :=
  getLocalLanguageName (language_of_index (getCurrentLanguageIndex conf)).

Definition getLineHeightAppend (conf : option jsstring) : Z :=
  match locale_language (getAppLanguage conf) with QBurmese => 10 | _ => 0 end.

(** ** The translator *)

(** The file held by [m_translator], and whether it is installed. *)
Record Translator := mkTranslator { loaded : option jsstring; installed : bool }.

(** [split(delimiter).first()]. *)
Fixpoint first_part (s : jsstring) : jsstring :=
  match s with
  | c :: s' => if c =? 95 then [] else c :: first_part s'
  | [] => []
  end.

(** The loop over the available translations. *)
Fixpoint pick_translation (prefix : jsstring) (strFileName : jsstring) (l : list jsstring) : jsstring :=
  match l with
  | [] => strFileName
  | t :: l' => if 0 <=? indexOf t prefix then t else pick_translation prefix strFileName l'
  end.

(** [m_translator->load]: what was held before is discarded. *)
Definition translator_load (file : jsstring) (t : Translator) : bool * Translator :=
  if load file then (true, mkTranslator (Some file) (installed t))
  else (false, mkTranslator None (installed t)).

Definition updateTranslator (locale : Locale) (t : Translator) : Translator :=
  let t := match loaded t with Some _ => mkTranslator (loaded t) false | None => t end in
  let lang := first_part (locale_name locale) in
  let prefix := js ":/translations/amneziavpn_" ++ lang in
  let strFileName := pick_translation prefix
    (js ":/translations/amneziavpn_" ++ locale_name locale ++ js ".qm") resources in
  let (ok, t) := translator_load strFileName t in
  if ok then mkTranslator (loaded t) true
  else
    let (ok, t) := translator_load (js ":/translations/amneziavpn_en.qm") t in
    if ok then mkTranslator (loaded t) true else t.

(** What is shown for a text, where [translate] are the texts of the file that is
    loaded: a text without a translation is shown as it is. *)
Definition shown (translate : jsstring -> jsstring -> option jsstring) (t : Translator)
    (src : jsstring) : jsstring :=
  match loaded t, installed t with
  | Some file, true => default src (translate file src)
  | _, _ => src
  end.

End Language.

(** ** Specification *)

Definition ru_file : jsstring := js ":/translations/amneziavpn_ru_RU.qm".

(** The translator at the start of the program. *)
Definition no_translator : Translator := mkTranslator None false.

(** The translator that a locale calls for, where the Russian file is the one
    resource. *)
Definition chosen (name : jsstring) : Translator :=
  if prefixb (first_part name) (js "ru_RU.qm") then mkTranslator (Some ru_file) true
  else no_translator.

(** Locales that are languages, named by their index. *)
Definition q_index (q : QLanguage) : Z :=
  match q with
  | QEnglish => 0 | QRussian => 1 | QChinese => 2 | QUkrainian => 3 | QPersian => 4
  | QArabic => 5 | QBurmese => 6 | QUrdu => 7 | QHindi => 8 | QOtherLanguage => 9
  end.

Definition q_of_name (n : jsstring) : QLanguage :=
  match n with
  | [0] => QEnglish | [1] => QRussian | [2] => QChinese | [3] => QUkrainian | [4] => QPersian
  | [5] => QArabic | [6] => QBurmese | [7] => QUrdu | [8] => QHindi | _ => QOtherLanguage
  end.

(** ** Lemmas *)

(** A file name contains a prefix extended by [lang] exactly where [lang] is a
    beginning of the rest of the name. *)
Lemma file_prefix (x : Z) (P rest lang : jsstring) :
  x ∉ P ++ rest -> (0 <=? indexOf ((x :: P) ++ rest) ((x :: P) ++ lang)) = prefixb lang rest.
Proof.
  intros Hx. apply eq_true_iff_eq. rewrite Z.leb_le, indexOf_occurs, prefixb_spec.
  cbn [app]. rewrite (occurs_at_start _ _ _ Hx). split; intros (q & E).
  - exists q. rewrite <- app_assoc in E. exact (app_inv_head P _ _ E).
  - exists q. by rewrite E, app_assoc.
Qed.

Lemma ru_file_prefix (lang : jsstring) :
  (0 <=? indexOf ru_file (js ":/translations/amneziavpn_" ++ lang)) = prefixb lang (js "ru_RU.qm").
Proof.
  assert (E1 : ru_file = (58 :: js "/translations/amneziavpn_") ++ js "ru_RU.qm")
    by (vm_compute; reflexivity).
  assert (E2 : js ":/translations/amneziavpn_" = 58 :: js "/translations/amneziavpn_")
    by (vm_compute; reflexivity).
  rewrite E1, E2. apply file_prefix. apply (bool_decide_unpack _). vm_compute. exact I.
Qed.

(** With the one resource of the build, the new translator does not depend on the
    one before. *)
Lemma updateTranslator_chosen {Locale} (locale_name : Locale -> jsstring) (load : jsstring -> bool)
    (locale : Locale) (t : Translator) :
  (forall f, load f = bool_decide (f = ru_file)) -> (loaded t = None -> installed t = false) ->
  updateTranslator locale_name [ru_file] load locale t = chosen (locale_name locale).
Proof.
  intros Hl Ht. unfold updateTranslator, chosen, translator_load. cbn [pick_translation].
  rewrite ru_file_prefix. set (n := locale_name locale).
  assert (Hi : installed (match loaded t with
                          | Some _ => mkTranslator (loaded t) false
                          | None => t
                          end) = false) by (destruct (loaded t); [done|by apply Ht]).
  destruct (prefixb (first_part n) (js "ru_RU.qm")) eqn:E.
  - rewrite Hl, bool_decide_true by done. done.
  - rewrite Hl, bool_decide_false.
    + rewrite Hl, bool_decide_false by (intros E'; vm_compute in E'; discriminate E').
      cbn [installed]. by rewrite Hi.
    + intros E'. assert (n = js "ru_RU") as En.
      { assert (Er : ru_file = js ":/translations/amneziavpn_" ++ js "ru_RU" ++ js ".qm") by by vm_compute.
        rewrite Er in E'. apply app_inv_head in E'. by apply app_inv_tail in E'. }
      rewrite En in E. vm_compute in E. discriminate E.
Qed.

Lemma chosen_ok (name : jsstring) : loaded (chosen name) = None -> installed (chosen name) = false.
Proof. unfold chosen. by destruct (prefixb _ _). Qed.

Lemma updates_chosen {Locale} (locale_name : Locale -> jsstring) (load : jsstring -> bool)
    (locales : list Locale) (t : Translator) :
  (forall f, load f = bool_decide (f = ru_file)) -> (loaded t = None -> installed t = false) ->
  let t' := fold_left (fun t l => updateTranslator locale_name [ru_file] load l t) locales t in
  loaded t' = None -> installed t' = false.
Proof.
  intros Hl. revert t. induction locales as [|l locales IH]; intros t Ht; [exact Ht|].
  cbn [fold_left]. apply IH. rewrite updateTranslator_chosen by done. apply chosen_ok.
Qed.

(** ** Properties *)

(** After any number of changes of the language, the text shown follows the
    last one alone: it is Russian exactly where the language part of the locale
    is a beginning of the name of the Russian file, and the text of the source
    otherwise.  The build has the Russian file as its one translation. *)
Theorem translator_follows_locale {Locale} (locale_name : Locale -> jsstring)
    (load : jsstring -> bool) (translate : jsstring -> jsstring -> option jsstring)
    (locales : list Locale) (locale : Locale) src :
  (forall f, load f = bool_decide (f = ru_file)) ->
  shown translate
    (fold_left (fun t l => updateTranslator locale_name [ru_file] load l t)
       (locales ++ [locale]) no_translator) src
  = (if prefixb (first_part (locale_name locale)) (js "ru_RU.qm")
     then default src (translate ru_file src) else src).
Proof.
  intros Hl. rewrite fold_left_app. cbn [fold_left].
  rewrite updateTranslator_chosen; [|done|by apply updates_chosen].
  unfold chosen, shown. by destruct (prefixb _ _).
Qed.

(** a language that is chosen is the current one afterwards, with the name
    that the selector shows for it, if a locale keeps its language through its
    name. *)
Theorem changeLanguage_current {Locale} (locale_name : Locale -> jsstring)
    (locale_language : Locale -> QLanguage) (of_name : jsstring -> Locale)
    (of_language : QLanguage -> Locale) (l : AvailableLanguageEnum) :
  (forall q, locale_language (of_name (locale_name (of_language q))) = q) ->
  let conf := changeLanguage locale_name of_language l in
  getCurrentLanguageIndex locale_language of_name conf = language_index l
  /\ getCurrentLanguageName locale_language of_name conf
     = LanguageModel_getLocalLanguageName (Some l).
Proof.
  intros Hq conf. unfold getCurrentLanguageName, getCurrentLanguageIndex, getAppLanguage.
  unfold conf, changeLanguage, setAppLanguage. simpl. rewrite Hq.
  by destruct l.
Qed.

Lemma translator_follows_locale_witness :
  shown (fun _ src => Some (src ++ js "!"))
    (fold_left (fun t l => updateTranslator (fun l => l) [ru_file]
       (fun f => bool_decide (f = ru_file)) l t) ([js "en_US"] ++ [js "ru_RU"]) no_translator)
    (js "Server") = js "Server!".
Proof.
  rewrite (translator_follows_locale (fun l => l) (fun f => bool_decide (f = ru_file))
    (fun _ src => Some (src ++ js "!")) [js "en_US"] (js "ru_RU") (js "Server"));
    [vm_compute; reflexivity|reflexivity].
Defined.

Lemma changeLanguage_current_witness :
  getCurrentLanguageIndex (fun q => q) q_of_name
    (changeLanguage (fun q => [q_index q]) (fun q => q) Russian) = 1.
Proof.
  apply (changeLanguage_current (fun q => [q_index q]) (fun q => q) q_of_name (fun q => q) Russian).
  intros q. by destruct q.
Defined.
