(* ===== verification/Daemon.v ===== *)
(** * The privileged daemon

    client/daemon/daemon.cpp: the connections of the daemon and the routes it
    keeps for excluded addresses, with activation, deactivation, switching of
    servers, the poll for the handshake and the status.  The platform's utilities
    (wgutils, iputils, dnsutils, [run]) are the interface [Utils]: each call is
    recorded with its answer, which may depend on the calls before.  Assertions
    are those of a release build, which does not check them. *)

From stdpp Require Import base numbers list gmap strings.
From Stdlib Require Import ZArith Lia.
From S2P Require Import Prelude IpAddress Json Config Script.
Open Scope Z_scope.
Open Scope script_scope.

(** ** Data *)

#[export] Instance QHostAddress_countable : Countable QHostAddress.
Proof.
  refine (inj_countable'
    (fun h => match h with HostNull => None | HostV4 n => Some (inl n) | HostV6 l => Some (inr l) end)
    (fun o : option (Z + list Z) =>
       match o with None => HostNull | Some (inl n) => HostV4 n | Some (inr l) => HostV6 l end) _).
  by intros [].
Defined.

#[export] Instance IPAddress_countable : Countable IPAddress.
Proof.
  refine (inj_countable' (fun ip => (m_address ip, m_prefixLength ip))
    (fun p => mkIPAddress p.1 p.2) _). by intros [].
Defined.

(** A connection and the time of its handshake, if there was one. *)
Record ConnectionState := mkConnection { m_date : option Z; m_config : InterfaceConfig }.

(** A map with one optional entry for each hop, in the order of the hops. *)
Record Connections := mkConnections {
  single_hop : option ConnectionState;
  multi_hop_entry : option ConnectionState;
  multi_hop_exit : option ConnectionState
}.

Definition no_connections : Connections := mkConnections None None None.

Definition connection (c : Connections) (h : HopType) : option ConnectionState :=
  match h with
  | SingleHop => single_hop c
  | MultiHopEntry => multi_hop_entry c
  | MultiHopExit => multi_hop_exit c
  end.

Definition put_connection (h : HopType) (s : ConnectionState) (c : Connections) : Connections :=
  match h with
  | SingleHop => mkConnections (Some s) (multi_hop_entry c) (multi_hop_exit c)
  | MultiHopEntry => mkConnections (single_hop c) (Some s) (multi_hop_exit c)
  | MultiHopExit => mkConnections (single_hop c) (multi_hop_entry c) (Some s)
  end.

Definition connection_list (c : Connections) : list ConnectionState :=
  option_list (single_hop c) ++ option_list (multi_hop_entry c) ++ option_list (multi_hop_exit c).

Record Daemon := mkDaemon {
  m_connections : Connections;
  m_excludedAddrSet : gmap IPAddress Z
}.

Definition set_connections (f : Connections -> Connections) (d : Daemon) : Daemon :=
  mkDaemon (f (m_connections d)) (m_excludedAddrSet d).
Definition set_excluded (f : gmap IPAddress Z -> gmap IPAddress Z) (d : Daemon) : Daemon :=
  mkDaemon (m_connections d) (f (m_excludedAddrSet d)).

Inductive Op := Up | Down | Switch.

Record PeerStatus := mkPeerStatus {
  m_pubkey : string;
  m_handshake : Z;
  m_txBytes : Z;
  m_rxBytes : Z
}.

(** Calls of the platform's utilities with their answers, signals, and starts of
    the timer. *)
Inductive Event :=
| PrepareActivation (config : InterfaceConfig)
| InterfaceExists (ok : bool)
| AddInterface (config : InterfaceConfig) (ok : bool)
| DeleteInterface (ok : bool)
| AddInterfaceIPs (config : InterfaceConfig) (ok : bool)
| SetMTUAndUp (config : InterfaceConfig) (ok : bool)
| UpdatePeer (config : InterfaceConfig) (ok : bool)
| DeletePeer (config : InterfaceConfig) (ok : bool)
| UpdateRoutePrefix (ip : IPAddress) (ok : bool)
| DeleteRoutePrefix (ip : IPAddress) (ok : bool)
| AddExclusionRoute (ip : IPAddress) (ok : bool)
| DeleteExclusionRoute (ip : IPAddress) (ok : bool)
| UpdateResolvers (resolvers : list QHostAddress) (ok : bool)
| RestoreResolvers (ok : bool)
| Run (op : Op) (config : InterfaceConfig) (ok : bool)
| GetPeerStatus (peers : list PeerStatus)
| StartHandshakeTimer (msec : Z)
| Connected (pubkey : string)
| Disconnected
| ActivationFailure.

(** The answers of the platform. *)
Class Utils := {
  utils_qt :: Qt;
  interfaceExists : list Event -> bool;
  addInterface : list Event -> InterfaceConfig -> bool;
  deleteInterface : list Event -> bool;
  addInterfaceIPs : list Event -> InterfaceConfig -> bool;
  setMTUAndUp : list Event -> InterfaceConfig -> bool;
  updatePeer : list Event -> InterfaceConfig -> bool;
  deletePeer : list Event -> InterfaceConfig -> bool;
  updateRoutePrefix : list Event -> IPAddress -> bool;
  deleteRoutePrefix : list Event -> IPAddress -> bool;
  wg_addExclusionRoute : list Event -> IPAddress -> bool;
  wg_deleteExclusionRoute : list Event -> IPAddress -> bool;
  updateResolvers : list Event -> list QHostAddress -> bool;
  restoreResolvers : list Event -> bool;
  run_op : list Event -> Op -> InterfaceConfig -> bool;
  getPeerStatus : list Event -> list PeerStatus;
  supportIPUtils : bool
}.

Definition HANDSHAKE_POLL_MSEC : Z := 250.

Section Daemon.
Context `{Utils}.

Abbreviation script := (Script Event Daemon).

(** ** Operations *)

Definition run (op : Op) (config : InterfaceConfig) : script bool :=
  call (fun h => run_op h op config) (Run op config).

Definition delete_route (ip : IPAddress) : script unit :=
  let* _ := call (fun h => deleteRoutePrefix h ip) (DeleteRoutePrefix ip) in ret tt.

Definition delete_exclusion (ip : IPAddress) : script bool :=
  call (fun h => wg_deleteExclusionRoute h ip) (DeleteExclusionRoute ip).

(** The conversion of a string to an [IPAddress]. *)
Definition address_of (i : string) : IPAddress := IPAddress_of_string parseSubnet hostAddress i.

Definition addExclusionRoute (prefix : IPAddress) : script bool :=
  let* excluded := gets m_excludedAddrSet in
  match excluded !! prefix with
  | Some n => modify (set_excluded (insert prefix (n + 1))) ;;; ret true
  | None =>
      and_then (call (fun h => wg_addExclusionRoute h prefix) (AddExclusionRoute prefix))
        (modify (set_excluded (insert prefix 1)) ;;; ret true)
  end.

(** A missing entry counts as zero. *)
Definition delExclusionRoute (prefix : IPAddress) : script bool :=
  let* excluded := gets m_excludedAddrSet in
  let n := default 0 (excluded !! prefix) in
  if 1 <? n then modify (set_excluded (insert prefix (n - 1))) ;;; ret true
  else modify (set_excluded (delete prefix)) ;;; delete_exclusion prefix.

Definition exclude_all (l : list string) : script unit :=
  for_each l (fun i => let* _ := addExclusionRoute (address_of i) in ret tt).

Definition resolvers_of (config : InterfaceConfig) : list QHostAddress :=
  [hostAddress (chars (m_primaryDnsServer config))]
  ++ (if isEmpty (m_secondaryDnsServer config) then []
      else [hostAddress (chars (m_secondaryDnsServer config))])
  ++ (if q_eq (m_primaryDnsServer config) (m_serverIpv4Gateway config)
      then [hostAddress (chars (m_serverIpv6Gateway config))] else []).

Definition maybeUpdateResolvers (config : InterfaceConfig) : script bool :=
  match m_hopType config with
  | MultiHopExit | SingleHop =>
      call (fun h => updateResolvers h (resolvers_of config)) (UpdateResolvers (resolvers_of config))
  | MultiHopEntry => ret true
  end.

(** Sets the routes in order; false at the first that fails. *)
Fixpoint set_routes (l : list IPAddress) : script bool :=
  match l with
  | [] => ret true
  | ip :: l' => and_then (call (fun h => updateRoutePrefix h ip) (UpdateRoutePrefix ip)) (set_routes l')
  end.

Definition supportServerSwitching (config : InterfaceConfig) (d : Daemon) : bool :=
  match connection (m_connections d) (m_hopType config) with
  | None => false
  | Some s =>
      let current := m_config s in
      q_eq (m_privateKey current) (m_privateKey config)
      && q_eq (m_deviceIpv4Address current) (m_deviceIpv4Address config)
      && q_eq (m_deviceIpv6Address current) (m_deviceIpv6Address config)
      && q_eq (m_serverIpv4Gateway current) (m_serverIpv4Gateway config)
      && q_eq (m_serverIpv6Gateway current) (m_serverIpv6Gateway config)
  end.

(** Removes the routes of the connection that is replaced. *)
Definition drop_old_routes (config lastConfig : InterfaceConfig) : script unit :=
  for_each (m_excludedAddresses lastConfig) (fun i =>
    let* _ := delExclusionRoute (IPAddress_of_host (hostAddress i)) in ret tt) ;;;
  for_each (m_allowedIPAddressRanges lastConfig) (fun ip =>
    when (negb (existsb (IPAddress_eqb ip) (m_allowedIPAddressRanges config))) (delete_route ip)).

(** [lastConfig] is the configuration of the connection to replace. *)
Definition switch_from (config lastConfig : InterfaceConfig) : script bool :=
  exclude_all (m_excludedAddresses config) ;;;
  and_then (call (fun h => updatePeer h config) (UpdatePeer config))
    (let* _ := set_routes (m_allowedIPAddressRanges config) in
     drop_old_routes config lastConfig ;;;
     and_then
       (if q_eq (m_serverPublicKey config) (m_serverPublicKey lastConfig) then ret true
        else call (fun h => deletePeer h lastConfig) (DeletePeer lastConfig))
       (modify (set_connections (put_connection (m_hopType config) (mkConnection None config))) ;;;
        ret true)).

(** A missing connection has an empty configuration. *)
Definition switchServer (config : InterfaceConfig) : script bool :=
  let* old := gets (fun d => connection (m_connections d) (m_hopType config)) in
  match old with
  | Some s => switch_from config (m_config s)
  | None => switch_from config empty_config
  end.

Definition delete_connection (s : ConnectionState) : script unit :=
  for_each (m_allowedIPAddressRanges (m_config s)) delete_route ;;;
  let* _ := call (fun h => deletePeer h (m_config s)) (DeletePeer (m_config s)) in ret tt.

(** The removal of all routes for excluded addresses. *)
Definition clear_excluded : script unit :=
  let* excluded := gets m_excludedAddrSet in
  for_each (map fst (map_to_list excluded)) (fun ip => let* _ := delete_exclusion ip in ret tt) ;;;
  modify (set_excluded (fun _ => ∅)).

(** The signal, and the removal of resolvers, peers and routes. *)
Definition clean_up (emitSignals : bool) (connections : list ConnectionState) : script unit :=
  when emitSignals (emit Disconnected) ;;;
  let* _ := call restoreResolvers RestoreResolvers in
  for_each connections delete_connection ;;;
  clear_excluded.

Definition deactivate (emitSignals : bool) : script bool :=
  let* connections := gets (fun d => connection_list (m_connections d)) in
  and_then
    (match connections with
     | s :: _ => run Down (m_config s)
     | [] => ret true
     end)
    (clean_up emitSignals connections ;;;
     modify (set_connections (fun _ => no_connections)) ;;;
     call deleteInterface DeleteInterface).

(** Records the connection and starts the poll for its handshake. *)
Definition connection_up (op : Op) (config : InterfaceConfig) : script bool :=
  and_then (run op config)
    (modify (set_connections (put_connection (m_hopType config) (mkConnection None config))) ;;;
     emit (StartHandshakeTimer HANDSHAKE_POLL_MSEC) ;;;
     ret true).

(** Activation while there is no connection for the hop. *)
Definition activate_off (config : InterfaceConfig) : script bool :=
  emit (PrepareActivation config) ;;;
  let* exists_ := call interfaceExists InterfaceExists in
  and_then (if exists_ then ret true
            else call (fun h => addInterface h config) (AddInterface config))
  (and_then (if supportIPUtils then
               and_then (call (fun h => addInterfaceIPs h config) (AddInterfaceIPs config))
                 (call (fun h => setMTUAndUp h config) (SetMTUAndUp config))
             else ret true)
  (exclude_all (m_excludedAddresses config) ;;;
   and_then (call (fun h => updatePeer h config) (UpdatePeer config))
   (and_then (maybeUpdateResolvers config)
   (and_then (set_routes (m_allowedIPAddressRanges config))
     (connection_up Up config))))).

(** The scope guard: the signal is emitted unless the function succeeds. *)
Definition failure_guard (m : script bool) : script bool :=
  let* ok := m in
  when (negb ok) (emit ActivationFailure) ;;;
  ret ok.

(** Each nested call takes one unit of fuel. *)
Fixpoint activate (fuel : nat) (config : InterfaceConfig) : script bool :=
  match fuel with
  | O => out_of_fuel
  | S fuel' =>
      failure_guard
        (let* known := gets (fun d => connection (m_connections d) (m_hopType config)) in
         match known with
         | None => activate_off config
         | Some _ =>
             let* switching := gets (supportServerSwitching config) in
             if switching then
               and_then (switchServer config)
               (and_then (call restoreResolvers RestoreResolvers)
               (and_then (maybeUpdateResolvers config)
                 (connection_up Switch config)))
             else and_then (deactivate false) (activate fuel' config)
         end)
  end.

(** ** Handshake and status *)

(** The peers that match a connection; the time of the last handshake stays. *)
Fixpoint scan_peers (config : InterfaceConfig) (date : option Z) (peers : list PeerStatus)
  : script (option Z) :=
  match peers with
  | [] => ret date
  | status :: peers' =>
      if q_eq (m_serverPublicKey config) (Some (m_pubkey status)) && negb (m_handshake status =? 0)
      then emit (Connected (m_pubkey status)) ;;; scan_peers config (Some (m_handshake status)) peers'
      else scan_peers config date peers'
  end.

(** One connection; the result is the number of pending handshakes. *)
Definition check_connection (peers : list PeerStatus) (h : HopType) : script Z :=
  let* c := gets (fun d => connection (m_connections d) h) in
  match c with
  | Some (mkConnection None config) =>
      let* date := scan_peers config None peers in
      modify (set_connections (put_connection h (mkConnection date config))) ;;;
      ret (match date with None => 1 | Some _ => 0 end)
  | _ => ret 0
  end.

Definition checkHandshake : script unit :=
  let* peers := call getPeerStatus GetPeerStatus in
  let* p1 := check_connection peers SingleHop in
  let* p2 := check_connection peers MultiHopEntry in
  let* p3 := check_connection peers MultiHopExit in
  when (0 <? p1 + p2 + p3) (emit (StartHandshakeTimer HANDSHAKE_POLL_MSEC)).

(** The object that [getStatus] returns. *)
Inductive Status :=
| NotConnected
| IsConnected (serverIpv4Gateway deviceIpv4Address : QString) (date : option Z) (txBytes rxBytes : Z).

Fixpoint status_of (s : ConnectionState) (peers : list PeerStatus) : Status :=
  match peers with
  | [] => NotConnected
  | status :: peers' =>
      if q_eq (Some (m_pubkey status)) (m_serverPublicKey (m_config s))
      then IsConnected (m_serverIpv4Gateway (m_config s)) (m_deviceIpv4Address (m_config s))
             (m_date s) (m_txBytes status) (m_rxBytes status)
      else status_of s peers'
  end.

Definition getStatus : script Status :=
  let* exists_ := call interfaceExists InterfaceExists in
  let* connections := gets (fun d => connection_list (m_connections d)) in
  if exists_ then
    match connections with
    | [] => ret NotConnected
    | s :: _ => let* peers := call getPeerStatus GetPeerStatus in ret (status_of s peers)
    end
  else ret NotConnected.

(** ** Specification *)

(** What an event says of the route for an excluded address. *)
Definition route_event (ip : IPAddress) (b : bool) (e : Event) : bool :=
  match e with
  | AddExclusionRoute ip' true => if bool_decide (ip = ip') then true else b
  | DeleteExclusionRoute ip' _ => if bool_decide (ip = ip') then false else b
  | _ => b
  end.

(** Whether a route for an excluded address has been set, and its removal not
    asked for since. *)
Definition has_route (h : list Event) (ip : IPAddress) : bool := fold_left (route_event ip) h false.

(** The daemon counts exactly the addresses that have a route, each at least
    once. *)
Definition routes_match (s : State Event Daemon) : Prop :=
  forall ip, match m_excludedAddrSet (globals s) !! ip with
             | Some n => has_route (history s) ip = true /\ 0 < n
             | None => has_route (history s) ip = false
             end.

(** The commands that the daemon is given, and the ticks of its timer. *)
Inductive daemon_step : State Event Daemon -> State Event Daemon -> Prop :=
| step_activate config ok s s' : activate 2 config s = Done ok s' -> daemon_step s s'
| step_deactivate emitSignals ok s s' : deactivate emitSignals s = Done ok s' -> daemon_step s s'
| step_handshake s s' : checkHandshake s = Done tt s' -> daemon_step s s'
| step_status r s s' : getStatus s = Done r s' -> daemon_step s s'.

(** How an activation ends: with the connection recorded and the poll for its
    handshake started, or with the signal of the failure. *)
Definition settled (config : InterfaceConfig) (ok : bool) (s : State Event Daemon) : Prop :=
  if ok then
    connection (m_connections (globals s)) (m_hopType config) = Some (mkConnection None config)
    /\ last (history s) = Some (StartHandshakeTimer HANDSHAKE_POLL_MSEC)
  else last (history s) = Some ActivationFailure.

(** Events of a deactivation: the removal of a route or a peer, whatever the
    platform answers. *)
Definition removes_exclusion (ip : IPAddress) (e : Event) : Prop :=
  exists ok, e = DeleteExclusionRoute ip ok.
Definition removes_route (ip : IPAddress) (e : Event) : Prop := exists ok, e = DeleteRoutePrefix ip ok.
Definition removes_peer (config : InterfaceConfig) (e : Event) : Prop :=
  exists ok, e = DeletePeer config ok.

(** The peers that report a handshake for a connection, and the time of the last. *)
Definition is_handshake (config : InterfaceConfig) (status : PeerStatus) : bool :=
  q_eq (m_serverPublicKey config) (Some (m_pubkey status)) && negb (m_handshake status =? 0).

Definition handshakes (config : InterfaceConfig) (peers : list PeerStatus) : list PeerStatus :=
  List.filter (is_handshake config) peers.

Definition refresh (peers : list PeerStatus) (c : ConnectionState) : ConnectionState :=
  match m_date c with
  | Some _ => c
  | None => mkConnection (m_handshake <$> last (handshakes (m_config c) peers)) (m_config c)
  end.

(** The signals for a connection that waits for its handshake. *)
Definition signals (peers : list PeerStatus) (c : option ConnectionState) : list Event :=
  match c with
  | Some (mkConnection None config) =>
      map (fun status => Connected (m_pubkey status)) (handshakes config peers)
  | _ => []
  end.

Definition pending (c : option ConnectionState) : bool :=
  match c with Some (mkConnection None _) => true | _ => false end.

(** How often an address is counted as excluded, and how often a list names it. *)
Definition count (d : Daemon) (ip : IPAddress) : Z := default 0 (m_excludedAddrSet d !! ip).

Definition named (ip : IPAddress) (l : list string) : Z :=
  Z.of_nat (length (List.filter (fun i => bool_decide (address_of i = ip)) l)).

(** A platform on which everything succeeds.  The parser of a single address does
    not take a range. *)
Definition example_utils : Utils := {|
  utils_qt := example_qt;
  interfaceExists := fun _ => false;
  addInterface := fun _ _ => true;
  deleteInterface := fun _ => true;
  addInterfaceIPs := fun _ _ => true;
  setMTUAndUp := fun _ _ => true;
  updatePeer := fun _ _ => true;
  deletePeer := fun _ _ => true;
  updateRoutePrefix := fun _ _ => true;
  deleteRoutePrefix := fun _ _ => true;
  wg_addExclusionRoute := fun _ _ => true;
  wg_deleteExclusionRoute := fun _ _ => true;
  updateResolvers := fun _ _ => true;
  restoreResolvers := fun _ => true;
  run_op := fun _ _ _ => true;
  getPeerStatus := fun _ => [];
  supportIPUtils := true
|}.

(** A daemon connected to the first server, which excludes one address. *)
Definition example_state : State Event Daemon :=
  mkState (mkDaemon
    (put_connection SingleHop (mkConnection None (config_for "key1" "1.1.1.1" ["203.0.113.1"])) no_connections)
    {[mkIPAddress (HostV4 3405803777) 32 := 1]}) [].

Definition daemon_start : State Event Daemon := mkState (mkDaemon no_connections ∅) [].

(** ** Lemmas *)

Lemma has_route_snoc (h : list Event) (e : Event) (ip : IPAddress) :
  has_route (h ++ [e]) ip = route_event ip (has_route h ip) e.
Proof. unfold has_route. by rewrite fold_left_app. Qed.

(** Calls that say nothing of routes for excluded addresses. *)
Lemma quiet_preserves {A} (answer : list Event -> A) (event : A -> Event) :
  (forall a ip b, route_event ip b (event a) = b) ->
  Preserves (G := Daemon) routes_match (call answer event).
Proof.
  intros Hq s b s' Hi [-> ->]%call_Done ip. specialize (Hi ip). cbn [globals history].
  by rewrite has_route_snoc, Hq.
Qed.

#[local] Ltac simpl_state := cbn [globals history set_excluded set_connections m_excludedAddrSet
  m_connections].

Ltac quiet_call := first [apply quiet_preserves; reflexivity | unfold emit; apply quiet_preserves; reflexivity].

#[export] Instance set_connections_preserves f :
  Preserves (E := Event) routes_match (modify (set_connections f)).
Proof. intros s b s' Hi [= <- <-] ip. apply Hi. Qed.

#[export] Instance addExclusionRoute_preserves ip : Preserves routes_match (addExclusionRoute ip).
Proof.
  intros s b s' Hi. unfold addExclusionRoute, and_then. intros (m & ? & [= <- <-] & Hr)%bind_Done.
  destruct (m_excludedAddrSet (globals s) !! ip) as [n|] eqn:E; script_inv.
  - intros ip'. specialize (Hi ip'). simpl_state. destruct (decide (ip = ip')) as [<-|Hne].
    + rewrite lookup_insert_eq. rewrite E in Hi. split; [apply Hi|lia].
    + by rewrite lookup_insert_ne.
  - destruct (wg_addExclusionRoute _ _); script_inv; intros ip'; specialize (Hi ip'); simpl_state;
      rewrite has_route_snoc; cbn [route_event]; [|done].
    destruct (decide (ip = ip')) as [<-|Hne].
    + by rewrite lookup_insert_eq, bool_decide_true.
    + by rewrite lookup_insert_ne, bool_decide_false by done.
Qed.

#[export] Instance delExclusionRoute_preserves ip : Preserves routes_match (delExclusionRoute ip).
Proof.
  intros s b s' Hi. unfold delExclusionRoute, delete_exclusion.
  intros (m & ? & [= <- <-] & Hr)%bind_Done.
  destruct (Z.ltb_spec 1 (default 0 (m_excludedAddrSet (globals s) !! ip))) as [Hn|Hn]; script_inv;
    intros ip'; specialize (Hi ip'); simpl_state.
  - destruct (decide (ip = ip')) as [<-|Hne].
    + rewrite lookup_insert_eq. destruct (m_excludedAddrSet (globals s) !! ip); simpl in Hn |- *; [|lia].
      split; [apply Hi|lia].
    + by rewrite lookup_insert_ne.
  - rewrite has_route_snoc. cbn [route_event]. destruct (decide (ip = ip')) as [<-|Hne].
    + by rewrite lookup_delete_eq, bool_decide_true.
    + by rewrite lookup_delete_ne, bool_decide_false by done.
Qed.

#[export] Instance clear_excluded_preserves : Preserves routes_match clear_excluded.
Proof.
  intros s u s' Hi. unfold clear_excluded. intros (m & ? & [= <- <-] & (? & s1 & Hf & [= <- <-])%bind_Done)%bind_Done.
  assert (Hs : forall l s u s1, for_each l (fun ip => let* _ := delete_exclusion ip in ret tt) s = Done u s1 ->
    forall ip, has_route (history s1) ip = has_route (history s) ip && negb (bool_decide (ip ∈ l))).
  { clear. induction l as [|ip l IH]; intros s u s1; cbn [for_each].
    - intros [= <- <-] ip. rewrite bool_decide_false by apply not_elem_of_nil. by rewrite andb_true_r.
    - unfold delete_exclusion at 1. intros Hr ip'. script_inv. rewrite (IH _ _ _ Hr). simpl_state.
      rewrite has_route_snoc. cbn [route_event].
      destruct (decide (ip' = ip)) as [->|Hne].
      + rewrite bool_decide_true by done. rewrite (bool_decide_true (ip ∈ ip :: l)) by left.
        by rewrite andb_false_r.
      + rewrite bool_decide_false by done. f_equal. f_equal. apply bool_decide_ext.
        rewrite elem_of_cons. naive_solver. }
  intros ip. simpl_state. rewrite lookup_empty. rewrite (Hs _ _ _ _ Hf).
  specialize (Hi ip). destruct (m_excludedAddrSet (globals s) !! ip) as [n|] eqn:E.
  - rewrite (bool_decide_true (ip ∈ _)); [apply andb_false_r|].
    apply list_elem_of_fmap. exists (ip, n). split; [done|]. by apply elem_of_map_to_list.
  - by rewrite Hi.
Qed.

(** The classes for the daemon's scripts. *)
Ltac daemon_solve m :=
  unfold m, run, delete_route, connection_up;
  repeat (first [apply _ | quiet_call | apply bind_preserves | apply and_then_preserves
    | apply if_preserves | apply when_preserves | apply for_each_preserves
    | progress intros | case_match]).

#[export] Instance exclude_all_preserves l : Preserves routes_match (exclude_all l).
Proof. daemon_solve exclude_all. Qed.
#[export] Instance resolvers_preserves c : Preserves routes_match (maybeUpdateResolvers c).
Proof. daemon_solve maybeUpdateResolvers. Qed.
#[export] Instance set_routes_preserves l : Preserves routes_match (set_routes l).
Proof. induction l; daemon_solve set_routes. Qed.
#[export] Instance drop_old_routes_preserves c c' : Preserves routes_match (drop_old_routes c c').
Proof. daemon_solve drop_old_routes. Qed.
#[export] Instance switch_from_preserves c c' : Preserves routes_match (switch_from c c').
Proof. daemon_solve switch_from. Qed.
#[export] Instance switchServer_preserves c : Preserves routes_match (switchServer c).
Proof. daemon_solve switchServer. Qed.
#[export] Instance delete_connection_preserves c : Preserves routes_match (delete_connection c).
Proof. daemon_solve delete_connection. Qed.
#[export] Instance clean_up_preserves b l : Preserves routes_match (clean_up b l).
Proof. daemon_solve clean_up. Qed.
#[export] Instance deactivate_preserves b : Preserves routes_match (deactivate b).
Proof. daemon_solve deactivate. Qed.
#[export] Instance connection_up_preserves op c : Preserves routes_match (connection_up op c).
Proof. daemon_solve connection_up. Qed.
#[export] Instance activate_off_preserves c : Preserves routes_match (activate_off c).
Proof. daemon_solve activate_off. Qed.
#[export] Instance activate_preserves fuel c : Preserves routes_match (activate fuel c).
Proof. induction fuel; daemon_solve activate; daemon_solve failure_guard. Qed.
#[export] Instance scan_peers_preserves c d l : Preserves routes_match (scan_peers c d l).
Proof. revert d. induction l; intros d; daemon_solve scan_peers. Qed.
#[export] Instance check_connection_preserves l h : Preserves routes_match (check_connection l h).
Proof. daemon_solve check_connection. Qed.
#[export] Instance checkHandshake_preserves : Preserves routes_match checkHandshake.
Proof. daemon_solve checkHandshake. Qed.
#[export] Instance getStatus_preserves : Preserves routes_match getStatus.
Proof. daemon_solve getStatus. Qed.

#[export] Instance addExclusionRoute_total ip : Total (addExclusionRoute ip).
Proof. script_solve addExclusionRoute. Qed.
#[export] Instance delExclusionRoute_total ip : Total (delExclusionRoute ip).
Proof. script_solve delExclusionRoute. Qed.
#[export] Instance exclude_all_total l : Total (exclude_all l).
Proof. script_solve exclude_all. Qed.
#[export] Instance set_routes_total l : Total (set_routes l).
Proof. induction l; script_solve set_routes. Qed.
#[export] Instance resolvers_total c : Total (maybeUpdateResolvers c).
Proof. script_solve maybeUpdateResolvers. Qed.
#[export] Instance drop_old_routes_total c c' : Total (drop_old_routes c c').
Proof. script_solve drop_old_routes. Qed.
#[export] Instance switch_from_total c c' : Total (switch_from c c').
Proof. script_solve switch_from. Qed.
#[export] Instance switchServer_total c : Total (switchServer c).
Proof. script_solve switchServer. Qed.
#[export] Instance delete_connection_total c : Total (delete_connection c).
Proof. script_solve delete_connection. Qed.
#[export] Instance clear_excluded_total : Total clear_excluded.
Proof. script_solve clear_excluded. Qed.
#[export] Instance clean_up_total b l : Total (clean_up b l).
Proof. script_solve clean_up. Qed.
#[export] Instance deactivate_total b : Total (deactivate b).
Proof. script_solve deactivate. Qed.
#[export] Instance connection_up_total op c : Total (connection_up op c).
Proof. script_solve connection_up. Qed.
#[export] Instance activate_off_total c : Total (activate_off c).
Proof. script_solve activate_off. Qed.

Lemma connection_put h cs c : connection (put_connection h cs c) h = Some cs.
Proof. by destruct h. Qed.

Lemma connection_up_true op config s s' :
  connection_up op config s = Done true s' -> settled config true s'.
Proof.
  unfold connection_up. intros (s1 & _ & Hr)%and_then_true. script_inv. split; simpl_state.
  - apply connection_put.
  - apply last_snoc.
Qed.

Lemma failure_guard_run m s ok s' :
  failure_guard m s = Done ok s' ->
  if ok then m s = Done true s' else last (history s') = Some ActivationFailure.
Proof.
  unfold failure_guard. intros (b & s1 & Hm & Hr)%bind_Done. destruct b; cbn [negb when] in Hr;
    script_inv; [done|apply last_snoc].
Qed.

Lemma activate_off_true config s s' :
  activate_off config s = Done true s' -> settled config true s'.
Proof.
  unfold activate_off. intros (? & s1 & _ & (? & s2 & _ & Hr)%bind_Done)%bind_Done.
  apply and_then_true in Hr as (s3 & _ & (s4 & _ & Hr)%and_then_true).
  apply bind_Done in Hr as (? & s5 & _ & Hr).
  apply and_then_true in Hr as (s6 & _ & (s7 & _ & (s8 & _ & Hr)%and_then_true)%and_then_true).
  by apply connection_up_true in Hr.
Qed.

Lemma activate_settled fuel config s ok s' :
  activate fuel config s = Done ok s' -> settled config ok s'.
Proof.
  revert s. induction fuel as [|fuel IH]; intros s; [discriminate|]. cbn [activate].
  intros Hr%failure_guard_run. destruct ok; [|done].
  apply bind_Done in Hr as (known & ? & [= <- <-] & Hr).
  destruct (connection _ _); [|by apply activate_off_true in Hr].
  apply bind_Done in Hr as (sw & ? & [= <- <-] & Hr). destruct (supportServerSwitching _ _).
  - apply and_then_true in Hr as (s3 & _ & (s4 & _ & (s5 & _ & Hr)%and_then_true)%and_then_true).
    by apply connection_up_true in Hr.
  - apply and_then_true in Hr as (s3 & _ & Hr). by apply IH in Hr.
Qed.

(** A deactivation that runs to its end leaves nothing behind. *)
Lemma deactivate_true b s s' :
  deactivate b s = Done true s' -> globals s' = mkDaemon no_connections ∅.
Proof.
  unfold deactivate. intros (l & ? & [= <- <-] & (s1 & _ & Hr)%and_then_true)%bind_Done.
  apply bind_Done in Hr as (? & s2 & Hc & Hr). unfold clean_up, clear_excluded in Hc.
  apply bind_Done in Hc as (? & s3 & _ & (? & s4 & _ & (? & s5 & _ & Hc)%bind_Done)%bind_Done).
  apply bind_Done in Hc as (? & ? & _ & (? & s6 & _ & [= <- <-])%bind_Done).
  script_inv. done.
Qed.

#[export] Instance delete_connection_keeps {C} (f : Daemon -> C) c : Keeps f (delete_connection c).
Proof. unfold delete_connection, delete_route. apply _. Qed.

Lemma delete_connection_run c s u s' :
  delete_connection c s = Done u s' ->
  exists t, history s' = history s ++ t
    /\ Exists (removes_peer (m_config c)) t
    /\ forall ip, ip ∈ m_allowedIPAddressRanges (m_config c) -> Exists (removes_route ip) t.
Proof.
  unfold delete_connection. intros (? & s1 & H1 & H2)%bind_Done.
  apply (for_each_calls removes_route) in H1 as (t1 & E1 & Hf).
  2: { unfold delete_route. intros ip ? ? ? Hr. script_inv. eexists. split; [done|].
       apply Exists_cons_hd. by eexists. }
  script_inv. exists (t1 ++ [DeletePeer (m_config c) (deletePeer (history s1) (m_config c))]).
  rewrite E1, <- app_assoc. setoid_rewrite Exists_app. split_and!; [done| |].
  - right. apply Exists_cons_hd. by eexists.
  - intros ip Hip. left. by apply Hf.
Qed.

(** The loop over the connections. *)
Lemma delete_connections_run l s u s' :
  for_each l delete_connection s = Done u s' ->
  exists t, history s' = history s ++ t
    /\ forall c, c ∈ l -> Exists (removes_peer (m_config c)) t
         /\ forall ip, ip ∈ m_allowedIPAddressRanges (m_config c) -> Exists (removes_route ip) t.
Proof.
  revert s. induction l as [|c l IH]; intros s; cbn [for_each].
  - intros [= <- <-]. exists []. rewrite app_nil_r. split; [done|].
    intros c Hc. by apply not_elem_of_nil in Hc.
  - intros (? & s1 & (t1 & E1 & Hp & Hr)%delete_connection_run & (t2 & E2 & H2)%IH)%bind_Done.
    exists (t1 ++ t2). split; [by rewrite E2, E1, app_assoc|]. setoid_rewrite Exists_app.
    intros c' [->|Hc]%elem_of_cons; [by split; [left|intros; left; apply Hr]|].
    destruct (H2 c' Hc) as [? Hr2]. split; [by right|]. intros ip Hip. right. by apply Hr2.
Qed.

Lemma clear_excluded_run s u s' :
  clear_excluded s = Done u s' ->
  globals s' = mkDaemon (m_connections (globals s)) ∅
  /\ exists t, history s' = history s ++ t
       /\ forall ip, is_Some (m_excludedAddrSet (globals s) !! ip) -> Exists (removes_exclusion ip) t.
Proof.
  unfold clear_excluded. intros (? & ? & [= <- <-] & (? & s1 & Hf & [= <- <-])%bind_Done)%bind_Done.
  split.
  - simpl_state. unfold set_excluded. f_equal.
    exact (keeps_run (f := m_connections) _ _ _ Hf).
  - apply (for_each_calls removes_exclusion) in Hf as (t & Et & Hf).
    2: { unfold delete_exclusion. intros ip ? ? ? Hr. script_inv. eexists. split; [done|].
         apply Exists_cons_hd. by eexists. }
    exists t. split; [done|]. intros ip [n Hn]. apply Hf, list_elem_of_fmap.
    exists (ip, n). split; [done|]. by apply elem_of_map_to_list.
Qed.

(** The first step of a deactivation. *)
Lemma run_down_run s ok s1 :
  match connection_list (m_connections (globals s)) with
  | c :: _ => run Down (m_config c)
  | [] => ret true
  end s = Done ok s1 ->
  globals s1 = globals s /\ exists t, history s1 = history s ++ t
    /\ (ok = false -> exists config, t = [Run Down config false]).
Proof.
  destruct (connection_list _); unfold run; intros Hr; script_inv; (split; [done|]).
  - exists []. by rewrite app_nil_r.
  - eexists. split; [done|]. intros ->. by eexists.
Qed.

(** The steps after it. *)
Lemma clean_up_run b s u s' :
  clean_up b (connection_list (m_connections (globals s))) s = Done u s' ->
  m_excludedAddrSet (globals s') = ∅ /\ exists t, history s' = history s ++ t
    /\ (forall ip, is_Some (m_excludedAddrSet (globals s) !! ip) -> Exists (removes_exclusion ip) t)
    /\ (forall c, c ∈ connection_list (m_connections (globals s)) ->
          Exists (removes_peer (m_config c)) t
          /\ forall ip, ip ∈ m_allowedIPAddressRanges (m_config c) -> Exists (removes_route ip) t).
Proof.
  intros (? & s1 & H1 & (? & s2 & H2 & (? & s3 & H3 & H4)%bind_Done)%bind_Done)%bind_Done.
  destruct (extends_run _ _ _ H1) as [t1 E1], (extends_run _ _ _ H2) as [t2 E2].
  assert (Ex : m_excludedAddrSet (globals s3) = m_excludedAddrSet (globals s)).
  { rewrite (keeps_run (f := m_excludedAddrSet) _ _ _ H3), (keeps_run (f := m_excludedAddrSet) _ _ _ H2).
    exact (keeps_run (f := m_excludedAddrSet) _ _ _ H1). }
  apply delete_connections_run in H3 as (t3 & E3 & Hc).
  apply clear_excluded_run in H4 as [Eg (t4 & E4 & Hx)]. rewrite Ex in Hx.
  split; [by rewrite Eg|]. exists ((t1 ++ t2 ++ t3) ++ t4). setoid_rewrite Exists_app.
  split_and!; [by rewrite E4, E3, E2, E1, !app_assoc|intros; right; by apply Hx|].
  intros c [Hp Hr]%Hc. split; [rewrite !Exists_app; tauto|].
  intros ip Hip. apply Hr in Hip. rewrite !Exists_app. tauto.
Qed.

Lemma handshakes_cons config st peers :
  handshakes config (st :: peers)
  = if is_handshake config st then st :: handshakes config peers else handshakes config peers.
Proof. reflexivity. Qed.

Lemma scan_peers_run config d peers s :
  scan_peers config d peers s
  = Done (match last (handshakes config peers) with Some st => Some (m_handshake st) | None => d end)
      (mkState (globals s)
        (history s ++ map (fun st => Connected (m_pubkey st)) (handshakes config peers))).
Proof.
  revert d s. induction peers as [|st peers IH]; intros d s; cbn [scan_peers].
  - destruct s. cbn. by rewrite app_nil_r.
  - fold (is_handshake config st). rewrite handshakes_cons.
    destruct (is_handshake config st); [|apply IH].
    unfold bind, emit, call. rewrite IH. cbn [globals history map]. rewrite <- app_assoc.
    f_equal. rewrite last_cons. by destruct (last _).
Qed.

Lemma check_connection_run peers h s :
  let c := connection (m_connections (globals s)) h in
  exists s', check_connection peers h s
      = Done (if pending (refresh peers <$> c) then 1 else 0) s'
    /\ history s' = history s ++ signals peers c
    /\ m_excludedAddrSet (globals s') = m_excludedAddrSet (globals s)
    /\ forall h', connection (m_connections (globals s')) h'
         = if decide (h' = h) then refresh peers <$> c else connection (m_connections (globals s)) h'.
Proof.
  intros c. unfold check_connection, bind at 1. cbn [gets]. fold c.
  destruct c as [[[date|] config]|] eqn:Ec; unfold c in Ec.
  1, 3: eexists; split_and!; [reflexivity|by rewrite app_nil_r|done|];
    intros h'; case_decide; by subst.
  unfold bind at 1. rewrite scan_peers_run. unfold bind, modify, ret.
  eexists. split.
  { assert (Ed : forall o : option PeerStatus,
      match (match o with Some st => Some (m_handshake st) | None => None end) with
      | None => 1 | Some _ => 0 end
      = if pending (Some (mkConnection (m_handshake <$> o) config)) then 1 else 0) by by intros [].
    rewrite Ed. reflexivity. }
  split_and!; [reflexivity|reflexivity|].
  - intros h'. simpl_state. unfold refresh. cbn. destruct (last _), h, h'; done.
Qed.

Lemma named_cons ip i l :
  named ip (i :: l) = (if decide (address_of i = ip) then 1 else 0) + named ip l.
Proof.
  unfold named. cbn [List.filter]. case_bool_decide as E.
  - rewrite decide_True by done. cbn [length]. lia.
  - rewrite decide_False by done. lia.
Qed.

Lemma named_pos ip l : 0 <= named ip l.
Proof. unfold named. lia. Qed.

Lemma exclude_all_count l s u s' :
  (forall h ip, wg_addExclusionRoute h ip = true) -> exclude_all l s = Done u s' ->
  forall ip, count (globals s') ip = count (globals s) ip + named ip l.
Proof.
  intros Hadd. unfold exclude_all. revert s. induction l as [|i l IH]; intros s; cbn [for_each].
  - intros [= <- <-] ip. unfold named. simpl. lia.
  - intros (? & s1 & H1 & H2)%bind_Done ip. rewrite (IH _ H2 ip), named_cons.
    enough (count (globals s1) ip
            = count (globals s) ip + (if decide (address_of i = ip) then 1 else 0)) by lia.
    unfold addExclusionRoute, and_then, count in *. script_inv.
    destruct (m_excludedAddrSet _ !! address_of i) eqn:E; script_inv; [|rewrite Hadd in *; script_inv];
      (case_decide as Eip; [subst; rewrite lookup_insert_eq, E; simpl; lia
                           |rewrite lookup_insert_ne by done; simpl; lia]).
Qed.

Lemma del_all_count l s u s' :
  (forall i, i ∈ l -> IPAddress_of_host (hostAddress i) = address_of i) ->
  (forall ip, named ip l <= count (globals s) ip) ->
  for_each l (fun i => let* _ := delExclusionRoute (IPAddress_of_host (hostAddress i)) in ret tt) s
  = Done u s' ->
  forall ip, count (globals s') ip = count (globals s) ip - named ip l.
Proof.
  revert s. induction l as [|i l IH]; intros s Hpl Hle; cbn [for_each].
  - intros [= <- <-] ip. unfold named. simpl. lia.
  - intros (? & s1 & H1 & H2)%bind_Done.
    assert (Hs1 : forall ip, count (globals s1) ip
        = count (globals s) ip - (if decide (address_of i = ip) then 1 else 0)).
    { intros ip. specialize (Hle (address_of i)). rewrite named_cons, decide_True in Hle by done.
      pose proof (named_pos (address_of i) l). rewrite Hpl in H1 by left.
      unfold delExclusionRoute, delete_exclusion, count in *. script_inv.
      match goal with Hr : context [1 <? ?n] |- _ => destruct (Z.ltb_spec 1 n) end;
        script_inv; (case_decide as Eip; [subst ip|]).
      - by rewrite lookup_insert_eq.
      - rewrite lookup_insert_ne by done. lia.
      - rewrite lookup_delete_eq. simpl. lia.
      - rewrite lookup_delete_ne by done. lia. }
    assert (Hle1 : forall ip, named ip l <= count (globals s1) ip).
    { intros ip. specialize (Hle ip). rewrite named_cons in Hle. rewrite Hs1. lia. }
    intros ip. rewrite (IH s1 (fun j Hj => Hpl j (list_elem_of_further _ _ _ Hj)) Hle1 H2 ip).
    rewrite named_cons, Hs1. lia.
Qed.

#[export] Instance set_routes_keeps {C} (f : Daemon -> C) l : Keeps f (set_routes l).
Proof. induction l; cbn [set_routes]; apply _. Qed.

(** The excluded addresses after a switch that succeeds. *)
Lemma switch_from_count config lastConfig s s' :
  (forall h ip, wg_addExclusionRoute h ip = true) ->
  (forall i, i ∈ m_excludedAddresses lastConfig -> IPAddress_of_host (hostAddress i) = address_of i) ->
  (forall ip, named ip (m_excludedAddresses lastConfig) <= count (globals s) ip) ->
  switch_from config lastConfig s = Done true s' ->
  forall ip, count (globals s') ip = count (globals s) ip
    + named ip (m_excludedAddresses config) - named ip (m_excludedAddresses lastConfig).
Proof.
  intros Hadd Hpl Hle. unfold switch_from, drop_old_routes.
  intros (? & s1 & H1 & (s2 & H2 & Hr)%and_then_true)%bind_Done.
  apply bind_Done in Hr as (? & s3 & H3 & (? & s5 & (? & s4 & H4 & H5)%bind_Done & Hr)%bind_Done).
  apply and_then_true in Hr as (s6 & H6 & (? & ? & [= <- <-] & [= <-])%bind_Done).
  pose proof (exclude_all_count _ _ _ _ Hadd H1) as C1.
  assert (K3 : m_excludedAddrSet (globals s3) = m_excludedAddrSet (globals s1)).
  { by rewrite (keeps_run (f := m_excludedAddrSet) _ _ _ H3), (keeps_run (f := m_excludedAddrSet) _ _ _ H2). }
  assert (K6 : m_excludedAddrSet (globals s6) = m_excludedAddrSet (globals s4)).
  { rewrite (keeps_run (f := m_excludedAddrSet) _ _ _ H6).
    unfold delete_route in H5. exact (keeps_run (f := m_excludedAddrSet) _ _ _ H5). }
  intros ip. assert (Hc : count (globals s4) ip = count (globals s3) ip - named ip (m_excludedAddresses lastConfig)).
  { eapply del_all_count; [exact Hpl| |exact H4]. intros ip'. unfold count in *. rewrite K3, C1.
    specialize (Hle ip'). pose proof (named_pos ip' (m_excludedAddresses config)). lia. }
  unfold count in *. simpl_state. rewrite K6, Hc, K3, C1. lia.
Qed.

Lemma failure_guard_total m s : (exists ok s', m s = Done ok s') -> exists ok s', failure_guard m s = Done ok s'.
Proof.
  intros (ok & s1 & Hm). unfold failure_guard, bind. rewrite Hm. destruct ok; by eexists _, _.
Qed.

(** The nested call finds no connection, so two levels are enough. *)
Lemma activate_total config : Total (activate 2 config).
Proof.
  intros s. cbn [activate]. apply failure_guard_total. unfold bind at 1. cbn [gets].
  destruct (connection _ _); [|apply activate_off_total].
  unfold bind at 1. cbn [gets]. destruct (supportServerSwitching _ _); [exact (total_run _)|].
  unfold and_then at 1, bind at 1. destruct (deactivate_total false s) as (ok & s1 & Hd).
  rewrite Hd. destruct ok; [|by eexists _, _].
  apply failure_guard_total. unfold bind at 1. cbn [gets].
  rewrite (deactivate_true _ _ _ Hd). cbn [m_connections]. destruct (m_hopType config); apply activate_off_total.
Qed.

(** ** Properties *)

(** C22: an activation always ends: with success, and then the new configuration
    is the connection of its hop, without a handshake yet, and the poll for the
    handshake was started last; or with failure, and then the failure was
    signalled last. *)
Theorem activate_settles config s :
  exists ok s', activate 2 config s = Done ok s' /\ settled config ok s'.
Proof.
  destruct (activate_total config s) as (ok & s' & Hr). exists ok, s'.
  split; [done|]. by apply activate_settled in Hr.
Qed.

(** C7: whatever commands the daemon is given and however the platform answers,
    the addresses that the daemon counts as excluded are exactly those with a
    route that was set and whose removal has not been asked for, each counted at
    least once; so a deactivation finds every route to remove. *)
Theorem exclusion_routes_match s : rtc daemon_step daemon_start s -> routes_match s.
Proof.
  assert (H0 : routes_match daemon_start) by (intros ip; unfold daemon_start; simpl_state; by rewrite lookup_empty).
  revert H0. generalize daemon_start. intros s0 H0 Hr.
  induction Hr as [s0|s0 s1 s' Hs _ IH]; [done|]. apply IH.
  destruct Hs as [? ? ? ? Hs|? ? ? ? Hs|? ? Hs|? ? ? Hs]; exact (preserves_run _ _ _ H0 Hs).
Qed.

(** C27: a deactivation is refused, with nothing changed, only where the platform's
    own step fails first.  Otherwise nothing is left: the daemon has no connection
    and no excluded address, and the removal of every excluded route, of every
    route and peer of every connection, and finally of the interface was asked
    for, whatever the platform answered. *)
Theorem deactivate_clears b s :
  exists ok s' t, deactivate b s = Done ok s' /\ history s' = history s ++ t
    /\ ((ok = false /\ globals s' = globals s /\ exists config, t = [Run Down config false])
        \/ (globals s' = mkDaemon no_connections ∅
            /\ (forall ip, is_Some (m_excludedAddrSet (globals s) !! ip) ->
                  Exists (removes_exclusion ip) t)
            /\ (forall c, c ∈ connection_list (m_connections (globals s)) ->
                  Exists (removes_peer (m_config c)) t
                  /\ forall ip, ip ∈ m_allowedIPAddressRanges (m_config c) ->
                       Exists (removes_route ip) t)
            /\ last t = Some (DeleteInterface ok))).
Proof.
  destruct (deactivate_total b s) as (ok & s' & Hr). exists ok, s'.
  pose proof Hr as Hd. unfold deactivate, and_then in Hr.
  apply bind_Done in Hr as (? & ? & [= <- <-] & (ok1 & s1 & H1 & Hr)%bind_Done).
  apply run_down_run in H1 as [Eg (t1 & E1 & Hf)]. destruct ok1.
  2: { injection Hr as <- <-. exists t1. split_and!; [done|done|]. left. by split_and!; [| |apply Hf]. }
  rewrite <- Eg in Hr. apply bind_Done in Hr as (? & s2 & H2 & Hr).
  apply clean_up_run in H2 as [Ex (t2 & E2 & Hx & Hc)]. rewrite Eg in Hx, Hc.
  apply bind_Done in Hr as (? & ? & [= <- <-] & [-> ->]%call_Done). cbn [history globals] in *.
  exists (t1 ++ t2 ++ [DeleteInterface (deleteInterface (history s2))]).
  split; [done|]. split; [by rewrite !app_assoc, <- E1, <- E2|]. right.
  setoid_rewrite Exists_app. split_and!.
  - unfold set_connections. by rewrite Ex.
  - intros ip Hip. rewrite Exists_app. right. left. by apply Hx.
  - intros c [Hp Hr]%Hc. split; [rewrite Exists_app; tauto|].
    intros ip Hip. apply Hr in Hip. rewrite Exists_app. tauto.
  - rewrite app_assoc. apply last_snoc.
Qed.

(** The poll for handshakes.  Each connection that waits takes the time of the
    handshake that the platform reports for its peer, which is signalled; nothing
    else is changed; and the poll is started again exactly where a connection
    still waits. *)
Theorem checkHandshake_polls s :
  let peers := getPeerStatus (history s) in
  let conn h := connection (m_connections (globals s)) h in
  exists s', checkHandshake s = Done tt s'
    /\ m_excludedAddrSet (globals s') = m_excludedAddrSet (globals s)
    /\ (forall h, connection (m_connections (globals s')) h = refresh peers <$> conn h)
    /\ history s' = history s ++ [GetPeerStatus peers]
         ++ signals peers (conn SingleHop) ++ signals peers (conn MultiHopEntry)
         ++ signals peers (conn MultiHopExit)
         ++ (if existsb (fun h => pending (connection (m_connections (globals s')) h))
                  [SingleHop; MultiHopEntry; MultiHopExit]
             then [StartHandshakeTimer HANDSHAKE_POLL_MSEC] else []).
Proof.
  intros peers conn. unfold checkHandshake, bind at 1, call. fold peers.
  set (s0 := mkState (globals s) (history s ++ [GetPeerStatus peers])).
  destruct (check_connection_run peers SingleHop s0) as (s1 & H1 & E1 & X1 & C1).
  destruct (check_connection_run peers MultiHopEntry s1) as (s2 & H2 & E2 & X2 & C2).
  destruct (check_connection_run peers MultiHopExit s2) as (s3 & H3 & E3 & X3 & C3).
  assert (F1 : connection (m_connections (globals s0)) SingleHop = conn SingleHop) by done.
  assert (F2 : connection (m_connections (globals s1)) MultiHopEntry = conn MultiHopEntry)
    by by rewrite C1, decide_False.
  assert (F3 : connection (m_connections (globals s2)) MultiHopExit = conn MultiHopExit)
    by by rewrite C2, decide_False, C1, decide_False.
  assert (F : forall h, connection (m_connections (globals s3)) h = refresh peers <$> conn h).
  { intros h. rewrite C3. destruct h.
    - by rewrite decide_False, C2, decide_False, C1, decide_True.
    - by rewrite decide_False, C2, decide_True, F2.
    - by rewrite decide_True, F3. }
  rewrite F1 in *. rewrite F2 in *. rewrite F3 in *.
  unfold bind at 1. rewrite H1. unfold bind at 1. rewrite H2. unfold bind at 1. rewrite H3.
  set (again := existsb (fun h => pending (connection (m_connections (globals s3)) h))
    [SingleHop; MultiHopEntry; MultiHopExit]).
  assert (Ea : (0 <? (if pending (refresh peers <$> conn SingleHop) then 1 else 0)
      + (if pending (refresh peers <$> conn MultiHopEntry) then 1 else 0)
      + (if pending (refresh peers <$> conn MultiHopExit) then 1 else 0)) = again).
  { unfold again. cbn [existsb]. rewrite !F. by repeat destruct (pending _). }
  rewrite Ea. assert (Ex : m_excludedAddrSet (globals s3) = m_excludedAddrSet (globals s))
    by by rewrite X3, X2, X1.
  assert (Eh : history s3 = history s ++ [GetPeerStatus peers] ++ signals peers (conn SingleHop)
    ++ signals peers (conn MultiHopEntry) ++ signals peers (conn MultiHopExit))
    by (rewrite E3, E2, E1; unfold s0; cbn [history]; by rewrite <- !app_assoc).
  destruct again eqn:Eg; eexists; (split; [reflexivity|]); simpl_state;
    (split; [done|]); (split; [done|]); fold again; rewrite Eg, Eh, <- ?app_assoc; [done|].
  by rewrite app_nil_r.
Qed.

(** A switch of servers that succeeds exchanges the exclusions: every address
    is counted as before, once more for each time the new configuration names it
    and once less for each time the old one does.  The platform is assumed to set
    the routes; the old exclusions are single addresses that are still counted. *)
Theorem switchServer_exchanges config lastConfig s s' :
  (forall h ip, wg_addExclusionRoute h ip = true) ->
  connection (m_connections (globals s)) (m_hopType config) = Some lastConfig ->
  (forall i, i ∈ m_excludedAddresses (m_config lastConfig) ->
     IPAddress_of_host (hostAddress i) = address_of i) ->
  (forall ip, named ip (m_excludedAddresses (m_config lastConfig)) <= count (globals s) ip) ->
  switchServer config s = Done true s' ->
  forall ip, count (globals s') ip = count (globals s) ip
    + named ip (m_excludedAddresses config) - named ip (m_excludedAddresses (m_config lastConfig)).
Proof.
  intros Hadd Hc Hpl Hle. unfold switchServer. intros (? & ? & [= <- <-] & Hr)%bind_Done.
  rewrite Hc in Hr. by eapply switch_from_count.
Qed.

End Daemon.

(** A range that the old configuration excludes survives the switch of
    servers: it is counted under the range, but released as a single address,
    which a range is not; so its route stays although the new configuration
    excludes nothing. *)
Theorem switch_keeps_excluded_range :
  let o1 := @activate example_utils 2 (config_for "key1" "1.1.1.1" ["10.0.0.0/8"]) daemon_start in
  let o2 := @activate example_utils 2 (config_for "key2" "1.1.1.1" []) (final o1) in
  o1 = Done true (final o1) /\ o2 = Done true (final o2)
  /\ count (globals (final o2)) (mkIPAddress (HostV4 167772160) 8) = 1
  /\ has_route (history (final o2)) (mkIPAddress (HostV4 167772160) 8) = true.
Proof. split_and!; vm_compute; reflexivity. Qed.

Lemma exclusion_routes_match_witness :
  routes_match (final (@activate example_utils 2 (config_for "key1" "1.1.1.1" ["10.0.0.0/8"]) daemon_start)).
Proof.
  apply (@exclusion_routes_match example_utils).
  apply rtc_once, (@step_activate example_utils (config_for "key1" "1.1.1.1" ["10.0.0.0/8"]) true).
  vm_compute. reflexivity.
Defined.

Lemma example_plain (i : string) :
  i ∈ ["203.0.113.1"%string] ->
  IPAddress_of_host (@hostAddress example_qt i) = @address_of example_utils i.
Proof. intros Hi. apply list_elem_of_singleton in Hi as ->. vm_compute. reflexivity. Qed.

Lemma example_counted (ip : IPAddress) :
  @named example_utils ip ["203.0.113.1"%string] <= count (globals example_state) ip.
Proof.
  unfold named, count, example_state. cbn [List.filter globals m_excludedAddrSet].
  case_bool_decide as Eip; cbn [length].
  - subst ip. vm_compute. discriminate.
  - destruct (_ !! ip) as [n|] eqn:En; simpl; [|lia].
    apply lookup_singleton_Some in En as [_ <-]. lia.
Qed.

Lemma switchServer_exchanges_witness :
  let o := @switchServer example_utils (config_for "key2" "1.1.1.1" []) example_state in
  o = Done true (final o)
  /\ count (globals (final o)) (mkIPAddress (HostV4 3405803777) 32) = 0.
Proof.
  assert (E : @switchServer example_utils (config_for "key2" "1.1.1.1" []) example_state
    = Done true (final (@switchServer example_utils (config_for "key2" "1.1.1.1" []) example_state)))
    by (vm_compute; reflexivity).
  split; [exact E|].
  rewrite (@switchServer_exchanges example_utils (config_for "key2" "1.1.1.1" [])
    (mkConnection None (config_for "key1" "1.1.1.1" ["203.0.113.1"])) example_state _
    (fun _ _ => eq_refl) eq_refl example_plain example_counted E).
  vm_compute. reflexivity.
Defined.
