(* ===== verification/Framing.v ===== *)
(** * Messages on the local socket

    The client and the daemon exchange JSON objects, one on each line.  This file
    holds what both ends share: the loop that takes lines from a buffer, the trim of
    a line, and the writer of a message. *)

From stdpp Require Import base numbers list strings.
From Stdlib Require Import ZArith Lia Strings.String Strings.Ascii.
From S2P Require Import Prelude Json Config Script.
Open Scope string_scope.
Open Scope list_scope.
Open Scope script_scope.

(** [QJsonDocument::fromJson], none where there is no document, and
    [QJsonDocument::toJson(Compact)]. *)
Class JsonText := {
  fromJson : string -> option json;
  compact : QJsonObject -> string
}.

(** The text before the first line break and the text after it. *)
Fixpoint cut_line (s : string) : option (string * string) :=
  match s with
  | EmptyString => None
  | String c s' =>
      if Ascii.eqb newline c then Some (EmptyString, s')
      else match cut_line s' with Some (l, r) => Some (String c l, r) | None => None end
  end.

Definition string_rev (s : string) : string := string_of_list_ascii (rev (list_ascii_of_string s)).

(** [QByteArray::trimmed]: without the white space at both ends. *)
Definition trimmed (s : string) : string := string_rev (drop_space (string_rev (drop_space s))).

Section Loop.
Context {E G : Type} (parseCommand : string -> Script E G unit).

(** One line: it is handled unless it is blank. *)
Definition handle_line (line : string) : Script E G unit :=
  let command := trimmed line in
  when (negb (String.eqb command EmptyString)) (parseCommand command).

(** The loop over the lines of the buffer; the result is what is left in it. *)
Fixpoint drain (fuel : nat) (buffer : string) : Script E G string :=
  match fuel with
  | O => out_of_fuel
  | S fuel' =>
      match cut_line buffer with
      | None => ret buffer
      | Some (line, rest) => handle_line line ;;; drain fuel' rest
      end
  end.

(** The same loop where the socket is read when no line is left: [inputs] are the
    bytes that successive reads return. *)
Fixpoint drain_socket (fuel : nat) (buffer : string) (inputs : list string) : Script E G string :=
  match fuel with
  | O => out_of_fuel
  | S fuel' =>
      match cut_line buffer with
      | None =>
          match inputs with
          | [] | EmptyString :: _ => ret buffer
          | input :: inputs' => drain_socket fuel' (buffer ++ input) inputs'
          end
      | Some (line, rest) => handle_line line ;;; drain_socket fuel' rest inputs
      end
  end.

(** ** Specification *)

(** The complete lines of a text and what follows the last of them. *)
Definition complete (text : string) : list string := removelast (split_on newline text).
Definition remainder (text : string) : string := List.last (split_on newline text) EmptyString.

Definition all_text (inputs : list string) : string := fold_right String.append EmptyString inputs.

(** What must happen for a text: each complete line is handled, in order. *)
Definition handled (text : string) : Script E G string :=
  for_each (complete text) handle_line ;;; ret (remainder text).

(** ** Lemmas *)

Lemma removelast_cons2 {A} (x y : A) (l : list A) : removelast (x :: y :: l) = x :: removelast (y :: l).
Proof. done. Qed.

Lemma last_cons2 {A} (x y d : A) (l : list A) : List.last (x :: y :: l) d = List.last (y :: l) d.
Proof. done. Qed.

Lemma cut_line_spec (s : string) :
  match cut_line s with
  | Some (l, r) => complete s = l :: complete r /\ remainder s = remainder r
      /\ (String.length r < String.length s)%nat
  | None => complete s = [] /\ remainder s = s
  end.
Proof.
  unfold complete, remainder. induction s as [|c s IH]; [done|].
  cbn [cut_line]. rewrite split_on_cons. destruct (Ascii.eqb newline c) eqn:Ec.
  - destruct (split_on newline s) eqn:Es; [by destruct (split_on_nonempty newline s)|].
    split; [done|]. split; [done|]. cbn. lia.
  - destruct (split_on newline s) as [|w ws] eqn:Es; [by destruct (split_on_nonempty newline s)|].
    destruct (cut_line s) as [[l r]|].
    + destruct IH as (H1 & H2 & H3).
      destruct ws as [|w' ws]; [by destruct (split_on newline r) as [|? [|? ?]]|].
      rewrite removelast_cons2, last_cons2 in *. apply (inj2 cons) in H1 as [-> H1]. rewrite H1, H2.
      cbn [String.length]. split_and!; [done|done|lia].
    + destruct IH as [H1 H2]. destruct ws as [|w' ws]; [|done]. cbn in H2 |- *. by rewrite H2.
Qed.

Lemma bind_assoc {A B C} (m : Script E G A) (k : A -> Script E G B) (h : B -> Script E G C) s :
  bind (bind m k) h s = bind m (fun a => bind (k a) h) s.
Proof. unfold bind. by destruct (m s). Qed.

Lemma handled_cut (s l r : string) (st : State E G) :
  cut_line s = Some (l, r) -> handled s st = (handle_line l ;;; handled r) st.
Proof.
  intros Hc. pose proof (cut_line_spec s) as Hs. rewrite Hc in Hs. destruct Hs as (H1 & H2 & _).
  unfold handled. rewrite H1, H2. cbn [for_each]. by rewrite bind_assoc.
Qed.

Lemma bind_ext {A B} (m : Script E G A) (k k' : A -> Script E G B) s :
  (forall a s', k a s' = k' a s') -> bind m k s = bind m k' s.
Proof. intros Hk. unfold bind. by destruct (m s). Qed.

(** With fuel for each byte the loop handles the complete lines. *)
Lemma drain_handled (fuel : nat) (s : string) (st : State E G) :
  (String.length s < fuel)%nat -> drain fuel s st = handled s st.
Proof.
  revert s st. induction fuel as [|fuel IH]; intros s st Hf; [lia|]. cbn [drain].
  pose proof (cut_line_spec s) as Hs. destruct (cut_line s) as [[l r]|] eqn:Hc.
  - rewrite (handled_cut s l r) by done. apply bind_ext. intros _ s'. apply IH. lia.
  - destruct Hs as [H1 H2]. unfold handled. by rewrite H1, H2.
Qed.

Lemma complete_app (a b : string) :
  complete (a ++ b) = complete a ++ complete (remainder a ++ b)
  /\ remainder (a ++ b) = remainder (remainder a ++ b).
Proof.
  unfold complete, remainder. induction a as [|c a IH]; [done|].
  change (String c a ++ b)%string with (String c (a ++ b)). rewrite !split_on_cons.
  destruct (split_on newline a) as [|w ws] eqn:Ea; [by destruct (split_on_nonempty newline a)|].
  destruct (split_on newline (a ++ b)) as [|v vs] eqn:Eb; [by destruct (split_on_nonempty newline (a ++ b))|].
  destruct (Ascii.eqb newline c) eqn:Ec.
  - rewrite !removelast_cons2, !last_cons2. destruct IH as [-> ->]. done.
  - destruct ws as [|w' ws].
    + destruct IH as [H1 H2]. cbn [removelast List.last app] in *.
      change (String c w ++ b)%string with (String c (w ++ b)). rewrite split_on_cons, Ec.
      destruct (split_on newline (w ++ b)) as [|x xs] eqn:Ew;
        [by destruct (split_on_nonempty newline (w ++ b))|].
      destruct vs as [|v' vs], xs as [|x' xs]; try discriminate H1.
      * change (v = x) in H2. by rewrite H2.
      * rewrite !removelast_cons2, !last_cons2 in *. by apply (inj2 cons) in H1 as [-> ->].
    + destruct IH as [H1 H2]. destruct vs as [|v' vs]; [discriminate H1|].
      rewrite !removelast_cons2, !last_cons2 in *. apply (inj2 cons) in H1 as [-> ->]. done.
Qed.

(** Text that comes in parts is handled like the whole. *)
Lemma handled_app (a b : string) (st : State E G) :
  (let* rest := handled a in handled (rest ++ b)) st = handled (a ++ b) st.
Proof.
  unfold handled. destruct (complete_app a b) as [-> ->]. rewrite bind_assoc.
  generalize (remainder a). intros r. revert st.
  induction (complete a) as [|l ls IH]; intros st; [done|]. cbn [app for_each].
  rewrite !bind_assoc. apply bind_ext. intros _ s'. apply IH.
Qed.

(** With fuel for each byte and each read the other loop handles the complete lines
    of all that it reads. *)
Lemma drain_socket_handled (fuel : nat) (s : string) (inputs : list string) (st : State E G) :
  Forall (fun i => i <> EmptyString) inputs ->
  (String.length s + foldr (fun i n => S (String.length i) + n)%nat O inputs < fuel)%nat ->
  drain_socket fuel s inputs st = handled (s ++ all_text inputs) st.
Proof.
  revert s inputs st. induction fuel as [|fuel IH]; intros s inputs st Hi Hf; [lia|].
  cbn [drain_socket]. pose proof (cut_line_spec s) as Hs. destruct (cut_line s) as [[l r]|] eqn:Hc.
  - destruct Hs as (_ & _ & Hl).
    rewrite <- handled_app. unfold bind at 2. rewrite (handled_cut s l r) by done.
    change (match (handle_line l ;;; handled r) st with
      | Done a s' => handled (a ++ all_text inputs) s' | ScriptError s' => ScriptError s'
      | NoFuel s' => NoFuel s' end)
      with ((let* rest := (handle_line l ;;; handled r) in handled (rest ++ all_text inputs)) st).
    rewrite bind_assoc. apply bind_ext. intros _ s'. rewrite handled_app. apply IH; [done|lia].
  - destruct inputs as [|i inputs].
    + cbn. rewrite string_app_nil_r. destruct Hs as [H1 H2]. unfold handled. by rewrite H1, H2.
    + apply Forall_cons in Hi as [Hi0 Hi]. cbn [foldr] in Hf.
      destruct i as [|c i]; [done|]. rewrite IH.
      * cbn [all_text foldr]. by rewrite string_app_assoc.
      * done.
      * rewrite string_length_app. lia.
Qed.
End Loop.
