(* ===== verification/LocalSocket.v ===== *)
(** * The client's end of the local socket

    client/mozilla/localsocketcontroller.cpp: the state of the connection to the
    daemon, the retries while it is set up, the message that activates a
    connection, and the handling of the daemon's messages.  Files, dates and the
    text of JSON are Qt's: the interface [Client]. *)

From stdpp Require Import base numbers list strings sorting.
From Stdlib Require Import ZArith Lia QArith Strings.String Strings.Ascii.
From S2P Require Import Prelude IpAddress JsText Json Config Script Framing.
Open Scope string_scope.
Open Scope list_scope.
Open Scope Z_scope.
Open Scope script_scope.

(** ** Data *)

Inductive DaemonState := eUnknown | eInitializing | eReady | eDisconnected.

#[export] Instance DaemonState_eq_dec : EqDecision DaemonState.
Proof. solve_decision. Defined.

Definition is_state (a b : DaemonState) : bool := bool_decide (a = b).

(** A callback for logs is known by a number. *)
Record Controller := mkController {
  m_daemonState : DaemonState;
  m_deviceIpv4 : QString;
  m_logCallback : option nat;
  m_initializingRetry : Z
}.

Definition set_state (d : DaemonState) (c : Controller) : Controller :=
  mkController d (m_deviceIpv4 c) (m_logCallback c) (m_initializingRetry c).
Definition set_device (s : QString) (c : Controller) : Controller :=
  mkController (m_daemonState c) s (m_logCallback c) (m_initializingRetry c).
Definition set_callback (f : option nat) (c : Controller) : Controller :=
  mkController (m_daemonState c) (m_deviceIpv4 c) f (m_initializingRetry c).
Definition set_retry (n : Z) (c : Controller) : Controller :=
  mkController (m_daemonState c) (m_deviceIpv4 c) (m_logCallback c) n.

(** Uses of the socket and the timer, signals, and calls of callbacks. *)
Inductive ClientEvent :=
| ConnectToServer (path : string)
| WriteMessage (text : string)
| StartTimer (msec : Z)
| StopTimer
| Initialized (status connected : bool) (date : option Z)
| SigDisconnected
| SigConnected (pubkey : QString)
| StatusUpdated (serverIpv4Gateway deviceIpv4Address : QString) (txBytes rxBytes : Z)
| BackendFailure (what : string)
| LogCallback (callback : nat) (text : QString).

(** [QFileInfo::exists], the platform, [QDateTime::fromString] and the text of
    JSON. *)
Class Client := {
  client_json :: JsonText;
  on_windows : bool;
  file_exists : list ClientEvent -> string -> bool;
  date_fromString : string -> option Z
}.

Definition MAX_CONNECTION_RETRY : Z := 10.
Definition CONNECTION_RETRY_TIMER_MSEC : Z := 500.

(** ** The message of an activation *)

(** An element of a list of sites, as a range. *)
Definition site_range (v : json) : json :=
  let ipRange := chars (toString (Some v)) in
  let range address n :=
    JObject (insert_all []
      [("address", Some (JString address)); ("range", number n); ("isIpv6", Some (JBool false))]) in
  match split_on "/"%char ipRange with
  | address :: n :: _ => range address (atoi n)
  | _ => range ipRange 32
  end.

Definition default_range (address : string) (isIpv6 : bool) : json :=
  JObject (insert_all []
    [("address", Some (JString address)); ("range", number 0); ("isIpv6", Some (JBool isIpv6))]).

Definition is_default_ips (l : list json) : bool :=
  match l with
  | [JString a; JString b] => String.eqb a "0.0.0.0/0" && String.eqb b "::/0"
  | _ => false
  end.

Definition no_ips (l : list json) : bool := match l with [] => true | _ => false end.

Definition allowed_ranges (plainAllowedIP splitTunnelSites : list json) (splitTunnelType : Z) : list json :=
  if negb (is_default_ips plainAllowedIP) && negb (no_ips plainAllowedIP)
  then map site_range plainAllowedIP
  else
    (if (splitTunnelType =? 0) || (splitTunnelType =? 2)
     then [default_range "0.0.0.0" false; default_range "::" true] else [])
    ++ (if splitTunnelType =? 1 then map site_range splitTunnelSites else []).

(** An undefined value is appended to an array as null. *)
Definition excluded_addresses (hostName : QJsonValue) (splitTunnelSites : list json) (splitTunnelType : Z)
  : list json :=
  [default JNull hostName]
  ++ (if splitTunnelType =? 2
      then map (fun v => JString (chars (toString (Some v)))) splitTunnelSites else []).

Definition junk_keys : list string := ["Jc"; "Jmin"; "Jmax"; "S1"; "S2"; "S3"; "S4"; "H1"; "H2"; "H3"; "H4"].
Definition special_keys : list string := ["I1"; "I2"; "I3"; "I4"; "I5"].

Definition junk_entries (protocolName : QString) (wgConfig : QJsonObject) : list (string * QJsonValue) :=
  if q_eq protocolName (Some "awg") || forallb (obj_contains wgConfig) junk_keys
  then map (fun k => (k, obj_value wgConfig k)) (junk_keys ++ special_keys)
  else [].

Definition amneziaDnsIp : string := "172.29.172.254".

Definition wg_config (rawConfig : QJsonObject) : QJsonObject :=
  toObject (obj_value rawConfig
    (chars (toString (obj_value rawConfig "protocol")) ++ "_config_data")%string).

(** The entries of the message in the order of the insertions. *)
Definition activate_entries (rawConfig : QJsonObject) : list (string * QJsonValue) :=
  let raw k := obj_value rawConfig k in
  let wg k := obj_value (wg_config rawConfig) k in
  let splitTunnelType := toInt (raw "splitTunnelType") in
  let splitTunnelSites := toArray (raw "splitTunnelSites") in
  [("type", Some (JString "activate"));
   ("privateKey", wg "client_priv_key");
   ("deviceIpv4Address", wg "client_ip");
   ("deviceIpv6Address", Some (JString "fd58:baa6:dead::1"));
   ("serverPublicKey", wg "server_pub_key");
   ("serverPskKey", wg "psk_key");
   ("serverIpv4AddrIn", wg "hostName");
   ("deviceMTU", wg "mtu");
   ("serverPort", number (toInt (wg "port")));
   ("serverIpv4Gateway", wg "hostName");
   ("primaryDnsServer", raw "dns1")]
  ++ (if contains_text amneziaDnsIp (chars (toString (raw "dns1"))) then []
      else [("secondaryDnsServer", raw "dns2")])
  ++ [("allowedIPAddressRanges",
       Some (JArray (allowed_ranges (toArray (wg "allowed_ips")) splitTunnelSites splitTunnelType)));
      ("excludedAddresses",
       Some (JArray (excluded_addresses (wg "hostName") splitTunnelSites splitTunnelType)));
      ("vpnDisabledApps", Some (JArray (toArray (raw "splitTunnelApps"))));
      ("allowedDnsServers", Some (JArray (toArray (raw "allowedDnsServers"))));
      ("killSwitchOption", raw "killSwitchOption")]
  ++ junk_entries (toString (raw "protocol")) (wg_config rawConfig).

Definition activate_message (rawConfig : QJsonObject) : QJsonObject := insert_all [] (activate_entries rawConfig).

Section Client.
Context `{Client}.

Abbreviation script := (Script ClientEvent Controller).

(** ** Operations *)

Definition write (o : QJsonObject) : script unit :=
  emit (WriteMessage (compact o ++ String newline EmptyString)%string).

Definition message (type : string) : QJsonObject := insert_all [] [("type", Some (JString type))].

Definition disconnectInternal : script unit :=
  modify (set_state eReady) ;;;
  modify (set_retry 0) ;;;
  emit StopTimer ;;;
  emit SigDisconnected.

(** The counter has 32 bits. *)
Definition errorOccurred : script unit :=
  let* state := gets m_daemonState in
  if is_state state eInitializing then
    let* retry := gets m_initializingRetry in
    modify (set_retry ((retry + 1) mod 2 ^ 32)) ;;;
    if retry <? MAX_CONNECTION_RETRY then emit (StartTimer CONNECTION_RETRY_TIMER_MSEC)
    else emit (Initialized false false None) ;;; disconnectInternal
  else disconnectInternal.

Definition socket_path (h : list ClientEvent) : string :=
  if on_windows then "\\.\pipe\amneziavpn"
  else if file_exists h "/var/run/amneziavpn/daemon.socket" then "/var/run/amneziavpn/daemon.socket"
  else "/tmp/amneziavpn.socket".

Definition initializeInternal : script unit :=
  modify (set_state eInitializing) ;;;
  let* _ := call socket_path ConnectToServer in ret tt.

Definition initialize : script unit :=
  modify (set_retry 0) ;;; initializeInternal.

Definition checkStatus : script unit :=
  let* state := gets m_daemonState in
  when (is_state state eReady || is_state state eInitializing) (write (message "status")).

Definition daemonConnected : script unit := checkStatus.

Definition activate (rawConfig : QJsonObject) : script unit :=
  modify (set_device (toString (obj_value (wg_config rawConfig) "client_ip"))) ;;;
  write (activate_message rawConfig).

Definition deactivate : script unit :=
  let* state := gets m_daemonState in
  when (is_state state eReady) (write (message "deactivate")) ;;;
  emit SigDisconnected.

(** Ends a callback that waits for logs. *)
Definition drop_callback : script unit :=
  let* callback := gets m_logCallback in
  match callback with
  | Some f => emit (LogCallback f (Some EmptyString)) ;;; modify (set_callback None)
  | None => ret tt
  end.

Definition getBackendLogs (a_callback : nat) : script unit :=
  drop_callback ;;;
  let* state := gets m_daemonState in
  if is_state state eReady then
    modify (set_callback (Some a_callback)) ;;; write (message "logs")
  else emit (LogCallback a_callback (Some EmptyString)).

Definition cleanupBackendLogs : script unit :=
  drop_callback ;;;
  let* state := gets m_daemonState in
  when (is_state state eReady) (write (message "cleanlogs")).

(** ** Messages of the daemon *)

(** The time of a connection; none where the message is not valid. *)
Definition status_date (obj : QJsonObject) (connected : bool) : option (option Z) :=
  if connected then
    match obj_value obj "date" with
    | Some (JString s) => match date_fromString s with Some d => Some (Some d) | None => None end
    | _ => None
    end
  else Some None.

(** The first status: the daemon is ready, and the signal follows if the message is
    valid. *)
Definition first_status (obj : QJsonObject) : script unit :=
  modify (set_state eReady) ;;;
  match obj_value obj "connected" with
  | Some (JBool connected) =>
      match status_date obj connected with
      | Some datetime => emit (Initialized true connected datetime)
      | None => ret tt
      end
  | _ => ret tt
  end.

Definition later_status (obj : QJsonObject) : script unit :=
  match obj_value obj "serverIpv4Gateway", obj_value obj "deviceIpv4Address",
        obj_value obj "txBytes", obj_value obj "rxBytes" with
  | Some (JString gateway), Some (JString device), Some (JDouble tx), Some (JDouble rx) =>
      emit (StatusUpdated (Some gateway) (Some device) (double_to_int tx) (double_to_int rx))
  | _, _, _, _ => ret tt
  end.

Definition handle_connected (obj : QJsonObject) : script unit :=
  match obj_value obj "pubkey" with
  | Some (JString pubkey) =>
      checkStatus ;;;
      let* device := gets m_deviceIpv4 in
      emit (StatusUpdated (Some EmptyString) device 0 0) ;;;
      emit (SigConnected (Some pubkey))
  | _ => ret tt
  end.

Definition DAEMON_ERROR_MAX : Z := 5.

(** The code is cast to 8 bits. *)
Definition handle_failure (obj : QJsonObject) : script unit :=
  if negb (obj_contains obj "errorCode") then
    emit (BackendFailure "backend failure without error code")
  else
    let errorCode := toInt (obj_value obj "errorCode") mod 2 ^ 8 in
    if DAEMON_ERROR_MAX <=? errorCode then
      emit (BackendFailure "backend failure with invalid error code")
    else if errorCode <=? 1 then emit (BackendFailure "fatal backend failure")
    else emit (BackendFailure "split tunnel backend failure").

Fixpoint replace_char (a b : ascii) (s : string) : string :=
  match s with
  | EmptyString => EmptyString
  | String c s' => String (if Ascii.eqb c a then b else c) (replace_char a b s')
  end.

Definition handle_logs (obj : QJsonObject) : script unit :=
  let* callback := gets m_logCallback in
  match callback with
  | None => ret tt
  | Some f =>
      emit (LogCallback f
        match obj_value obj "logs" with
        | Some (JString s) => Some (replace_char "|" newline s)
        | _ => None
        end) ;;;
      modify (set_callback None)
  end.

Definition dispatch (type : string) (obj : QJsonObject) : script unit :=
  let* state := gets m_daemonState in
  if is_state state eInitializing && String.eqb type "status" then first_status obj
  else if negb (is_state state eReady) then ret tt
  else if String.eqb type "status" then later_status obj
  else if String.eqb type "disconnected" then disconnectInternal
  else if String.eqb type "connected" then handle_connected obj
  else if String.eqb type "backendFailure" then handle_failure obj
  else if String.eqb type "logs" then handle_logs obj
  else ret tt.

Definition parseCommand (command : string) : script unit :=
  match fromJson command with
  | Some (JObject obj) =>
      match obj_value obj "type" with
      | Some (JString type) => dispatch type obj
      | _ => ret tt
      end
  | _ => ret tt
  end.

(** [m_buffer] is only used here; the result is what is left in it. *)
Definition readData (m_buffer input : string) : script string :=
  let buffer := (m_buffer ++ input)%string in
  drain parseCommand (S (String.length buffer)) buffer.

(** ** Specification *)

(** Attempts to connect that fail, each followed by the next when the timer ends. *)
Fixpoint attempts (n : nat) : script unit :=
  match n with
  | O => ret tt
  | S n' => errorOccurred ;;; initializeInternal ;;; attempts n'
  end.

(** The timer of the retries. *)
Definition is_retry (e : ClientEvent) : bool :=
  match e with StartTimer t => t =? CONNECTION_RETRY_TIMER_MSEC | _ => false end.

(** The callbacks that have been called, and the one that waits. *)
Definition called (e : ClientEvent) : option nat :=
  match e with LogCallback f _ => Some f | _ => None end.

Definition callbacks (s : State ClientEvent Controller) : list nat :=
  omap called (history s) ++ option_list (m_logCallback (globals s)).

(** What happens to the client; the list holds the callbacks it was given so far. *)
Inductive client_run : list nat -> State ClientEvent Controller -> Prop :=
| run_start : client_run [] (mkState (mkController eUnknown None None 0) [])
| run_initialize l s s' : client_run l s -> initialize s = Done tt s' -> client_run l s'
| run_timer l s s' : client_run l s -> initializeInternal s = Done tt s' -> client_run l s'
| run_connected l s s' : client_run l s -> daemonConnected s = Done tt s' -> client_run l s'
| run_error l s s' : client_run l s -> errorOccurred s = Done tt s' -> client_run l s'
| run_activate l s s' raw : client_run l s -> activate raw s = Done tt s' -> client_run l s'
| run_deactivate l s s' : client_run l s -> deactivate s = Done tt s' -> client_run l s'
| run_status l s s' : client_run l s -> checkStatus s = Done tt s' -> client_run l s'
| run_logs l s s' f : client_run l s -> getBackendLogs f s = Done tt s' -> client_run (f :: l) s'
| run_cleanup l s s' : client_run l s -> cleanupBackendLogs s = Done tt s' -> client_run l s'
| run_data l s s' buffer input rest :
    client_run l s -> readData buffer input s = Done rest s' -> client_run l s'.

(** The counter of retries is in its range, and no callback is lost. *)
Definition client_ok (l : list nat) (s : State ClientEvent Controller) : Prop :=
  0 <= m_initializingRetry (globals s) <= MAX_CONNECTION_RETRY /\ callbacks s ≡ₚ l.

(** Text of a site as an address with a prefix. *)
Definition site_address `{Qt} (site : string) : IPAddress :=
  match split_on "/"%char site with
  | address :: n :: _ => mkIPAddress (hostAddress address) (atoi n)
  | _ => mkIPAddress (hostAddress site) 32
  end.

(** What a request for an activation says. *)
Record Request := mkRequest {
  r_type : Z;
  r_key : string;
  r_ip : string;
  r_pub : string;
  r_host : string;
  r_port : Z;
  r_dns1 : string;
  r_dns2 : string;
  r_allowed : list string;
  r_sites : list string;
  r_apps : list string;
  r_allowedDns : list string
}.

(** A raw configuration that holds a request. *)
Definition describes (raw : QJsonObject) (r : Request) : Prop :=
  let wg k := obj_value (wg_config raw) k in
  toInt (obj_value raw "splitTunnelType") = r_type r
  /\ wg "client_priv_key" = Some (JString (r_key r))
  /\ wg "client_ip" = Some (JString (r_ip r))
  /\ wg "server_pub_key" = Some (JString (r_pub r))
  /\ wg "hostName" = Some (JString (r_host r))
  /\ toInt (wg "port") = r_port r
  /\ obj_value raw "dns1" = Some (JString (r_dns1 r))
  /\ obj_value raw "dns2" = Some (JString (r_dns2 r))
  /\ toArray (wg "allowed_ips") = map JString (r_allowed r)
  /\ toArray (obj_value raw "splitTunnelSites") = map JString (r_sites r)
  /\ toArray (obj_value raw "splitTunnelApps") = map JString (r_apps r)
  /\ toArray (obj_value raw "allowedDnsServers") = map JString (r_allowedDns r).

(** Whether the request restricts the addresses for the tunnel by itself. *)
Definition restricts (r : Request) : bool :=
  negb (bool_decide (r_allowed r = []) || bool_decide (r_allowed r = ["0.0.0.0/0"; "::/0"])).

(** The addresses for the tunnel that the request asks for. *)
Definition wanted_ranges `{Qt} (r : Request) : list IPAddress :=
  if restricts r then map site_address (r_allowed r)
  else if (r_type r =? 0) || (r_type r =? 2)
  then [mkIPAddress (hostAddress "0.0.0.0") 0; mkIPAddress (hostAddress "::") 0]
  else if r_type r =? 1 then map site_address (r_sites r)
  else [].

(** A client without files, whose JSON texts are all empty objects. *)
Definition example_client : Client := {|
  client_json := {| fromJson := fun _ => Some (JObject []); compact := fun _ => "{}" |};
  on_windows := false;
  file_exists := fun _ _ => false;
  date_fromString := fun _ => None
|}.

(** A request in which a range bypasses the tunnel. *)
Definition example_request : Request :=
  mkRequest 2 "private" "10.8.0.2" "key" "203.0.113.1" 51820 "1.1.1.1" "1.0.0.1" ["0.0.0.0/0"; "::/0"]
    ["10.0.0.0/8"] [] [].

Definition example_raw : QJsonObject :=
  [("protocol", JString "wireguard");
   ("splitTunnelType", JDouble (inject_Z 2));
   ("splitTunnelSites", JArray [JString "10.0.0.0/8"]);
   ("dns1", JString "1.1.1.1"); ("dns2", JString "1.0.0.1");
   ("wireguard_config_data", JObject
     [("client_priv_key", JString "private"); ("client_ip", JString "10.8.0.2");
      ("server_pub_key", JString "key"); ("hostName", JString "203.0.113.1");
      ("port", JDouble (inject_Z 51820));
      ("allowed_ips", JArray [JString "0.0.0.0/0"; JString "::/0"])])].

(** ** Lemmas *)

Lemma quiet_client_preserves {A} (l : list nat) (answer : list ClientEvent -> A)
    (event : A -> ClientEvent) :
  (forall a, called (event a) = None) -> Preserves (client_ok l) (call answer event).
Proof.
  intros He s b s' [Hr Hc] [-> ->]%call_Done. split; [done|]. unfold callbacks in *. cbn.
  rewrite omap_app. cbn. by rewrite He, app_nil_r.
Qed.

#[export] Instance set_state_preserves (l : list nat) d : Preserves (client_ok l) (modify (set_state d)).
Proof. intros s b s' Hs [= <- <-]. done. Qed.
#[export] Instance set_device_preserves (l : list nat) d : Preserves (client_ok l) (modify (set_device d)).
Proof. intros s b s' Hs [= <- <-]. done. Qed.
#[export] Instance reset_retry_preserves (l : list nat) : Preserves (client_ok l) (modify (set_retry 0)).
Proof. intros s b s' [Hr Hc] [= <- <-]. split; [cbn; unfold MAX_CONNECTION_RETRY; lia|done]. Qed.

#[export] Instance write_preserves l o : Preserves (client_ok l) (write o).
Proof. apply quiet_client_preserves. done. Qed.

(** A script keeps the invariant if its steps do. *)
Ltac client_solve m :=
  unfold m, emit; repeat (first [apply _ | apply quiet_client_preserves; done
    | apply bind_preserves | apply if_preserves | progress intros | case_match]).

#[export] Instance disconnectInternal_preserves l : Preserves (client_ok l) disconnectInternal.
Proof. client_solve disconnectInternal. Qed.
#[export] Instance initializeInternal_preserves l : Preserves (client_ok l) initializeInternal.
Proof. client_solve initializeInternal. Qed.
#[export] Instance initialize_preserves l : Preserves (client_ok l) initialize.
Proof. client_solve initialize. Qed.
#[export] Instance checkStatus_preserves l : Preserves (client_ok l) checkStatus.
Proof. client_solve checkStatus. Qed.
#[export] Instance daemonConnected_preserves l : Preserves (client_ok l) daemonConnected.
Proof. apply checkStatus_preserves. Qed.
#[export] Instance activate_client_preserves l raw : Preserves (client_ok l) (activate raw).
Proof. client_solve activate. Qed.
#[export] Instance deactivate_client_preserves l : Preserves (client_ok l) deactivate.
Proof. client_solve deactivate. Qed.

#[export] Instance errorOccurred_preserves l : Preserves (client_ok l) errorOccurred.
Proof.
  intros s u s' Hs He. unfold errorOccurred, bind, gets, modify in He. cbn [globals history] in He.
  destruct (is_state _ eInitializing); [|exact (disconnectInternal_preserves l _ _ _ Hs He)].
  destruct Hs as [Hr Hc]. unfold MAX_CONNECTION_RETRY in *.
  destruct (Z.ltb_spec (m_initializingRetry (globals s)) 10).
  - refine (quiet_client_preserves l _ _ _ _ _ _ _ He); [done|].
    split; cbn; [|done]. rewrite Z.mod_small by lia. unfold MAX_CONNECTION_RETRY. lia.
  - unfold emit, call in He. cbn in He. unfold disconnectInternal, bind, modify, emit, call in He.
    cbn in He. injection He as <- <-. split; [cbn; unfold MAX_CONNECTION_RETRY; lia|].
    revert Hc. unfold callbacks. cbn. rewrite !omap_app. cbn. by rewrite !app_nil_r.
Qed.

(** The call of a waiting callback. *)
Lemma callback_called l (text : QString) s f :
  m_logCallback (globals s) = Some f -> client_ok l s ->
  client_ok l (mkState (set_callback None (globals s)) (history s ++ [LogCallback f text])).
Proof.
  intros Hf [Hr Hc]. split; [done|]. revert Hc. unfold callbacks. rewrite Hf. cbn.
  rewrite omap_app. cbn. by rewrite app_nil_r.
Qed.

#[export] Instance drop_callback_preserves l : Preserves (client_ok l) drop_callback.
Proof.
  intros s u s' Hs Hd. unfold drop_callback, bind, gets in Hd.
  destruct (m_logCallback (globals s)) eqn:Ef; injection Hd as <- <-; [by apply callback_called|done].
Qed.

#[export] Instance handle_logs_preserves l obj : Preserves (client_ok l) (handle_logs obj).
Proof.
  intros s u s' Hs Hd. unfold handle_logs, bind, gets in Hd.
  destruct (m_logCallback (globals s)) eqn:Ef; injection Hd as <- <-; [by apply callback_called|done].
Qed.

#[export] Instance cleanup_preserves l : Preserves (client_ok l) cleanupBackendLogs.
Proof. client_solve cleanupBackendLogs. Qed.

#[export] Instance first_status_preserves l obj : Preserves (client_ok l) (first_status obj).
Proof. client_solve first_status. Qed.
#[export] Instance later_status_preserves l obj : Preserves (client_ok l) (later_status obj).
Proof. client_solve later_status. Qed.
#[export] Instance handle_connected_preserves l obj : Preserves (client_ok l) (handle_connected obj).
Proof. client_solve handle_connected. Qed.
#[export] Instance handle_failure_preserves l obj : Preserves (client_ok l) (handle_failure obj).
Proof. client_solve handle_failure. Qed.
#[export] Instance dispatch_preserves l type obj : Preserves (client_ok l) (dispatch type obj).
Proof. client_solve dispatch. Qed.
#[export] Instance parseCommand_preserves l command : Preserves (client_ok l) (parseCommand command).
Proof. client_solve parseCommand. Qed.

Lemma readData_handled buffer input s :
  readData buffer input s = handled parseCommand (buffer ++ input) s.
Proof. apply drain_handled. lia. Qed.

#[export] Instance readData_preserves l buffer input : Preserves (client_ok l) (readData buffer input).
Proof.
  intros s r s' Hs Hr. rewrite readData_handled in Hr. revert s r s' Hs Hr.
  change (Preserves (client_ok l) (handled parseCommand (buffer ++ input))).
  unfold handled. apply bind_preserves; [|intros; apply _].
  apply for_each_preserves. intros line. client_solve (@handle_line).
Qed.

(** A request for logs: its callback waits, or has been called. *)
Lemma getBackendLogs_ok l f s s' :
  client_ok l s -> getBackendLogs f s = Done tt s' -> client_ok (f :: l) s'.
Proof.
  intros Hs Hg. unfold getBackendLogs in Hg. apply bind_Done in Hg as (u & s1 & Hd & Hg).
  pose proof (drop_callback_preserves l _ _ _ Hs Hd) as [Hr Hc].
  assert (Hn : m_logCallback (globals s1) = None).
  { unfold drop_callback, bind, gets in Hd.
    destruct (m_logCallback (globals s)) eqn:Ef; by injection Hd as <- <-. }
  unfold callbacks in Hc. rewrite Hn in Hc. cbn in Hc. rewrite app_nil_r in Hc.
  unfold bind, gets in Hg. destruct (is_state _ eReady); injection Hg as <-; (split; [done|]);
    unfold callbacks; cbn; rewrite ?Hn, omap_app; cbn; rewrite ?app_nil_r, Hc;
    symmetry; apply Permutation_cons_append.
Qed.

(** A failure while retries are left. *)
Lemma errorOccurred_retry s :
  m_daemonState (globals s) = eInitializing ->
  0 <= m_initializingRetry (globals s) < MAX_CONNECTION_RETRY ->
  errorOccurred s = Done tt (mkState (set_retry (m_initializingRetry (globals s) + 1) (globals s))
                               (history s ++ [StartTimer CONNECTION_RETRY_TIMER_MSEC])).
Proof.
  intros Hs Hr. unfold errorOccurred, bind, gets, modify. rewrite Hs.
  change (is_state eInitializing eInitializing) with true. cbv beta iota.
  rewrite (proj2 (Z.ltb_lt _ _)) by lia. unfold MAX_CONNECTION_RETRY in Hr.
  rewrite Z.mod_small by lia. done.
Qed.

(** A failure when none is left. *)
Lemma errorOccurred_last s :
  m_daemonState (globals s) = eInitializing ->
  MAX_CONNECTION_RETRY <= m_initializingRetry (globals s) ->
  errorOccurred s = Done tt (mkState (set_retry 0 (set_state eReady (globals s)))
    (history s ++ [Initialized false false None; StopTimer; SigDisconnected])).
Proof.
  intros Hs Hr. unfold errorOccurred, bind, gets, modify. rewrite Hs.
  change (is_state eInitializing eInitializing) with true. cbv beta iota.
  rewrite (proj2 (Z.ltb_ge _ _)) by lia. unfold disconnectInternal, bind, modify, emit, call.
  cbn [globals history]. by rewrite <- !app_assoc.
Qed.

Lemma initialize_run s :
  initialize s = Done tt (mkState (set_state eInitializing (set_retry 0 (globals s)))
    (history s ++ [ConnectToServer (socket_path (history s))])).
Proof. done. Qed.

(** The first attempt and [n] more that fail, while retries are left. *)
Lemma attempts_retry (n : nat) s :
  m_daemonState (globals s) = eInitializing ->
  0 <= m_initializingRetry (globals s) ->
  m_initializingRetry (globals s) + Z.of_nat n <= MAX_CONNECTION_RETRY ->
  exists s', attempts n s = Done tt s' /\ m_daemonState (globals s') = eInitializing
    /\ m_initializingRetry (globals s') = m_initializingRetry (globals s) + Z.of_nat n
    /\ exists t, history s' = history s ++ t /\ List.length (List.filter is_retry t) = n
       /\ existsb (fun e => match e with Initialized _ _ _ | SigDisconnected => true | _ => false end) t = false.
Proof.
  unfold MAX_CONNECTION_RETRY. revert s. induction n as [|n IH]; intros s Hs H0 Hn.
  - exists s. split_and!; [done|done|lia|]. exists []. by rewrite app_nil_r.
  - cbn [attempts]. unfold bind at 1. rewrite errorOccurred_retry by (unfold MAX_CONNECTION_RETRY; lia || done).
    unfold initializeInternal, bind, modify, call, ret. cbn [globals history].
    match goal with |- context [attempts n ?s1] => destruct (IH s1) as (s' & -> & H1 & H2 & t & H3 & H4 & H5) end.
    { done. }
    { cbn. lia. }
    { cbn. lia. }
    exists s'. split; [done|]. split; [done|]. split.
    { rewrite H2. cbn. lia. }
    cbn [history] in H3. eexists. rewrite H3, <- !app_assoc. split; [done|]. cbn. by rewrite H4.
Qed.

Lemma message_value (raw : QJsonObject) (k : string) :
  obj_value (activate_message raw) k = last_value (activate_entries raw) k None.
Proof. apply obj_value_insert_all. Qed.

(** Finds a value of the message of an activation. *)
Ltac message_entry :=
  unfold activate_entries, junk_entries; repeat (case_match; [|]); reflexivity.
Ltac message_lookup := rewrite message_value; message_entry.

Lemma message_field (raw : QJsonObject) (k : string) (v : json) :
  last_value (activate_entries raw) k None = Some v -> obj_value (activate_message raw) k = Some v.
Proof. by rewrite message_value. Qed.

Lemma message_absent (raw : QJsonObject) (k : string) :
  last_value (activate_entries raw) k None = None -> obj_value (activate_message raw) k = None.
Proof. by rewrite message_value. Qed.

Lemma toInt_double (n : Z) : int_range n -> toInt (Some (JDouble (inject_Z n))) = n.
Proof. apply toInt_number. Qed.

Lemma parse_site_range `{Qt} (site : string) :
  int_range (m_prefixLength (site_address site)) ->
  parse_range (site_range (JString site)) = Some (site_address site).
Proof.
  unfold site_range, site_address. cbn [toString chars default].
  intros Hr. destruct (split_on "/"%char site) as [|a [|n l]] eqn:Es;
    cbn -[toInt inject_Z atoi] in *; rewrite Es; cbn -[toInt inject_Z atoi]; by rewrite toInt_double.
Qed.

Lemma is_default_strings (l : list string) :
  is_default_ips (map JString l) = bool_decide (l = ["0.0.0.0/0"; "::/0"]).
Proof.
  destruct l as [|a [|b [|c l]]]; cbn [map is_default_ips]; try (symmetry; by apply bool_decide_false).
  apply eq_true_iff_eq. rewrite andb_true_iff, !String.eqb_eq, bool_decide_eq_true. naive_solver.
Qed.

Lemma no_ips_strings (l : list string) : no_ips (map JString l) = bool_decide (l = []).
Proof. destruct l; [done|]. symmetry. by apply bool_decide_false. Qed.

Lemma allowed_ranges_parsed `{Qt} (r : Request) :
  Forall (fun site => int_range (m_prefixLength (site_address site))) (r_allowed r ++ r_sites r) ->
  mapM parse_range (allowed_ranges (map JString (r_allowed r)) (map JString (r_sites r)) (r_type r))
  = Some (wanted_ranges r).
Proof.
  rewrite Forall_app, !Forall_forall. intros [Ha Hs].
  assert (Hp : forall l, (forall site, site ∈ l -> int_range (m_prefixLength (site_address site))) ->
    mapM parse_range (map site_range (map JString l)) = Some (map site_address l)).
  { intros l Hl. rewrite map_map. apply mapM_map. intros site Hi. by apply parse_site_range, Hl. }
  unfold allowed_ranges, wanted_ranges, restricts. rewrite is_default_strings, no_ips_strings.
  rewrite negb_orb, (andb_comm (negb (bool_decide (r_allowed r = [])))).
  case_match; [by apply Hp|].
  destruct (Z.eqb_spec (r_type r) 0) as [->|]; [done|].
  destruct (Z.eqb_spec (r_type r) 2) as [->|]; [done|].
  cbn [orb app]. case_match; [by apply Hp|done].
Qed.

Lemma longer_first_preorder : total_preorder longer_first.
Proof. unfold total_preorder, longer_first. split; intros; lia. Qed.

Lemma sorted_ranges `{ArraySort} (l : list IPAddress) :
  StronglySorted (fun a b => m_prefixLength b <= m_prefixLength a) (array_sort longer_first l).
Proof.
  pose proof (array_sort_sorted longer_first l longer_first_preorder) as Hs.
  induction Hs as [|a l' _ IH Ha]; constructor; [done|].
  eapply Forall_impl; [exact Ha|]. unfold longer_first. intros b. lia.
Qed.

(** The daemon reads the ranges of a request in decreasing length of the prefix. *)
Lemma message_ranges `{Qt, ArraySort} (raw : QJsonObject) (r : Request) :
  describes raw r ->
  Forall (fun site => int_range (m_prefixLength (site_address site))) (r_allowed r ++ r_sites r) ->
  parse_ranges (activate_message raw) = Some (array_sort longer_first (wanted_ranges r)).
Proof.
  unfold describes. intros (Ht & _ & _ & _ & _ & _ & _ & _ & Ha & Hs & _) Hf. unfold parse_ranges.
  assert (E : obj_value (activate_message raw) "allowedIPAddressRanges" = Some (JArray
    (allowed_ranges (map JString (r_allowed r)) (map JString (r_sites r)) (r_type r)))).
  { rewrite <- Ht, <- Ha, <- Hs. message_lookup. }
  by rewrite E, allowed_ranges_parsed.
Qed.

Lemma message_strings (raw : QJsonObject) (k : string) (l : list string) :
  obj_value (activate_message raw) k = Some (JArray (map JString l)) ->
  parseStringList (activate_message raw) k = Some l.
Proof. apply parseStringList_json. Qed.

Lemma message_excluded (raw : QJsonObject) (r : Request) :
  describes raw r ->
  parseStringList (activate_message raw) "excludedAddresses"
  = Some (r_host r :: if r_type r =? 2 then r_sites r else []).
Proof.
  unfold describes. intros (Ht & _ & _ & _ & Hh & _ & _ & _ & _ & Hs & _). apply message_strings.
  transitivity (Some (JArray (excluded_addresses (obj_value (wg_config raw) "hostName")
    (toArray (obj_value raw "splitTunnelSites")) (toInt (obj_value raw "splitTunnelType"))))).
  { message_lookup. }
  rewrite Ht, Hh, Hs. unfold excluded_addresses. rewrite map_map. by case_match.
Qed.

Lemma activate_type (raw : QJsonObject) :
  obj_value (activate_message raw) "type" = Some (JString "activate").
Proof. message_lookup. Qed.

(** How the daemon reads the message for an activation. *)
Lemma message_config `{Qt, ArraySort} (windows : bool) (raw : QJsonObject) (r : Request) :
  describes raw r ->
  Forall (fun site => int_range (m_prefixLength (site_address site))) (r_allowed r ++ r_sites r) ->
  exists c, parseConfig windows (activate_message raw) = Some c
    /\ m_hopType c = SingleHop
    /\ m_privateKey c = Some (r_key r) /\ m_serverPublicKey c = Some (r_pub r)
    /\ m_deviceIpv4Address c = Some (r_ip r)
    /\ m_serverIpv4AddrIn c = Some (r_host r) /\ m_serverPort c = r_port r
    /\ m_primaryDnsServer c = Some (r_dns1 r)
    /\ m_secondaryDnsServer c
       = (if contains_text amneziaDnsIp (r_dns1 r) then None else Some (r_dns2 r))
    /\ m_allowedIPAddressRanges c ≡ₚ wanted_ranges r
    /\ StronglySorted (fun a b => m_prefixLength b <= m_prefixLength a) (m_allowedIPAddressRanges c)
    /\ m_excludedAddresses c = r_host r :: (if r_type r =? 2 then r_sites r else [])
    /\ m_vpnDisabledApps c = r_apps r /\ m_allowedDnsServers c = r_allowedDns r.
Proof.
  intros Hd Hf. unfold parseConfig. rewrite (message_ranges raw r Hd Hf), (message_excluded raw r Hd).
  destruct Hd as (Ht & Hk & Hi & Hp & Hh & Hport & Hd1 & Hd2 & Ha & Hs & Happ & Hdns).
  rewrite (message_strings raw "vpnDisabledApps" (r_apps r)) by (rewrite <- Happ; message_lookup).
  rewrite (message_strings raw "allowedDnsServers" (r_allowedDns r)) by (rewrite <- Hdns; message_lookup).
  unfold get_string, get_double, parse_dns, parse_hop.
  rewrite (message_field raw "privateKey" (JString (r_key r))) by (rewrite <- Hk; message_entry).
  rewrite (message_field raw "serverPublicKey" (JString (r_pub r))) by (rewrite <- Hp; message_entry).
  rewrite (message_field raw "serverPort" (JDouble (inject_Z (r_port r)))) by (rewrite <- Hport; message_entry).
  rewrite (message_field raw "deviceIpv4Address" (JString (r_ip r))) by (rewrite <- Hi; message_entry).
  rewrite (message_field raw "serverIpv4AddrIn" (JString (r_host r))) by (rewrite <- Hh; message_entry).
  rewrite (message_field raw "primaryDnsServer" (JString (r_dns1 r))) by (rewrite <- Hd1; message_entry).
  rewrite (message_absent raw "hopType") by message_entry.
  assert (E2 : obj_value (activate_message raw) "secondaryDnsServer" =
    if contains_text amneziaDnsIp (r_dns1 r) then None else Some (JString (r_dns2 r))).
  { rewrite message_value, <- Hd2. unfold activate_entries, junk_entries. rewrite Hd1.
    change (chars (toString (Some (JString (r_dns1 r))))) with (r_dns1 r).
    repeat (case_match; [|]); reflexivity. }
  rewrite E2. destruct (contains_text amneziaDnsIp (r_dns1 r)); cbn -[array_sort wanted_ranges activate_message];
    (eexists; split; [reflexivity|]; split_and!; try done;
     [by unfold double_to_int; cbn; rewrite Z.quot_1_r|apply array_sort_perm|apply sorted_ranges]).
Qed.

Lemma activate_config `{Qt, ArraySort} (windows : bool) (raw : QJsonObject) (r : Request) :
  describes raw r ->
  Forall (fun site => int_range (m_prefixLength (site_address site))) (r_allowed r ++ r_sites r) ->
  exists c, parseConfig windows (activate_message raw) = Some c
    /\ m_serverPublicKey c = Some (r_pub r)
    /\ m_allowedIPAddressRanges c ≡ₚ wanted_ranges r
    /\ m_excludedAddresses c = r_host r :: (if r_type r =? 2 then r_sites r else []).
Proof. intros Hd Hf. destruct (message_config windows raw r Hd Hf) as (c & Hc). exists c. tauto. Qed.

(** A client that fails as often as it may. *)
Lemma gives_up_after (n : nat) (s : State ClientEvent Controller) :
  Z.of_nat n = MAX_CONNECTION_RETRY ->
  exists s1 t1 s2,
    (initialize ;;; attempts n) s = Done tt s1
    /\ history s1 = history s ++ t1
    /\ List.length (List.filter is_retry t1) = n
    /\ existsb (fun e => match e with Initialized _ _ _ | SigDisconnected => true | _ => false end) t1 = false
    /\ errorOccurred s1 = Done tt s2
    /\ history s2 = history s1 ++ [Initialized false false None; StopTimer; SigDisconnected]
    /\ m_daemonState (globals s2) = eReady /\ m_initializingRetry (globals s2) = 0.
Proof.
  intros Hmax. pose proof (attempts_retry n (mkState (set_state eInitializing (set_retry 0 (globals s)))
    (history s ++ [ConnectToServer (socket_path (history s))])) eq_refl) as Ha.
  destruct Ha as (s1 & E & Hs & Hr & t & Ht & Hn & Hq); [cbn; lia|cbn; lia|].
  exists s1, (ConnectToServer (socket_path (history s)) :: t). eexists.
  split; [unfold bind; rewrite initialize_run; exact E|].
  split; [rewrite Ht; cbn [history]; by rewrite <- app_assoc|].
  split; [exact Hn|]. split; [exact Hq|].
  rewrite (errorOccurred_last s1) by (try done; rewrite Hr; cbn; lia). done.
Qed.

(** ** Theorems *)

(** Data from the daemon may be cut anywhere: the complete lines are handled in
    order, and two reads have the same effect as one read of all the bytes. *)
Theorem readData_parts (buffer a b : string) (s : State ClientEvent Controller) :
  (let* rest := readData buffer a in readData rest b) s = readData buffer (a ++ b) s
  /\ readData buffer a s = (for_each (complete (buffer ++ a)) (handle_line parseCommand) ;;;
                            ret (remainder (buffer ++ a))) s.
Proof.
  split; [|apply readData_handled].
  rewrite readData_handled, <- string_app_assoc, <- handled_app.
  unfold bind. rewrite readData_handled. destruct (handled _ _ _); [|done|done]. apply readData_handled.
Qed.

(** In every state that the client reaches, the counter of the retries is at
    most ten, so it cannot overflow, and of the callbacks that were given for logs
    each has been called once or is the one that waits. *)
Theorem client_run_ok (l : list nat) (s : State ClientEvent Controller) :
  client_run l s -> client_ok l s.
Proof.
  induction 1 as [| | | | | | | |l s s' f Hs IH Hg| |];
    try (match goal with IH : client_ok _ ?s, E : ?m ?s = Done _ _ |- _ =>
           exact (preserves_run (m := m) _ _ _ IH E) end).
  - split; [|done]. cbn. unfold MAX_CONNECTION_RETRY. lia.
  - exact (getBackendLogs_ok l f s s' IH Hg).
Qed.

(** While the client sets up its connection it bears ten failures, with a retry
    after each and no signal.  The next failure is reported, and the client is
    ready for a new connection. *)
Theorem initialize_gives_up (s : State ClientEvent Controller) :
  exists s1 t1 s2,
    (initialize ;;; attempts 10) s = Done tt s1
    /\ history s1 = history s ++ t1
    /\ List.length (List.filter is_retry t1) = 10%nat
    /\ existsb (fun e => match e with Initialized _ _ _ | SigDisconnected => true | _ => false end) t1 = false
    /\ errorOccurred s1 = Done tt s2
    /\ history s2 = history s1 ++ [Initialized false false None; StopTimer; SigDisconnected]
    /\ m_daemonState (globals s2) = eReady /\ m_initializingRetry (globals s2) = 0.
Proof. exact (gives_up_after 10 s eq_refl). Qed.

(** The message for an activation is accepted by the daemon, which reads from
    it the keys, addresses, port and servers for names of the request, the
    addresses for the tunnel in decreasing length of the prefix, and as excluded
    addresses the server and, if sites are to bypass the tunnel, the sites. *)
Theorem activate_message_accepted `{Qt, ArraySort} (windows : bool) (raw : QJsonObject) (r : Request) :
  describes raw r ->
  Forall (fun site => int_range (m_prefixLength (site_address site))) (r_allowed r ++ r_sites r) ->
  exists c, parseConfig windows (activate_message raw) = Some c
    /\ m_hopType c = SingleHop
    /\ m_privateKey c = Some (r_key r) /\ m_serverPublicKey c = Some (r_pub r)
    /\ m_deviceIpv4Address c = Some (r_ip r)
    /\ m_serverIpv4AddrIn c = Some (r_host r) /\ m_serverPort c = r_port r
    /\ m_primaryDnsServer c = Some (r_dns1 r)
    /\ m_secondaryDnsServer c
       = (if contains_text amneziaDnsIp (r_dns1 r) then None else Some (r_dns2 r))
    /\ m_allowedIPAddressRanges c ≡ₚ wanted_ranges r
    /\ StronglySorted (fun a b => m_prefixLength b <= m_prefixLength a) (m_allowedIPAddressRanges c)
    /\ m_excludedAddresses c = r_host r :: (if r_type r =? 2 then r_sites r else [])
    /\ m_vpnDisabledApps c = r_apps r /\ m_allowedDnsServers c = r_allowedDns r.
Proof. apply message_config. Qed.

(** A site that is an address of version 6 without a prefix is sent with the
    prefix length of a single address of version 4: the tunnel takes all the
    addresses that agree with it in the first 32 bits. *)
Theorem ipv6_site_widened `{Qt} (site : string) (b : list Z) :
  string_has "/"%char site = false -> hostAddress site = HostV6 b ->
  exists ip, parse_range (site_range (JString site)) = Some ip
    /\ forall h, covers ip h <->
         protocol h = IPv6Protocol /\ Z.shiftr (value h) 96 = Z.shiftr (be_value b) 96.
Proof.
  intros Hs Hb. assert (E : site_address site = mkIPAddress (HostV6 b) 32).
  { unfold site_address. rewrite split_on_single by done. by rewrite Hb. }
  exists (mkIPAddress (HostV6 b) 32). split; [|done].
  rewrite <- E. apply parse_site_range. rewrite E. unfold int_range. cbn. lia.
Qed.
End Client.

Lemma client_run_ok_witness :
  client_ok [7%nat] (final (@getBackendLogs example_client 7
    (mkState (mkController eUnknown None None 0) []))).
Proof.
  apply (@client_run_ok example_client).
  eapply run_logs; [apply run_start|reflexivity].
Defined.

Lemma activate_message_accepted_witness :
  exists c, @parseConfig example_qt InsertionSort false (activate_message example_raw) = Some c
    /\ m_excludedAddresses c = ["203.0.113.1"; "10.0.0.0/8"].
Proof.
  destruct (@activate_message_accepted example_qt InsertionSort false example_raw example_request)
    as (c & Hc & _ & _ & _ & _ & _ & _ & _ & _ & _ & _ & He & _).
  - repeat split; vm_compute; reflexivity.
  - repeat constructor; vm_compute; discriminate.
  - exists c. split; [exact Hc|exact He].
Defined.

Lemma ipv6_site_widened_witness :
  exists ip, @parse_range example_qt (site_range (JString "::")) = Some ip
    /\ covers ip (HostV6 ([0; 0; 0; 0] ++ replicate 12 255)).
Proof.
  destruct (@ipv6_site_widened example_qt "::" (replicate 16 0)) as (ip & E & Hc);
    [reflexivity|reflexivity|].
  exists ip. split; [exact E|]. apply Hc. split; vm_compute; reflexivity.
Defined.
