(* ===== verification/LocalServer.v ===== *)
(** * The daemon's end of the local socket

    client/daemon/daemonlocalserverconnection.cpp: the commands that a client sends,
    their effect on the daemon, and the messages that go back.  The last theorems
    join both ends: what the client writes is what the daemon does. *)

From stdpp Require Import base numbers list strings gmap.
From Stdlib Require Import ZArith Lia QArith Strings.String Strings.Ascii.
From S2P Require Import Prelude IpAddress JsText Json Config Script LocalSocket Daemon Framing.
Open Scope string_scope.
Open Scope list_scope.
Open Scope Z_scope.
Open Scope script_scope.

(** A message that is written, or the call of [cleanLogs], which does nothing. *)
Inductive ServerEvent :=
| Wrote (text : string)
| CleanLogs.

(** [QDateTime::toString], and the sort of the standard library. *)
Class Server := {
  server_json :: JsonText;
  server_utils :: Utils;
  server_sort :: ArraySort;
  server_windows : bool;
  date_toString : option Z -> string
}.

Section Server.
Context `{Server}.

(** The connection works on the daemon. *)
Abbreviation script := (Script ServerEvent (State Event Daemon)).

(** ** Messages *)

Definition line_of (o : QJsonObject) : string := (compact o ++ String newline EmptyString)%string.

Definition server_write (o : QJsonObject) : script unit := emit (Wrote (line_of o)).

Definition connected_message (pubkey : string) : QJsonObject :=
  insert_all [] [("type", Some (JString "connected")); ("pubkey", Some (JString pubkey))].

Definition disconnected_message : QJsonObject := insert_all [] [("type", Some (JString "disconnected"))].

Definition failure_message (err : Z) : QJsonObject :=
  insert_all [] [("type", Some (JString "backendFailure")); ("errorCode", number err)].

Definition backendFailure (err : Z) : script unit := server_write (failure_message err).

(** The slots for the signals of the daemon. *)
Definition slot (e : Event) : list ServerEvent :=
  match e with
  | Connected pubkey => [Wrote (line_of (connected_message pubkey))]
  | Disconnected => [Wrote (line_of disconnected_message)]
  | _ => []
  end.

(** A call of the daemon, whose signals reach the slots. *)
Definition on_daemon {A} (m : Script Event Daemon A) : script A :=
  fun s =>
    let after d := mkState d (history s ++ flat_map slot (drop (List.length (history (globals s))) (history d))) in
    match m (globals s) with
    | Done a d => Done a (after d)
    | ScriptError d => ScriptError (after d)
    | NoFuel d => NoFuel (after d)
    end.

(** The object of [getStatus]. *)
Definition status_object (st : Status) : QJsonObject :=
  match st with
  | NotConnected => insert_all [] [("connected", Some (JBool false))]
  | IsConnected gateway device date tx rx =>
      insert_all []
        [("connected", Some (JBool true)); ("serverIpv4Gateway", json_text gateway);
         ("deviceIpv4Address", json_text device); ("date", Some (JString (date_toString date)));
         ("txBytes", number tx); ("rxBytes", number rx)]
  end.

Definition status_message (st : Status) : QJsonObject :=
  obj_insert (status_object st) "type" (Some (JString "status")).

Definition logs_message : QJsonObject :=
  insert_all [] [("type", Some (JString "logs")); ("logs", Some (JString EmptyString))].

(** ** Commands *)

(** The second test for logs is never reached. *)
Definition server_dispatch (type : string) (obj : QJsonObject) : script unit :=
  if String.eqb type "logs" then server_write logs_message
  else if String.eqb type "activate" then
    match parseConfig server_windows obj with
    | None => server_write disconnected_message
    | Some config =>
        let* ok := on_daemon (activate 2 config) in
        when (negb ok) (server_write disconnected_message)
    end
  else if String.eqb type "deactivate" then
    let* _ := on_daemon (deactivate true) in ret tt
  else if String.eqb type "status" then
    let* st := on_daemon getStatus in server_write (status_message st)
  else if String.eqb type "logs" then server_write logs_message
  else if String.eqb type "cleanlogs" then emit CleanLogs
  else ret tt.

Definition parseCommand (data : string) : script unit :=
  match fromJson data with
  | Some (JObject obj) =>
      match obj_value obj "type" with
      | Some (JString type) => server_dispatch type obj
      | _ => ret tt
      end
  | _ => ret tt
  end.

(** Fuel for each byte and each read. *)
Definition read_fuel (m_buffer : string) (inputs : list string) : nat :=
  S (String.length m_buffer + foldr (fun i n => S (String.length i) + n)%nat O inputs).

Definition readData (m_buffer : string) (inputs : list string) : script string :=
  drain_socket parseCommand (read_fuel m_buffer inputs) m_buffer inputs.

(** ** Specification *)

(** The time of the handshake in a status. *)
Definition handshake_date (st : Status) : option Z :=
  match st with NotConnected => None | IsConnected _ _ date _ _ => date end.

(** A message whose text is a single line that the other end reads as the message. *)
Definition carried (from to : JsonText) (o : QJsonObject) : Prop :=
  let text := @compact from o in
  @fromJson to text = Some (JObject o) /\ one_line text = true /\ trimmed text = text
  /\ text <> EmptyString.

(** A server that reads any text as a given object, and writes the type of a
    message as its text. *)
Definition example_server (o : QJsonObject) : Server := {|
  server_json := {| fromJson := fun _ => Some (JObject o);
                    compact := fun o => chars (toString (obj_value o "type")) |};
  server_utils := example_utils;
  server_sort := InsertionSort;
  server_windows := false;
  date_toString := fun d => match d with Some _ => "date" | None => EmptyString end
|}.

(** A client that reads texts as a function says. *)
Definition client_reading (read : string -> option json) : LocalSocket.Client := {|
  client_json := {| fromJson := read; compact := fun _ => "{}" |};
  on_windows := false;
  file_exists := fun _ _ => false;
  date_fromString := fun s => if String.eqb s "date" then Some 0 else None
|}.

Definition client_start (d : DaemonState) : State ClientEvent Controller :=
  mkState (mkController d None None 0) [].

(** ** Lemmas *)

#[export] Instance on_daemon_total {A} (m : Script Event Daemon A) : Total m -> Total (on_daemon m).
Proof.
  intros Hm s. unfold on_daemon. destruct (Hm (globals s)) as (a & d & ->). eauto.
Qed.

#[export] Instance on_daemon_preserves {A} (I : State Event Daemon -> Prop) (m : Script Event Daemon A) :
  Preserves I m -> Preserves (fun s => I (globals s)) (on_daemon m).
Proof.
  intros Hm s a s' Hi. unfold on_daemon. destruct (m (globals s)) eqn:E; [|done|done].
  intros [= <- <-]. by eapply Hm.
Qed.

#[export] Instance server_emit_preserves (I : State Event Daemon -> Prop) (e : ServerEvent) :
  Preserves (fun s : State ServerEvent (State Event Daemon) => I (globals s)) (emit e).
Proof. intros s a s' Hi [= <- <-]. done. Qed.

#[export] Instance getStatus_total : Total getStatus.
Proof. unfold getStatus; script_steps. Qed.

#[export] Instance server_dispatch_total type obj : Total (server_dispatch type obj).
Proof. pose proof activate_total. unfold server_dispatch, server_write; script_steps. Qed.

#[export] Instance parseCommand_total data : Total (parseCommand data).
Proof. unfold parseCommand; script_steps. Qed.

#[export] Instance server_dispatch_preserves type obj :
  Preserves (fun s => routes_match (globals s)) (server_dispatch type obj).
Proof. unfold server_dispatch, server_write; script_steps. Qed.

#[export] Instance server_parse_preserves data :
  Preserves (fun s => routes_match (globals s)) (parseCommand data).
Proof. unfold parseCommand; script_steps. Qed.

#[export] Instance handle_line_total {E G} (parse : string -> Script E G unit) line :
  (forall c, Total (parse c)) -> Total (handle_line parse line).
Proof. intros. unfold handle_line. apply _. Qed.

#[export] Instance handle_line_preserves {E G} (I : State E G -> Prop) (parse : string -> Script E G unit) line :
  (forall c, Preserves I (parse c)) -> Preserves I (handle_line parse line).
Proof. intros. unfold handle_line. apply _. Qed.

(** A message that is carried is one command. *)
Lemma handled_message {E G} (from to : JsonText) (parse : string -> Script E G unit) (o : QJsonObject)
    (s : State E G) :
  carried from to o ->
  handled parse (@compact from o ++ String newline EmptyString) s
  = (parse (@compact from o) ;;; ret EmptyString) s.
Proof.
  intros (_ & H1 & H2 & H3). unfold handled, complete, remainder. rewrite split_on_line by done.
  change (split_on newline EmptyString) with [EmptyString]. cbn [removelast for_each List.last].
  unfold handle_line. rewrite H2. rewrite (proj2 (String.eqb_neq _ _)) by done.
  cbn [negb when]. rewrite bind_assoc. by apply bind_ext.
Qed.

Lemma server_readData_handled buffer inputs s :
  Forall (fun i => i <> EmptyString) inputs ->
  readData buffer inputs s = handled parseCommand (buffer ++ all_text inputs) s.
Proof. intros Hi. apply drain_socket_handled; [done|]. unfold read_fuel. lia. Qed.

(** The client on a message of the daemon. *)
Lemma client_message `{LocalSocket.Client} (o : QJsonObject) (c : State ClientEvent Controller) :
  carried server_json client_json o ->
  LocalSocket.readData EmptyString (@compact server_json o ++ String newline EmptyString) c
  = (LocalSocket.parseCommand (@compact server_json o) ;;; ret EmptyString) c.
Proof. intros Hc. rewrite readData_handled. exact (handled_message _ _ _ _ _ Hc). Qed.

Lemma client_dispatch `{LocalSocket.Client} (o : QJsonObject) (type : string) (c : State ClientEvent Controller) :
  carried server_json client_json o -> obj_value o "type" = Some (JString type) ->
  LocalSocket.parseCommand (@compact server_json o) c = dispatch type o c.
Proof. intros Hc Ht. unfold LocalSocket.parseCommand. by rewrite (proj1 Hc), Ht. Qed.

(** The messages to a client that is ready. *)
Lemma ready_dispatch `{LocalSocket.Client} (type : string) (o : QJsonObject) (c : State ClientEvent Controller) :
  m_daemonState (globals c) = eReady ->
  dispatch type o c =
    (if String.eqb type "status" then later_status o
     else if String.eqb type "disconnected" then disconnectInternal
     else if String.eqb type "connected" then handle_connected o
     else if String.eqb type "backendFailure" then handle_failure o
     else if String.eqb type "logs" then handle_logs o
     else ret tt) c.
Proof. intros Hs. unfold dispatch, bind, gets. by rewrite Hs. Qed.

Lemma ready_connected `{LocalSocket.Client} (pubkey : string) (c : State ClientEvent Controller) :
  m_daemonState (globals c) = eReady ->
  dispatch "connected" (connected_message pubkey) c = Done tt (mkState (globals c) (history c ++
    [WriteMessage (@compact client_json (message "status") ++ String newline EmptyString)%string;
     StatusUpdated (Some EmptyString) (m_deviceIpv4 (globals c)) 0 0; SigConnected (Some pubkey)])).
Proof.
  intros Hs. rewrite ready_dispatch by done. cbn [String.eqb Ascii.eqb Bool.eqb].
  unfold handle_connected, connected_message. rewrite obj_value_insert_all. cbn [last_value].
  unfold checkStatus, write, bind, gets, when, emit, call. cbn -[app]. rewrite Hs. cbn -[app].
  change (is_state eReady eReady) with true. cbn -[app]. by rewrite <- !app_assoc.
Qed.

Lemma ready_disconnected `{LocalSocket.Client} (c : State ClientEvent Controller) :
  m_daemonState (globals c) = eReady ->
  dispatch "disconnected" disconnected_message c =
    Done tt (mkState (set_retry 0 (set_state eReady (globals c))) (history c ++ [StopTimer; SigDisconnected])).
Proof.
  intros Hs. rewrite ready_dispatch by done. cbn [String.eqb Ascii.eqb Bool.eqb].
  unfold disconnectInternal, bind, modify, emit, call. cbn. by rewrite <- !app_assoc.
Qed.

Lemma ready_failure `{LocalSocket.Client} (err : Z) (c : State ClientEvent Controller) :
  m_daemonState (globals c) = eReady -> 0 <= err < DAEMON_ERROR_MAX ->
  dispatch "backendFailure" (failure_message err) c = Done tt (mkState (globals c) (history c ++
    [BackendFailure (if err <=? 1 then "fatal backend failure" else "split tunnel backend failure")])).
Proof.
  unfold DAEMON_ERROR_MAX. intros Hs He. rewrite ready_dispatch by done.
  change (handle_failure (failure_message err) c = Done tt (mkState (globals c) (history c ++
    [BackendFailure (if err <=? 1 then "fatal backend failure" else "split tunnel backend failure")]))).
  unfold handle_failure. change (negb (obj_contains (failure_message err) "errorCode")) with false. cbv beta iota.
  change (obj_value (failure_message err) "errorCode") with (number err).
  rewrite toInt_number by lia. rewrite Z.mod_small by lia. unfold DAEMON_ERROR_MAX.
  rewrite (proj2 (Z.leb_gt _ _)) by lia. by destruct (err <=? 1).
Qed.

Lemma ready_status `{LocalSocket.Client} gateway device date tx rx (c : State ClientEvent Controller) :
  m_daemonState (globals c) = eReady ->
  dispatch "status" (status_message (IsConnected gateway device date tx rx)) c =
    Done tt (mkState (globals c) (history c ++ [StatusUpdated (Some (chars gateway)) (Some (chars device)) tx rx])).
Proof.
  intros Hs. rewrite ready_dispatch by done.
  change (emit (StatusUpdated (Some (chars gateway)) (Some (chars device)) (double_to_int (inject_Z tx))
      (double_to_int (inject_Z rx))) c
    = Done tt (mkState (globals c) (history c ++ [StatusUpdated (Some (chars gateway)) (Some (chars device)) tx rx]))).
  unfold double_to_int, inject_Z, Qnum, Qden. by rewrite !Z.quot_1_r.
Qed.

(** ** Theorems *)

(** C30: However the bytes of a client are cut into reads, the daemon handles the
    complete lines in order, keeps the rest for later, and ends; the routes for
    excluded addresses match its counters if they did before. *)
Theorem readData_whole (buffer : string) (inputs : list string) (s : State ServerEvent (State Event Daemon)) :
  Forall (fun i => i <> EmptyString) inputs ->
  exists s', readData buffer inputs s = Done (remainder (buffer ++ all_text inputs)) s'
    /\ for_each (complete (buffer ++ all_text inputs)) (handle_line parseCommand) s = Done tt s'
    /\ (routes_match (globals s) -> routes_match (globals s')).
Proof.
  intros Hi. rewrite server_readData_handled by done. set (text := (buffer ++ all_text inputs)%string).
  assert (Ht : Total (for_each (complete text) (handle_line parseCommand))) by apply _.
  destruct (Ht s) as ([] & s' & E). exists s'. unfold handled, bind. rewrite E.
  split; [done|]. split; [done|]. intros Hm. revert E. generalize tt. intros u E.
  refine (preserves_run (I := fun s => routes_match (globals s)) _ _ _ Hm E).
Qed.

(** C8: An activation from end to end: the client writes one text for a request; the
    daemon, in whatever parts the text arrives, activates a configuration with the
    key, the addresses for the tunnel and the excluded addresses of the request,
    and answers a failure at the end. *)
Theorem activate_reaches_daemon `{LocalSocket.Client} (raw : QJsonObject) (r : Request)
    (c : State ClientEvent Controller) (inputs : list string) (s : State ServerEvent (State Event Daemon)) :
  describes raw r ->
  Forall (fun site => int_range (m_prefixLength (site_address site))) (r_allowed r ++ r_sites r) ->
  carried client_json server_json (activate_message raw) ->
  exists c' text, LocalSocket.activate raw c = Done tt c' /\ history c' = history c ++ [WriteMessage text]
    /\ (Forall (fun i => i <> EmptyString) inputs -> all_text inputs = text ->
        exists s' config ok, readData EmptyString inputs s = Done EmptyString s'
          /\ m_serverPublicKey config = Some (r_pub r)
          /\ m_allowedIPAddressRanges config ≡ₚ wanted_ranges r
          /\ m_excludedAddresses config = r_host r :: (if r_type r =? 2 then r_sites r else [])
          /\ activate 2 config (globals s) = Done ok (globals s')
          /\ (ok = false -> last (history s') = Some (Wrote (line_of disconnected_message)))).
Proof.
  intros Hd Hf Hc. eexists _, _. split; [reflexivity|]. split; [reflexivity|]. intros Hi Ht.
  rewrite server_readData_handled, Ht by done. change (EmptyString ++ ?x)%string with x.
  rewrite (handled_message _ _ _ _ _ Hc).
  destruct (activate_config server_windows raw r Hd Hf) as (config & Hp & Hk & Hr & He).
  destruct (activate_total config (globals s)) as (ok & d & Ha).
  unfold bind at 1, parseCommand. rewrite (proj1 Hc), activate_type.
  unfold server_dispatch. cbn [String.eqb Ascii.eqb Bool.eqb]. rewrite Hp.
  unfold bind, on_daemon. rewrite Ha. destruct ok.
  - eexists _, config, true. split; [reflexivity|]. done.
  - eexists _, config, false. split; [reflexivity|]. split_and!; try done.
    intros _. cbn. apply last_snoc.
Qed.

(** The first status that the daemon sends to a client that sets up its
    connection makes the client ready.  The client reports it, with the time of the
    handshake, unless the daemon has a connection that waits for its handshake:
    then nothing is reported. *)
Theorem first_status_reported `{LocalSocket.Client} (st : Status) (c : State ClientEvent Controller) :
  date_fromString (date_toString (handshake_date st)) = handshake_date st ->
  carried server_json client_json (status_message st) ->
  m_daemonState (globals c) = eInitializing ->
  LocalSocket.readData EmptyString (line_of (status_message st)) c
  = Done EmptyString (mkState (set_state eReady (globals c)) (history c ++
      match st with
      | NotConnected => [Initialized true false None]
      | IsConnected _ _ (Some d) _ _ => [Initialized true true (Some d)]
      | IsConnected _ _ None _ _ => []
      end)).
Proof.
  intros Hd Hc Hs. unfold line_of. rewrite client_message by done. unfold bind.
  rewrite client_dispatch with (o := status_message st) (type := "status") by (done || by destruct st).
  unfold dispatch, bind, gets. rewrite Hs. cbn [is_state]. unfold first_status, bind, modify.
  destruct st as [|gateway device [d|] tx rx]; cbn -[status_message];
    unfold status_message, status_object; cbn in Hd |- *; rewrite ?Hd; cbn; by rewrite ?app_nil_r.
Qed.

(** A client that is ready understands each message of the daemon: it reports a
    handshake and asks for the status, reports a disconnection, takes over the
    status of a connection, and reports a failure of the daemon. *)
Theorem messages_understood `{LocalSocket.Client} (c : State ClientEvent Controller)
    (pubkey : string) (err : Z) (gateway device : QString) (date : option Z) (tx rx : Z) :
  m_daemonState (globals c) = eReady -> 0 <= err < DAEMON_ERROR_MAX ->
  0 <= tx < 2 ^ 53 -> 0 <= rx < 2 ^ 53 ->
  (forall o, o ∈ [connected_message pubkey; disconnected_message; failure_message err;
                  status_message (IsConnected gateway device date tx rx)] ->
     carried server_json client_json o) ->
  let events o := drop (List.length (history c))
    (history (final (LocalSocket.readData EmptyString (line_of o) c))) in
  events (connected_message pubkey)
  = [WriteMessage (@compact client_json (message "status") ++ String newline EmptyString)%string;
     StatusUpdated (Some EmptyString) (m_deviceIpv4 (globals c)) 0 0; SigConnected (Some pubkey)]
  /\ events disconnected_message = [StopTimer; SigDisconnected]
  /\ events (failure_message err)
     = [BackendFailure (if err <=? 1 then "fatal backend failure" else "split tunnel backend failure")]
  /\ events (status_message (IsConnected gateway device date tx rx))
     = [StatusUpdated (Some (chars gateway)) (Some (chars device)) tx rx].
Proof.
  intros Hs He _ _ Hc events.
  assert (Hev : forall o type t s', carried server_json client_json o ->
    obj_value o "type" = Some (JString type) -> dispatch type o c = Done tt s' ->
    history s' = history c ++ t -> events o = t).
  { intros o type t s' Ho Ht Hd Hh. unfold events, line_of. rewrite client_message by done.
    unfold bind. rewrite (client_dispatch o type c Ho Ht), Hd. cbn [final ret]. by rewrite Hh, drop_app_length. }
  split_and!.
  - eapply Hev; [apply Hc; set_solver|reflexivity|by apply ready_connected|done].
  - eapply Hev; [apply Hc; set_solver|reflexivity|by apply ready_disconnected|done].
  - eapply Hev; [apply Hc; set_solver|reflexivity|by apply ready_failure|done].
  - eapply Hev; [apply Hc; set_solver|reflexivity|by apply ready_status|done].
Qed.
End Server.

Lemma readData_whole_witness :
  exists s', @readData (example_server [] ) EmptyString ["{"; "}"] (mkState daemon_start []) = Done "{}" s'.
Proof.
  destruct (@readData_whole (example_server []) EmptyString ["{"; "}"] (mkState daemon_start []))
    as (s' & E & _); [by repeat constructor|]. exists s'. exact E.
Defined.

Lemma activate_reaches_daemon_witness :
  exists s' config, @readData (example_server (activate_message example_raw)) EmptyString
      ["{"; ("}" ++ String newline EmptyString)%string] (mkState daemon_start []) = Done EmptyString s'
    /\ m_excludedAddresses config = ["203.0.113.1"; "10.0.0.0/8"].
Proof.
  destruct (@activate_reaches_daemon (example_server (activate_message example_raw)) example_client
    example_raw example_request (client_start eReady) ["{"; ("}" ++ String newline EmptyString)%string]
    (mkState daemon_start [])) as (c' & text & H1 & H2 & H3).
  - repeat split; vm_compute; reflexivity.
  - repeat constructor; vm_compute; discriminate.
  - split_and!; vm_compute; done.
  - destruct H3 as (s' & config & ok & Hr & _ & _ & He & _).
    + repeat constructor; discriminate.
    + injection H1 as <-. injection H2 as <-. reflexivity.
    + exists s', config. split; [exact Hr|exact He].
Defined.

Lemma first_status_reported_witness :
  let st := IsConnected (Some "gateway") (Some "device") (Some 0) 1 2 in
  history (final (@LocalSocket.readData (client_reading (fun _ => Some (JObject (@status_message (example_server []) st))))
    EmptyString (@line_of (example_server []) (@status_message (example_server []) st)) (client_start eInitializing)))
  = [Initialized true true (Some 0)].
Proof.
  intros st. rewrite (@first_status_reported (example_server [])
    (client_reading (fun _ => Some (JObject (@status_message (example_server []) st)))) st).
  - reflexivity.
  - reflexivity.
  - split_and!; vm_compute; done.
  - reflexivity.
Defined.

Lemma messages_understood_witness :
  let S := example_server [] in
  let status := @status_message S (IsConnected (Some "gateway") (Some "device") (Some 0) 1 2) in
  let reader text :=
    JObject <$> (if String.eqb text "connected" then Some (connected_message "key")
                 else if String.eqb text "disconnected" then Some disconnected_message
                 else if String.eqb text "backendFailure" then Some (failure_message 1)
                 else Some status) in
  history (final (@LocalSocket.readData (client_reading reader)
    EmptyString (@line_of S disconnected_message) (client_start eReady))) = [StopTimer; SigDisconnected].
Proof.
  intros S status reader.
  destruct (@messages_understood S (client_reading reader) (client_start eReady) "key" 1
    (Some "gateway") (Some "device") (Some 0) 1 2) as (_ & H2 & _).
  - reflexivity.
  - by vm_compute.
  - by vm_compute.
  - by vm_compute.
  - intros o Ho. rewrite !elem_of_cons, elem_of_nil in Ho.
    destruct Ho as [->|[->|[->|[->|[]]]]]; split_and!; vm_compute; done.
  - exact H2.
Defined.
