(* ===== verification/Wireguard.v ===== *)
(** * The WireGuard protocol of the client

    client/core/protocols/vpnProtocol.cpp and client/core/protocols/wireGuardProtocol.cpp:
    an attempt to connect with its time limit, the probe of the traffic through the
    tunnel, and the report of a failure.  Timers are the milliseconds that they have
    left; the controller of the local socket is used through its calls, and answers
    [deactivate] with its signal at once ([LocalSocket.deactivate]). *)

From stdpp Require Import base numbers list strings.
From Stdlib Require Import ZArith Lia Strings.String.
From S2P Require Import Prelude IpAddress Json Config NetworkUtils.
Open Scope string_scope.
Open Scope list_scope.
Open Scope Z_scope.

(** ** Data *)

Inductive ConnectionState :=
| Unknown | Disconnected | Preparing | Connecting | Connected | Disconnecting | Reconnecting | Error.

#[export] Instance ConnectionState_eq_dec : EqDecision ConnectionState.
Proof. solve_decision. Defined.

Definition is_in (a b : ConnectionState) : bool := bool_decide (a = b).

Definition NoError : Z := 0.
Definition InternalError : Z := 101.
Definition AmneziaServiceConnectionFailed : Z := 603.
Definition AddressPoolError : Z := 703.
Definition VpnTunnelDidNotComeUpError : Z := 704.

Definition kTimeoutMs : Z := 10000.
Definition kProbeDeadlineMs : Z := 5000.
Definition kProbeRetryMs : Z := 2000.

Definition probeUrls : list string :=
  ["http://connectivitycheck.gstatic.com/generate_204"; "http://cp.cloudflare.com/generate_204"].

(** Signals, calls of the controller of the socket, and requests of the probe. *)
Inductive Output :=
| StateChanged (state : ConnectionState)
| ProtocolError (code : Z)
| TimeoutTimerEvent
| BytesChanged (received sent : Z)
| TunnelAddressesUpdated (gateway localAddress : string)
| Activate (rawConfig : QJsonObject)
| Deactivate
| CheckStatus
| Get (url : string).

(** The probe: replies are known by numbers. *)
Record Probe := mkProbe {
  m_probeRunning : bool;
  m_probeDeadline : option Z;
  m_probeRetry : option Z;
  m_probeReplies : list nat;
  next_reply : nat
}.

(** The code of the last error is not set by the constructor. *)
Record Protocol := mkProtocol {
  m_connectionState : ConnectionState;
  m_lastError : option Z;
  m_timeoutTimer : option Z;
  m_receivedBytes : Z;
  m_sentBytes : Z;
  m_vpnGateway : string;
  m_vpnLocalAddress : string;
  m_rawConfig : QJsonObject;
  status_timer : bool;
  m_probe : Probe;
  m_failureReported : bool;
  outputs : list Output
}.

(** The constructor. *)
Definition new_protocol (configuration : QJsonObject) : Protocol :=
  mkProtocol Unknown None None 0 0 EmptyString EmptyString configuration false
    (mkProbe false None None [] 0) false [].

Definition set_connection (st : ConnectionState) (timer : option Z) (rx tx : Z) (p : Protocol) : Protocol :=
  mkProtocol st (m_lastError p) timer rx tx (m_vpnGateway p) (m_vpnLocalAddress p) (m_rawConfig p)
    (status_timer p) (m_probe p) (m_failureReported p) (outputs p).
Definition set_error (code : Z) (p : Protocol) : Protocol :=
  mkProtocol (m_connectionState p) (Some code) (m_timeoutTimer p) (m_receivedBytes p) (m_sentBytes p)
    (m_vpnGateway p) (m_vpnLocalAddress p) (m_rawConfig p) (status_timer p) (m_probe p)
    (m_failureReported p) (outputs p).
Definition set_timeout (timer : option Z) (p : Protocol) : Protocol :=
  set_connection (m_connectionState p) timer (m_receivedBytes p) (m_sentBytes p) p.
Definition set_bytes (rx tx : Z) (p : Protocol) : Protocol :=
  set_connection (m_connectionState p) (m_timeoutTimer p) rx tx p.
Definition set_addresses (gateway localAddress : string) (p : Protocol) : Protocol :=
  mkProtocol (m_connectionState p) (m_lastError p) (m_timeoutTimer p) (m_receivedBytes p) (m_sentBytes p)
    gateway localAddress (m_rawConfig p) (status_timer p) (m_probe p) (m_failureReported p) (outputs p).
Definition set_config (o : QJsonObject) (p : Protocol) : Protocol :=
  mkProtocol (m_connectionState p) (m_lastError p) (m_timeoutTimer p) (m_receivedBytes p) (m_sentBytes p)
    (m_vpnGateway p) (m_vpnLocalAddress p) o (status_timer p) (m_probe p) (m_failureReported p) (outputs p).
Definition set_status (b : bool) (p : Protocol) : Protocol :=
  mkProtocol (m_connectionState p) (m_lastError p) (m_timeoutTimer p) (m_receivedBytes p) (m_sentBytes p)
    (m_vpnGateway p) (m_vpnLocalAddress p) (m_rawConfig p) b (m_probe p) (m_failureReported p) (outputs p).
Definition set_probe (probe : Probe) (p : Protocol) : Protocol :=
  mkProtocol (m_connectionState p) (m_lastError p) (m_timeoutTimer p) (m_receivedBytes p) (m_sentBytes p)
    (m_vpnGateway p) (m_vpnLocalAddress p) (m_rawConfig p) (status_timer p) probe (m_failureReported p)
    (outputs p).
Definition set_reported (b : bool) (p : Protocol) : Protocol :=
  mkProtocol (m_connectionState p) (m_lastError p) (m_timeoutTimer p) (m_receivedBytes p) (m_sentBytes p)
    (m_vpnGateway p) (m_vpnLocalAddress p) (m_rawConfig p) (status_timer p) (m_probe p) b (outputs p).
Definition send (o : Output) (p : Protocol) : Protocol :=
  mkProtocol (m_connectionState p) (m_lastError p) (m_timeoutTimer p) (m_receivedBytes p) (m_sentBytes p)
    (m_vpnGateway p) (m_vpnLocalAddress p) (m_rawConfig p) (status_timer p) (m_probe p)
    (m_failureReported p) (outputs p ++ [o]).

(** ** Any protocol *)

Definition startTimeoutTimer (p : Protocol) : Protocol := set_timeout (Some kTimeoutMs) p.
Definition stopTimeoutTimer (p : Protocol) : Protocol := set_timeout None p.

Definition setConnectionState (state : ConnectionState) (p : Protocol) : Protocol :=
  if is_in (m_connectionState p) state then p
  else if is_in (m_connectionState p) Disconnected && is_in state Disconnecting then p
  else
    let p1 := set_connection state (m_timeoutTimer p) (m_receivedBytes p) (m_sentBytes p) p in
    let p2 := if is_in state Disconnected then set_bytes 0 0 p1 else p1 in
    let p3 := match state with
              | Connecting | Reconnecting => startTimeoutTimer p2
              | Connected | Disconnected | Error => stopTimeoutTimer p2
              | _ => p2
              end in
    send (StateChanged state) p3.

Definition setLastError (lastError : Z) (p : Protocol) : Protocol :=
  let p1 := set_error lastError p in
  if negb (lastError =? NoError) then setConnectionState Error p1 else p1.

(** Counters of 64 bits. *)
Definition setBytesChanged (receivedBytes sentBytes : Z) (p : Protocol) : Protocol :=
  let rxDiff := (receivedBytes - m_receivedBytes p) mod 2 ^ 64 in
  let txDiff := (sentBytes - m_sentBytes p) mod 2 ^ 64 in
  set_bytes receivedBytes sentBytes (send (BytesChanged rxDiff txDiff) p).

(** ** The probe *)

Definition cancelTrafficProbe (p : Protocol) : Protocol :=
  set_probe (mkProbe false None None [] (next_reply (m_probe p))) p.

(** The requests of a round. *)
Definition send_request (p : Protocol) (url : string) : Protocol :=
  let b := m_probe p in
  send (Get url)
    (set_probe (mkProbe (m_probeRunning b) (m_probeDeadline b) (m_probeRetry b)
                  (m_probeReplies b ++ [next_reply b]) (S (next_reply b))) p).

Definition sendProbeRound (p : Protocol) : Protocol :=
  if negb (m_probeRunning (m_probe p)) then p else fold_left send_request probeUrls p.

Definition startTrafficProbe (p : Protocol) : Protocol :=
  if m_probeRunning (m_probe p) then p
  else
    let p1 := stopTimeoutTimer p in
    let b := m_probe p1 in
    sendProbeRound
      (set_probe (mkProbe true (Some kProbeDeadlineMs) (Some kProbeRetryMs) (m_probeReplies b)
                    (next_reply b)) p1).

(** ** Signals of the controller *)

(** [disconnected]. *)
Definition on_disconnected (p : Protocol) : Protocol :=
  setConnectionState Disconnected (cancelTrafficProbe (set_status false p)).

(** [connected]. *)
Definition on_connected (p : Protocol) : Protocol := startTrafficProbe (set_status true p).

Definition stopMzImpl (p : Protocol) : Protocol := on_disconnected (send Deactivate p).

Definition stop (p : Protocol) : Protocol := stopMzImpl (cancelTrafficProbe p).

Definition failConnection (code : Z) (p : Protocol) : Protocol :=
  if m_failureReported p then p
  else stopMzImpl (send (ProtocolError code)
         (setLastError code (cancelTrafficProbe (set_reported true p)))).

Definition on_backendFailure (p : Protocol) : Protocol := failConnection AmneziaServiceConnectionFailed p.

(** [statusUpdated]: an empty address leaves the old one. *)
Definition on_statusUpdated (serverIpv4Gateway deviceIpv4Address : string) (txBytes rxBytes : Z) (p : Protocol)
  : Protocol :=
  let p1 := setBytesChanged rxBytes txBytes p in
  let keep old new := if String.eqb new EmptyString then old else new in
  let gateway := keep (m_vpnGateway p) serverIpv4Gateway in
  let localAddress := keep (m_vpnLocalAddress p) deviceIpv4Address in
  let changed old new := negb (String.eqb new EmptyString) && negb (String.eqb new old) in
  let p2 := set_addresses gateway localAddress p1 in
  if changed (m_vpnGateway p) gateway || changed (m_vpnLocalAddress p) localAddress
  then send (TunnelAddressesUpdated gateway localAddress) p2 else p2.

(** [onTimeout]; the signal of the timer cancels the probe. *)
Definition onTimeout (p : Protocol) : Protocol :=
  stop (cancelTrafficProbe (send TimeoutTimerEvent
    (send (ProtocolError VpnTunnelDidNotComeUpError) (setLastError VpnTunnelDidNotComeUpError p)))).

(** The end of a request; [status] is zero where there is none. *)
Definition onProbeFinished (reply : nat) (noError : bool) (status : Z) (p : Protocol) : Protocol :=
  let b := m_probe p in
  let p1 := set_probe (mkProbe (m_probeRunning b) (m_probeDeadline b) (m_probeRetry b)
                         (List.filter (fun r => negb (Nat.eqb r reply)) (m_probeReplies b))
                         (next_reply b)) p in
  if negb (m_probeRunning b) then p1
  else if noError && (status =? 204) then setConnectionState Connected (cancelTrafficProbe p1)
  else p1.

(** ** Starting *)

Section Start.
Context `{Qt}.
(** What the resolver gives for a name. *)
Variable names : string -> list string.

(** The configuration with the addresses of its names, as far as they are found. *)
Definition resolve_config (o : QJsonObject) : Z * QJsonObject :=
  let protocolName := chars (toString (obj_value o "protocol")) in
  let key := (protocolName ++ "_config_data")%string in
  let vpnConfigData := toObject (obj_value o key) in
  let resolvedHost := getIPAddress names (chars (toString (obj_value vpnConfigData "hostName"))) in
  if String.eqb resolvedHost EmptyString then (AddressPoolError, o)
  else
    let o1 := obj_insert o key (Some (JObject (obj_insert vpnConfigData "hostName" (Some (JString resolvedHost))))) in
    let resolvedTopLevel := getIPAddress names (chars (toString (obj_value o1 "hostName"))) in
    if String.eqb resolvedTopLevel EmptyString then (AddressPoolError, o1)
    else (NoError, obj_insert o1 "hostName" (Some (JString resolvedTopLevel))).

Definition startMzImpl (p : Protocol) : Z * Protocol :=
  let '(code, o) := resolve_config (m_rawConfig p) in
  let p1 := set_config o p in
  (code, if code =? NoError then send (Activate o) p1 else p1).

Definition start (p : Protocol) : Z * Protocol :=
  let '(code, p1) := startMzImpl (setConnectionState Connecting (set_reported false p)) in
  (code, if negb (code =? NoError) then failConnection code p1 else p1).
End Start.

(** ** Time and events *)

Definition expired (timer : option Z) (ms : Z) : bool :=
  match timer with Some n => n <=? ms | None => false end.
Definition later (timer : option Z) (ms : Z) : option Z := (fun n => n - ms) <$> timer.

Definition elapse_timeout (ms : Z) (p : Protocol) : Protocol :=
  if expired (m_timeoutTimer p) ms then onTimeout (set_timeout None p)
  else set_timeout (later (m_timeoutTimer p) ms) p.

Definition set_deadline (timer : option Z) (b : Probe) : Probe :=
  mkProbe (m_probeRunning b) timer (m_probeRetry b) (m_probeReplies b) (next_reply b).
Definition set_retry (timer : option Z) (b : Probe) : Probe :=
  mkProbe (m_probeRunning b) (m_probeDeadline b) timer (m_probeReplies b) (next_reply b).

Definition elapse_deadline (ms : Z) (p : Protocol) : Protocol :=
  let b := m_probe p in
  if expired (m_probeDeadline b) ms
  then failConnection VpnTunnelDidNotComeUpError (set_probe (set_deadline None b) p)
  else set_probe (set_deadline (later (m_probeDeadline b) ms) b) p.

(** The retry starts again at once. *)
Definition elapse_retry (ms : Z) (p : Protocol) : Protocol :=
  let b := m_probe p in
  if expired (m_probeRetry b) ms
  then sendProbeRound (set_probe (set_retry (Some kProbeRetryMs) b) p)
  else set_probe (set_retry (later (m_probeRetry b) ms) b) p.

Definition elapse (ms : Z) (p : Protocol) : Protocol :=
  elapse_retry ms (elapse_deadline ms (elapse_timeout ms p)).

(** What happens to a protocol between calls of it. *)
Inductive PEvent :=
| Elapse (ms : Z)
| SocketConnected
| SocketDisconnected
| SocketFailure
| SocketStatus (gateway device : string) (tx rx : Z)
| StatusTick
| ProbeFinished (reply : nat) (noError : bool) (status : Z).

Definition protocol_event (p : Protocol) (e : PEvent) : Protocol :=
  match e with
  | Elapse ms => elapse ms p
  | SocketConnected => on_connected p
  | SocketDisconnected => on_disconnected p
  | SocketFailure => on_backendFailure p
  | SocketStatus g d tx rx => on_statusUpdated g d tx rx p
  | StatusTick => if status_timer p then send CheckStatus p else p
  | ProbeFinished r ok st => onProbeFinished r ok st p
  end.

Definition run_protocol (l : list PEvent) (p : Protocol) : Protocol := fold_left protocol_event l p.

(** ** Specification *)

Definition ms_of (e : PEvent) : Z := match e with Elapse ms => ms | _ => 0 end.
Definition total_ms (l : list PEvent) : Z := foldr (fun e n => ms_of e + n) 0 l.

(** The time that a connection that is being set up can still take at most; it is
    under the limit of the handshake or of the probe, and no failure is reported. *)
Definition time_left (p : Protocol) : option Z :=
  if m_failureReported p then None
  else if m_probeRunning (m_probe p) then m_probeDeadline (m_probe p)
  else (fun n => n + kProbeDeadlineMs) <$> m_timeoutTimer p.

(** A connection that is being set up ends within [n] milliseconds. *)
Definition ends_within (n : Z) (p : Protocol) : Prop :=
  m_connectionState p = Connecting ->
  (m_probeRunning (m_probe p) = true -> m_timeoutTimer p = None)
  /\ (m_probeRunning (m_probe p) = false -> m_probeDeadline (m_probe p) = None)
  /\ exists t, time_left p = Some t
     /\ (if m_probeRunning (m_probe p) then 0 else kProbeDeadlineMs) < t <= n.

(** The states that a protocol of this kind has once it was started. *)
Definition attempt_state (p : Protocol) : Prop :=
  m_connectionState p = Connecting \/ m_connectionState p = Connected
  \/ m_connectionState p = Disconnected.

(** A protocol that was stopped or never started; nothing of an old attempt is left. *)
Definition at_rest (p : Protocol) : Prop :=
  (m_connectionState p = Unknown \/ m_connectionState p = Disconnected)
  /\ m_probeRunning (m_probe p) = false /\ m_probeDeadline (m_probe p) = None.

(** How often a failure was reported. *)
Definition reports (l : list Output) : nat :=
  List.length (List.filter (fun o => match o with ProtocolError _ => true | _ => false end) l).

(** ** Lemmas *)

(** The fields of a protocol. *)
Ltac protocol :=
  cbn [m_connectionState m_lastError m_timeoutTimer m_receivedBytes m_sentBytes m_vpnGateway
       m_vpnLocalAddress m_rawConfig status_timer m_probe m_failureReported outputs
       m_probeRunning m_probeDeadline m_probeRetry m_probeReplies next_reply
       set_connection set_error set_timeout set_bytes set_addresses set_config set_status set_probe
       set_reported send set_deadline set_retry cancelTrafficProbe startTimeoutTimer stopTimeoutTimer] in *.

Lemma is_in_true (a b : ConnectionState) : is_in a b = true <-> a = b.
Proof. apply bool_decide_eq_true. Qed.

Lemma setConnectionState_to (st : ConnectionState) (p : Protocol) :
  st <> Disconnecting -> m_connectionState (setConnectionState st p) = st.
Proof.
  intros Hst. unfold setConnectionState. destruct (is_in (m_connectionState p) st) eqn:E;
    [by apply is_in_true in E|].
  destruct (is_in st Disconnecting) eqn:Ed; [by apply is_in_true in Ed|]. rewrite andb_false_r.
  by destruct (is_in st Disconnected), st.
Qed.

(** What a change of the state leaves alone. *)
Lemma setConnectionState_rest (st : ConnectionState) (p : Protocol) :
  m_probe (setConnectionState st p) = m_probe p
  /\ m_failureReported (setConnectionState st p) = m_failureReported p
  /\ m_rawConfig (setConnectionState st p) = m_rawConfig p
  /\ m_lastError (setConnectionState st p) = m_lastError p
  /\ status_timer (setConnectionState st p) = status_timer p.
Proof.
  unfold setConnectionState. destruct (is_in (m_connectionState p) st); [done|].
  destruct (_ && _); [done|]. by destruct (is_in st Disconnected), st.
Qed.

Lemma on_disconnected_state (p : Protocol) : m_connectionState (on_disconnected p) = Disconnected.
Proof. by apply setConnectionState_to. Qed.

Lemma stop_state (p : Protocol) : m_connectionState (stop p) = Disconnected.
Proof. apply on_disconnected_state. Qed.

Lemma failConnection_state (code : Z) (p : Protocol) :
  m_failureReported p = false -> m_connectionState (failConnection code p) = Disconnected.
Proof. intros Hr. unfold failConnection. rewrite Hr. apply on_disconnected_state. Qed.

Lemma onTimeout_state (p : Protocol) : m_connectionState (onTimeout p) = Disconnected.
Proof. apply stop_state. Qed.

Lemma send_requests_rest (l : list string) (p : Protocol) :
  let p' := fold_left send_request l p in
  m_connectionState p' = m_connectionState p /\ m_timeoutTimer p' = m_timeoutTimer p
  /\ m_failureReported p' = m_failureReported p
  /\ m_probeRunning (m_probe p') = m_probeRunning (m_probe p)
  /\ m_probeDeadline (m_probe p') = m_probeDeadline (m_probe p).
Proof.
  revert p. induction l as [|url l IH]; intros p; cbn [fold_left]; [done|].
  destruct (IH (send_request p url)) as (-> & -> & -> & -> & ->). done.
Qed.

Lemma sendProbeRound_rest (p : Protocol) :
  let p' := sendProbeRound p in
  m_connectionState p' = m_connectionState p /\ m_timeoutTimer p' = m_timeoutTimer p
  /\ m_failureReported p' = m_failureReported p
  /\ m_probeRunning (m_probe p') = m_probeRunning (m_probe p)
  /\ m_probeDeadline (m_probe p') = m_probeDeadline (m_probe p).
Proof. unfold sendProbeRound. destruct (negb _); [done | apply send_requests_rest]. Qed.

(** Only these parts matter for the time that is left. *)
Lemma ends_within_ext (n : Z) (p p' : Protocol) :
  m_connectionState p' = m_connectionState p -> m_timeoutTimer p' = m_timeoutTimer p ->
  m_failureReported p' = m_failureReported p ->
  m_probeRunning (m_probe p') = m_probeRunning (m_probe p) ->
  m_probeDeadline (m_probe p') = m_probeDeadline (m_probe p) ->
  ends_within n p -> ends_within n p'.
Proof. unfold ends_within, time_left. by intros -> -> -> -> ->. Qed.

Lemma ends_within_state (n : Z) (p : Protocol) : m_connectionState p <> Connecting -> ends_within n p.
Proof. intros Hp Hc. done. Qed.

Lemma ends_within_weaken (n m : Z) (p : Protocol) : n <= m -> ends_within n p -> ends_within m p.
Proof.
  intros Hnm Hp Hc. destruct (Hp Hc) as (H1 & H2 & t & Ht & Hn). split_and!; [done..|]. exists t.
  split; [done | lia].
Qed.

Lemma elapse_retry_within (n ms : Z) (p : Protocol) : ends_within n p -> ends_within n (elapse_retry ms p).
Proof.
  unfold elapse_retry. destruct (expired _ _).
  - destruct (sendProbeRound_rest (set_probe (set_retry (Some kProbeRetryMs) (m_probe p)) p)) as (A & B & C & D & F).
    by apply ends_within_ext.
  - by apply ends_within_ext.
Qed.

(** A timer that runs out ends the connection or does nothing. *)
Lemma failConnection_cases (code : Z) (p : Protocol) :
  m_connectionState (failConnection code p) = Disconnected \/ failConnection code p = p.
Proof.
  destruct (m_failureReported p) eqn:E; [right | left; by apply failConnection_state].
  unfold failConnection. by rewrite E.
Qed.

Lemma elapse_deadline_state (ms : Z) (p : Protocol) :
  m_connectionState (elapse_deadline ms p) = m_connectionState p
  \/ m_connectionState (elapse_deadline ms p) = Disconnected.
Proof.
  unfold elapse_deadline. destruct (expired _ _); [|by left].
  destruct (failConnection_cases VpnTunnelDidNotComeUpError
              (set_probe (set_deadline None (m_probe p)) p)) as [->| ->]; [by right | by left].
Qed.

Lemma elapse_timeout_state (ms : Z) (p : Protocol) :
  m_connectionState (elapse_timeout ms p) = m_connectionState p
  \/ m_connectionState (elapse_timeout ms p) = Disconnected.
Proof.
  unfold elapse_timeout. destruct (expired _ _); [right; apply onTimeout_state | by left].
Qed.

Lemma elapse_state (ms : Z) (p : Protocol) :
  m_connectionState (elapse ms p) = m_connectionState p \/ m_connectionState (elapse ms p) = Disconnected.
Proof.
  unfold elapse. assert (Hr : forall q, m_connectionState (elapse_retry ms q) = m_connectionState q).
  { intros q. unfold elapse_retry. destruct (expired _ _); [|done].
    by rewrite (proj1 (sendProbeRound_rest _)). }
  rewrite Hr. destruct (elapse_deadline_state ms (elapse_timeout ms p)) as [->|]; [|by right].
  apply elapse_timeout_state.
Qed.

Lemma elapse_within (n ms : Z) (p : Protocol) :
  0 <= ms -> ends_within n p -> ends_within (n - ms) (elapse ms p).
Proof.
  intros Hms Hp. destruct (decide (m_connectionState p = Connecting)) as [Hc|Hc];
    [|apply ends_within_state; by destruct (elapse_state ms p) as [-> | ->]].
  destruct (Hp Hc) as (H1 & H2 & t & Ht & Hn). unfold elapse. apply elapse_retry_within.
  unfold time_left in Ht. destruct (m_failureReported p) eqn:Hf; [done|].
  destruct (m_probeRunning (m_probe p)) eqn:Hr.
  - unfold elapse_timeout. rewrite (H1 eq_refl). cbn [expired later fmap option_fmap option_map].
    unfold elapse_deadline. protocol. rewrite Ht. cbn [expired]. destruct (Z.leb_spec t ms).
    + apply ends_within_state. by rewrite failConnection_state.
    + intros _. protocol. unfold time_left. protocol. rewrite Hf, Hr. split_and!; [done..|].
      exists (t - ms). split; [done | lia].
  - destruct (m_timeoutTimer p) as [k|] eqn:Hk; [|done]. injection Ht as <-.
    unfold elapse_timeout. rewrite Hk. cbn [expired]. destruct (Z.leb_spec k ms).
    + apply ends_within_state. destruct (elapse_deadline_state ms (onTimeout (set_timeout None p))) as [-> | ->];
        by rewrite ?onTimeout_state.
    + unfold elapse_deadline. protocol. rewrite (H2 eq_refl). cbn [expired later fmap option_fmap option_map].
      intros _. protocol. unfold time_left. protocol. rewrite Hf, Hr. split_and!; [done..|].
      exists (k - ms + kProbeDeadlineMs). split; [done | lia].
Qed.

Lemma connected_within (n : Z) (p : Protocol) : ends_within n p -> ends_within n (on_connected p).
Proof.
  intros Hp Hc. unfold on_connected, startTrafficProbe in *. protocol.
  destruct (m_probeRunning (m_probe p)) eqn:Hr; [by apply Hp in Hc|].
  match type of Hc with m_connectionState (sendProbeRound ?q) = _ =>
    destruct (sendProbeRound_rest q) as (A & B & C & D & F) end.
  rewrite A in Hc. protocol. destruct (Hp Hc) as (_ & _ & t & Ht & Hn).
  unfold time_left in *. rewrite B, C, D, F. protocol.
  destruct (m_failureReported p); [done|]. rewrite Hr in Ht.
  split_and!; [done..|]. exists kProbeDeadlineMs. split; [done|].
  rewrite Hr in Hn. destruct (m_timeoutTimer p) as [k|]; [|done]. injection Ht as <-.
  unfold kProbeDeadlineMs in *. lia.
Qed.

Lemma event_within (n : Z) (e : PEvent) (p : Protocol) :
  0 <= ms_of e -> ends_within n p -> ends_within (n - ms_of e) (protocol_event p e).
Proof.
  intros Hms Hp. destruct e as [ms | | | | g d tx rx | | r ok st]; cbn [ms_of protocol_event] in *;
    rewrite ?Z.sub_0_r.
  - by apply elapse_within.
  - by apply connected_within.
  - apply ends_within_state. by rewrite on_disconnected_state.
  - unfold on_backendFailure. destruct (failConnection_cases AmneziaServiceConnectionFailed p) as [Hf | ->];
      [apply ends_within_state; by rewrite Hf | done].
  - unfold on_statusUpdated. destruct (_ || _); by apply (ends_within_ext n p).
  - destruct (status_timer p); [by apply (ends_within_ext n p) | done].
  - unfold onProbeFinished. destruct (negb _); [by apply (ends_within_ext n p)|].
    destruct (ok && _); [|by apply (ends_within_ext n p)].
    apply ends_within_state. by rewrite setConnectionState_to.
Qed.

Lemma run_within (n : Z) (l : list PEvent) (p : Protocol) :
  Forall (fun e => 0 <= ms_of e) l -> ends_within n p -> ends_within (n - total_ms l) (run_protocol l p).
Proof.
  intros Hl. revert n p. induction Hl as [|e l He _ IH]; intros n p Hp.
  - change (total_ms []) with 0. by rewrite Z.sub_0_r.
  - change (total_ms (e :: l)) with (ms_of e + total_ms l).
    replace (n - (ms_of e + total_ms l)) with ((n - ms_of e) - total_ms l) by lia.
    apply (IH (n - ms_of e) (protocol_event p e)). by apply event_within.
Qed.

(** The signals of a change of the state. *)
Lemma setConnectionState_outputs (st : ConnectionState) (p : Protocol) :
  m_connectionState p <> st -> st <> Disconnecting ->
  outputs (setConnectionState st p) = outputs p ++ [StateChanged st].
Proof.
  intros Hne Hst. unfold setConnectionState. destruct (is_in (m_connectionState p) st) eqn:E;
    [by apply is_in_true in E|].
  destruct (is_in st Disconnecting) eqn:Ed; [by apply is_in_true in Ed|]. rewrite andb_false_r.
  by destruct (is_in st Disconnected), st.
Qed.

Lemma on_disconnected_outputs (p : Protocol) :
  m_connectionState p <> Disconnected -> outputs (on_disconnected p) = outputs p ++ [StateChanged Disconnected].
Proof. intros Hp. unfold on_disconnected. by rewrite setConnectionState_outputs. Qed.

(** The signals of a failure: the state and the code before the stop. *)
Lemma failConnection_outputs (code : Z) (p : Protocol) :
  m_failureReported p = false -> code <> NoError -> m_connectionState p <> Error ->
  outputs (failConnection code p)
  = outputs p ++ [StateChanged Error; ProtocolError code; Deactivate; StateChanged Disconnected].
Proof.
  intros Hr Hc Hs. unfold failConnection, stopMzImpl, setLastError. rewrite Hr.
  apply Z.eqb_neq in Hc. rewrite Hc. cbn [negb].
  rewrite on_disconnected_outputs; protocol; rewrite ?setConnectionState_to; [|done..].
  rewrite setConnectionState_outputs by done. protocol. by rewrite <- !app_assoc.
Qed.

Lemma onTimeout_outputs (p : Protocol) :
  m_connectionState p <> Error ->
  outputs (onTimeout p)
  = outputs p ++ [StateChanged Error; ProtocolError VpnTunnelDidNotComeUpError; TimeoutTimerEvent;
                  Deactivate; StateChanged Disconnected].
Proof.
  intros Hs. unfold onTimeout, stop, stopMzImpl, setLastError. cbn [Z.eqb VpnTunnelDidNotComeUpError NoError negb].
  change (negb (VpnTunnelDidNotComeUpError =? NoError)) with true. cbv iota.
  rewrite on_disconnected_outputs; protocol; rewrite ?setConnectionState_to; [|done..].
  rewrite setConnectionState_outputs by done. protocol. by rewrite <- !app_assoc.
Qed.

Lemma start_within `{Qt} (names : string -> list string) (p : Protocol) :
  at_rest p -> ends_within (kTimeoutMs + kProbeDeadlineMs) (start names p).2.
Proof.
  intros (Hs & Hr & Hd). unfold start, startMzImpl.
  destruct (resolve_config _ _) as [code o]. cbn [snd].
  destruct (setConnectionState_rest Connecting (set_reported false p)) as (Hp & Hf & _).
  destruct (code =? NoError) eqn:E; cbn [negb].
  - intros _. unfold time_left. protocol. rewrite Hp, Hf. protocol. rewrite Hr, Hd. split_and!; [done..|].
    exists (kTimeoutMs + kProbeDeadlineMs). split; [|done]. unfold setConnectionState. protocol.
    by destruct Hs as [-> | ->].
  - apply ends_within_state. rewrite failConnection_state; [done|]. protocol. by rewrite Hf.
Qed.

Lemma timeout_unreported (p : Protocol) :
  m_failureReported (onTimeout p) = m_failureReported p /\ m_connectionState (onTimeout p) = Disconnected.
Proof.
  split; [|apply onTimeout_state]. unfold onTimeout, stop, stopMzImpl, on_disconnected, setLastError.
  change (negb (VpnTunnelDidNotComeUpError =? NoError)) with true. cbv iota.
  destruct (setConnectionState_rest Error (set_error VpnTunnelDidNotComeUpError p)) as (_ & Hf & _).
  match goal with |- context[setConnectionState Disconnected ?q] =>
    destruct (setConnectionState_rest Disconnected q) as (_ & -> & _) end.
  protocol. by rewrite Hf.
Qed.

Lemma failConnection_reported (code : Z) (p : Protocol) : m_failureReported (failConnection code p) = true.
Proof.
  unfold failConnection. destruct (m_failureReported p) eqn:E; [done|]. unfold stopMzImpl, on_disconnected.
  match goal with |- context[setConnectionState Disconnected ?q] =>
    destruct (setConnectionState_rest Disconnected q) as (_ & -> & _) end.
  protocol. unfold setLastError. destruct (negb _); [|done].
  by destruct (setConnectionState_rest Error (set_error code (cancelTrafficProbe (set_reported true p)))) as (_ & -> & _).
Qed.

Lemma failConnection_lastError (code : Z) (p : Protocol) :
  m_failureReported p = false -> m_lastError (failConnection code p) = Some code.
Proof.
  intros Hr. unfold failConnection. rewrite Hr. unfold stopMzImpl, on_disconnected.
  match goal with |- context[setConnectionState Disconnected ?q] =>
    destruct (setConnectionState_rest Disconnected q) as (_ & _ & _ & -> & _) end.
  protocol. unfold setLastError. destruct (negb _); [|done].
  by destruct (setConnectionState_rest Error (set_error code (cancelTrafficProbe (set_reported true p)))) as (_ & _ & _ & -> & _).
Qed.

Lemma send_requests_outputs (l : list string) (p : Protocol) :
  outputs (fold_left send_request l p) = outputs p ++ map Get l.
Proof.
  revert p. induction l as [|url l IH]; intros p; cbn [fold_left map]; [by rewrite app_nil_r|].
  rewrite IH. unfold send_request. protocol. by rewrite <- app_assoc.
Qed.

(** The start of the probe. *)
Lemma on_connected_probe (p : Protocol) :
  m_probeRunning (m_probe p) = false ->
  m_connectionState (on_connected p) = m_connectionState p
  /\ m_probeRunning (m_probe (on_connected p)) = true
  /\ outputs (on_connected p) = outputs p ++ map Get probeUrls.
Proof.
  intros Hr. unfold on_connected, startTrafficProbe. protocol. rewrite Hr.
  destruct (sendProbeRound_rest (set_probe (mkProbe true (Some kProbeDeadlineMs) (Some kProbeRetryMs)
    (m_probeReplies (m_probe p)) (next_reply (m_probe p))) (set_timeout None (set_status true p))))
    as (A & _ & _ & D & _).
  split_and!; [exact A | exact D |]. unfold sendProbeRound. protocol. cbn [negb].
  by rewrite send_requests_outputs.
Qed.

Lemma reports_app (l1 l2 : list Output) : reports (l1 ++ l2) = (reports l1 + reports l2)%nat.
Proof. unfold reports. by rewrite List.filter_app, length_app. Qed.

(** ** Theorems *)

(** C16: an attempt to connect ends.  Whatever the daemon, the network and the timers do
    after a start, and in whatever order, once 15 seconds have passed (10 for the
    handshake and 5 for the probe) the protocol is no longer connecting; an attempt
    that cannot even begin is over at once. *)
Theorem attempt_ends `{Qt} (names : string -> list string) (p : Protocol) (l : list PEvent) :
  at_rest p -> Forall (fun e => 0 <= ms_of e) l ->
  (fst (start names p) <> NoError -> m_connectionState (start names p).2 = Disconnected)
  /\ (kTimeoutMs + kProbeDeadlineMs <= total_ms l ->
      m_connectionState (run_protocol l (start names p).2) <> Connecting).
Proof.
  intros Hp Hl. split.
  - unfold start, startMzImpl. destruct (resolve_config _ _) as [code o]. cbn [fst snd]. intros Hc%Z.eqb_neq.
    rewrite Hc. cbn [negb]. apply failConnection_state. protocol.
    by destruct (setConnectionState_rest Connecting (set_reported false p)) as (_ & -> & _).
  - intros Ht Hc. destruct (run_within _ l _ Hl (start_within names p Hp) Hc) as (_ & _ & t & _ & Hle).
    destruct (m_probeRunning _); unfold kProbeDeadlineMs, kTimeoutMs in *; lia.
Qed.

(** The client says that it is connected only after a probe through the tunnel was
    answered with an empty 204: no other event leads to that state. *)
Theorem connected_after_probe (p : Protocol) (e : PEvent) :
  m_connectionState p <> Connected -> m_connectionState (protocol_event p e) = Connected ->
  m_probeRunning (m_probe p) = true /\ exists reply, e = ProbeFinished reply true 204.
Proof.
  intros Hp He. destruct e as [ms | | | | g d tx rx | | r ok st]; cbn [protocol_event] in He.
  - by destruct (elapse_state ms p) as [E|E]; rewrite E in He.
  - exfalso. revert He. unfold on_connected, startTrafficProbe. protocol.
    destruct (m_probeRunning _); [done|]. by rewrite (proj1 (sendProbeRound_rest _)).
  - by rewrite on_disconnected_state in He.
  - unfold on_backendFailure in He.
    by destruct (failConnection_cases AmneziaServiceConnectionFailed p) as [E|E]; rewrite E in He.
  - exfalso. revert He. unfold on_statusUpdated. by destruct (_ || _).
  - exfalso. revert He. by destruct (status_timer p).
  - revert He. unfold onProbeFinished. destruct (m_probeRunning (m_probe p)); cbn [negb]; [|done].
    destruct ok, (Z.eqb_spec st 204) as [->|]; cbn [andb]; try done. intros _. split; [done | by exists r].
Qed.

(** A failure is told in the order that lets the cause be seen: the error as the
    state, its code, and only then the stop, which says disconnected; a second failure
    of the same attempt changes nothing. *)
Theorem failure_before_stop (code code' : Z) (p : Protocol) :
  m_failureReported p = false -> code <> NoError -> m_connectionState p <> Error ->
  outputs (failConnection code p)
  = outputs p ++ [StateChanged Error; ProtocolError code; Deactivate; StateChanged Disconnected]
  /\ m_lastError (failConnection code p) = Some code
  /\ failConnection code' (failConnection code p) = failConnection code p.
Proof.
  intros Hr Hc Hs. split_and!; [by apply failConnection_outputs | by apply failConnection_lastError |].
  unfold failConnection at 1. by rewrite failConnection_reported.
Qed.

(** A time limit that runs out is not recorded as the failure of the attempt: if the
    daemon fails afterwards, the same attempt is reported a second time. *)
Theorem timeout_reported_twice (p : Protocol) :
  m_failureReported p = false -> m_connectionState p = Connecting ->
  reports (outputs (on_backendFailure (onTimeout p))) = (reports (outputs p) + 2)%nat.
Proof.
  intros Hr Hs. destruct (timeout_unreported p) as [Hf Hst]. unfold on_backendFailure.
  rewrite failConnection_outputs by (done || by rewrite ?Hf, ?Hst).
  rewrite onTimeout_outputs by by rewrite Hs. rewrite !reports_app. cbn. lia.
Qed.

(** A message that the daemon sent before it was stopped is believed: the signal
    [connected] of an attempt that is over starts the probe again, which is then
    answered without a tunnel, and the client says that it is connected. *)
Theorem late_connected_believed (p : Protocol) (reply : nat) :
  m_connectionState p = Disconnected -> m_probeRunning (m_probe p) = false ->
  let p' := run_protocol [SocketConnected; ProbeFinished reply true 204] p in
  m_connectionState p' = Connected
  /\ outputs p' = outputs p ++ map Get probeUrls ++ [StateChanged Connected].
Proof.
  intros Hs Hr. destruct (on_connected_probe p Hr) as (Hs1 & Hr1 & Ho1).
  unfold run_protocol. cbn [fold_left protocol_event]. unfold onProbeFinished. rewrite Hr1. cbn [negb].
  change (true && (204 =? 204)) with true. cbv iota.
  split; [by apply setConnectionState_to|].
  rewrite setConnectionState_outputs by (done || (protocol; by rewrite Hs1, Hs)).
  protocol. by rewrite Ho1, <- app_assoc.
Qed.

(** ** Witnesses *)

Definition example_protocol : Protocol :=
  new_protocol [("protocol", JString "awg"); ("hostName", JString "vpn.example");
                ("awg_config_data", JObject [("hostName", JString "vpn.example")])].
Definition example_names : string -> list string := fun _ => ["192.0.2.1"].
Definition connecting : Protocol := setConnectionState Connecting example_protocol.

Lemma attempt_ends_witness :
  let p := (start (H := example_qt) example_names example_protocol).2 in
  m_connectionState (run_protocol [Elapse 9999; SocketConnected] p) = Connecting
  /\ m_connectionState (run_protocol [Elapse 9999; SocketConnected; Elapse 5001] p) <> Connecting.
Proof.
  split; [by vm_compute|].
  apply (attempt_ends (H := example_qt) example_names example_protocol
           [Elapse 9999; SocketConnected; Elapse 5001]);
    [by split_and!; [left | ..] | by repeat constructor | by vm_compute].
Defined.

Lemma connected_after_probe_witness :
  let p := run_protocol [SocketConnected] connecting in
  m_connectionState (protocol_event p (ProbeFinished 0 true 204)) = Connected
  /\ m_probeRunning (m_probe p) = true.
Proof.
  split; [by vm_compute|].
  apply (connected_after_probe (run_protocol [SocketConnected] connecting) (ProbeFinished 0 true 204));
    by vm_compute.
Defined.

Lemma failure_before_stop_witness :
  outputs (failConnection AddressPoolError connecting)
  = outputs connecting ++ [StateChanged Error; ProtocolError AddressPoolError; Deactivate; StateChanged Disconnected].
Proof. by apply (failure_before_stop AddressPoolError 0 connecting). Defined.

Lemma timeout_reported_twice_witness :
  reports (outputs (on_backendFailure (onTimeout connecting))) = 2%nat.
Proof. by apply (timeout_reported_twice connecting). Defined.

Lemma late_connected_believed_witness :
  m_connectionState (run_protocol [SocketConnected; ProbeFinished 0 true 204] (onTimeout connecting)) = Connected.
Proof. by apply (late_connected_believed (onTimeout connecting) 0). Defined.
