(* ===== verification/VpnConnection.v ===== *)
(** * The connection of the client

    client/vpnConnection.cpp on the desktop, with the WireGuard protocol: the
    configuration of a connection from the settings, the calls of the service when
    the state changes, and the states that are told to the rest of the client.
    Signals of the protocol are delivered in their order when it returns: the
    handlers do not call it.  An index out of range is undefined and has no result. *)

From stdpp Require Import base numbers list strings gmap.
From Stdlib Require Import ZArith Lia Strings.String Strings.Ascii.
From S2P Require Import Prelude IpAddress Json Config NetworkUtils SecureSettings AppSettings.
From S2P Require Import LocalSocket Wireguard.
Open Scope string_scope.
Open Scope list_scope.
Open Scope Z_scope.

(** ** Texts *)

(** [split(w)], from the left; [skip] characters belong to the last separator. *)
Fixpoint split_text (w : string) (skip : nat) (s : string) : list string :=
  match s with
  | EmptyString => [EmptyString]
  | String c s' =>
      match skip with
      | S k => split_text w k s'
      | O => if String.prefix w s then EmptyString :: split_text w (String.length w - 1) s'
             else match split_text w 0 s' with
                  | [] => []
                  | part :: parts => String c part :: parts
                  end
      end
  end.

(** [removeDuplicates]: the first of each is kept. *)
Fixpoint removeDuplicates (seen l : list string) : list string :=
  match l with
  | [] => []
  | x :: l' => if existsb (String.eqb x) seen then removeDuplicates seen l'
               else x :: removeDuplicates (x :: seen) l'
  end.

Definition strings_json (l : list string) : json := JArray (map JString l).

(** ** The configuration *)

Definition appendKillSwitchConfig (s : AppSettings) (o : QJsonObject) : QJsonObject :=
  let o1 := obj_insert o "killSwitchOption"
              (Some (JString (var_toString (VBool (read killSwitchEnabled s))))) in
  obj_insert o1 "allowedDnsServers" (Some (strings_json (read allowedDnsServers s))).

(** The value of the first line with a word: none where a line has the word and no
    value, which is undefined. *)
Fixpoint line_value (word : string) (lines : list string) : option (option string) :=
  match lines with
  | [] => Some None
  | line :: lines' =>
      if contains_text word line
      then match split_text " = " 0 line with
           | _ :: v :: _ => Some (Some v)
           | _ => None
           end
      else line_value word lines'
  end.

Definition native_lines (configData : QJsonObject) : list string :=
  split_on newline (chars (toString (obj_value configData "config"))).

(** What the first line with a word adds to the data, where there is one. *)
Definition from_line (word key : string) (f : string -> json) (configData : QJsonObject)
  : option (option QJsonObject) :=
  match line_value word (native_lines configData) with
  | None => None
  | Some v => Some ((fun v => obj_insert configData key (Some (f v))) <$> v)
  end.

Definition ips_json (v : string) : json := strings_json (split_text ", " 0 v).

(** The addresses of an old configuration as an array, where they are not one. *)
Definition fill_allowed_ips (configData : QJsonObject) : option (option QJsonObject) :=
  match obj_value configData "allowed_ips" with
  | Some (JString v) => Some (Some (obj_insert configData "allowed_ips" (Some (ips_json v))))
  | None => from_line "AllowedIPs" "allowed_ips" ips_json configData
  | Some _ => Some None
  end.

Definition fill_keep_alive (configData : QJsonObject) : option (option QJsonObject) :=
  match obj_value configData "persistent_keep_alive" with
  | None => from_line "PersistentKeepalive" "persistent_keep_alive" JString configData
  | Some _ => Some None
  end.

(** A change of the data goes to the configuration as well. *)
Definition filled (key : string) (fill : QJsonObject -> option (option QJsonObject))
    (c : QJsonObject * QJsonObject) : option (QJsonObject * QJsonObject) :=
  match fill c.1 with
  | None => None
  | Some None => Some c
  | Some (Some configData) => Some (configData, obj_insert c.2 key (Some (JObject configData)))
  end.

Definition array_has (text : string) (l : list json) : bool :=
  existsb (fun v => match v with JString s => String.eqb s text | _ => false end) l.

(** The block for WireGuard: the configuration, and whether sites can be split. *)
Definition wireguard_block (o : QJsonObject) : option (bool * QJsonObject) :=
  let protocolName := chars (toString (obj_value o "protocol")) in
  if String.eqb protocolName "awg" || String.eqb protocolName "wireguard" then
    let key := (protocolName ++ "_config_data")%string in
    match filled key fill_allowed_ips (toObject (obj_value o key), o) with
    | None => None
    | Some c1 =>
        match filled key fill_keep_alive c1 with
        | None => None
        | Some (configData, o') =>
            let allowed := toArray (obj_value configData "allowed_ips") in
            Some (array_has "0.0.0.0/0" allowed && array_has "::/0" allowed, o')
        end
    end
  else Some (true, o).

Section Sites.
Context `{Qt}.

(** The address of a site, where the site or what is stored for it is one. *)
Definition site_ip (e : string * string) : option string :=
  if checkIpSubnetFormat e.1 then Some e.1
  else if checkIpSubnetFormat e.2 then Some e.2 else None.

Definition site_ips (m : sitemap) : list string := removeDuplicates [] (omap site_ip m).

(** The mode and the sites of a connection. *)
Definition split_sites (allow : bool) (s : AppSettings) (o : QJsonObject) : Z * list string :=
  if read sitesSplitTunnelingEnabled s then
    let mode := read routeMode s in
    if allow then
      match site_ips (vpnSites mode s) with
      | [] => (VpnAllSites, [])
      | ips =>
          (mode, if mode =? VpnOnlyForwardSites
                 then ips ++ [chars (toString (obj_value o "dns1")); chars (toString (obj_value o "dns2"))]
                 else ips)
      end
    else (mode, [])
  else (VpnAllSites, []).

Definition app_entry (a : InstalledAppInfo) : string :=
  if String.eqb (appPath a) EmptyString then packageName a else appPath a.

Definition split_apps (s : AppSettings) : Z * list string :=
  if read appsSplitTunnelingEnabled s then
    let mode := read appsRouteMode s in
    match map app_entry (vpnApps mode s) with
    | [] => (VpnAllApps, [])
    | apps => (mode, apps)
    end
  else (VpnAllApps, []).

Definition appendSplitTunnelingConfig (s : AppSettings) (o : QJsonObject) : option QJsonObject :=
  match wireguard_block o with
  | None => None
  | Some (allow, o1) =>
      let '(mode, sites) := split_sites allow s o1 in
      let '(appsMode, apps) := split_apps s in
      Some (insert_all o1
        [("splitTunnelType", number mode); ("splitTunnelSites", Some (strings_json sites));
         ("appSplitTunnelType", number appsMode); ("splitTunnelApps", Some (strings_json apps))])
  end.

(** ** Calls of the service *)

Inductive Call :=
| ResetIpStack
| FlushDns
| ClearSavedRoutes
| RouteAddList (gateway : string) (ips : list string)
| RouteDeleteList (gateway : string) (ips : list string)
| LookupHost (site : string)
| RefreshKillSwitch (enabled : bool)
| AfterSecond (calls : list Call).

(** The sites whose names are looked up again. *)
Definition site_names (m : sitemap) : list string :=
  map fst (List.filter (fun e => negb (checkIpSubnetFormat e.1)) m).

Definition addSitesRoutes (gw : string) (mode : Z) (s : AppSettings) : list Call :=
  let m := vpnSites mode s in
  RouteAddList gw (site_ips m) :: map LookupHost (site_names m).

(** The answer of a lookup: routes for a new address, which is stored. *)
Definition site_resolved (gw : string) (mode : Z) (site : string) (ips : list string)
    (addresses : list (bool * string)) (s : AppSettings) : list Call * AppSettings :=
  match List.find fst addresses with
  | Some (_, ip) =>
      if existsb (String.eqb ip) ips then ([FlushDns], s)
      else ([RouteAddList gw [ip]; FlushDns], (addVpnSite mode site ip s).2)
  | None => ([], s)
  end.

(** What the calls depend on: the platform, whether the default server uses WireGuard,
    the configuration, the gateways and the address of the server. *)
Record Surroundings := mkSurroundings {
  on_macos : bool;
  default_is_wireguard : bool;
  config : QJsonObject;
  vpnGateway : string;
  routeGateway : string;
  remoteAddress : string
}.

Definition connected_calls (w : Surroundings) (s : AppSettings) : list Call :=
  let dns := [chars (toString (obj_value (config w) "dns1")); chars (toString (obj_value (config w) "dns2"))] in
  let split := read sitesSplitTunnelingEnabled s in
  let mode := read routeMode s in
  (if negb (on_macos w) || (negb split || negb (mode =? VpnAllExceptSites))
   then [RouteAddList (vpnGateway w) dns] else [])
  ++ (if split then
        [RouteDeleteList (vpnGateway w) ["0.0.0.0"]]
        ++ (if mode =? VpnOnlyForwardSites then [AfterSecond (addSitesRoutes (vpnGateway w) mode s)]
            else if mode =? VpnAllExceptSites then
              [RouteAddList (vpnGateway w) ["0.0.0.0/1"]; RouteAddList (vpnGateway w) ["128.0.0.0/1"];
               RouteAddList (routeGateway w) [remoteAddress w]]
              ++ (if on_macos w then [RouteAddList (routeGateway w) dns] else [])
              ++ addSitesRoutes (routeGateway w) mode s
            else [])
      else []).

Definition onConnectionStateChanged (w : Surroundings) (s : AppSettings) (state : ConnectionState)
  : list Call :=
  match state with
  | Connected =>
      [ResetIpStack; FlushDns] ++ (if default_is_wireguard w then [] else connected_calls w s)
  | Disconnected | Error => [FlushDns; ClearSavedRoutes]
  | _ => []
  end.

Definition onKillSwitchModeChanged (enabled : bool) : list Call := [RefreshKillSwitch enabled].
End Sites.

(** ** States *)

Inductive CSignal :=
| CState (state : ConnectionState)
| CError (code : Z)
| CBytes (received sent : Z).

(** The state is not set by the constructor. *)
Record Connection := mkConnection {
  c_state : option ConnectionState;
  m_vpnProtocol : option Protocol;
  m_vpnConfiguration : QJsonObject;
  m_remoteAddress : string;
  csignals : list CSignal
}.

Definition new_connection : Connection := mkConnection None None [] EmptyString [].

Definition csignal (e : CSignal) (c : Connection) : Connection :=
  mkConnection (c_state c) (m_vpnProtocol c) (m_vpnConfiguration c) (m_remoteAddress c)
    (csignals c ++ [e]).
Definition set_c_state (st : ConnectionState) (c : Connection) : Connection :=
  mkConnection (Some st) (m_vpnProtocol c) (m_vpnConfiguration c) (m_remoteAddress c) (csignals c).
Definition set_protocol (p : option Protocol) (c : Connection) : Connection :=
  mkConnection (c_state c) p (m_vpnConfiguration c) (m_remoteAddress c) (csignals c).
Definition set_configuration (o : QJsonObject) (c : Connection) : Connection :=
  mkConnection (c_state c) (m_vpnProtocol c) o (m_remoteAddress c) (csignals c).
Definition set_remote (a : string) (c : Connection) : Connection :=
  mkConnection (c_state c) (m_vpnProtocol c) (m_vpnConfiguration c) a (csignals c).

Definition is_c_state (st : ConnectionState) (c : Connection) : bool := bool_decide (c_state c = Some st).

Definition c_setConnectionState (state : ConnectionState) (c : Connection) : Connection :=
  if is_in state Disconnected && is_c_state Reconnecting c then c
  else csignal (CState state) (set_c_state state c).

(** A signal of the protocol; [listening] tells whether its errors are connected. *)
Definition receive (listening : bool) (c : Connection) (o : Output) : Connection :=
  match o with
  | StateChanged st => c_setConnectionState st c
  | ProtocolError code => if listening then csignal (CError code) c else c
  | BytesChanged rx tx => csignal (CBytes rx tx) c
  | _ => c
  end.

(** The protocol without the signals that were delivered. *)
Definition silent (p : Protocol) : Protocol :=
  mkProtocol (m_connectionState p) (m_lastError p) (m_timeoutTimer p) (m_receivedBytes p) (m_sentBytes p)
    (m_vpnGateway p) (m_vpnLocalAddress p) (m_rawConfig p) (status_timer p) (m_probe p)
    (m_failureReported p) [].

(** A call of the protocol and its signals. *)
Definition deliver (listening : bool) (p : Protocol) (c : Connection) : Connection :=
  set_protocol (Some (silent p)) (fold_left (receive listening) (outputs p) c).

(** An event of the protocol. *)
Definition protocol_happens (e : PEvent) (c : Connection) : Connection :=
  match m_vpnProtocol c with
  | Some p => deliver true (protocol_event (silent p) e) c
  | None => c
  end.

Definition lastError (c : Connection) : option Z :=
  match m_vpnProtocol c with Some p => m_lastError p | None => Some InternalError end.

(** [stop] and the release of the protocol, whose destructor stops it again. *)
Definition release (listening : bool) (p : Protocol) (c : Connection) : Connection :=
  let c1 := deliver listening (stop (silent p)) c in
  set_protocol None (deliver listening (stop (silent (stop (silent p)))) c1).

Definition disconnectFromVpn (c : Connection) : Connection :=
  match m_vpnProtocol c with
  | None => c_setConnectionState Disconnected c
  | Some p => release true p (c_setConnectionState Disconnecting c)
  end.

Section Connect.
Context `{Qt}.
Variable names : string -> list string.

(** The start of a protocol, and the report of its error. *)
Definition start_protocol (p : Protocol) (c : Connection) : Connection :=
  let '(err, p') := start names (silent p) in
  let c1 := deliver true p' c in
  if negb (err =? NoError) then csignal (CError err) (c_setConnectionState Error c1) else c1.

(** [wireguard] tells whether the factory makes a protocol for the container. *)
Definition connectToVpn (wireguard : bool) (vpnConfiguration : QJsonObject) (s : AppSettings) (c : Connection)
  : option Connection :=
  let c1 := set_configuration vpnConfiguration
              (c_setConnectionState Connecting
                (set_remote (getIPAddress names (chars (toString (obj_value vpnConfiguration "hostName")))) c)) in
  let c2 := match m_vpnProtocol c1 with Some p => release false p c1 | None => c1 end in
  match appendSplitTunnelingConfig s (appendKillSwitchConfig s (m_vpnConfiguration c2)) with
  | None => None
  | Some o =>
      let c3 := set_configuration o c2 in
      Some (if wireguard then start_protocol (new_protocol o) c3 else c_setConnectionState Error c3)
  end.

Definition reconnectToVpn (c : Connection) : Connection :=
  match m_vpnProtocol c with
  | None => c
  | Some p =>
      if negb (is_c_state Connected c) then c
      else
        let c1 := deliver true (stop (silent p)) (c_setConnectionState Reconnecting c) in
        match m_vpnProtocol c1 with
        | Some p1 => start_protocol p1 c1
        | None => c1
        end
  end.
End Connect.

(** ** What the settings mean for the daemon *)

Section Meaning.
Context `{Qt}.

(** An address of a site that is split: the site itself where it is an address or a
    subnet, and what is stored for it otherwise, where that is one. *)
Definition address_of_site (s : AppSettings) (ip : string) : Prop :=
  exists site stored,
    In (site, stored) (vpnSites (read routeMode s) s)
    /\ ip = (if checkIpSubnetFormat site then site else stored) /\ checkIpSubnetFormat ip = true.

(** The text for an application: its path, or its package where it has none. *)
Definition names_app (a : InstalledAppInfo) (text : string) : Prop :=
  (appPath a <> EmptyString -> text = appPath a) /\ (appPath a = EmptyString -> text = packageName a).

(** The addresses and the applications that the settings choose. *)
Record Chosen (s : AppSettings) (ips apps : list string) : Prop := {
  ips_once : NoDup ips;
  ips_of_sites : forall ip, ip ∈ ips <-> read sitesSplitTunnelingEnabled s = true /\ address_of_site s ip;
  apps_of_mode : if read appsSplitTunnelingEnabled s
                 then Forall2 names_app (vpnApps (read appsRouteMode s) s) apps else apps = []
}.

(** The addresses that do not use the tunnel: sites are only split where the
    configuration allows all addresses. *)
Definition around_tunnel (s : AppSettings) (allowed : list json) (ips : list string) : list string :=
  if array_has "0.0.0.0/0" allowed && array_has "::/0" allowed && (read routeMode s =? VpnAllExceptSites)
  then ips else [].

(** The ranges that use it, with the servers for names [dns]. *)
Definition all_ranges : list json := [default_range "0.0.0.0" false; default_range "::" true].

Definition ranges_of_sites (s : AppSettings) (ips dns : list string) : list json :=
  if (read routeMode s =? VpnOnlyForwardSites) && negb (bool_decide (ips = []))
  then map site_range (map JString (ips ++ dns)) else all_ranges.

(** The addresses as a list, the mode and the list of a connection. *)
Definition chosen_ips (s : AppSettings) : list string :=
  if read sitesSplitTunnelingEnabled s then site_ips (vpnSites (read routeMode s) s) else [].

Definition site_mode (s : AppSettings) : Z :=
  match chosen_ips s with [] => VpnAllSites | _ => read routeMode s end.

Definition split_list (s : AppSettings) (dns1 dns2 : QJsonValue) : list string :=
  if site_mode s =? VpnOnlyForwardSites
  then chosen_ips s ++ [chars (toString dns1); chars (toString dns2)] else chosen_ips s.
End Meaning.

(** The place of the data in a configuration. *)
Definition data_key (o : QJsonObject) : string :=
  (chars (toString (obj_value o "protocol")) ++ "_config_data")%string.

Definition is_wireguard (o : QJsonObject) : Prop :=
  chars (toString (obj_value o "protocol")) = "awg"
  \/ chars (toString (obj_value o "protocol")) = "wireguard".

Definition default_ips : list json := [JString "0.0.0.0/0"; JString "::/0"].

(** ** Lemmas *)

(** The fields of a connection. *)
Ltac connection :=
  cbn [c_state m_vpnProtocol m_vpnConfiguration m_remoteAddress csignals csignal set_c_state set_protocol
       set_configuration set_remote] in *.

Lemma stop_outputs (p : Protocol) :
  outputs (stop (silent p))
  = Deactivate :: (if is_in (m_connectionState p) Disconnected then [] else [StateChanged Disconnected]).
Proof.
  unfold stop, stopMzImpl. destruct (is_in (m_connectionState p) Disconnected) eqn:E.
  - unfold on_disconnected, setConnectionState. protocol. cbn [silent m_connectionState]. rewrite E. done.
  - rewrite on_disconnected_outputs; [done|]. protocol. cbn [silent m_connectionState]. intros Hs.
    by rewrite Hs in E.
Qed.

Lemma silent_state (p : Protocol) : m_connectionState (silent p) = m_connectionState p.
Proof. done. Qed.

(** A stopped protocol says nothing when it is stopped again. *)
Lemma stop_again (p : Protocol) : outputs (stop (silent (stop (silent p)))) = [Deactivate].
Proof. rewrite stop_outputs, stop_state. done. Qed.

Lemma release_spec (listening : bool) (p : Protocol) (c : Connection) :
  release listening p c
  = set_protocol None (if is_in (m_connectionState p) Disconnected then c else c_setConnectionState Disconnected c).
Proof.
  unfold release, deliver. rewrite stop_again, stop_outputs. cbn [fold_left receive].
  by destruct (is_in (m_connectionState p) Disconnected).
Qed.

Lemma c_set_other (st : ConnectionState) (c : Connection) :
  st <> Disconnected -> c_setConnectionState st c = csignal (CState st) (set_c_state st c).
Proof. intros Hst. unfold c_setConnectionState, is_in. by rewrite bool_decide_false. Qed.

Lemma c_set_disconnected (c : Connection) :
  c_state c <> Some Reconnecting ->
  c_setConnectionState Disconnected c = csignal (CState Disconnected) (set_c_state Disconnected c).
Proof. intros Hc. unfold c_setConnectionState, is_c_state. by rewrite (bool_decide_false _ Hc), andb_false_r. Qed.

(** The signals of a start that cannot resolve the name of its server. *)
Lemma start_fails `{Qt} (names : string -> list string) (p : Protocol) :
  m_connectionState p <> Connecting -> (resolve_config names (m_rawConfig p)).1 <> NoError ->
  exists p', start names (silent p) = ((resolve_config names (m_rawConfig p)).1, p')
    /\ m_connectionState p' = Disconnected
    /\ outputs p' = [StateChanged Connecting; StateChanged Error;
                     ProtocolError (resolve_config names (m_rawConfig p)).1; Deactivate;
                     StateChanged Disconnected].
Proof.
  intros Hs Hc. unfold start, startMzImpl.
  destruct (setConnectionState_rest Connecting (set_reported false (silent p))) as (_ & Hf & Hr & _).
  rewrite Hr. protocol. cbn [silent m_rawConfig].
  destruct (resolve_config names (m_rawConfig p)) as [code o]. cbn [fst] in *.
  assert (Hc' := Hc). apply Z.eqb_neq in Hc'. rewrite Hc'. cbn [negb]. eexists. split; [done|]. split.
  - apply failConnection_state. protocol. by rewrite Hf.
  - rewrite failConnection_outputs; protocol; rewrite ?Hf, ?setConnectionState_to; try done.
    rewrite setConnectionState_outputs by done. done.
Qed.

Lemma start_works `{Qt} (names : string -> list string) (p : Protocol) :
  m_connectionState p <> Connecting -> (resolve_config names (m_rawConfig p)).1 = NoError ->
  exists p', start names (silent p) = (NoError, p') /\ m_connectionState p' = Connecting
    /\ outputs p' = [StateChanged Connecting; Activate (resolve_config names (m_rawConfig p)).2].
Proof.
  intros Hs Hc. unfold start, startMzImpl.
  destruct (setConnectionState_rest Connecting (set_reported false (silent p))) as (_ & _ & Hr & _).
  rewrite Hr. protocol. cbn [silent m_rawConfig].
  destruct (resolve_config names (m_rawConfig p)) as [code o]. cbn [fst snd] in *. subst code.
  change (NoError =? NoError) with true. cbn [negb]. eexists. split; [done|]. split.
  - by apply setConnectionState_to.
  - protocol. by rewrite setConnectionState_outputs.
Qed.

Lemma stop_config (p : Protocol) : m_rawConfig (stop (silent p)) = m_rawConfig p.
Proof.
  unfold stop, stopMzImpl, on_disconnected.
  match goal with |- context[setConnectionState Disconnected ?q] =>
    destruct (setConnectionState_rest Disconnected q) as (_ & _ & -> & _) end. done.
Qed.

(** A start of a protocol that is at rest, as the connection tells it. *)
Lemma start_protocol_works `{Qt} (names : string -> list string) (p : Protocol) (c : Connection) :
  m_connectionState p <> Connecting -> (resolve_config names (m_rawConfig p)).1 = NoError ->
  let c' := start_protocol names p c in
  c_state c' = Some Connecting /\ csignals c' = csignals c ++ [CState Connecting]
  /\ exists p', m_vpnProtocol c' = Some p' /\ m_connectionState p' = Connecting.
Proof.
  intros Hs Hr. unfold start_protocol. destruct (start_works names p Hs Hr) as (p' & -> & Hp' & Ho).
  change (negb (NoError =? NoError)) with false. cbv iota. unfold deliver. rewrite Ho.
  cbn [fold_left receive]. rewrite c_set_other by done. split_and!; [done..|]. by exists (silent p').
Qed.

Lemma filled_value (key k : string) (fill : QJsonObject -> option (option QJsonObject))
    (c c' : QJsonObject * QJsonObject) :
  filled key fill c = Some c' -> key <> k -> obj_value c'.2 k = obj_value c.2 k.
Proof.
  unfold filled. intros Hf Hk. destruct (fill c.1) as [[d|]|]; simplify_eq; [|done].
  cbn [snd]. by rewrite obj_value_insert, (proj2 (String.eqb_neq _ _) Hk).
Qed.

(** The data of a configuration keep the rest when the interval is filled in. *)
Lemma keep_alive_rest (d d' : QJsonObject) (k : string) :
  fill_keep_alive d = Some (Some d') -> "persistent_keep_alive" <> k -> obj_value d' k = obj_value d k.
Proof.
  unfold fill_keep_alive, from_line. destruct (obj_value d "persistent_keep_alive"); [done|].
  destruct (line_value _ _) as [[v|]|]; [|done..]. intros E Hk. apply (inj Some), (inj Some) in E as <-.
  by rewrite obj_value_insert, (proj2 (String.eqb_neq _ _) Hk).
Qed.

(** Sites can be split where all addresses are allowed; the configuration keeps what
    the message of an activation is made of. *)
Lemma wireguard_block_array (o : QJsonObject) (allowed : list json) :
  is_wireguard o -> obj_value (wg_config o) "allowed_ips" = Some (JArray allowed) ->
  fill_keep_alive (wg_config o) <> None ->
  exists o1, wireguard_block o = Some (array_has "0.0.0.0/0" allowed && array_has "::/0" allowed, o1)
    /\ (forall k, "persistent_keep_alive" <> k -> obj_value (wg_config o1) k = obj_value (wg_config o) k)
    /\ (forall k, data_key o <> k -> obj_value o1 k = obj_value o k).
Proof.
  intros Hw Ha Hk. unfold wireguard_block. fold (data_key o).
  assert (Hp : data_key o <> "protocol").
  { unfold data_key. by destruct Hw as [-> | ->]. }
  replace (_ || _) with true by (destruct Hw as [-> | ->]; done).
  change (toObject (obj_value o (data_key o))) with (wg_config o).
  assert (filled (data_key o) fill_allowed_ips (wg_config o, o) = Some (wg_config o, o)) as ->.
  { unfold filled, fill_allowed_ips. cbn [fst]. by rewrite Ha. }
  unfold filled. cbn [fst snd].
  destruct (fill_keep_alive (wg_config o)) as [[d|]|] eqn:E; [| |done].
  - exists (obj_insert o (data_key o) (Some (JObject d))).
    assert (Hd : wg_config (obj_insert o (data_key o) (Some (JObject d))) = d).
    { unfold wg_config. rewrite (obj_value_insert _ _ "protocol"), (proj2 (String.eqb_neq _ _) Hp).
      fold (data_key o). by rewrite obj_value_insert, String.eqb_refl. }
    split_and!.
    + rewrite (keep_alive_rest _ _ _ E), Ha by done. done.
    + intros k Hk'. rewrite Hd. by apply keep_alive_rest.
    + intros k Hk'. by rewrite obj_value_insert, (proj2 (String.eqb_neq _ _) Hk').
  - exists o. rewrite Ha. done.
Qed.

Lemma split_sites_chosen `{Qt} (s : AppSettings) (o : QJsonObject) :
  split_sites true s o = (site_mode s, split_list s (obj_value o "dns1") (obj_value o "dns2")).
Proof.
  unfold split_sites, split_list, site_mode, chosen_ips. destruct (read sitesSplitTunnelingEnabled s); [|done].
  by destruct (site_ips _).
Qed.

Lemma site_mode_range `{Qt} (s : AppSettings) : 0 <= read routeMode s <= 2 -> 0 <= site_mode s <= 2.
Proof. unfold site_mode. by destruct (chosen_ips s). Qed.

Lemma removeDuplicates_spec (l seen : list string) :
  NoDup (removeDuplicates seen l)
  /\ forall x, x ∈ removeDuplicates seen l <-> x ∈ l /\ x ∉ seen.
Proof.
  revert seen. induction l as [|y l IH]; intros seen; cbn [removeDuplicates].
  { split; [constructor|]. intros x. split; [by intros ?%elem_of_nil | by intros [?%elem_of_nil _]]. }
  assert (Hy : existsb (String.eqb y) seen = true <-> y ∈ seen).
  { rewrite existsb_exists. split.
    - intros (z & Hz & <-%String.eqb_eq). by apply list_elem_of_In.
    - intros Hz. exists y. by rewrite String.eqb_refl, <- list_elem_of_In. }
  destruct (existsb (String.eqb y) seen).
  - destruct (IH seen) as [Hn Hin]. split; [done|]. intros x. rewrite Hin, elem_of_cons.
    pose proof (proj1 Hy eq_refl). naive_solver.
  - destruct (IH (y :: seen)) as [Hn Hin]. assert (Hy' : y ∉ seen) by (intros ?%Hy; done).
    split; [constructor; [rewrite Hin, elem_of_cons; naive_solver|done]|].
    intros x. rewrite elem_of_cons, Hin, !elem_of_cons. destruct (decide (x = y)); naive_solver.
Qed.

Lemma site_ip_spec `{Qt} (e : string * string) (ip : string) :
  site_ip e = Some ip
  <-> ip = (if checkIpSubnetFormat e.1 then e.1 else e.2) /\ checkIpSubnetFormat ip = true.
Proof.
  unfold site_ip. destruct (checkIpSubnetFormat e.1) eqn:E1.
  - split; [by intros [= <-] | by intros [-> _]].
  - destruct (checkIpSubnetFormat e.2) eqn:E2.
    + split; [by intros [= <-] | by intros [-> _]].
    + split; [done|]. intros [-> E3]. congruence.
Qed.

(** What the code chooses is what the settings mean. *)
Lemma code_chooses `{Qt} (s : AppSettings) : Chosen s (chosen_ips s) (split_apps s).2.
Proof.
  unfold chosen_ips. destruct (removeDuplicates_spec (omap site_ip (vpnSites (read routeMode s) s)) [])
    as [Hn Hin]. split.
  - destruct (read sitesSplitTunnelingEnabled s); [exact Hn | constructor].
  - intros ip. destruct (read sitesSplitTunnelingEnabled s).
    + unfold site_ips. rewrite Hin, list_elem_of_omap. unfold address_of_site. split.
      * intros [([site stored] & He & Hs%site_ip_spec) _]. split; [done|]. exists site, stored.
        by rewrite <- list_elem_of_In.
      * intros (_ & site & stored & He & Hs). split; [|by intros ?%elem_of_nil].
        exists (site, stored). by rewrite list_elem_of_In, site_ip_spec.
    + split; [by intros ?%elem_of_nil | by intros [? _]].
  - unfold split_apps. destruct (read appsSplitTunnelingEnabled s); [|done].
    assert (Hl : forall l, Forall2 names_app l (map app_entry l)).
    { intros l. induction l as [|a l IH]; constructor; [|exact IH]. unfold names_app, app_entry.
      destruct (String.eqb_spec (appPath a) EmptyString); done. }
    specialize (Hl (vpnApps (read appsRouteMode s) s)). by destruct (map app_entry _).
Qed.

Lemma strings_texts (l : list string) :
  map (fun v => JString (chars (toString (Some v)))) (map JString l) = map JString l.
Proof. by rewrite map_map. Qed.

Lemma split_sites_range `{Qt} (allow : bool) (s : AppSettings) (o : QJsonObject) :
  0 <= read routeMode s <= 2 -> 0 <= (split_sites allow s o).1 <= 2.
Proof.
  intros Hm. unfold split_sites. destruct (read sitesSplitTunnelingEnabled s); [|done].
  destruct allow; [|done]. by destruct (site_ips _).
Qed.

(** The addresses around the tunnel and the ranges through it, of a configuration
    where sites can be split and of one where they cannot. *)
Lemma excluded_meaning `{Qt} (s : AppSettings) (o : QJsonObject) (allowed : list json) (host : QJsonValue) :
  let '(mode, sites) := split_sites (array_has "0.0.0.0/0" allowed && array_has "::/0" allowed) s o in
  excluded_addresses host (map JString sites) mode
  = default JNull host :: map JString (around_tunnel s allowed (chosen_ips s)).
Proof.
  unfold around_tunnel. destruct (_ && array_has "::/0" allowed).
  - rewrite split_sites_chosen. unfold excluded_addresses, split_list, site_mode. rewrite strings_texts.
    cbn [andb]. destruct (chosen_ips s) as [|ip ips]; [by destruct (read routeMode s =? _)|].
    change (read routeMode s =? 2) with (read routeMode s =? VpnAllExceptSites).
    destruct (Z.eqb_spec (read routeMode s) VpnAllExceptSites) as [->|Hm]; done.
  - unfold split_sites, excluded_addresses. destruct (read sitesSplitTunnelingEnabled s); cbn [map andb];
      by destruct (_ =? 2).
Qed.

Lemma ranges_meaning `{Qt} (s : AppSettings) (o : QJsonObject) :
  0 <= read routeMode s <= 2 ->
  let '(mode, sites) := split_sites true s o in
  allowed_ranges default_ips (map JString sites) mode
  = ranges_of_sites s (chosen_ips s) [chars (toString (obj_value o "dns1")); chars (toString (obj_value o "dns2"))].
Proof.
  intros Hm. rewrite split_sites_chosen. unfold allowed_ranges, ranges_of_sites, split_list, site_mode.
  destruct (chosen_ips s) as [|ip ips]; [by rewrite andb_false_r|].
  assert (read routeMode s = 0 \/ read routeMode s = 1 \/ read routeMode s = 2) as [-> | [-> | ->]] by lia; done.
Qed.

Lemma ranges_own (allowed sites : list json) (mode : Z) :
  allowed <> default_ips -> allowed <> [] -> allowed_ranges allowed sites mode = map site_range allowed.
Proof.
  intros Hd Hn. unfold allowed_ranges. destruct allowed as [|a l]; [done|]. cbn [no_ips negb].
  destruct (is_default_ips (a :: l)) eqn:E; [|done]. exfalso. apply Hd.
  destruct a as [| | |x| |], l as [|[| | |y| |] [|]]; try discriminate E.
  apply andb_true_iff in E as [->%String.eqb_eq ->%String.eqb_eq]. done.
Qed.

Lemma ranges_none `{Qt} (s : AppSettings) (o : QJsonObject) :
  0 <= read routeMode s <= 2 ->
  let '(mode, sites) := split_sites false s o in
  allowed_ranges [] (map JString sites) mode
  = if read sitesSplitTunnelingEnabled s && (read routeMode s =? VpnOnlyForwardSites) then [] else all_ranges.
Proof.
  intros Hm. unfold split_sites. destruct (read sitesSplitTunnelingEnabled s); [|done].
  assert (read routeMode s = 0 \/ read routeMode s = 1 \/ read routeMode s = 2) as [-> | [-> | ->]] by lia; done.
Qed.

(** The settings are added beside the data. *)
Lemma data_key_other (o : QJsonObject) (k : string) :
  is_wireguard o -> k <> "awg_config_data" -> k <> "wireguard_config_data" -> data_key o <> k.
Proof. intros [Hw|Hw] H1 H2; unfold data_key; rewrite Hw; intros <-; by (apply H1 || apply H2). Qed.

Lemma wg_config_same (o o' : QJsonObject) :
  obj_value o' "protocol" = obj_value o "protocol" -> obj_value o' (data_key o) = obj_value o (data_key o) ->
  wg_config o' = wg_config o.
Proof. unfold wg_config, data_key. by intros -> ->. Qed.

Lemma inserted_config (o : QJsonObject) (l : list (string * QJsonValue)) :
  (forall v, last_value l "protocol" v = v) -> (forall v, last_value l (data_key o) v = v) ->
  wg_config (insert_all o l) = wg_config o.
Proof. intros H1 H2. by apply wg_config_same; rewrite obj_value_insert_all. Qed.

(** What the message of an activation takes from the settings that are added. *)
Lemma message_of_settings (o : QJsonObject) (mode appsMode : Z) (sites apps : list string) :
  is_wireguard o -> - 2 ^ 31 <= mode < 2 ^ 31 ->
  let o' := insert_all o
    [("splitTunnelType", number mode); ("splitTunnelSites", Some (strings_json sites));
     ("appSplitTunnelType", number appsMode); ("splitTunnelApps", Some (strings_json apps))] in
  let value k := obj_value (activate_message o') k in
  value "excludedAddresses"
  = Some (JArray (excluded_addresses (obj_value (wg_config o) "hostName") (map JString sites) mode))
  /\ value "allowedIPAddressRanges"
     = Some (JArray (allowed_ranges (toArray (obj_value (wg_config o) "allowed_ips")) (map JString sites) mode))
  /\ value "vpnDisabledApps" = Some (strings_json apps)
  /\ value "appSplitTunnelType" = None
  /\ value "allowedDnsServers" = Some (JArray (toArray (obj_value o "allowedDnsServers")))
  /\ value "killSwitchOption" = obj_value o "killSwitchOption".
Proof.
  intros Hw Hm o' value.
  assert (Hc : wg_config o' = wg_config o).
  { apply inserted_config; [done|]. intros v. unfold data_key. by destruct Hw as [-> | ->]. }
  assert (Ht : toInt (obj_value o' "splitTunnelType") = mode).
  { unfold o'. rewrite obj_value_insert_all. by apply toInt_number. }
  assert (Hs : toArray (obj_value o' "splitTunnelSites") = map JString sites).
  { unfold o'. by rewrite obj_value_insert_all. }
  assert (Ha : toArray (obj_value o' "splitTunnelApps") = map JString apps).
  { unfold o'. by rewrite obj_value_insert_all. }
  assert (Hd : obj_value o' "allowedDnsServers" = obj_value o "allowedDnsServers") by apply obj_value_insert_all.
  assert (Hk : obj_value o' "killSwitchOption" = obj_value o "killSwitchOption") by apply obj_value_insert_all.
  clearbody o'.
  split_and!; unfold value; rewrite message_value; unfold activate_entries, junk_entries;
    rewrite Hc, Ht, Hs, Ha, Hd, Hk; repeat (case_match; [|]); reflexivity.
Qed.

(** ** Theorems *)

(** Closing a connection.  The protocol is always released.  Where it was running,
    the client hears that it is disconnecting and then that it is disconnected; where
    it had already stopped by itself, as after a failure, nothing follows the first
    and the client stays disconnecting. *)
Theorem disconnect_tells (p : Protocol) (c : Connection) :
  m_vpnProtocol c = Some p ->
  let c' := disconnectFromVpn c in
  m_vpnProtocol c' = None
  /\ if is_in (m_connectionState p) Disconnected
     then c_state c' = Some Disconnecting /\ csignals c' = csignals c ++ [CState Disconnecting]
     else c_state c' = Some Disconnected
          /\ csignals c' = csignals c ++ [CState Disconnecting; CState Disconnected].
Proof.
  intros Hp. unfold disconnectFromVpn. rewrite Hp, release_spec, c_set_other by done. split; [done|].
  destruct (is_in (m_connectionState p) Disconnected); [done|].
  rewrite c_set_disconnected by done. connection. by rewrite <- app_assoc.
Qed.

(** A connection that is renewed does not say in between that it is disconnected:
    what the client hears is that it is reconnecting and then connecting again. *)
Theorem reconnect_hides_stop `{Qt} (names : string -> list string) (p : Protocol) (c : Connection) :
  m_vpnProtocol c = Some p -> c_state c = Some Connected -> m_connectionState p = Connected ->
  (resolve_config names (m_rawConfig p)).1 = NoError ->
  let c' := reconnectToVpn names c in
  c_state c' = Some Connecting /\ csignals c' = csignals c ++ [CState Reconnecting; CState Connecting]
  /\ exists p', m_vpnProtocol c' = Some p' /\ m_connectionState p' = Connecting.
Proof.
  intros Hp Hc Hs Hr. unfold reconnectToVpn. rewrite Hp. unfold is_c_state. rewrite bool_decide_true by done.
  cbn [negb]. rewrite c_set_other by done. unfold deliver. rewrite stop_outputs, Hs.
  change (is_in Connected Disconnected) with false. cbn [fold_left receive].
  set (c1 := set_protocol _ _). assert (Hc1 : csignals c1 = csignals c ++ [CState Reconnecting]) by done.
  change (m_vpnProtocol c1) with (Some (silent (stop (silent p)))). cbv iota.
  destruct (start_protocol_works names (silent (stop (silent p))) c1) as (A & B & D).
  - by rewrite silent_state, stop_state.
  - cbn [silent m_rawConfig]. by rewrite stop_config.
  - split_and!; [exact A | by rewrite B, Hc1, <- app_assoc | exact D].
Qed.

(** A connection whose server has no address fails at once, and the failure is told
    twice: by the signals of the protocol and again by the code that it returns. *)
Theorem start_failure_told_twice `{Qt} (names : string -> list string) (p : Protocol) (c : Connection) :
  m_connectionState p <> Connecting -> c_state c = Some Connecting ->
  (resolve_config names (m_rawConfig p)).1 = AddressPoolError ->
  let c' := start_protocol names p c in
  c_state c' = Some Error
  /\ csignals c' = csignals c ++ [CState Connecting; CState Error; CError AddressPoolError;
                                  CState Disconnected; CState Error; CError AddressPoolError].
Proof.
  intros Hs Hc Hr. unfold start_protocol.
  destruct (start_fails names p Hs) as (p' & -> & _ & Ho); [by rewrite Hr|]. rewrite Hr in *.
  change (negb (AddressPoolError =? NoError)) with true. cbv iota. unfold deliver. rewrite Ho.
  cbn [fold_left receive]. rewrite !(c_set_other Connecting), !(c_set_other Error) by done.
  rewrite c_set_disconnected by done. connection. split; [done|]. by rewrite <- !app_assoc.
Qed.

(** C11: from the settings to the daemon, for a WireGuard or AmneziaWG configuration
    whose allowed addresses are an array (and whose interval, if it has to be read from
    its text, can be), with one of the three modes of sites stored.  The addresses [ips] of the sites and the names [apps] of the
    applications are those of the modes that are chosen.  In the message that activates
    the daemon, the server and, where all except the sites use the tunnel, the sites go
    around it, the latter only if the configuration allows all addresses.  What goes
    through it is: for a configuration with exactly the two default ranges the sites
    and the servers for names, where only they use the tunnel and there is one, and
    everything otherwise; for one with other ranges those, whatever the settings; for
    one with none everything, or nothing where only sites use the tunnel.  The
    applications are sent as those that do not use the tunnel whatever their mode,
    which is not sent; the servers for names that are allowed and the kill switch are
    those of the settings. *)
Theorem split_settings_reach_daemon `{Qt} (s : AppSettings) (o : QJsonObject) (allowed : list json) :
  is_wireguard o -> obj_value (wg_config o) "allowed_ips" = Some (JArray allowed) ->
  fill_keep_alive (wg_config o) <> None -> 0 <= read routeMode s <= 2 ->
  exists o2 ips apps ranges,
    appendSplitTunnelingConfig s (appendKillSwitchConfig s o) = Some o2 /\ Chosen s ips apps
    /\ obj_value (activate_message o2) "excludedAddresses"
       = Some (JArray (default JNull (obj_value (wg_config o) "hostName")
                       :: map JString (around_tunnel s allowed ips)))
    /\ obj_value (activate_message o2) "allowedIPAddressRanges" = Some (JArray ranges)
    /\ (allowed = default_ips ->
        ranges = ranges_of_sites s ips [chars (toString (obj_value o "dns1")); chars (toString (obj_value o "dns2"))])
    /\ (allowed <> default_ips -> allowed <> [] -> ranges = map site_range allowed)
    /\ (allowed = [] ->
        ranges = if read sitesSplitTunnelingEnabled s && (read routeMode s =? VpnOnlyForwardSites)
                 then [] else all_ranges)
    /\ obj_value (activate_message o2) "vpnDisabledApps" = Some (strings_json apps)
    /\ obj_value (activate_message o2) "appSplitTunnelType" = None
    /\ obj_value (activate_message o2) "allowedDnsServers" = Some (strings_json (read allowedDnsServers s))
    /\ obj_value (activate_message o2) "killSwitchOption"
       = Some (JString (if read killSwitchEnabled s then "true" else "false")).
Proof.
  intros Hw Ha Hk Hm. set (o0 := appendKillSwitchConfig s o).
  assert (Hw0 : is_wireguard o0) by (unfold is_wireguard, o0, appendKillSwitchConfig; by rewrite !obj_value_insert).
  assert (Hc : wg_config o0 = wg_config o).
  { unfold o0, appendKillSwitchConfig. apply wg_config_same; rewrite !obj_value_insert; [done|].
    unfold data_key. by destruct Hw as [-> | ->]. }
  destruct (wireguard_block_array o0 allowed) as (o1 & Hb & Hd & Ho); [done|by rewrite Hc..|].
  assert (Hw1 : is_wireguard o1) by (unfold is_wireguard; by rewrite Ho by (by apply data_key_other)).
  assert (H1 : obj_value o1 "dns1" = obj_value o "dns1")
    by (rewrite Ho by (by apply data_key_other); unfold o0, appendKillSwitchConfig; by rewrite !obj_value_insert).
  assert (H2 : obj_value o1 "dns2" = obj_value o "dns2")
    by (rewrite Ho by (by apply data_key_other); unfold o0, appendKillSwitchConfig; by rewrite !obj_value_insert).
  unfold appendSplitTunnelingConfig. rewrite Hb.
  pose proof (code_chooses s) as Hch. destruct (split_apps s) as [appsMode apps]. cbn [snd] in Hch.
  pose proof (excluded_meaning s o1 allowed (obj_value (wg_config o) "hostName")) as He'.
  pose proof (ranges_meaning s o1 Hm) as Hr1. pose proof (ranges_none s o1 Hm) as Hr2.
  pose proof (split_sites_range (array_has "0.0.0.0/0" allowed && array_has "::/0" allowed) s o1 Hm) as Hmode.
  destruct (split_sites (array_has "0.0.0.0/0" allowed && array_has "::/0" allowed) s o1) as [mode sites] eqn:Es.
  destruct (message_of_settings o1 mode appsMode sites apps Hw1) as (He & Hr & Hp & Ht & Hn & Hs);
    [cbn [fst] in Hmode; lia|].
  eexists _, (chosen_ips s), apps, _. split; [done|]. split; [done|].
  rewrite He, Hr, Hp, Ht, Hn, Hs, !Hd, !Ho, Hc, Ha, He' by (done || by apply data_key_other).
  unfold o0, appendKillSwitchConfig. rewrite !obj_value_insert. split_and!; try done.
  - intros ->. cbn in Es. rewrite Es, H1, H2 in Hr1. exact Hr1.
  - intros. by apply ranges_own.
  - intros ->. cbn in Es. by rewrite Es in Hr2.
Qed.

(** ** Witnesses *)

#[local] Existing Instance example_qt.

Definition example_connection : Connection :=
  mkConnection (Some Connected) (Some (setConnectionState Connected example_protocol)) [] EmptyString [].

Lemma disconnect_tells_witness :
  csignals (disconnectFromVpn example_connection) = [CState Disconnecting; CState Disconnected].
Proof.
  by apply (disconnect_tells (setConnectionState Connected example_protocol) example_connection).
Defined.

Lemma reconnect_hides_stop_witness :
  csignals (reconnectToVpn example_names example_connection)
  = [CState Reconnecting; CState Connecting].
Proof.
  apply (reconnect_hides_stop example_names (setConnectionState Connected example_protocol)
           example_connection); by vm_compute.
Defined.

Lemma start_failure_told_twice_witness :
  csignals (start_protocol (fun _ => []) example_protocol
              (c_setConnectionState Connecting new_connection))
  = [CState Connecting; CState Connecting; CState Error; CError AddressPoolError;
     CState Disconnected; CState Error; CError AddressPoolError].
Proof.
  by apply (start_failure_told_twice (fun _ => []) example_protocol
              (c_setConnectionState Connecting new_connection)).
Defined.

(** Settings where one site goes around the tunnel. *)
Definition example_settings : AppSettings :=
  setSitesSplitTunnelingEnabled true
    (addVpnSite VpnAllExceptSites "203.0.113.1/24" EmptyString
      (setRouteMode VpnAllExceptSites (mkAppSettings ∅ EmptyString []))).2.

Definition example_config : QJsonObject :=
  [("protocol", JString "awg"); ("dns1", JString "1.1.1.1"); ("dns2", JString "1.0.0.1");
   ("awg_config_data",
    JObject [("allowed_ips", JArray default_ips); ("persistent_keep_alive", JString "25");
             ("hostName", JString "192.0.2.1")])].

Lemma split_settings_reach_daemon_witness :
  address_of_site example_settings "203.0.113.1/24"
  /\ exists o around,
    appendSplitTunnelingConfig example_settings (appendKillSwitchConfig example_settings example_config) = Some o
    /\ obj_value (activate_message o) "excludedAddresses" = Some (JArray (JString "192.0.2.1" :: map JString around))
    /\ "203.0.113.1/24" ∈ around.
Proof.
  assert (H : address_of_site example_settings "203.0.113.1/24").
  { exists "203.0.113.1/24", EmptyString. split_and!; [by left | by vm_compute..]. }
  split; [done|].
  destruct (split_settings_reach_daemon example_settings example_config default_ips)
    as (o & ips & apps & ranges & Ho & Hc & He & _); [by left | done | done | by split; vm_compute |].
  exists o, ips. split; [done|]. split; [exact He|]. by apply (ips_of_sites _ _ _ Hc).
Defined.
