(* ===== verification/ServersRepository.v ===== *)
(** * The list of servers

    client/core/repositories/secureServersRepository.cpp with
    client/core/utils/serverConfigUtils.cpp: the configured servers by number, their
    order, the default one, and their storage in the settings.  The text of JSON,
    new numbers and the addresses that the build configures are parameters. *)

From stdpp Require Import base numbers list strings gmap pretty.
From Stdlib Require Import ZArith Lia Strings.String Strings.Ascii.
From S2P Require Import Prelude Json Config Framing SecureSettings.
Open Scope string_scope.
Open Scope list_scope.
Open Scope Z_scope.

(** ** Kinds of configurations *)

Inductive ConfigType :=
| AmneziaFreeV2 | AmneziaFreeV3 | AmneziaPremiumV1 | AmneziaPremiumV2 | SelfHosted
| ExternalPremium | SelfHostedAdmin | SelfHostedUser | Native | Invalid.

#[export] Instance ConfigType_eq_dec : EqDecision ConfigType.
Proof. solve_decision. Defined.

Definition kind_number (k : ConfigType) : Z :=
  match k with
  | AmneziaFreeV2 => 0 | AmneziaFreeV3 => 1 | AmneziaPremiumV1 => 2 | AmneziaPremiumV2 => 3
  | SelfHosted => 4 | ExternalPremium => 5 | SelfHostedAdmin => 8 | SelfHostedUser => 9
  | Native => 10 | Invalid => 11
  end.

Definition Telegram : Z := 1.
Definition AmneziaGateway : Z := 2.

(** [QJsonDocument::fromJson] and [toJson] of an array, and the addresses of the build. *)
Class Storage := {
  parse_text : string -> option json;
  array_text : list json -> string;
  FREE_V2_ENDPOINT : string;
  PREM_V1_ENDPOINT : string
}.

Definition json_toBool (v : QJsonValue) : bool := match v with Some (JBool b) => b | _ => false end.

(** [toString] of a value of an object. *)
Definition field (o : QJsonObject) (key : string) : string := chars (toString (obj_value o key)).

Definition third_party_protocol (e : string * json) : bool :=
  negb (String.eqb e.1 "container")
  && (obj_contains (toObject (Some e.2)) "isThirdPartyConfig"
      && json_toBool (obj_value (toObject (Some e.2)) "isThirdPartyConfig")).

Definition hasThirdPartyConfig (o : QJsonObject) : bool :=
  existsb (fun v => existsb third_party_protocol (toObject (Some v)))
    (toArray (obj_value o "containers")).

(** [SelfHostedAdminServerConfig::fromJson(json).hasCredentials()]. *)
Definition hasCredentials (o : QJsonObject) : bool :=
  negb (String.eqb (field o "userName") EmptyString)
  && negb (String.eqb (field o "password") EmptyString)
  && (0 <? if obj_contains o "port" then toInt (obj_value o "port") else 0).

Definition isApiV2Subscription (k : ConfigType) : bool :=
  match k with AmneziaPremiumV2 | AmneziaFreeV3 | ExternalPremium => true | _ => false end.

Definition isLegacyApiSubscription (k : ConfigType) : bool :=
  match k with AmneziaPremiumV1 | AmneziaFreeV2 => true | _ => false end.

Section Servers.
Context `{Storage}.

(** The service that the gateway names. *)
Definition gateway_type (o : QJsonObject) : option ConfigType :=
  let serviceType := field (toObject (obj_value o "api_config")) "service_type" in
  if String.eqb serviceType "amnezia-premium" then Some AmneziaPremiumV2
  else if String.eqb serviceType "amnezia-free" then Some AmneziaFreeV3
  else if String.eqb serviceType "external-premium" then Some ExternalPremium
  else None.

Definition source_type (o : QJsonObject) : option ConfigType :=
  let configVersion := toInt (obj_value o "config_version") in
  if configVersion =? Telegram then
    let apiEndpoint := field o "api_endpoint" in
    if contains_text PREM_V1_ENDPOINT apiEndpoint then Some AmneziaPremiumV1
    else if contains_text FREE_V2_ENDPOINT apiEndpoint then Some AmneziaFreeV2
    else gateway_type o
  else if configVersion =? AmneziaGateway then gateway_type o
  else None.

Definition configTypeFromJson (o : QJsonObject) : ConfigType :=
  match source_type o with
  | Some k => k
  | None =>
      if hasThirdPartyConfig o then Native
      else if hasCredentials o then SelfHostedAdmin else SelfHostedUser
  end.

(** ** State *)

Inductive ServerSignal :=
| ServerAdded (serverId : string)
| ServerEdited (serverId : string)
| ServerRemoved (serverId : string) (removedIndex : Z)
| DefaultServerChanged (serverId : string).

Record Servers := mkServers {
  settings : gmap string QVariant;
  m_serverJsonById : gmap string QJsonObject;
  m_orderedServerIds : list string;
  m_defaultServerId : string;
  emitted : list ServerSignal
}.

Definition with_default (id : string) (s : Servers) : Servers :=
  mkServers (settings s) (m_serverJsonById s) (m_orderedServerIds s) id (emitted s).
Definition with_servers (byId : gmap string QJsonObject) (ids : list string) (s : Servers) : Servers :=
  mkServers (settings s) byId ids (m_defaultServerId s) (emitted s).
Definition setValue (key : string) (v : QVariant) (s : Servers) : Servers :=
  mkServers (<[key := v]> (settings s)) (m_serverJsonById s) (m_orderedServerIds s)
    (m_defaultServerId s) (emitted s).
Definition emit (e : ServerSignal) (s : Servers) : Servers :=
  mkServers (settings s) (m_serverJsonById s) (m_orderedServerIds s) (m_defaultServerId s)
    (emitted s ++ [e]).

Definition known (id : string) (s : Servers) : bool :=
  match m_serverJsonById s !! id with Some _ => true | None => false end.

(** [indexOf]: -1 where there is none. *)
Fixpoint index_of (id : string) (l : list string) : Z :=
  match l with
  | [] => -1
  | x :: l' => if String.eqb x id then 0
               else let i := index_of id l' in if i <? 0 then -1 else i + 1
  end.

Definition indexOfServerId (id : string) (s : Servers) : Z := index_of id (m_orderedServerIds s).

Definition contains_id (id : string) (l : list string) : bool := existsb (String.eqb id) l.

Definition first_id (l : list string) : string := default EmptyString (head l).

(** ** Numbers in configurations *)

Definition storageServerId : string := "storageServerId".
Definition readStorageServerId (o : QJsonObject) : string := trimmed (field o storageServerId).
Definition withoutStorageServerId (o : QJsonObject) : QJsonObject := obj_remove o storageServerId.
Definition embedStorageServerId (id : string) (o : QJsonObject) : QJsonObject :=
  obj_insert o storageServerId (Some (JString id)).

(** [createUuid] is the text of a new number. *)
Definition normalizedOrGeneratedServerId (createUuid candidateId : string) (s : Servers) : string :=
  let t := trimmed candidateId in
  if negb (String.eqb t EmptyString) && negb (known t s) then t else createUuid.

(** ** Loading *)

Definition updateDefaultServerFromStorage (s : Servers) : Servers :=
  let storedDefaultId := var_toString (default (VString EmptyString) (settings s !! "Servers/defaultServerId")) in
  if negb (String.eqb storedDefaultId EmptyString) && known storedDefaultId s
  then with_default storedDefaultId s
  else
    let storedDefaultIndex := var_toInt (default (VInt 0) (settings s !! "Servers/defaultServerIndex")) in
    let ids := m_orderedServerIds s in
    if (0 <=? storedDefaultIndex) && (storedDefaultIndex <? Z.of_nat (List.length ids))
    then with_default (nth (Z.to_nat storedDefaultIndex) ids EmptyString) s
    else with_default (first_id ids) s.

Definition persistDefaultServerFields (s : Servers) : Servers :=
  let ids := m_orderedServerIds s in
  let s' :=
    match ids with
    | [] => with_default EmptyString s
    | id :: _ => if negb (contains_id (m_defaultServerId s) ids) then with_default id s else s
    end in
  setValue "Servers/defaultServerId" (VString (m_defaultServerId s')) s'.

(** The key of a host, none where a configuration has no host. *)
Definition host_key (o : QJsonObject) : option string :=
  let host := trimmed (field o "hostName") in
  if String.eqb host EmptyString then None
  else Some (pretty (kind_number (configTypeFromJson o)) ++ "|" ++ host)%string.

Definition seen_host (o : QJsonObject) (seenHostKeys : list string) : bool :=
  match host_key o with Some k => contains_id k seenHostKeys | None => false end.

(** The body of the loop over the stored array. *)
Definition load_entry (createUuid : string) (o : QJsonObject) (seenHostKeys : list string) (s : Servers)
  : list string * Servers :=
  let serverId := normalizedOrGeneratedServerId createUuid (readStorageServerId o) s in
  let strippedJson := withoutStorageServerId o in
  if known serverId s || bool_decide (configTypeFromJson strippedJson = Invalid)
  then (seenHostKeys, s)
  else if seen_host strippedJson seenHostKeys then (seenHostKeys, s)
  else (option_list (host_key strippedJson) ++ seenHostKeys,
        with_servers (<[serverId := embedStorageServerId serverId strippedJson]> (m_serverJsonById s))
          (m_orderedServerIds s ++ [serverId]) s).

(** [uuids i] is the number that is created for the entry [i], where it is needed. *)
Fixpoint load_entries (uuids : nat -> string) (i : nat) (l : list json) (seenHostKeys : list string)
    (s : Servers) : Servers :=
  match l with
  | [] => s
  | v :: l' =>
      let '(seen', s') := load_entry (uuids i) (toObject (Some v)) seenHostKeys s in
      load_entries uuids (S i) l' seen' s'
  end.

Definition clearServerStateMaps (s : Servers) : Servers := with_servers ∅ [] s.

Definition stored_array (s : Servers) : list json :=
  toArray (parse_text (var_toBytes (default (VBytes EmptyString) (settings s !! "Servers/serversList")))).

Definition loadFromStorage (uuids : nat -> string) (s : Servers) : Servers :=
  updateDefaultServerFromStorage
    (load_entries uuids 0 (stored_array s) [] (clearServerStateMaps s)).

Definition invalidateCache (uuids : nat -> string) (s : Servers) : Servers := loadFromStorage uuids s.

(** The constructor. *)
Definition open_servers (uuids : nat -> string) (disk : gmap string QVariant) : Servers :=
  persistDefaultServerFields (loadFromStorage uuids (mkServers disk ∅ [] EmptyString [])).

Definition syncToStorage (s : Servers) : Servers :=
  let serversArray := map JObject (omap (fun id => m_serverJsonById s !! id) (m_orderedServerIds s)) in
  persistDefaultServerFields (setValue "Servers/serversList" (VBytes (array_text serversArray)) s).

(** ** Changes *)

Definition clearServers (s : Servers) : Servers :=
  syncToStorage (with_default EmptyString (clearServerStateMaps s)).

Definition addServer (createUuid serverId : string) (o : QJsonObject) (kind : ConfigType) (s : Servers)
  : string * Servers :=
  let id := normalizedOrGeneratedServerId createUuid serverId s in
  if known id s || bool_decide (kind = Invalid) then (id, s)
  else
    let strippedJson := withoutStorageServerId o in
    if negb (bool_decide (configTypeFromJson strippedJson = kind)) then (id, s)
    else
      let s1 := with_servers (<[id := embedStorageServerId id strippedJson]> (m_serverJsonById s))
                  (m_orderedServerIds s ++ [id]) s in
      let s2 := if String.eqb (m_defaultServerId s1) EmptyString then with_default id s1 else s1 in
      (id, emit (ServerAdded id) (syncToStorage s2)).

Definition editServer (serverId : string) (o : QJsonObject) (kind : ConfigType) (s : Servers) : Servers :=
  if (indexOfServerId serverId s <? 0) || bool_decide (kind = Invalid) then s
  else match m_serverJsonById s !! serverId with
  | None => s
  | Some oldJson =>
      let strippedOld := withoutStorageServerId oldJson in
      let oldKind := configTypeFromJson strippedOld in
      let s1 := with_servers (delete serverId (m_serverJsonById s)) (m_orderedServerIds s) s in
      let strippedNew := withoutStorageServerId o in
      let put json s := with_servers (<[serverId := embedStorageServerId serverId json]>
                                        (m_serverJsonById s)) (m_orderedServerIds s) s in
      if negb (bool_decide (configTypeFromJson strippedNew = kind)) then
        if negb (bool_decide (oldKind = Invalid)) && bool_decide (configTypeFromJson strippedOld = oldKind)
        then put strippedOld s1 else s1
      else emit (ServerEdited serverId) (syncToStorage (put strippedNew s1))
  end.

Definition defaultServerIndex (s : Servers) : Z :=
  match m_orderedServerIds s with
  | [] => 0
  | _ => let idx := index_of (m_defaultServerId s) (m_orderedServerIds s) in if 0 <=? idx then idx else 0
  end.

Definition remove_index (i : Z) (l : list string) : list string :=
  List.firstn (Z.to_nat i) l ++ List.skipn (S (Z.to_nat i)) l.

(** The default after a removal. *)
Definition default_after (serverId : string) (removedIndex : Z) (s : Servers) : string :=
  let ids := m_orderedServerIds s in
  match ids with
  | [] => EmptyString
  | first :: _ =>
      if String.eqb (m_defaultServerId s) serverId
      then nth (Z.to_nat (Z.min removedIndex (Z.of_nat (List.length ids) - 1))) ids EmptyString
      else if negb (contains_id (m_defaultServerId s) ids) then first
      else m_defaultServerId s
  end.

Definition removeServer (serverId : string) (s : Servers) : Servers :=
  let removedIndex := indexOfServerId serverId s in
  if removedIndex <? 0 then s
  else if negb (known serverId s) then s
  else
    let s1 := with_servers (delete serverId (m_serverJsonById s))
                (remove_index removedIndex (m_orderedServerIds s)) s in
    let s2 := with_default (default_after serverId removedIndex s1) s1 in
    let s3 := if negb (String.eqb (m_defaultServerId s) (m_defaultServerId s2))
                 || negb (defaultServerIndex s =? defaultServerIndex s2)
              then emit (DefaultServerChanged (m_defaultServerId s2)) s2 else s2 in
    emit (ServerRemoved serverId removedIndex) (syncToStorage s3).

Definition setDefaultServer (serverId : string) (s : Servers) : Servers :=
  match m_orderedServerIds s with
  | [] => s
  | _ =>
      if negb (known serverId s) then s
      else if indexOfServerId serverId s <? 0 then s
      else if String.eqb (m_defaultServerId s) serverId then s
      else emit (DefaultServerChanged serverId)
             (persistDefaultServerFields (with_default serverId s))
  end.

(** ** Queries *)

Definition serverKind (serverId : string) (s : Servers) : ConfigType :=
  match m_serverJsonById s !! serverId with
  | None => Invalid
  | Some o => configTypeFromJson (withoutStorageServerId o)
  end.

(** The configuration of a server of some kind. *)
Definition config_of (is_kind : ConfigType -> bool) (serverId : string) (s : Servers) : option QJsonObject :=
  match m_serverJsonById s !! serverId with
  | None => None
  | Some o =>
      let strippedJson := withoutStorageServerId o in
      if is_kind (configTypeFromJson strippedJson) then Some strippedJson else None
  end.

Definition selfHostedAdminConfig := config_of (fun k => bool_decide (k = SelfHostedAdmin)).
Definition selfHostedUserConfig := config_of (fun k => bool_decide (k = SelfHostedUser)).
Definition nativeConfig := config_of (fun k => bool_decide (k = Native)).
Definition apiV2Config := config_of isApiV2Subscription.
Definition legacyApiConfig := config_of isLegacyApiSubscription.

Definition serversCount (s : Servers) : Z := Z.of_nat (List.length (m_orderedServerIds s)).

Definition serverIdAt (index : Z) (s : Servers) : string :=
  if (index <? 0) || (serversCount s <=? index) then EmptyString
  else nth (Z.to_nat index) (m_orderedServerIds s) EmptyString.

(** The display name that each kind of configuration takes from its fields. *)
Definition hosted_name (o : QJsonObject) : string :=
  let description := field o "description" in
  if String.eqb description EmptyString then field o "hostName" else description.
Definition api_name (o : QJsonObject) : string :=
  let name := field o "name" in
  if String.eqb name EmptyString then field o "description" else name.
Definition legacy_name (o : QJsonObject) : string := field o "description".

Definition storedServerDisplayName (serverId : string) (s : Servers) : string :=
  let name f := default EmptyString ∘ fmap (M := option) f in
  match serverKind serverId s with
  | SelfHostedAdmin => name hosted_name (selfHostedAdminConfig serverId s)
  | SelfHostedUser => name hosted_name (selfHostedUserConfig serverId s)
  | Native => name hosted_name (nativeConfig serverId s)
  | AmneziaPremiumV2 | AmneziaFreeV3 | ExternalPremium => name api_name (apiV2Config serverId s)
  | AmneziaPremiumV1 | AmneziaFreeV2 => name legacy_name (legacyApiConfig serverId s)
  | SelfHosted | Invalid => EmptyString
  end.

Definition usedNames (s : Servers) : list string :=
  List.filter (fun n => negb (String.eqb n EmptyString))
    (map (fun id => storedServerDisplayName id s) (m_orderedServerIds s)).

Definition server_name (i : Z) : string := ("Server " ++ pretty i)%string.

(** The loop that counts up; none where the fuel ends. *)
Fixpoint next_name (fuel : nat) (i : Z) (used : list string) : option string :=
  match fuel with
  | O => None
  | S fuel' =>
      let candidate := server_name (i + 1) in
      if contains_id candidate used then next_name fuel' (i + 1) used else Some candidate
  end.

Definition nextAvailableServerName (fuel : nat) (s : Servers) : option string :=
  next_name fuel 0 (usedNames s).

(** ** Specification *)

(** The servers by number and their order agree, and each configuration carries its
    number. *)
Definition maps_ok (s : Servers) : Prop :=
  NoDup (m_orderedServerIds s) /\ ~ EmptyString ∈ m_orderedServerIds s
  /\ (forall id, id ∈ m_orderedServerIds s <-> known id s = true)
  /\ forall id o, m_serverJsonById s !! id = Some o -> o = embedStorageServerId id (withoutStorageServerId o).

(** The default is one of the servers, where there are any. *)
Definition default_ok (s : Servers) : Prop :=
  match m_orderedServerIds s with
  | [] => m_defaultServerId s = EmptyString
  | ids => m_defaultServerId s ∈ ids
  end.

Definition servers_ok (s : Servers) : Prop := maps_ok s /\ default_ok s.

(** What is stored is what is in memory. *)
Definition ordered_json (s : Servers) : list QJsonObject :=
  omap (fun id => m_serverJsonById s !! id) (m_orderedServerIds s).
Definition saved (s : Servers) : Prop :=
  settings s !! "Servers/serversList" = Some (VBytes (array_text (map JObject (ordered_json s))))
  /\ settings s !! "Servers/defaultServerId" = Some (VString (m_defaultServerId s)).

(** The text of the servers is read as the array that it was written from. *)
Definition readable (s : Servers) : Prop :=
  let serversArray := map JObject (ordered_json s) in
  parse_text (array_text serversArray) = Some (JArray serversArray).

(** Uses of the repository; the last one is a new start of the application. *)
Inductive ServerOp :=
| OpAdd (createUuid serverId : string) (o : QJsonObject) (kind : ConfigType)
| OpEdit (serverId : string) (o : QJsonObject) (kind : ConfigType)
| OpRemoveServer (serverId : string)
| OpDefault (serverId : string)
| OpClearServers
| OpInvalidate (uuids : nat -> string)
| OpReopen (uuids : nat -> string).

Definition run (s : Servers) (op : ServerOp) : Servers :=
  match op with
  | OpAdd u id o k => (addServer u id o k s).2
  | OpEdit id o k => editServer id o k s
  | OpRemoveServer id => removeServer id s
  | OpDefault id => setDefaultServer id s
  | OpClearServers => clearServers s
  | OpInvalidate u => invalidateCache u s
  | OpReopen u => open_servers u (settings s)
  end.

(** New numbers are not empty. *)
Definition numbered (op : ServerOp) : Prop :=
  match op with
  | OpAdd u _ _ _ => u <> EmptyString
  | OpInvalidate u | OpReopen u => forall i, u i <> EmptyString
  | _ => True
  end.

(** The servers of the stored array that are kept, with the hosts seen before. *)
Fixpoint keep_hosts (seen : list string) (l : list (string * QJsonObject)) : list (string * QJsonObject) :=
  match l with
  | [] => []
  | (id, o) :: l' =>
      if seen_host (withoutStorageServerId o) seen then keep_hosts seen l'
      else (id, o) :: keep_hosts (option_list (host_key (withoutStorageServerId o)) ++ seen) l'
  end.

Definition entries (s : Servers) : list (string * QJsonObject) :=
  omap (fun id => pair id <$> m_serverJsonById s !! id) (m_orderedServerIds s).

(** An entry as a repository stores it. *)
Definition stored_entry (e : string * QJsonObject) : Prop :=
  e.2 = embedStorageServerId e.1 (withoutStorageServerId e.2)
  /\ trimmed e.1 = e.1 /\ e.1 <> EmptyString.

(** ** Lemmas *)

(** The fields of the repository. *)
Ltac repository :=
  cbn [settings m_serverJsonById m_orderedServerIds m_defaultServerId emitted
       with_default with_servers setValue emit] in *.

#[local] Arguments configTypeFromJson : simpl never.
#[local] Arguments storageServerId : simpl never.

Lemma contains_id_spec (id : string) (l : list string) : contains_id id l = true <-> id ∈ l.
Proof.
  unfold contains_id. rewrite existsb_exists. setoid_rewrite String.eqb_eq.
  setoid_rewrite <- list_elem_of_In. naive_solver.
Qed.

Lemma known_spec (id : string) (s : Servers) :
  known id s = true <-> exists o, m_serverJsonById s !! id = Some o.
Proof. unfold known. destruct (m_serverJsonById s !! id); naive_solver. Qed.

(** Every configuration has a kind. *)
Lemma configType_valid (o : QJsonObject) : configTypeFromJson o <> Invalid.
Proof.
  unfold configTypeFromJson, source_type, gateway_type.
  repeat (case_match; simplify_eq); done.
Qed.

(** *** Numbers in configurations *)

Lemma without_without (o : QJsonObject) :
  withoutStorageServerId (withoutStorageServerId o) = withoutStorageServerId o.
Proof.
  unfold withoutStorageServerId, obj_remove. induction o as [|[k v] o IH]; [done|]. cbn [List.filter].
  destruct (negb _) eqn:E; [|done]. cbn [List.filter]. by rewrite E, IH.
Qed.

Lemma without_embed (id : string) (o : QJsonObject) :
  withoutStorageServerId (embedStorageServerId id o) = withoutStorageServerId o.
Proof.
  unfold embedStorageServerId, obj_insert. unfold withoutStorageServerId at 1, obj_remove at 1.
  rewrite List.filter_app. fold (obj_remove (obj_remove o storageServerId) storageServerId).
  fold (withoutStorageServerId o). fold (withoutStorageServerId (withoutStorageServerId o)).
  rewrite without_without. cbn [List.filter fst]. rewrite String.eqb_refl. apply app_nil_r.
Qed.

Lemma embed_without (id : string) (o : QJsonObject) :
  embedStorageServerId id (withoutStorageServerId (embedStorageServerId id o))
  = embedStorageServerId id o.
Proof.
  rewrite without_embed. unfold embedStorageServerId, obj_insert.
  fold (withoutStorageServerId o). fold (withoutStorageServerId (withoutStorageServerId o)).
  by rewrite without_without.
Qed.

Lemma field_embed (id : string) (o : QJsonObject) :
  field (embedStorageServerId id o) storageServerId = id.
Proof. unfold field, embedStorageServerId. by rewrite obj_value_insert, String.eqb_refl. Qed.

(** *** The default *)

Lemma persist_spec (s : Servers) :
  let s' := persistDefaultServerFields s in
  default_ok s' /\ m_serverJsonById s' = m_serverJsonById s
  /\ m_orderedServerIds s' = m_orderedServerIds s
  /\ settings s' = <["Servers/defaultServerId" := VString (m_defaultServerId s')]> (settings s).
Proof.
  unfold persistDefaultServerFields, default_ok. destruct (m_orderedServerIds s) as [|id ids] eqn:E;
    repository; [by rewrite E|].
  destruct (contains_id (m_defaultServerId s) (id :: ids)) eqn:Ec; cbn [negb]; repository; rewrite E.
  - split_and!; [by apply contains_id_spec | done..].
  - split_and!; [left | done..].
Qed.

(** A default that is right stays. *)
Lemma persist_default (s : Servers) :
  default_ok s -> m_defaultServerId (persistDefaultServerFields s) = m_defaultServerId s.
Proof.
  unfold default_ok, persistDefaultServerFields. destruct (m_orderedServerIds s) as [|id ids] eqn:E;
    repository; [done|].
  intros Hd%contains_id_spec. by rewrite Hd.
Qed.

Lemma maps_ok_ext (s s' : Servers) :
  m_serverJsonById s' = m_serverJsonById s -> m_orderedServerIds s' = m_orderedServerIds s ->
  maps_ok s -> maps_ok s'.
Proof. unfold maps_ok, known. by intros -> ->. Qed.

Lemma sync_spec (s : Servers) :
  maps_ok s ->
  servers_ok (syncToStorage s) /\ saved (syncToStorage s)
  /\ m_serverJsonById (syncToStorage s) = m_serverJsonById s
  /\ m_orderedServerIds (syncToStorage s) = m_orderedServerIds s.
Proof.
  intros Hm. unfold syncToStorage.
  match goal with |- context[persistDefaultServerFields ?x] => set (s1 := x) end.
  destruct (persist_spec s1) as (Hd & Hj & Hi & Hs). unfold servers_ok, saved, ordered_json.
  rewrite Hj, Hi, Hs. split_and!; [by apply (maps_ok_ext s) | done | | | done | done].
  - rewrite lookup_insert_ne by done. apply lookup_insert_eq.
  - apply lookup_insert_eq.
Qed.

Lemma sync_default (s : Servers) :
  default_ok s -> m_defaultServerId (syncToStorage s) = m_defaultServerId s.
Proof. intros Hd. unfold syncToStorage. by rewrite persist_default. Qed.

Lemma servers_ok_emit (e : ServerSignal) (s : Servers) : servers_ok s -> servers_ok (emit e s).
Proof. done. Qed.

(** *** Positions *)

Lemma index_of_spec (id : string) (l : list string) :
  if index_of id l <? 0 then id ∉ l
  else exists l1 l2, l = l1 ++ (id :: l2) /\ ~ id ∈ l1 /\ index_of id l = Z.of_nat (List.length l1).
Proof.
  induction l as [|x l IH]; cbn [index_of]; [by intros ?%not_elem_of_nil|].
  destruct (String.eqb_spec x id) as [->|Hx].
  - exists [], l. split_and!; [done | by intros ?%not_elem_of_nil | done].
  - destruct (Z.ltb_spec (index_of id l) 0) as [Hi|Hi].
    + cbn. intros [->|]%elem_of_cons; done.
    + destruct IH as (l1 & l2 & -> & Hn & Hl). rewrite Hl.
      destruct (Z.ltb_spec (Z.of_nat (List.length l1) + 1) 0); [lia|].
      exists (x :: l1), l2. split_and!; [done | | cbn [List.length]; lia].
      by intros [->|]%elem_of_cons.
Qed.

Lemma index_of_found (id : string) (l : list string) :
  id ∈ l -> exists l1 l2, l = l1 ++ (id :: l2) /\ ~ id ∈ l1 /\ index_of id l = Z.of_nat (List.length l1).
Proof. intros Hin. assert (Hi := index_of_spec id l). by destruct (index_of id l <? 0). Qed.

Lemma index_of_nonneg (id : string) (l : list string) : id ∈ l -> (index_of id l <? 0) = false.
Proof. intros Hin. assert (Hi := index_of_spec id l). by destruct (index_of id l <? 0). Qed.

Lemma remove_index_app (id : string) (l1 l2 : list string) :
  remove_index (Z.of_nat (List.length l1)) (l1 ++ id :: l2) = l1 ++ l2.
Proof.
  unfold remove_index. rewrite Nat2Z.id, firstn_app, firstn_all, Nat.sub_diag. cbn [List.firstn].
  rewrite app_nil_r, skipn_app, skipn_all2 by lia.
  replace (S (List.length l1) - List.length l1)%nat with 1%nat by lia. done.
Qed.

(** *** Changes keep the invariant *)

Lemma maps_ok_add (id : string) (o : QJsonObject) (s : Servers) :
  maps_ok s -> known id s = false -> id <> EmptyString ->
  maps_ok (with_servers (<[id := embedStorageServerId id (withoutStorageServerId o)]> (m_serverJsonById s))
             (m_orderedServerIds s ++ [id]) s).
Proof.
  intros (Hn & He & Hk & Hj) Hid Hne. unfold maps_ok, known. repository. split_and!.
  - apply NoDup_app. split_and!; [done | | apply NoDup_singleton].
    intros x Hx ->%list_elem_of_singleton. apply Hk in Hx. by rewrite Hid in Hx.
  - rewrite elem_of_app, list_elem_of_singleton. naive_solver.
  - intros x. rewrite elem_of_app, list_elem_of_singleton, Hk. unfold known.
    destruct (decide (x = id)) as [->|Hx]; [rewrite lookup_insert_eq; naive_solver|].
    rewrite lookup_insert_ne by done. naive_solver.
  - intros x y. destruct (decide (x = id)) as [->|Hx].
    + rewrite lookup_insert_eq. intros [= <-]. symmetry. apply embed_without.
    + rewrite lookup_insert_ne by done. apply Hj.
Qed.

Lemma normalized_nonempty (u c : string) (s : Servers) :
  u <> EmptyString -> normalizedOrGeneratedServerId u c s <> EmptyString.
Proof.
  intros Hu. unfold normalizedOrGeneratedServerId.
  by destruct (String.eqb_spec (trimmed c) EmptyString), (known (trimmed c) s).
Qed.

Lemma add_ok (u id : string) (o : QJsonObject) (k : ConfigType) (s : Servers) :
  u <> EmptyString -> servers_ok s -> servers_ok (addServer u id o k s).2.
Proof.
  intros Hu [Hm Hd]. unfold addServer. assert (Hne := normalized_nonempty u id s Hu).
  set (i := normalizedOrGeneratedServerId u id s) in *.
  destruct (known i s) eqn:Ek; [done|]. destruct (bool_decide (k = Invalid)); [done|]. cbn [orb].
  destruct (negb _); [done|]. cbn [snd]. apply servers_ok_emit, sync_spec.
  assert (Ha := maps_ok_add i o s Hm Ek Hne).
  by destruct (String.eqb _ EmptyString).
Qed.

Lemma edit_maps (id : string) (o old : QJsonObject) (s : Servers) :
  maps_ok s -> m_serverJsonById s !! id = Some old ->
  maps_ok (with_servers (<[id := embedStorageServerId id (withoutStorageServerId o)]>
             (delete id (m_serverJsonById s))) (m_orderedServerIds s) s).
Proof.
  intros (Hn & He & Hk & Hj) Hold. unfold maps_ok, known. repository. rewrite insert_delete_eq.
  split_and!; [done | done | |].
  - intros x. rewrite Hk. unfold known. destruct (decide (x = id)) as [->|Hx].
    + by rewrite lookup_insert_eq, Hold.
    + by rewrite lookup_insert_ne.
  - intros x y. destruct (decide (x = id)) as [->|Hx].
    + rewrite lookup_insert_eq. intros [= <-]. symmetry. apply embed_without.
    + rewrite lookup_insert_ne by done. apply Hj.
Qed.

(** An edit is refused and changes nothing, or replaces one configuration. *)
Lemma edit_cases (id : string) (o : QJsonObject) (k : ConfigType) (s : Servers) :
  maps_ok s ->
  editServer id o k s = s /\ (id ∉ m_orderedServerIds s \/ k = Invalid
                              \/ configTypeFromJson (withoutStorageServerId o) <> k)
  \/ id ∈ m_orderedServerIds s /\ configTypeFromJson (withoutStorageServerId o) = k
     /\ editServer id o k s
        = emit (ServerEdited id) (syncToStorage
            (with_servers (<[id := embedStorageServerId id (withoutStorageServerId o)]>
               (delete id (m_serverJsonById s))) (m_orderedServerIds s) s)).
Proof.
  intros (Hn & He & Hk & Hj). unfold editServer, indexOfServerId.
  assert (Hi := index_of_spec id (m_orderedServerIds s)).
  destruct (index_of id (m_orderedServerIds s) <? 0); [left; split; [done | by left]|]. cbn [orb].
  destruct (bool_decide_reflect (k = Invalid)) as [|Hki]; [left; split; [done | by right; left]|].
  assert (Hin : id ∈ m_orderedServerIds s) by (destruct Hi as (l1 & l2 & -> & _); set_solver).
  destruct (proj1 (known_spec id s) (proj1 (Hk id) Hin)) as [old Hold]. rewrite Hold.
  destruct (bool_decide_reflect (configTypeFromJson (withoutStorageServerId o) = k)) as [Hc|Hc]; cbn [negb].
  - by right.
  - left. rewrite bool_decide_false by apply configType_valid. rewrite bool_decide_true by done.
    cbn [negb andb]. split; [|by right; right]. repository.
    rewrite <- (Hj id old Hold), insert_delete_id by done. by destruct s.
Qed.

Lemma edit_ok (id : string) (o : QJsonObject) (k : ConfigType) (s : Servers) :
  servers_ok s -> servers_ok (editServer id o k s).
Proof.
  intros [Hm Hd]. destruct (edit_cases id o k s Hm) as [[-> _]|(Hin & _ & ->)]; [done|].
  apply servers_ok_emit, sync_spec. destruct (proj1 (known_spec id s) (proj1 (proj1 (proj2 (proj2 Hm)) id) Hin)) as [old Hold].
  by apply (edit_maps id o old).
Qed.

(** A removal splits the list at the server. *)
Lemma remove_maps (id : string) (l1 l2 : list string) (s : Servers) :
  maps_ok s -> m_orderedServerIds s = l1 ++ id :: l2 ->
  maps_ok (with_servers (delete id (m_serverJsonById s)) (l1 ++ l2) s).
Proof.
  intros (Hn & He & Hk & Hj) Hl. rewrite Hl in *. apply NoDup_app in Hn as (Hn1 & Hn12 & [Hid Hn2]%NoDup_cons).
  unfold maps_ok, known. repository. split_and!.
  - apply NoDup_app. split_and!; [done | | done]. intros x Hx Hx2. apply (Hn12 x Hx). by right.
  - rewrite elem_of_app, elem_of_cons in He. rewrite elem_of_app. naive_solver.
  - intros x. destruct (decide (x = id)) as [->|Hx].
    + rewrite lookup_delete_eq, elem_of_app. split; [|done]. intros [Hx|Hx]; [|done].
      destruct (Hn12 id Hx). left.
    + rewrite lookup_delete_ne by done. unfold known in Hk. rewrite <- Hk. set_solver.
  - intros x y Hx. apply lookup_delete_Some in Hx as [_ Hx]. by apply Hj.
Qed.

Lemma servers_ok_quiet (s : Servers) (b : bool) (e : ServerSignal) :
  maps_ok s -> maps_ok (if b then emit e s else s).
Proof. by destruct b. Qed.

Lemma remove_ok (id : string) (s : Servers) : servers_ok s -> servers_ok (removeServer id s).
Proof.
  intros [Hm Hd]. unfold removeServer, indexOfServerId.
  assert (Hi := index_of_spec id (m_orderedServerIds s)).
  destruct (index_of id (m_orderedServerIds s) <? 0); [done|].
  destruct Hi as (l1 & l2 & Hl & Hn & Hi). destruct (negb (known id s)); [done|].
  apply servers_ok_emit, sync_spec, servers_ok_quiet. rewrite Hi, Hl, remove_index_app.
  by apply (remove_maps id l1 l2).
Qed.

Lemma setDefault_ok (id : string) (s : Servers) : servers_ok s -> servers_ok (setDefaultServer id s).
Proof.
  intros [Hm Hd]. unfold setDefaultServer. destruct (m_orderedServerIds s) eqn:E; [done|].
  destruct (negb _); [done|]. destruct (_ <? 0); [done|]. destruct (String.eqb _ _); [done|].
  apply servers_ok_emit. destruct (persist_spec (with_default id s)) as (Hd' & Hj & Hi & _).
  split; [by apply (maps_ok_ext s) | done].
Qed.

Lemma maps_ok_empty (s : Servers) : maps_ok (clearServerStateMaps s).
Proof.
  unfold maps_ok, clearServerStateMaps, known. repository.
  split_and!; [constructor | by intros ?%not_elem_of_nil | |].
  - intros id. rewrite lookup_empty. split; [by intros ?%not_elem_of_nil | done].
  - intros id o. by rewrite lookup_empty.
Qed.

Lemma clear_ok (s : Servers) : servers_ok (clearServers s).
Proof. apply sync_spec. apply (maps_ok_empty s). Qed.

(** *** Loading keeps the invariant *)

Lemma load_entry_ok (u : string) (o : QJsonObject) (seen : list string) (s : Servers) :
  u <> EmptyString -> maps_ok s ->
  maps_ok (load_entry u o seen s).2 /\ settings (load_entry u o seen s).2 = settings s.
Proof.
  intros Hu Hm. unfold load_entry. assert (Hne := normalized_nonempty u (readStorageServerId o) s Hu).
  set (i := normalizedOrGeneratedServerId _ _ _) in *. destruct (known i s) eqn:Ek; [done|].
  destruct (bool_decide _); [done|]. cbn [orb]. destruct (seen_host _ _); [done|].
  split; [by apply maps_ok_add | done].
Qed.

Lemma load_entries_ok (uuids : nat -> string) (i : nat) (l : list json) (seen : list string) (s : Servers) :
  (forall i, uuids i <> EmptyString) -> maps_ok s ->
  maps_ok (load_entries uuids i l seen s) /\ settings (load_entries uuids i l seen s) = settings s.
Proof.
  intros Hu. revert i seen s. induction l as [|v l IH]; intros i seen s Hm; [done|]. cbn [load_entries].
  destruct (load_entry_ok (uuids i) (toObject (Some v)) seen s (Hu i) Hm) as [Hm' Hs'].
  destruct (load_entry _ _ _ _) as [seen' s']. cbn [snd] in *. rewrite <- Hs'. by apply IH.
Qed.

Lemma nth_elem (n : nat) (l : list string) : (n < List.length l)%nat -> nth n l EmptyString ∈ l.
Proof. intros Hn. by apply list_elem_of_In, nth_In. Qed.

Lemma updateDefault_ok (s : Servers) : maps_ok s -> servers_ok (updateDefaultServerFromStorage s).
Proof.
  intros Hm. unfold updateDefaultServerFromStorage.
  set (d := var_toString _). set (n := var_toInt _).
  destruct (negb (String.eqb d EmptyString) && known d s) eqn:Ed.
  - apply andb_true_iff in Ed as [_ Hk]. apply Hm in Hk. split; [done|]. unfold default_ok. repository.
    destruct (m_orderedServerIds s); [by apply not_elem_of_nil in Hk | done].
  - unfold servers_ok, default_ok, first_id.
    destruct (Z.leb_spec 0 n), (Z.ltb_spec n (Z.of_nat (List.length (m_orderedServerIds s))));
      cbn [andb]; repository; (split; [done|]);
      destruct (m_orderedServerIds s) as [|x l] eqn:E; cbn [List.length] in *; try lia; try done;
      try (cbn [head default]; left).
    apply nth_elem. cbn [List.length]. lia.
Qed.

Lemma load_ok (uuids : nat -> string) (s : Servers) :
  (forall i, uuids i <> EmptyString) -> servers_ok (loadFromStorage uuids s).
Proof. intros Hu. apply updateDefault_ok, load_entries_ok; [done | apply maps_ok_empty]. Qed.

Lemma open_ok (uuids : nat -> string) (disk : gmap string QVariant) :
  (forall i, uuids i <> EmptyString) -> servers_ok (open_servers uuids disk).
Proof.
  intros Hu. unfold open_servers.
  destruct (load_ok uuids (mkServers disk ∅ [] EmptyString []) Hu) as [Hm _].
  destruct (persist_spec (loadFromStorage uuids (mkServers disk ∅ [] EmptyString []))) as (Hd & Hj & Hi & _).
  split; [by eapply maps_ok_ext | done].
Qed.

(** *** Names *)

#[export] Instance server_name_inj : Inj (=) (=) server_name.
Proof. intros i j Hij. unfold server_name in Hij. by simplify_eq. Qed.

Lemma next_name_spec (fuel : nat) (i : Z) (used : list string) :
  match next_name fuel i used with
  | Some name => exists j, name = server_name j /\ i < j <= i + Z.of_nat fuel /\ ~ server_name j ∈ used
                           /\ forall k, i < k < j -> server_name k ∈ used
  | None => forall k, i < k <= i + Z.of_nat fuel -> server_name k ∈ used
  end.
Proof.
  revert i. induction fuel as [|fuel IH]; intros i; cbn [next_name]; [lia|].
  destruct (contains_id (server_name (i + 1)) used) eqn:E.
  - apply contains_id_spec in E. specialize (IH (i + 1)). destruct (next_name fuel (i + 1) used).
    + destruct IH as (j & -> & Hj & Hn & Hk). exists j. split_and!; [done | lia | lia | done |].
      intros k Hk'. destruct (decide (k = i + 1)) as [->|]; [done | apply Hk; lia].
    + intros k Hk'. destruct (decide (k = i + 1)) as [->|]; [done | apply IH; lia].
  - exists (i + 1). split_and!; [done | lia | lia | | lia].
    intros Hin%contains_id_spec. by rewrite E in Hin.
Qed.

Lemma usedNames_length (s : Servers) : (List.length (usedNames s) <= List.length (m_orderedServerIds s))%nat.
Proof. unfold usedNames. etransitivity; [apply List.filter_length_le|]. by rewrite length_map. Qed.

(** Names that are all used are at most as many as the used ones. *)
Lemma names_used_length (n : nat) (used : list string) :
  (forall k, 0 < k <= Z.of_nat n -> server_name k ∈ used) -> (n <= List.length used)%nat.
Proof.
  intros Hk. set (names := (fun i => server_name (Z.of_nat i)) <$> seq 1 n).
  assert (Hn : NoDup names).
  { apply NoDup_fmap_2; [|apply NoDup_seq]. intros i j Hij. by apply (inj server_name) in Hij; lia. }
  assert (Hs : names ⊆+ used).
  { apply NoDup_submseteq; [done|]. intros x (i & -> & Hi%elem_of_seq)%list_elem_of_fmap. apply Hk. lia. }
  apply submseteq_length in Hs. unfold names in Hs. by rewrite length_fmap, length_seq in Hs.
Qed.

(** *** Reloading *)

Lemma load_entry_stored (u : string) (e : string * QJsonObject) (seen : list string) (s : Servers) :
  stored_entry e -> known e.1 s = false ->
  load_entry u e.2 seen s
  = if seen_host (withoutStorageServerId e.2) seen then (seen, s)
    else (option_list (host_key (withoutStorageServerId e.2)) ++ seen,
          with_servers (<[e.1 := e.2]> (m_serverJsonById s)) (m_orderedServerIds s ++ [e.1]) s).
Proof.
  destruct e as [id o]. cbn [fst snd]. unfold stored_entry. cbn [fst snd]. intros (Ho & Ht & Hne) Hk.
  assert (Hid : normalizedOrGeneratedServerId u (readStorageServerId o) s = id).
  { unfold normalizedOrGeneratedServerId, readStorageServerId. rewrite Ho, field_embed, !Ht, Hk.
    by destruct (String.eqb_spec id EmptyString). }
  unfold load_entry. rewrite Hid, Hk, bool_decide_false by apply configType_valid. cbn [orb].
  by rewrite <- Ho.
Qed.

Lemma insert_union_keys (id : string) (o : QJsonObject) (l : list (string * QJsonObject))
    (m : gmap string QJsonObject) :
  id ∉ l.*1 -> list_to_map l ∪ <[id := o]> m = <[id := o]> (list_to_map l) ∪ m.
Proof.
  intros Hid. rewrite <- insert_union_r by by apply not_elem_of_list_to_map_1.
  by rewrite insert_union_l.
Qed.

Lemma keep_hosts_keys (seen : list string) (l : list (string * QJsonObject)) :
  sublist (keep_hosts seen l) l.
Proof.
  revert seen. induction l as [|[id o] l IH]; intros seen; cbn [keep_hosts]; [constructor|].
  destruct (seen_host _ _); by constructor.
Qed.

Lemma load_stored (uuids : nat -> string) (i : nat) (l : list (string * QJsonObject)) (seen : list string)
    (s : Servers) :
  Forall stored_entry l -> NoDup (map fst l) -> (forall id, id ∈ map fst l -> known id s = false) ->
  let s' := load_entries uuids i (map (fun e => JObject e.2) l) seen s in
  m_orderedServerIds s' = m_orderedServerIds s ++ map fst (keep_hosts seen l)
  /\ settings s' = settings s
  /\ m_serverJsonById s' = list_to_map (keep_hosts seen l) ∪ m_serverJsonById s.
Proof.
  revert i seen s. induction l as [|e l IH]; intros i seen s; cbn [map load_entries].
  - intros _ _ _. cbn. by rewrite app_nil_r, (left_id_L ∅ (∪)).
  - intros [He Hl]%Forall_cons [Hid Hn]%NoDup_cons Hk. cbn [toObject].
    rewrite load_entry_stored by (done || (apply Hk; left)). destruct e as [id o]. cbn [fst snd] in *.
    cbn [keep_hosts]. destruct (seen_host (withoutStorageServerId o) seen).
    + apply IH; [done | done |]. intros x Hx. apply Hk. by right.
    + edestruct (IH (S i) (option_list (host_key (withoutStorageServerId o)) ++ seen)
        (with_servers (<[id := o]> (m_serverJsonById s)) (m_orderedServerIds s ++ [id]) s))
        as (H1 & H2 & H3); [done | done | | split_and!].
      * intros x Hx. unfold known. cbn [m_serverJsonById with_servers].
        rewrite lookup_insert_ne by (intros ->; done). apply Hk. by right.
      * rewrite H1. repository. by rewrite <- app_assoc.
      * by rewrite H2.
      * rewrite H3. repository. cbn [list_to_map foldr fst snd]. apply insert_union_keys.
        intros Hin. apply Hid. apply list_elem_of_fmap in Hin as (e & -> & Hin).
        apply list_elem_of_fmap_2. by apply (elem_of_sublist _ _ _ Hin), keep_hosts_keys.
Qed.

Lemma entries_spec (s : Servers) (ids : list string) :
  (forall id, id ∈ ids -> known id s = true) ->
  let l := omap (fun id => pair id <$> m_serverJsonById s !! id) ids in
  map fst l = ids /\ map snd l = omap (fun id => m_serverJsonById s !! id) ids.
Proof.
  induction ids as [|id ids IH]; intros Hk; [done|].
  destruct (proj1 (known_spec id s) (Hk id ltac:(left))) as [o Ho].
  destruct IH as [H1 H2]; [intros x Hx; apply Hk; by right|].
  cbn. rewrite Ho. cbn. by rewrite H1, H2.
Qed.

Lemma entries_stored (s : Servers) :
  maps_ok s -> Forall (fun id => trimmed id = id) (m_orderedServerIds s) -> Forall stored_entry (entries s).
Proof.
  intros (Hn & He & Hk & Hj) Ht. apply Forall_forall. intros [id o] Hin.
  apply list_elem_of_omap in Hin as (x & Hx & Ho). apply fmap_Some in Ho as (y & Hy & E). simplify_eq.
  rewrite Forall_forall in Ht. unfold stored_entry. cbn [fst snd].
  split_and!; [by apply Hj | by apply Ht | by intros ->].
Qed.

(** Where no host repeats, every server is kept. *)
Lemma keep_hosts_all (seen : list string) (l : list (string * QJsonObject)) :
  NoDup (omap (fun e => host_key (withoutStorageServerId e.2)) l ++ seen) -> keep_hosts seen l = l.
Proof.
  revert seen. induction l as [|[id o] l IH]; intros seen; [done|]. cbn [keep_hosts]. unfold seen_host.
  cbn [omap list_omap fst snd]. destruct (host_key (withoutStorageServerId o)) as [k|]; cbn [option_list app].
  - intros [Hk Hl]%NoDup_cons. destruct (contains_id k seen) eqn:E.
    + apply contains_id_spec in E. destruct Hk. apply elem_of_app. by right.
    + f_equal. apply IH. assert (Hp : NoDup (k :: (omap (fun e => host_key (withoutStorageServerId e.2)) l ++ seen))) by by constructor.
      by rewrite Permutation_middle in Hp.
  - intros Hl. f_equal. by apply IH.
Qed.

Lemma saved_array (s : Servers) :
  readable s -> saved s -> stored_array s = map JObject (ordered_json s).
Proof.
  intros Ht [Hs _]. unfold stored_array. rewrite Hs. cbn [from_option id var_toBytes].
  unfold readable in Ht. by rewrite Ht.
Qed.

Lemma updateDefault_maps (s : Servers) :
  m_serverJsonById (updateDefaultServerFromStorage s) = m_serverJsonById s
  /\ m_orderedServerIds (updateDefaultServerFromStorage s) = m_orderedServerIds s.
Proof. unfold updateDefaultServerFromStorage. by repeat case_match. Qed.

Lemma updateDefault_stored (d : string) (s : Servers) :
  settings s !! "Servers/defaultServerId" = Some (VString d) -> d <> EmptyString -> known d s = true ->
  m_defaultServerId (updateDefaultServerFromStorage s) = d.
Proof.
  intros Hs Hd Hk. unfold updateDefaultServerFromStorage. rewrite Hs. cbn [from_option id var_toString].
  rewrite Hk. by destruct (String.eqb_spec d EmptyString).
Qed.

Lemma used_spec (s : Servers) (i : Z) :
  server_name i ∈ usedNames s
  <-> exists id, id ∈ m_orderedServerIds s /\ storedServerDisplayName id s = server_name i.
Proof.
  unfold usedNames. rewrite list_elem_of_In, filter_In, in_map_iff. split.
  - intros [(id & Hn & Hin) _]. exists id. by rewrite list_elem_of_In.
  - intros (id & Hin & Hn). split; [|done]. exists id. by rewrite <- list_elem_of_In.
Qed.

(** *** Removal *)

Lemma index_of_app_l (id : string) (l1 l2 : list string) :
  id ∈ l1 -> index_of id (l1 ++ l2) = index_of id l1.
Proof.
  induction l1 as [|x l1 IH]; [by intros ?%not_elem_of_nil|]. cbn [app index_of].
  destruct (String.eqb_spec x id) as [|Hx]; [done|]. intros [->|Hin]%elem_of_cons; [done|].
  by rewrite IH.
Qed.

Lemma index_of_app_r (id : string) (l1 l2 : list string) :
  id ∉ l1 -> id ∈ l2 -> index_of id (l1 ++ l2) = Z.of_nat (List.length l1) + index_of id l2.
Proof.
  intros H1 H2. assert (Hi := index_of_nonneg id l2 H2). apply Z.ltb_ge in Hi.
  induction l1 as [|x l1 IH]; cbn [app index_of List.length]; [lia|].
  apply not_elem_of_cons in H1 as [Hx H1]. destruct (String.eqb_spec x id) as [->|]; [done|].
  rewrite IH by done. destruct (Z.ltb_spec (Z.of_nat (List.length l1) + index_of id l2) 0); lia.
Qed.

Lemma index_of_split (id : string) (l1 l2 : list string) :
  id ∉ l1 -> index_of id (l1 ++ (id :: l2)) = Z.of_nat (List.length l1).
Proof.
  intros H1. rewrite index_of_app_r by (done || left). cbn [index_of]. rewrite String.eqb_refl. lia.
Qed.

(** The server after the removed one, or the last of those before it. *)
Lemma nth_fallback (l1 l2 : list string) :
  l1 ++ l2 <> [] ->
  nth (Z.to_nat (Z.min (Z.of_nat (List.length l1)) (Z.of_nat (List.length (l1 ++ l2)) - 1))) (l1 ++ l2) EmptyString
  = default (default EmptyString (last l1)) (head l2).
Proof.
  intros Hne. destruct l2 as [|x l2]; cbn [head from_option id].
  - rewrite app_nil_r in *. destruct l1 as [|y l1 _] using rev_ind; [done|].
    rewrite last_snoc, length_app. cbn [List.length from_option id].
    replace (Z.to_nat _) with (List.length l1) by lia. by rewrite app_nth2, Nat.sub_diag by lia.
  - rewrite length_app. cbn [List.length]. replace (Z.to_nat _) with (List.length l1) by lia.
    by rewrite app_nth2, Nat.sub_diag by lia.
Qed.

Lemma elem_of_others (x id : string) (l1 l2 : list string) :
  x ∈ l1 ++ (id :: l2) <-> x = id \/ x ∈ l1 ++ l2.
Proof. rewrite !elem_of_app, elem_of_cons. naive_solver. Qed.

Lemma sync_emitted (s : Servers) : emitted (syncToStorage s) = emitted s.
Proof.
  unfold syncToStorage, persistDefaultServerFields. repository.
  destruct (m_orderedServerIds s); [done|]. by destruct (negb _).
Qed.

Lemma defaultServerIndex_in (s : Servers) :
  m_defaultServerId s ∈ m_orderedServerIds s ->
  defaultServerIndex s = index_of (m_defaultServerId s) (m_orderedServerIds s).
Proof.
  intros Hin. unfold defaultServerIndex. assert (Hi := index_of_nonneg _ _ Hin). apply Z.ltb_ge in Hi.
  destruct (m_orderedServerIds s); [by apply not_elem_of_nil in Hin|].
  by rewrite (proj2 (Z.leb_le _ _) Hi).
Qed.

(** The default that a removal leaves, and whether it moved. *)
Lemma default_after_spec (id : string) (l1 l2 : list string) (s : Servers) :
  servers_ok s -> m_orderedServerIds s = l1 ++ (id :: l2) ->
  let s1 := with_servers (delete id (m_serverJsonById s)) (l1 ++ l2) s in
  let fallback := default (default EmptyString (last l1)) (head l2) in
  let default' := if String.eqb (m_defaultServerId s) id then fallback else m_defaultServerId s in
  default_after id (Z.of_nat (List.length l1)) s1 = default' /\ default_ok (with_default default' s1).
Proof.
  intros [(Hn & _) Hd] Hl. unfold default_ok in *. rewrite Hl in *. unfold default_after. repository.
  assert (Hin : m_defaultServerId s ∈ l1 ++ (id :: l2)) by by destruct l1.
  destruct (l1 ++ l2) as [|x l] eqn:E.
  - apply app_nil in E as [-> ->]. apply list_elem_of_singleton in Hin. by rewrite Hin, String.eqb_refl.
  - assert (Hne : l1 ++ l2 <> []) by by rewrite E.
    destruct (String.eqb_spec (m_defaultServerId s) id) as [Hdef|Hdef]; rewrite <- E.
    + rewrite nth_fallback by done. split; [done|]. rewrite <- nth_fallback by done. apply nth_elem.
      destruct (l1 ++ l2); [done|]. cbn [List.length]. lia.
    + apply elem_of_others in Hin as [|Hin']; [done|].
      split; [|done]. by rewrite (proj2 (contains_id_spec _ _) Hin').
Qed.

Lemma default_moved (id : string) (l1 l2 : list string) (s : Servers) :
  servers_ok s -> m_orderedServerIds s = l1 ++ (id :: l2) ->
  let fallback := default (default EmptyString (last l1)) (head l2) in
  let default' := if String.eqb (m_defaultServerId s) id then fallback else m_defaultServerId s in
  let s2 := with_default default' (with_servers (delete id (m_serverJsonById s)) (l1 ++ l2) s) in
  negb (String.eqb (m_defaultServerId s) default') || negb (defaultServerIndex s =? defaultServerIndex s2)
  = negb (contains_id (m_defaultServerId s) l1).
Proof.
  intros Hs Hl. destruct (default_after_spec id l1 l2 s Hs Hl) as [_ Hd2]. cbv zeta in *.
  destruct Hs as [(Hn & He & _) Hd]. unfold default_ok in *. rewrite Hl in *. repository.
  apply NoDup_app in Hn as (_ & Hn12 & [Hid _]%NoDup_cons).
  assert (Hid1 : id ∉ l1) by (intros Hin; apply (Hn12 id Hin); left).
  assert (Hin : m_defaultServerId s ∈ l1 ++ (id :: l2)) by by destruct l1.
  destruct (String.eqb_spec (m_defaultServerId s) id) as [Hdef|Hdef].
  - rewrite Hdef, (not_true_is_false _ (fun H => Hid1 (proj1 (contains_id_spec _ _) H))).
    apply orb_true_intro. left. apply negb_true_iff, String.eqb_neq. intros Heq. rewrite <- Heq in Hd2.
    destruct (l1 ++ l2) eqn:E; [apply He, elem_of_others; by left|]. rewrite <- E in Hd2.
    by apply elem_of_app in Hd2 as [|].
  - apply elem_of_others in Hin as Hin2. destruct Hin2 as [|Hin2]; [done|].
    rewrite String.eqb_refl. cbn [negb orb].
    rewrite !defaultServerIndex_in by (repository; by rewrite ?Hl). repository. rewrite Hl. f_equal. destruct (contains_id (m_defaultServerId s) l1) eqn:Ec.
    + apply contains_id_spec in Ec. by rewrite !index_of_app_l, Z.eqb_refl.
    + assert (Hn1 : m_defaultServerId s ∉ l1) by (intros Hc%contains_id_spec; by rewrite Hc in Ec).
      assert (H2 : m_defaultServerId s ∈ l2) by by apply elem_of_app in Hin2 as [|].
      rewrite !index_of_app_r by (done || by right). apply Z.eqb_neq. cbn [index_of].
      assert (Hi := index_of_nonneg _ _ H2). rewrite Hi. apply Z.ltb_ge in Hi.
      destruct (String.eqb_spec id (m_defaultServerId s)); [congruence | lia].
Qed.

(** ** Theorems *)

(** C12: the type invariant of the repository.  Whatever is stored when it is opened,
    and whatever servers are added, edited, removed or made the default, cleared or
    loaded again, in any order: no number occurs twice or is empty, the list has
    exactly the numbers that have a configuration, every configuration carries its
    number, and the default is one of the servers, or nothing where there is none. *)
Theorem servers_invariant (uuids : nat -> string) (disk : gmap string QVariant) (ops : list ServerOp) :
  (forall i, uuids i <> EmptyString) -> Forall numbered ops ->
  servers_ok (fold_left run ops (open_servers uuids disk)).
Proof.
  intros Hu Hops. assert (Hs := open_ok uuids disk Hu). revert Hs. generalize (open_servers uuids disk).
  induction Hops as [|op ops Hop _ IH]; intros s Hs; [done|]. apply IH.
  destruct op; cbn [run numbered] in *;
    [by apply add_ok | by apply edit_ok | by apply remove_ok | by apply setDefault_ok
    | apply clear_ok | by apply load_ok | by apply open_ok].
Qed.

(** Opening the repository again on what it saved gives the servers back in their
    order, with their configurations and the default, except that of several servers
    of the same kind on the same host only the first is there; where no two servers
    share kind and host, everything is as before. *)
Theorem reopen_keeps_first (uuids : nat -> string) (s : Servers) :
  (forall i, uuids i <> EmptyString) -> readable s -> servers_ok s -> saved s ->
  Forall (fun id => trimmed id = id) (m_orderedServerIds s) ->
  let s' := open_servers uuids (settings s) in
  m_orderedServerIds s' = map fst (keep_hosts [] (entries s))
  /\ m_serverJsonById s' = list_to_map (keep_hosts [] (entries s))
  /\ (m_defaultServerId s ∈ m_orderedServerIds s' -> m_defaultServerId s' = m_defaultServerId s)
  /\ (NoDup (omap (fun e => host_key (withoutStorageServerId e.2)) (entries s)) ->
      m_orderedServerIds s' = m_orderedServerIds s /\ m_defaultServerId s' = m_defaultServerId s).
Proof.
  intros Hu Ht [Hm Hd] Hsaved Htrim. destruct (entries_spec s (m_orderedServerIds s)) as [Hfst Hsnd];
    [intros id; apply Hm|]. fold (entries s) in Hfst, Hsnd.
  assert (Harr : stored_array (mkServers (settings s) ∅ [] EmptyString [])
                 = map (fun e => JObject e.2) (entries s)).
  { transitivity (stored_array s); [done|]. rewrite saved_array by done. unfold ordered_json.
    by rewrite <- Hsnd, map_map. }
  destruct (load_stored uuids 0 (entries s) [] (clearServerStateMaps (mkServers (settings s) ∅ [] EmptyString [])))
    as (H1 & H2 & H3); [by apply entries_stored | rewrite Hfst; apply Hm | done |].
  assert (Hload := load_ok uuids (mkServers (settings s) ∅ [] EmptyString []) Hu).
  unfold open_servers. destruct (persist_spec (loadFromStorage uuids (mkServers (settings s) ∅ [] EmptyString [])))
    as (Hd' & Hj' & Hi' & _).
  rewrite persist_default by apply Hload. unfold default_ok in Hd'. rewrite persist_default in Hd' by apply Hload.
  rewrite Hj', Hi' in *. unfold loadFromStorage in *. rewrite Harr in *.
  set (s1 := load_entries _ _ _ _ _) in *. destruct (updateDefault_maps s1) as [U1 U2]. rewrite U1, U2 in *.
  cbn [clearServerStateMaps with_servers m_orderedServerIds m_serverJsonById settings app] in H1, H2, H3.
  rewrite (right_id_L ∅ (∪)) in H3.
  assert (Hdef : m_defaultServerId s ∈ m_orderedServerIds s1 ->
                 m_defaultServerId (updateDefaultServerFromStorage s1) = m_defaultServerId s).
  { intros Hin. destruct Hload as [(_ & He & Hk & _) _]. unfold known in Hk. rewrite U1, U2 in *.
    apply updateDefault_stored; [by rewrite H2; apply Hsaved | by intros E; rewrite E in Hin | by apply Hk]. }
  split_and!; [done | done | done |]. intros Hnd.
  rewrite H1, keep_hosts_all, Hfst in * by by rewrite app_nil_r. split; [done|].
  unfold default_ok in Hd. destruct (m_orderedServerIds s) as [|x l]; [by rewrite Hd, Hd' | by apply Hdef].
Qed.

(** The name for a new server is found: counting stops after at most one more step
    than there are servers, at the first number whose name no server has. *)
Theorem nextAvailableServerName_found (s : Servers) (fuel : nat) :
  (List.length (m_orderedServerIds s) < fuel)%nat ->
  exists i, nextAvailableServerName fuel s = Some (server_name i)
    /\ 1 <= i <= serversCount s + 1
    /\ (forall id, id ∈ m_orderedServerIds s -> storedServerDisplayName id s <> server_name i)
    /\ forall j, 1 <= j < i ->
         exists id, id ∈ m_orderedServerIds s /\ storedServerDisplayName id s = server_name j.
Proof.
  intros Hf. unfold nextAvailableServerName. assert (Hn := next_name_spec fuel 0 (usedNames s)).
  assert (Hlen := usedNames_length s). destruct (next_name fuel 0 (usedNames s)) as [name|].
  - destruct Hn as (i & -> & Hi & Hnot & Hk). exists i. split_and!; [done | lia | | |].
    + enough (Z.to_nat (i - 1) <= List.length (usedNames s))%nat by (unfold serversCount; lia).
      apply names_used_length. intros k Hk'. apply Hk. lia.
    + intros id Hid Heq. apply Hnot, used_spec. by exists id.
    + intros j Hj. apply used_spec, Hk. lia.
  - exfalso. enough (fuel <= List.length (usedNames s))%nat by lia.
    apply names_used_length. intros k Hk'. apply Hn. lia.
Qed.

(** Removing a server takes it out and leaves the others in their order; the new
    state is stored; where it was the default, the server after it becomes the default,
    or the one before it where it was the last; and listeners hear of the default
    exactly when the default server or its position changed. *)
Theorem removeServer_falls_back (id : string) (l1 l2 : list string) (s : Servers) :
  servers_ok s -> m_orderedServerIds s = l1 ++ (id :: l2) ->
  let s' := removeServer id s in
  let fallback := default (default EmptyString (last l1)) (head l2) in
  let default' := if String.eqb (m_defaultServerId s) id then fallback else m_defaultServerId s in
  m_orderedServerIds s' = l1 ++ l2 /\ m_serverJsonById s' = delete id (m_serverJsonById s)
  /\ saved s' /\ m_defaultServerId s' = default'
  /\ emitted s' = emitted s
       ++ (if contains_id (m_defaultServerId s) l1 then [] else [DefaultServerChanged default'])
       ++ [ServerRemoved id (Z.of_nat (List.length l1))].
Proof.
  intros Hs Hl. assert (Hmoved := default_moved id l1 l2 s Hs Hl).
  destruct (default_after_spec id l1 l2 s Hs Hl) as [Hafter Hd2]. cbv zeta in *.
  destruct Hs as [Hm Hd] eqn:E. clear E. assert (Hn1 : id ∉ l1).
  { destruct Hm as (Hn & _). rewrite Hl in Hn. apply NoDup_app in Hn as (_ & Hn & _).
    intros Hin. apply (Hn id Hin). left. }
  assert (Hk : known id s = true) by (apply Hm; rewrite Hl; apply elem_of_others; by left).
  assert (Hmaps := remove_maps id l1 l2 s Hm Hl).
  unfold removeServer, indexOfServerId. rewrite Hl, index_of_split, Hk, remove_index_app by done.
  destruct (Z.ltb_spec (Z.of_nat (List.length l1)) 0); [lia|]. cbn [negb]. rewrite Hafter.
  cbn [m_defaultServerId with_default]. rewrite Hmoved.
  set (d := if String.eqb (m_defaultServerId s) id then _ else _) in *.
  set (s2 := with_default d _) in *.
  set (s3 := if negb (contains_id _ _) then _ else _).
  assert (H3 : maps_ok s3) by by apply servers_ok_quiet.
  assert (H3' : m_serverJsonById s3 = delete id (m_serverJsonById s) /\ m_orderedServerIds s3 = l1 ++ l2
                /\ m_defaultServerId s3 = d /\ default_ok s3
                /\ emitted s3 = emitted s ++ (if contains_id (m_defaultServerId s) l1 then []
                                             else [DefaultServerChanged d])).
  { unfold s3. destruct (contains_id (m_defaultServerId s) l1); cbn [negb]; split_and!; try done.
    cbn. by rewrite app_nil_r. }
  destruct H3' as (Hj & Hi & Hdd & Hok & Hem). destruct (sync_spec s3 H3) as (_ & Hsaved & Hj' & Hi').
  cbn [emit m_orderedServerIds m_serverJsonById m_defaultServerId emitted].
  split_and!; [by rewrite Hi' | by rewrite Hj' | done | by rewrite sync_default |].
  by rewrite sync_emitted, Hem, <- app_assoc.
Qed.
End Servers.

(** ** Witnesses *)

(** A text that is always the same array. *)
Definition example_storage (l : list json) : Storage := {|
  parse_text := fun _ => Some (JArray l);
  array_text := fun _ => "[]";
  FREE_V2_ENDPOINT := "free.example";
  PREM_V1_ENDPOINT := "premium.example"
|}.

(** Two servers on a host, and the repository that has them. *)
Definition example_json : QJsonObject := [("hostName", JString "192.0.2.1"); ("description", JString "Server 1")].
Definition example_array : list json :=
  [JObject (embedStorageServerId "a" example_json); JObject (embedStorageServerId "b" example_json)].
Definition no_servers : Servers := mkServers ∅ ∅ [] EmptyString [].
Definition two_servers : Servers :=
  let _ := example_storage example_array in
  (addServer "b" EmptyString example_json SelfHostedUser
     (addServer "a" EmptyString example_json SelfHostedUser no_servers).2).2.

Lemma no_servers_ok : servers_ok no_servers.
Proof. split; [apply (maps_ok_empty no_servers) | done]. Qed.

Lemma two_servers_ok : servers_ok two_servers.
Proof. apply add_ok; [done|]. apply add_ok; [done | apply no_servers_ok]. Qed.

Lemma servers_invariant_witness :
  let _ := example_storage example_array in
  servers_ok (fold_left run [OpAdd "c" EmptyString example_json SelfHostedUser; OpRemoveServer "a"]
                (open_servers (fun _ => "new") ∅)).
Proof. apply (servers_invariant (H := example_storage example_array)); [done|]. by repeat constructor. Defined.

Lemma reopen_keeps_first_witness :
  let _ := example_storage example_array in
  m_orderedServerIds two_servers = ["a"; "b"]
  /\ m_orderedServerIds (open_servers (fun _ => "new") (settings two_servers)) = ["a"].
Proof.
  split; [by vm_compute|].
  destruct (reopen_keeps_first (H := example_storage example_array) (fun _ => "new") two_servers)
    as [Hids _]; [done | by vm_compute | apply two_servers_ok | by split; vm_compute | | ].
  - vm_compute. by repeat constructor.
  - etransitivity; [exact Hids | by vm_compute].
Defined.

Lemma nextAvailableServerName_found_witness :
  let _ := example_storage example_array in
  nextAvailableServerName 3 two_servers = Some "Server 2"
  /\ exists i, nextAvailableServerName 3 two_servers = Some (server_name i).
Proof.
  split; [by vm_compute|].
  destruct (nextAvailableServerName_found (H := example_storage example_array) two_servers 3) as (i & Hi & _);
    [by apply Nat.ltb_lt; vm_compute | by exists i].
Defined.

Lemma removeServer_falls_back_witness :
  let _ := example_storage example_array in
  m_defaultServerId two_servers = "a" /\ m_defaultServerId (removeServer "a" two_servers) = "b".
Proof.
  split; [by vm_compute|].
  destruct (removeServer_falls_back (H := example_storage example_array) "a" [] ["b"] two_servers)
    as (_ & _ & _ & Hd & _); [apply two_servers_ok | by vm_compute |].
  etransitivity; [exact Hd | by vm_compute].
Defined.
