(* ===== verification/Failover.v ===== *)
(** * The choice of a server for a connection

    client/core/controllers/connectionController.cpp: the servers that are tried one
    after another, what the connection's signals mean for that, and what is shown.
    The configuration of a server is a parameter: only whether it can be prepared is
    decided here.  The connection runs in a thread of its own: its signals arrive in
    their order after a call of it has returned, and requests are served in theirs. *)

From stdpp Require Import base numbers list strings gmap.
From Stdlib Require Import ZArith Lia Strings.String.
From S2P Require Import Prelude Json Config NetworkUtils AppSettings Wireguard VpnConnection ServersRepository.
Open Scope string_scope.
Open Scope list_scope.
Open Scope Z_scope.

(** ** State *)

Inductive FSignal :=
| OpenRequested (serverId : string)
| CloseRequested
| StateRequested (state : ConnectionState)
| KillSwitchRequested (enabled : bool)
| Shown (state : ConnectionState)
| BytesShown (received sent : Z)
| SwitchedToBackup (serverId : string).

Record Failover := mkFailover {
  m_failoverQueue : list string;
  m_failoverIndex : Z;
  m_failoverActive : bool;
  m_wasConnecting : bool;
  m_switching : bool;
  m_failoverBudget : option Z;
  m_lastProtocolError : Z;
  sent : list FSignal
}.

Definition new_failover : Failover := mkFailover [] (-1) false false false None NoError [].

Definition fsend (e : FSignal) (f : Failover) : Failover :=
  mkFailover (m_failoverQueue f) (m_failoverIndex f) (m_failoverActive f) (m_wasConnecting f)
    (m_switching f) (m_failoverBudget f) (m_lastProtocolError f) (sent f ++ [e]).
Definition set_index (i : Z) (f : Failover) : Failover :=
  mkFailover (m_failoverQueue f) i (m_failoverActive f) (m_wasConnecting f)
    (m_switching f) (m_failoverBudget f) (m_lastProtocolError f) (sent f).
Definition set_active (b : bool) (f : Failover) : Failover :=
  mkFailover (m_failoverQueue f) (m_failoverIndex f) b (m_wasConnecting f)
    (m_switching f) (m_failoverBudget f) (m_lastProtocolError f) (sent f).
Definition set_wasConnecting (b : bool) (f : Failover) : Failover :=
  mkFailover (m_failoverQueue f) (m_failoverIndex f) (m_failoverActive f) b
    (m_switching f) (m_failoverBudget f) (m_lastProtocolError f) (sent f).
Definition set_switching (b : bool) (f : Failover) : Failover :=
  mkFailover (m_failoverQueue f) (m_failoverIndex f) (m_failoverActive f) (m_wasConnecting f)
    b (m_failoverBudget f) (m_lastProtocolError f) (sent f).
Definition set_budget (t : option Z) (f : Failover) : Failover :=
  mkFailover (m_failoverQueue f) (m_failoverIndex f) (m_failoverActive f) (m_wasConnecting f)
    (m_switching f) t (m_lastProtocolError f) (sent f).

(** ** Opening *)

Definition isSubscriptionError (code : Z) : bool := (1100 <=? code) && (code <? 1200).

Section Controller.
Context `{Storage}.

(** The result of the preparation: a server without a configuration of its kind and a
    legacy one cannot be connected to. *)
Definition prepareConnection (r : Servers) (serverId : string) : Z :=
  let has (cfg : option QJsonObject) : Z := match cfg with Some _ => NoError | None => InternalError end in
  match serverKind serverId r with
  | SelfHostedAdmin => has (selfHostedAdminConfig serverId r)
  | SelfHostedUser => has (selfHostedUserConfig serverId r)
  | Native => has (nativeConfig serverId r)
  | AmneziaPremiumV2 | AmneziaFreeV3 | ExternalPremium => has (apiV2Config serverId r)
  | AmneziaPremiumV1 | AmneziaFreeV2 => InternalError
  | SelfHosted | Invalid => InternalError
  end.

Definition launchConnection (r : Servers) (serverId : string) (f : Failover) : Z * Failover :=
  let errorCode := prepareConnection r serverId in
  (errorCode, if negb (errorCode =? NoError) then f else fsend (OpenRequested serverId) f).

Definition kMaxAttempts : Z := 3.
Definition kBudgetMs : Z := 60000.

(** The other servers in their order, as long as there is room. *)
Fixpoint fill_queue (requestedServerId : string) (ids queue : list string) : list string :=
  match ids with
  | [] => queue
  | id :: ids' =>
      if String.eqb id requestedServerId then fill_queue requestedServerId ids' queue
      else if kMaxAttempts <=? Z.of_nat (List.length queue) then queue
      else fill_queue requestedServerId ids' (queue ++ [id])
  end.

Definition failover_queue (r : Servers) (requestedServerId : string) : list string :=
  fill_queue requestedServerId (m_orderedServerIds r) [requestedServerId].

Definition startFailover (r : Servers) (requestedServerId : string) (f : Failover) : Failover :=
  let queue := failover_queue r requestedServerId in
  let active := 1 <? Z.of_nat (List.length queue) in
  mkFailover queue 0 active false false
    (if active then Some kBudgetMs else m_failoverBudget f) NoError (sent f).

Definition openConnection (r : Servers) (serverId : string) (f : Failover) : Z * Failover :=
  launchConnection r serverId (startFailover r serverId f).

(** ** The next server *)

Fixpoint try_candidates (r : Servers) (rest : list string) (f : Failover) : bool * Failover :=
  match rest with
  | [] => (false, f)
  | next :: rest' =>
      let '(code, f1) :=
        launchConnection r next (set_switching true (set_index (m_failoverIndex f + 1) f)) in
      if code =? NoError then (true, f1) else try_candidates r rest' (set_switching false f1)
  end.

Definition tryNextCandidate (r : Servers) (f : Failover) : bool * Failover :=
  if negb (m_failoverActive f) then (false, f)
  else try_candidates r (drop (Z.to_nat (m_failoverIndex f + 1)) (m_failoverQueue f)) f.

Definition finishFailover (f : Failover) : Failover :=
  mkFailover [] (-1) false (m_wasConnecting f) false None (m_lastProtocolError f) (sent f).

(** The budget is over. *)
Definition elapse_budget (ms : Z) (f : Failover) : Failover :=
  if expired (m_failoverBudget f) ms then set_active false (set_budget None f)
  else set_budget (later (m_failoverBudget f) ms) f.

(** ** Signals of the connection *)

Definition lastConnectionError (fromProtocol : Z) (f : Failover) : Z :=
  if ((fromProtocol =? NoError) || (fromProtocol =? InternalError)) && negb (m_lastProtocolError f =? NoError)
  then m_lastProtocolError f else fromProtocol.

Definition handleProtocolError (error : Z) (f : Failover) : Failover :=
  mkFailover (m_failoverQueue f) (m_failoverIndex f) (m_failoverActive f) (m_wasConnecting f)
    (m_switching f) (m_failoverBudget f) error (sent f).

(** The end of the choice, with the state shown. *)
Definition give_up_failover (state : ConnectionState) (f : Failover) : Failover :=
  fsend (Shown state) (finishFailover (set_wasConnecting false f)).

(** [fromProtocol] is the code that the connection has for its last error. *)
Definition handleConnectionState (r : Servers) (fromProtocol : Z) (state : ConnectionState) (f : Failover)
  : Failover :=
  if is_in state Connecting || is_in state Reconnecting then
    fsend (Shown state) (set_wasConnecting true (set_switching false f))
  else if m_switching f && (is_in state Disconnected || is_in state Error) then f
  else if is_in state Connected then
    let i := m_failoverIndex f in
    let f1 := if m_failoverActive f && (0 <? i) && (i <? Z.of_nat (List.length (m_failoverQueue f)))
              then fsend (SwitchedToBackup (nth (Z.to_nat i) (m_failoverQueue f) EmptyString)) f else f in
    give_up_failover state f1
  else
    let failed := is_in state Error || (is_in state Disconnected && m_wasConnecting f) in
    if failed && isSubscriptionError (lastConnectionError fromProtocol f) then give_up_failover state f
    else
      let '(next, f1) := if failed then tryNextCandidate r f else (false, f) in
      if next then fsend (Shown Connecting) f1 else give_up_failover state f1.

(** ** Requests *)

Definition closeConnection (f : Failover) : Failover := fsend CloseRequested f.
Definition onKillSwitchModeChanged (enabled : bool) (f : Failover) : Failover :=
  fsend (KillSwitchRequested enabled) f.
Definition setConnectionState (state : ConnectionState) (f : Failover) : Failover :=
  fsend (StateRequested state) f.

(** A signal of the connection. *)
Definition hear (r : Servers) (fromProtocol : Z) (f : Failover) (e : CSignal) : Failover :=
  match e with
  | CState st => handleConnectionState r fromProtocol st f
  | CError code => handleProtocolError code f
  | CBytes rx tx => fsend (BytesShown rx tx) f
  end.

(** ** The controller and the connection together *)

Definition launches (l : list FSignal) : list string :=
  omap (fun e => match e with OpenRequested id => Some id | _ => None end) l.
Definition shown (l : list FSignal) : list ConnectionState :=
  omap (fun e => match e with Shown st => Some st | _ => None end) l.
Definition told_backups (l : list FSignal) : list string :=
  omap (fun e => match e with SwitchedToBackup id => Some id | _ => None end) l.

(** The requests are those that wait for the connection. *)
Record System := mkSystem { controller : Failover; connection : Connection; requests : list string }.

(** A call of the connection, whose signals the controller hears; the code is read when
    the call has returned. *)
Definition settle (r : Servers) (c : Connection) (sys : System) : System :=
  let f := controller sys in
  let f' := fold_left (hear r (default InternalError (lastError c)))
              (drop (List.length (csignals (connection sys))) (csignals c)) f in
  mkSystem f' c (requests sys ++ launches (drop (List.length (sent f)) (sent f'))).

(** Something happens to the protocol; the time is the same for both. *)
Definition world_event (r : Servers) (sys : System) (e : PEvent) : System :=
  settle r (protocol_happens e (connection sys))
    (mkSystem (elapse_budget (ms_of e) (controller sys)) (connection sys) (requests sys)).

(** The person closes the connection. *)
Definition close (r : Servers) (sys : System) : System :=
  settle r (disconnectFromVpn (connection sys))
    (mkSystem (closeConnection (controller sys)) (connection sys) (requests sys)).

(** What a server does once it is asked: it answers the probe, the handshake works but
    nothing passes, it is silent, or the daemon refuses. *)
Inductive Fate := Answers (reply : nat) | NoTraffic | Silent | Refused.

Definition fate_events (x : Fate) : list PEvent :=
  match x with
  | Answers reply => [SocketConnected; ProbeFinished reply true 204]
  | NoTraffic => [SocketConnected; Elapse kProbeDeadlineMs]
  | Silent => [Elapse kTimeoutMs]
  | Refused => [SocketFailure]
  end.

Section System.
Context `{Qt}.
Variables (names : string -> list string) (s : AppSettings) (r : Servers).
Variables (configuration : string -> QJsonObject) (fate : string -> Fate).

(** The configuration that the protocol is given, and whether its names are found. *)
Definition full_configuration (id : string) : option QJsonObject :=
  appendSplitTunnelingConfig s (appendKillSwitchConfig s (configuration id)).
Definition resolves (id : string) : bool :=
  match full_configuration id with
  | Some o => (resolve_config names o).1 =? NoError
  | None => false
  end.

(** A request is served, and the server meets its fate. *)
Definition serve (sys : System) : option System :=
  match requests sys with
  | [] => Some sys
  | id :: rest =>
      match connectToVpn names true (configuration id) s (connection sys) with
      | None => None
      | Some c =>
          Some (fold_left (world_event r) (if resolves id then fate_events (fate id) else [])
                  (settle r c (mkSystem (controller sys) (connection sys) rest)))
      end
  end.

Fixpoint serve_all (fuel : nat) (sys : System) : option System :=
  match fuel with
  | O => Some sys
  | S n => match serve sys with Some sys' => serve_all n sys' | None => None end
  end.

(** ** Specification *)

(** A server that can be connected to. *)
Definition works (id : string) : bool :=
  resolves id && match fate id with Answers _ => true | _ => false end.

Definition prepared (id : string) : bool := prepareConnection r id =? NoError.

(** The servers that are asked: up to the first that works. *)
Fixpoint asked (l : list string) : list string :=
  match l with
  | [] => []
  | id :: l' => if works id then [id] else id :: asked l'
  end.

(** The states that are shown when the last server has failed. *)
Definition last_states (id : string) : list ConnectionState :=
  if resolves id then [Error; Disconnected] else [Error; Disconnected; Error].

(** What the controller sends once the first of some servers was asked; [backup] tells
    whether that was not the one that was chosen. *)
Fixpoint attempts_trace (backup : bool) (l : list string) : list FSignal :=
  match l with
  | [] => []
  | id :: l' =>
      [Shown Connecting; Shown Connecting]
      ++ (if works id then (if backup then [SwitchedToBackup id] else []) ++ [Shown Connected]
          else match l' with
               | [] => map Shown (last_states id)
               | next :: _ => [OpenRequested next; Shown Connecting] ++ attempts_trace true l'
               end)
  end.
End System.

(** A protocol that was just started. *)
Definition started (o : QJsonObject) : Protocol :=
  mkProtocol Connecting None (Some kTimeoutMs) 0 0 EmptyString EmptyString o false
    (mkProbe false None None [] 0) false [].

(** What the connection tells of an attempt that cannot begin, and of one that fails. *)
Definition told_failure (code : Z) : list CSignal := [CState Error; CError code; CState Disconnected].
Definition told_no_address : list CSignal :=
  [CState Connecting; CState Connecting] ++ told_failure AddressPoolError
  ++ [CState Error; CError AddressPoolError].

(** The servers that are tried after one. *)
Definition other_servers (r : Servers) (id : string) : list string :=
  take 2 (List.filter (fun x => negb (String.eqb x id)) (m_orderedServerIds r)).

(** The server [x] of the queue is being tried, and more than [n] milliseconds are left
    where there are others. *)
Definition at_server (n : Z) (pre : list string) (x : string) (rest : list string) (f : Failover) : Prop :=
  m_failoverQueue f = pre ++ x :: rest /\ m_failoverIndex f = Z.of_nat (List.length pre)
  /\ (m_failoverActive f = true /\ (exists t, m_failoverBudget f = Some t /\ n < t)
      \/ m_failoverActive f = false /\ pre = [] /\ rest = []).

(** Codes that do not stop the choice and that the connection has for itself. *)
Definition plain_code (code : Z) : Prop :=
  isSubscriptionError code = false /\ code <> NoError /\ code <> InternalError.

(** What is left after the server [x] has failed: [states] are shown if it was the last. *)
Definition moved_on (r : Servers) (n : Z) (pre : list string) (x : string) (rest : list string)
    (states : list ConnectionState) (out : list FSignal) (sys : System) : Prop :=
  (exists l1 y l2, List.filter (prepared r) rest = y :: List.filter (prepared r) l2
     /\ (List.length l2 < List.length rest)%nat
     /\ at_server n (pre ++ x :: l1) y l2 (controller sys) /\ requests sys = [y]
     /\ sent (controller sys) = out ++ [OpenRequested y; Shown Connecting])
  \/ (List.filter (prepared r) rest = [] /\ m_failoverActive (controller sys) = false /\ requests sys = []
      /\ sent (controller sys) = out ++ map Shown states).

(** A connection without a protocol that could say something. *)
Definition idle (c : Connection) : Prop :=
  match m_vpnProtocol c with
  | Some p => m_connectionState p = Disconnected
  | None => True
  end.

(** The servers that were asked after those in [l0] begin with [l1] and are among [q0],
    in its order. *)
Definition bounded (l0 l1 q0 : list string) (f : Failover) : Prop :=
  exists l, launches (sent f) = l0 ++ l1 ++ l /\ l1 ++ l `sublist_of` q0
    /\ (m_failoverActive f = true ->
        m_failoverQueue f = q0 /\ 0 <= m_failoverIndex f
        /\ l1 ++ l `sublist_of` take (Z.to_nat (m_failoverIndex f + 1)) q0).

(** What happens to the controller after a connection was asked for. *)
Inductive FEvent :=
| Hears (r : Servers) (fromProtocol : Z) (e : CSignal)
| BudgetElapses (ms : Z)
| CloseAsked
| KillSwitchChanged (enabled : bool)
| StateAsked (state : ConnectionState).

Definition failover_event (f : Failover) (e : FEvent) : Failover :=
  match e with
  | Hears r code e => hear r code f e
  | BudgetElapses ms => elapse_budget ms f
  | CloseAsked => closeConnection f
  | KillSwitchChanged b => onKillSwitchModeChanged b f
  | StateAsked st => setConnectionState st f
  end.
End Controller.

(** The last event of an attempt that fails, and the code that is told. *)
Definition fails_with (p : Protocol) (e : PEvent) (code : Z) : Prop :=
  forall c, m_vpnProtocol c = Some p ->
  let c' := protocol_happens e c in
  csignals c' = csignals c ++ told_failure code /\ idle c' /\ lastError c' = Some code.

(** What is sent when the server [x] is connected to. *)
Definition connected_out (pre : list string) (x : string) : list FSignal :=
  (if bool_decide (pre = []) then [] else [SwitchedToBackup x]) ++ [Shown Connected].

(** ** Lemmas *)

(** The fields of the controller. *)
Ltac controller :=
  cbn [m_failoverQueue m_failoverIndex m_failoverActive m_wasConnecting m_switching m_failoverBudget
       m_lastProtocolError sent fsend set_index set_active set_wasConnecting set_switching set_budget
       finishFailover give_up_failover handleProtocolError] in *.

Lemma launches_app (l1 l2 : list FSignal) : launches (l1 ++ l2) = launches l1 ++ launches l2.
Proof. apply omap_app. Qed.

Section Lemmas.
Context `{Storage}.

Lemma fill_queue_spec (req : string) (ids queue : list string) :
  fill_queue req ids queue
  = queue ++ take (3 - List.length queue) (List.filter (fun id => negb (String.eqb id req)) ids).
Proof.
  revert queue. induction ids as [|id ids IH]; intros queue; cbn [fill_queue List.filter].
  - by rewrite take_nil, app_nil_r.
  - destruct (String.eqb id req); cbn [negb]; [apply IH|].
    destruct (Z.leb_spec kMaxAttempts (Z.of_nat (List.length queue))) as [Hq|Hq]; unfold kMaxAttempts in Hq.
    + replace (3 - List.length queue)%nat with 0%nat by lia. by rewrite app_nil_r.
    + rewrite IH, length_app. cbn [List.length].
      replace (3 - List.length queue)%nat with (S (3 - (List.length queue + 1)))%nat by lia.
      by rewrite <- app_assoc.
Qed.

Lemma failover_queue_spec (r : Servers) (id : string) : failover_queue r id = id :: other_servers r id.
Proof. apply fill_queue_spec. Qed.

Lemma failover_queue_length (r : Servers) (id : string) : (List.length (failover_queue r id) <= 3)%nat.
Proof. rewrite failover_queue_spec. unfold other_servers. cbn [List.length]. rewrite length_take. lia. Qed.

Lemma failover_queue_NoDup (r : Servers) (id : string) : servers_ok r -> NoDup (failover_queue r id).
Proof.
  intros ((Hd & _) & _). rewrite failover_queue_spec. unfold other_servers.
  set (l := List.filter _ _). assert (Hl : NoDup l) by (by apply NoDup_ListNoDup, List.NoDup_filter, NoDup_ListNoDup).
  apply NoDup_cons. split.
  - intros Hin. apply (fun H => elem_of_sublist _ _ _ H (sublist_take l 2)) in Hin.
    apply list_elem_of_In, List.filter_In in Hin as [_ Hin]. by rewrite String.eqb_refl in Hin.
  - by apply (sublist_NoDup _ l); [|apply sublist_take].
Qed.

(** What the search for the next server does: it stops at the first that is prepared. *)
Lemma try_candidates_spec (r : Servers) (rest : list string) (f : Failover) :
  (exists l1 y l2, rest = l1 ++ y :: l2 /\ List.filter (prepared r) rest = y :: List.filter (prepared r) l2
     /\ try_candidates r rest f
        = (true, fsend (OpenRequested y)
                   (set_switching true (set_index (m_failoverIndex f + Z.of_nat (List.length l1) + 1) f))))
  \/ (List.filter (prepared r) rest = []
      /\ exists i sw, try_candidates r rest f = (false, set_switching sw (set_index i f))).
Proof.
  revert f. induction rest as [|x rest IH]; intros f; cbn [try_candidates List.filter].
  - right. split; [done|]. exists (m_failoverIndex f), (m_switching f). by destruct f.
  - unfold launchConnection. destruct (prepared r x) eqn:Hx; unfold prepared in Hx; rewrite Hx; cbn [negb].
    + left. exists [], x, rest. split_and!; [done..|]. cbn [List.length].
      by replace (m_failoverIndex f + Z.of_nat 0 + 1) with (m_failoverIndex f + 1) by lia.
    + destruct (IH (set_switching false (set_switching true (set_index (m_failoverIndex f + 1) f))))
        as [(l1 & y & l2 & -> & Hf & Ht) | (Hf & i & sw & Ht)]; rewrite Ht.
      * left. exists (x :: l1), y, l2. split_and!; [done..|]. controller. cbn [List.length].
        by replace (m_failoverIndex f + Z.of_nat (S (List.length l1)) + 1)
          with (m_failoverIndex f + 1 + Z.of_nat (List.length l1) + 1) by lia.
      * right. split; [done|]. by exists i, sw.
Qed.

Lemma bounded_send (l0 p0 q0 : list string) (e : FSignal) (f : Failover) :
  launches [e] = [] -> bounded l0 p0 q0 f -> bounded l0 p0 q0 (fsend e f).
Proof.
  intros He (l & Hl & Hs & Ha). exists l. controller. by rewrite launches_app, He, app_nil_r.
Qed.

Lemma bounded_give_up (l0 p0 q0 : list string) (st : ConnectionState) (f : Failover) :
  bounded l0 p0 q0 f -> bounded l0 p0 q0 (give_up_failover st f).
Proof. intros (l & Hl & Hs & _). apply bounded_send; [done|]. by exists l. Qed.

(** The list up to the server that is found. *)
Lemma take_found (k : nat) (q l1 l2 : list string) (y : string) :
  drop k q = l1 ++ y :: l2 -> take (k + (List.length l1 + 1)) q = take k q ++ l1 ++ [y].
Proof.
  intros Hd. rewrite <- take_take_drop, Hd, take_app_add. done.
Qed.

Lemma bounded_next (l0 p0 q0 : list string) (r : Servers) (st : ConnectionState) (f : Failover) :
  bounded l0 p0 q0 f ->
  bounded l0 p0 q0 (let '(next, f1) := tryNextCandidate r f in
                 if next then fsend (Shown Connecting) f1 else give_up_failover st f1).
Proof.
  intros Hf. pose proof Hf as (l & Hl & Hs & Ha). unfold tryNextCandidate.
  destruct (m_failoverActive f) eqn:E; cbn [negb]; [|by apply bounded_give_up].
  destruct (Ha eq_refl) as (Hq & Hi & Ht). rewrite Hq.
  destruct (try_candidates_spec r (drop (Z.to_nat (m_failoverIndex f + 1)) q0) f)
    as [(l1 & y & l2 & Hd & _ & Hr) | (_ & i & sw & Hr)]; rewrite Hr; cbv iota.
  - apply bounded_send; [done|]. pose proof (take_found _ _ _ _ _ Hd) as Htake.
    assert (Hl' : p0 ++ l ++ [y] `sublist_of` take (Z.to_nat (m_failoverIndex f + 1) + (List.length l1 + 1)) q0).
    { rewrite Htake, app_assoc. apply sublist_app; [done|]. by apply sublist_inserts_l. }
    exists (l ++ [y]). controller. rewrite launches_app, Hl, <- !app_assoc. split_and!; [done|..].
    + etrans; [exact Hl'|]. apply sublist_take.
    + intros _. split_and!; [done | lia |].
      by replace (Z.to_nat (m_failoverIndex f + Z.of_nat (List.length l1) + 1 + 1))
        with (Z.to_nat (m_failoverIndex f + 1) + (List.length l1 + 1))%nat by lia.
  - apply bounded_send; [done|]. exists l. by controller.
Qed.

Lemma bounded_handle (l0 p0 q0 : list string) (r : Servers) (code : Z) (st : ConnectionState) (f : Failover) :
  bounded l0 p0 q0 f -> bounded l0 p0 q0 (handleConnectionState r code st f).
Proof.
  intros Hf. unfold handleConnectionState. destruct (_ || _); [by apply bounded_send|].
  destruct (m_switching f && _); [done|]. destruct (is_in st Connected).
  - apply bounded_give_up. destruct (_ && _); [by apply bounded_send | done].
  - destruct (_ && isSubscriptionError _); [by apply bounded_give_up|].
    destruct (is_in st Error || _); [by apply bounded_next | by apply bounded_give_up].
Qed.

Lemma bounded_event (l0 p0 q0 : list string) (f : Failover) (e : FEvent) :
  bounded l0 p0 q0 f -> bounded l0 p0 q0 (failover_event f e).
Proof.
  intros Hf. destruct e as [r code [st|c|rx tx] | ms | | b | st]; cbn [failover_event hear].
  - by apply bounded_handle.
  - destruct Hf as (l & Hl). by exists l.
  - by apply bounded_send.
  - destruct Hf as (l & Hl & Hs & Ha). exists l. unfold elapse_budget. destruct (expired _ _); by controller.
  - by apply bounded_send.
  - by apply bounded_send.
  - by apply bounded_send.
Qed.
Lemma bounded_run (l0 p0 q0 : list string) (events : list FEvent) (f : Failover) :
  bounded l0 p0 q0 f -> bounded l0 p0 q0 (fold_left failover_event events f).
Proof.
  revert f. induction events as [|e events IH]; intros f Hf; [done|]. by apply IH, bounded_event.
Qed.

Lemma openConnection_bounded (r : Servers) (id : string) (f : Failover) :
  bounded (launches (sent f)) (if prepared r id then [id] else []) (failover_queue r id) (openConnection r id f).2.
Proof.
  unfold openConnection, launchConnection. fold (prepared r id). cbn [snd].
  exists []. destruct (prepared r id); cbn [negb]; controller.
  - rewrite launches_app. split_and!; [done|..|intros _; split_and!; [done..|]]; rewrite failover_queue_spec;
      apply sublist_skip, sublist_nil_l.
  - rewrite app_nil_r. split_and!; [done | apply sublist_nil_l | intros _; split_and!; [done..|]; apply sublist_nil_l].
Qed.
End Lemmas.

Section ConnectionLemmas.
Context `{Qt}.
Variables (names : string -> list string) (s : AppSettings) (o0 o : QJsonObject).
Hypothesis Hfull : appendSplitTunnelingConfig s (appendKillSwitchConfig s o0) = Some o.

Lemma resolve_code (c : QJsonObject) :
  (resolve_config names c).1 = NoError \/ (resolve_config names c).1 = AddressPoolError.
Proof. unfold resolve_config. repeat case_match; by (left + right). Qed.

(** The connection when it has let go of a protocol that had stopped. *)
Lemma connect_start (c : Connection) :
  idle c ->
  exists c3, connectToVpn names true o0 s c = Some (start_protocol names (new_protocol o) c3)
    /\ c_state c3 = Some Connecting /\ csignals c3 = csignals c ++ [CState Connecting].
Proof.
  intros Hi. unfold connectToVpn. rewrite c_set_other by done. connection.
  destruct (m_vpnProtocol c) as [p|] eqn:Hp.
  - unfold idle in Hi. rewrite Hp in Hi. rewrite release_spec, Hi.
    change (is_in Disconnected Disconnected) with true. cbv iota. connection. rewrite Hfull. by eexists.
  - connection. rewrite Hfull. by eexists.
Qed.

Lemma start_new (code : Z) (o' : QJsonObject) :
  resolve_config names o = (code, o') ->
  start names (silent (new_protocol o))
  = (code, if code =? NoError then send (Activate o') (send (StateChanged Connecting) (started o'))
           else failConnection code (send (StateChanged Connecting) (started o'))).
Proof.
  intros E. unfold start, startMzImpl.
  change (m_rawConfig (Wireguard.setConnectionState Connecting (set_reported false (silent (new_protocol o)))))
    with o.
  rewrite E. by destruct (code =? NoError).
Qed.

Lemma connect_works (c : Connection) :
  idle c -> (resolve_config names o).1 = NoError ->
  exists c', connectToVpn names true o0 s c = Some c' /\ c_state c' = Some Connecting
    /\ csignals c' = csignals c ++ [CState Connecting; CState Connecting]
    /\ m_vpnProtocol c' = Some (started (resolve_config names o).2).
Proof.
  intros Hi Hr. destruct (connect_start c Hi) as (c3 & -> & Hs & Hc). eexists. split; [done|].
  destruct (resolve_config names o) as [code o'] eqn:E. cbn [fst snd] in *. subst code.
  unfold start_protocol. rewrite (start_new _ _ E). change (NoError =? NoError) with true. cbv iota.
  cbn [negb]. unfold deliver. cbn [outputs send started fold_left receive app]. rewrite c_set_other by done. connection.
  by rewrite Hc, <- app_assoc.
Qed.

Lemma connect_fails (c : Connection) :
  idle c -> (resolve_config names o).1 <> NoError ->
  exists c', connectToVpn names true o0 s c = Some c' /\ csignals c' = csignals c ++ told_no_address
    /\ idle c' /\ lastError c' = Some AddressPoolError.
Proof.
  intros Hi Hr. destruct (connect_start c Hi) as (c3 & -> & Hs & Hc). eexists. split; [done|].
  destruct (resolve_code o) as [|Hr']; [done|].
  destruct (resolve_config names o) as [code o'] eqn:E. cbn [fst snd] in *. subst code.
  unfold start_protocol. rewrite (start_new _ _ E). change (AddressPoolError =? NoError) with false. cbv iota.
  cbn [negb]. set (p := failConnection _ _).
  assert (Ho : outputs p = [StateChanged Connecting; StateChanged Error; ProtocolError AddressPoolError; Deactivate;
                            StateChanged Disconnected]) by done.
  unfold deliver. rewrite Ho. cbn [fold_left receive].
  rewrite !(c_set_other Connecting), !(c_set_other Error) by done.
  rewrite c_set_disconnected by done. connection. split_and!; [|done..].
  by rewrite Hc, <- !app_assoc.
Qed.
End ConnectionLemmas.

(** An attempt as the controller hears it. *)
Section HearLemmas.
Context `{Storage}.
Variable r : Servers.

Lemma at_server_elapse (n ms : Z) (pre : list string) (x : string) (rest : list string) (f : Failover) :
  0 <= ms <= n -> at_server n pre x rest f ->
  let f' := elapse_budget ms f in
  at_server (n - ms) pre x rest f' /\ m_wasConnecting f' = m_wasConnecting f
  /\ m_switching f' = m_switching f /\ sent f' = sent f.
Proof.
  intros Hms (Hq & Hi & Ha). unfold elapse_budget.
  destruct Ha as [(Ha & t & Ht & Hn) | (Ha & Hp & Hr)].
  - rewrite Ht. cbn [expired]. destruct (Z.leb_spec t ms); [lia|]. split_and!; [|done..].
    split_and!; [done..|]. left. split; [done|]. exists (t - ms). split; [done | lia].
  - destruct (expired _ _); split_and!; try done; split_and!; try done; by right.
Qed.

Lemma handle_connecting (code : Z) (f : Failover) :
  handleConnectionState r code Connecting f = fsend (Shown Connecting) (set_wasConnecting true (set_switching false f)).
Proof. done. Qed.

Lemma hear_connecting (n code : Z) (pre : list string) (x : string) (rest : list string) (f : Failover) :
  at_server n pre x rest f ->
  let f' := fold_left (hear r code) [CState Connecting; CState Connecting] f in
  at_server n pre x rest f' /\ m_wasConnecting f' = true /\ m_switching f' = false
  /\ sent f' = sent f ++ [Shown Connecting; Shown Connecting].
Proof.
  intros Hf. cbn [fold_left hear]. rewrite !handle_connecting. controller. by rewrite <- app_assoc.
Qed.

Lemma hear_connected (n code : Z) (pre : list string) (x : string) (rest : list string) (f : Failover) :
  at_server n pre x rest f -> m_switching f = false ->
  let f' := hear r code f (CState Connected) in
  m_failoverActive f' = false
  /\ sent f' = sent f ++ (if bool_decide (pre = []) then [] else [SwitchedToBackup x]) ++ [Shown Connected].
Proof.
  intros (Hq & Hi & Ha) Hs. cbn [hear]. unfold handleConnectionState. rewrite Hs, Hi, Hq.
  cbn [is_in bool_decide orb andb]. change (is_in Connected Connecting || is_in Connected Reconnecting) with false.
  change (is_in Connected Connected) with true. cbv iota.
  destruct pre as [|y pre].
  - rewrite andb_false_r. done.
  - destruct Ha as [(-> & _) | (_ & ? & _)]; [|done].
    replace ((0 <? Z.of_nat (List.length (y :: pre)))) with true by (symmetry; apply Z.ltb_lt; cbn [List.length]; lia).
    rewrite length_app. replace (_ <? _) with true by (symmetry; apply Z.ltb_lt; cbn [List.length]; lia).
    cbn [andb]. rewrite Nat2Z.id, app_nth2, Nat.sub_diag by lia. cbn [nth]. controller.
    by rewrite <- app_assoc.
Qed.

Lemma tryNext_spec (n : Z) (pre : list string) (x : string) (rest : list string) (f : Failover) :
  at_server n pre x rest f ->
  (exists l1 y l2 f1, List.filter (prepared r) rest = y :: List.filter (prepared r) l2
     /\ (List.length l2 < List.length rest)%nat
     /\ tryNextCandidate r f = (true, f1) /\ at_server n (pre ++ x :: l1) y l2 f1 /\ m_switching f1 = true
     /\ sent f1 = sent f ++ [OpenRequested y])
  \/ (List.filter (prepared r) rest = [] /\ exists f1, tryNextCandidate r f = (false, f1) /\ sent f1 = sent f).
Proof.
  intros (Hq & Hi & Ha). unfold tryNextCandidate. destruct Ha as [(Ha & Hb) | (Ha & -> & ->)]; rewrite Ha; cbn [negb].
  2: { right. split; [done|]. by exists f. }
  rewrite Hq, Hi. replace (drop _ _) with rest.
  2: { replace (Z.to_nat _) with (List.length (pre ++ [x])) by (rewrite length_app; cbn [List.length]; lia).
       change (x :: rest) with ([x] ++ rest). by rewrite app_assoc, drop_app_length. }
  destruct (try_candidates_spec r rest f) as [(l1 & y & l2 & -> & Hf & Hr) | (Hf & i & sw & Hr)]; rewrite Hr.
  - left. exists l1, y, l2. eexists. split_and!; [done | rewrite length_app; cbn [List.length]; lia | done | | done..].
    split_and!; controller; [by rewrite Hq, <- app_assoc | rewrite Hi, length_app; cbn [List.length]; lia |].
    left. by split.
  - right. split; [done|]. by eexists.
Qed.

(** A failure moves on to the next server that is prepared, or it is shown. *)
Lemma hear_failure (n code : Z) (pre : list string) (x : string) (rest : list string) (f : Failover) :
  isSubscriptionError code = false -> code <> NoError -> code <> InternalError ->
  at_server n pre x rest f -> m_switching f = false ->
  let f' := fold_left (hear r code) (told_failure code) f in
  (exists l1 y l2, List.filter (prepared r) rest = y :: List.filter (prepared r) l2
     /\ (List.length l2 < List.length rest)%nat
     /\ at_server n (pre ++ x :: l1) y l2 f' /\ m_switching f' = true
     /\ sent f' = sent f ++ [OpenRequested y; Shown Connecting])
  \/ (List.filter (prepared r) rest = [] /\ m_failoverActive f' = false /\ m_switching f' = false
      /\ sent f' = sent f ++ [Shown Error; Shown Disconnected]).
Proof.
  intros Hsub Hn Hint Hf Hs. cbn [fold_left told_failure hear].
  assert (He : lastConnectionError code f = code).
  { unfold lastConnectionError. by rewrite (proj2 (Z.eqb_neq code NoError)), (proj2 (Z.eqb_neq code InternalError)). }
  set (f1 := handleConnectionState r code Error f).
  assert (H1 : f1 = let '(next, f1) := tryNextCandidate r f in
                    if next then fsend (Shown Connecting) f1 else give_up_failover Error f1).
  { unfold f1, handleConnectionState. rewrite Hs, He, Hsub, andb_false_r. done. }
  destruct (tryNext_spec n pre x rest f Hf)
    as [(l1 & y & l2 & f2 & Hl & Hlen & Ht & Hat & Hsw & Hse) | (Hl & f2 & Ht & Hse)];
    rewrite Ht in H1; rewrite H1.
  - left. exists l1, y, l2. unfold handleConnectionState. controller. rewrite Hsw.
    change (is_in Disconnected Connecting || is_in Disconnected Reconnecting) with false.
    change (true && (is_in Disconnected Disconnected || is_in Disconnected Error)) with true. cbv iota. controller.
    rewrite Hse, <- app_assoc. done.
  - right. rewrite <- Hse. unfold handleConnectionState. controller.
    change (is_in Disconnected Connecting || is_in Disconnected Reconnecting) with false.
    change (is_in Disconnected Connected) with false. change (is_in Disconnected Error) with false.
    cbn [andb orb]. rewrite andb_false_r. cbn [andb]. controller. by rewrite <- app_assoc.
Qed.

(** The second report of an attempt that could not begin. *)
Lemma hear_again (code k : Z) (f : Failover) :
  isSubscriptionError code = false -> code <> NoError -> code <> InternalError ->
  let f' := fold_left (hear r code) [CState Error; CError k] f in
  (m_switching f = true -> f' = handleProtocolError k f)
  /\ (m_switching f = false -> m_failoverActive f = false ->
      m_failoverActive f' = false /\ sent f' = sent f ++ [Shown Error]).
Proof.
  intros Hsub Hn Hint. cbn [fold_left hear]. unfold handleConnectionState.
  change (is_in Error Connecting || is_in Error Reconnecting) with false. split; intros Hs; rewrite Hs; [done|].
  intros Ha. cbn [andb]. change (is_in Error Connected) with false. change (is_in Error Error) with true.
  cbv iota. cbn [orb andb]. unfold lastConnectionError.
  rewrite (proj2 (Z.eqb_neq code NoError)), (proj2 (Z.eqb_neq code InternalError)) by done. cbn [orb andb].
  rewrite Hsub. unfold tryNextCandidate. by rewrite Ha.
Qed.
End HearLemmas.

Lemma openConnection_at_server `{Storage} (r : Servers) (id : string) (f : Failover) :
  prepared r id = true ->
  at_server (kTimeoutMs * (1 + Z.of_nat (List.length (other_servers r id)))) [] id (other_servers r id)
    (openConnection r id f).2.
Proof.
  intros Hp. unfold openConnection, launchConnection. fold (prepared r id). rewrite Hp. cbn [negb snd].
  pose proof (failover_queue_length r id) as Hlen. unfold startFailover. rewrite failover_queue_spec in *.
  cbn [List.length] in *. split_and!; [done..|]. controller. destruct (other_servers r id) as [|y l] eqn:Ho.
  - by right.
  - left. replace (1 <? _) with true by (symmetry; apply Z.ltb_lt; cbn [List.length]; lia). split; [done|].
    exists kBudgetMs. split; [done|]. unfold kBudgetMs, kTimeoutMs. cbn [List.length] in *. lia.
Qed.

Lemma hear_close `{Storage} (r : Servers) (code : Z) (f : Failover) :
  fold_left (hear r code) [CState Disconnecting; CState Disconnected] f
  = give_up_failover Disconnected (give_up_failover Disconnecting f).
Proof.
  cbn [fold_left hear]. unfold handleConnectionState at 2.
  change (is_in Disconnecting Connecting || is_in Disconnecting Reconnecting) with false.
  change (is_in Disconnecting Disconnected || is_in Disconnecting Error) with false.
  rewrite andb_false_r. reflexivity.
Qed.

(** An attempt as the connection tells it. *)
Section FateLemmas.
Context `{Storage}.
Variable r : Servers.

Lemma at_server_weaken (n n' : Z) (pre : list string) (x : string) (rest : list string) (f : Failover) :
  n' <= n -> at_server n pre x rest f -> at_server n' pre x rest f.
Proof.
  intros Hn (Hq & Hi & Ha). split_and!; [done..|]. destruct Ha as [(Ha & t & Ht & Hlt) | Ha]; [left | by right].
  split; [done|]. exists t. split; [done | lia].
Qed.

Lemma settle_spec (c c' : Connection) (f : Failover) (reqs : list string) (news : list CSignal)
    (out : list FSignal) :
  csignals c' = csignals c ++ news ->
  let f' := fold_left (hear r (default InternalError (lastError c'))) news f in
  sent f' = sent f ++ out -> settle r c' (mkSystem f c reqs) = mkSystem f' c' (reqs ++ launches out).
Proof.
  intros Hc f' Hs. unfold settle. cbn [controller connection requests]. rewrite Hc, drop_app_length.
  fold f'. by rewrite Hs, drop_app_length.
Qed.

Lemma settle_nothing (c c' : Connection) (f : Failover) (reqs : list string) :
  csignals c' = csignals c -> settle r c' (mkSystem f c reqs) = mkSystem f c' reqs.
Proof.
  intros Hc. unfold settle. cbn [controller connection requests].
  rewrite Hc, drop_all. cbn [fold_left]. by rewrite drop_all, app_nil_r.
Qed.

(** The daemon has connected: nothing is told while the probe is under way. *)
Lemma socket_connected (o : QJsonObject) (c : Connection) :
  m_vpnProtocol c = Some (started o) ->
  protocol_happens SocketConnected c = set_protocol (Some (silent (on_connected (started o)))) c.
Proof.
  intros Hp. unfold protocol_happens. rewrite Hp. change (silent (started o)) with (started o).
  cbn [protocol_event]. unfold deliver. destruct (on_connected_probe (started o)) as (_ & _ & ->); done.
Qed.

Lemma fate_answers (reply : nat) (o : QJsonObject) (c : Connection) :
  m_vpnProtocol c = Some (silent (on_connected (started o))) -> c_state c = Some Connecting ->
  csignals (protocol_happens (ProbeFinished reply true 204) c) = csignals c ++ [CState Connected].
Proof. intros Hp Hc. unfold protocol_happens. by rewrite Hp. Qed.

Lemma told_by (code : Z) (p : Protocol) (c : Connection) :
  outputs p = [StateChanged Error; ProtocolError code; Deactivate; StateChanged Disconnected]
  \/ outputs p = [StateChanged Error; ProtocolError code; TimeoutTimerEvent; Deactivate; StateChanged Disconnected] ->
  csignals (deliver true p c) = csignals c ++ told_failure code.
Proof.
  intros [Ho|Ho]; unfold deliver; rewrite Ho; cbn [fold_left receive]; rewrite (c_set_other Error) by done;
    rewrite c_set_disconnected by done; connection; by rewrite <- !app_assoc.
Qed.

Lemma silent_fails (o : QJsonObject) : fails_with (started o) (Elapse kTimeoutMs) VpnTunnelDidNotComeUpError.
Proof.
  intros c Hp. unfold protocol_happens. rewrite Hp. split_and!; [|done..]. apply told_by. by right.
Qed.

Lemma refused_fails (o : QJsonObject) : fails_with (started o) SocketFailure AmneziaServiceConnectionFailed.
Proof.
  intros c Hp. unfold protocol_happens. rewrite Hp. split_and!; [|done..]. apply told_by. by left.
Qed.

Lemma no_traffic_fails (o : QJsonObject) :
  fails_with (silent (on_connected (started o))) (Elapse kProbeDeadlineMs) VpnTunnelDidNotComeUpError.
Proof.
  intros c Hp. unfold protocol_happens. rewrite Hp. split_and!; [|done..]. apply told_by. by left.
Qed.

Lemma failure_settles (n : Z) (pre : list string) (x : string) (rest : list string) (f : Failover)
    (c c' : Connection) (code : Z) :
  plain_code code -> at_server n pre x rest f -> m_switching f = false ->
  csignals c' = csignals c ++ told_failure code -> lastError c' = Some code ->
  moved_on r n pre x rest [Error; Disconnected] (sent f) (settle r c' (mkSystem f c [])).
Proof.
  intros (Hsub & Hn & Hi) Hf Hs Hc Hl.
  destruct (hear_failure r n code pre x rest f Hsub Hn Hi Hf Hs)
    as [(l1 & y & l2 & Hy & Hlen & Hat & _ & Hse) | (Hy & Ha & _ & Hse)];
    erewrite settle_spec by (rewrite ?Hl; done).
  - left. exists l1, y, l2. cbn [controller requests]. by rewrite Hl.
  - right. cbn [controller requests]. by rewrite Hl.
Qed.

(** The last event of an attempt that fails. *)
Lemma fail_event (n : Z) (pre : list string) (x : string) (rest : list string) (f : Failover)
    (c : Connection) (p : Protocol) (e : PEvent) (code : Z) :
  plain_code code -> 0 <= ms_of e <= n -> at_server n pre x rest f -> m_switching f = false ->
  m_vpnProtocol c = Some p -> fails_with p e code ->
  let sys := world_event r (mkSystem f c []) e in
  idle (connection sys) /\ moved_on r (n - ms_of e) pre x rest [Error; Disconnected] (sent f) sys.
Proof.
  intros Hcode Hms Hf Hs Hp Hfail. destruct (Hfail c Hp) as (Hc & Hi & Hl). unfold world_event.
  cbn [controller connection requests]. split; [done|].
  destruct (at_server_elapse n (ms_of e) pre x rest f Hms Hf) as (Hf' & _ & Hs' & <-).
  apply (failure_settles _ _ _ _ _ _ _ code); [done | done | by rewrite Hs' | done | done].
Qed.

Lemma moved_on_weaken (n n' : Z) (pre : list string) (x : string) (rest : list string)
    (states : list ConnectionState) (out : list FSignal) (sys : System) :
  n' <= n -> moved_on r n pre x rest states out sys -> moved_on r n' pre x rest states out sys.
Proof.
  intros Hn [(l1 & y & l2 & Hy & Hl & Hat & Hr) | Hm]; [left | by right]. exists l1, y, l2.
  split_and!; [done | done | by apply (at_server_weaken n) | apply Hr..].
Qed.
End FateLemmas.

(** One server after another. *)
Section ServeLemmas.
Context `{Storage, Qt}.
Variables (names : string -> list string) (s : AppSettings) (r : Servers).
Variables (configuration : string -> QJsonObject) (fate : string -> Fate).

Abbreviation server_works := (works names s configuration fate).
Abbreviation server_resolves := (resolves names s configuration).
Abbreviation final_states := (last_states names s configuration).
Abbreviation serve_system := (serve names s r configuration fate).
Abbreviation serve_system_all := (serve_all names s r configuration fate).
Abbreviation trace := (attempts_trace names s configuration fate).

Lemma moved_on_after (n n' : Z) (pre : list string) (x : string) (rest : list string) (f : Failover)
    (c : Connection) (p : Protocol) (e : PEvent) (code : Z) :
  plain_code code -> 0 <= ms_of e <= n -> n' <= n - ms_of e ->
  at_server n pre x rest f -> m_switching f = false -> m_vpnProtocol c = Some p -> fails_with p e code ->
  let sys := world_event r (mkSystem f c []) e in
  idle (connection sys) /\ moved_on r n' pre x rest [Error; Disconnected] (sent f) sys.
Proof.
  intros Hcode Hms Hn Hf Hs Hp Hfail.
  destruct (fail_event r n pre x rest f c p e code Hcode Hms Hf Hs Hp Hfail) as (Hi & Hm).
  split; [done|]. by apply (moved_on_weaken r (n - ms_of e)).
Qed.

(** A server whose name is found meets its fate. *)
Lemma fate_settles (n : Z) (pre : list string) (x : string) (rest : list string) (f : Failover)
    (c : Connection) (o : QJsonObject) :
  at_server n pre x rest f -> kTimeoutMs <= n -> m_switching f = false ->
  c_state c = Some Connecting -> m_vpnProtocol c = Some (started o) ->
  let sys := fold_left (world_event r) (fate_events (fate x)) (mkSystem f c []) in
  match fate x with
  | Answers _ => m_failoverActive (controller sys) = false /\ requests sys = []
                 /\ sent (controller sys) = sent f ++ connected_out pre x
  | _ => idle (connection sys) /\ moved_on r (n - kTimeoutMs) pre x rest [Error; Disconnected] (sent f) sys
  end.
Proof.
  intros Hf Hn Hs Hc Hp. unfold kTimeoutMs in Hn.
  assert (Hzero : 0 <= 0 <= n) by lia.
  destruct (at_server_elapse n 0 pre x rest f Hzero Hf) as (Hf1 & _ & Hs1 & Ho1).
  assert (Hconn : world_event r (mkSystem f c []) SocketConnected
                  = mkSystem (elapse_budget 0 f) (set_protocol (Some (silent (on_connected (started o)))) c) []).
  { unfold world_event. cbn [controller connection requests ms_of]. rewrite (socket_connected o) by done.
    by apply settle_nothing. }
  destruct (fate x) as [reply| | |]; cbn [fate_events fold_left].
  - rewrite Hconn. unfold world_event. cbn [controller connection requests ms_of].
    rewrite Z.sub_0_r in Hf1. destruct (at_server_elapse n 0 pre x rest _ Hzero Hf1) as (Hf2 & _ & Hs2 & Ho2).
    set (c1 := set_protocol _ c). set (c2 := protocol_happens _ _).
    destruct (hear_connected r (n - 0) (default InternalError (lastError c2)) pre x rest _ Hf2) as (Ha & Hsent);
      [by rewrite Hs2, Hs1|].
    rewrite (settle_spec r c1 c2 _ [] [CState Connected] (connected_out pre x));
      [|by apply (fate_answers reply o) | done].
    cbn [controller requests fold_left]. split_and!; [done | |by rewrite Hsent, Ho2, Ho1].
    unfold connected_out. by destruct (bool_decide _).
  - rewrite Hconn, <- Ho1. apply (moved_on_after (n - 0) _ _ _ _ (elapse_budget 0 f) _
      (silent (on_connected (started o))) (Elapse kProbeDeadlineMs) VpnTunnelDidNotComeUpError); try done;
      [by cbn; unfold kProbeDeadlineMs; lia | by cbn; unfold kTimeoutMs, kProbeDeadlineMs; lia | by rewrite Hs1
      | apply no_traffic_fails].
  - apply (moved_on_after n _ _ _ _ f c (started o) (Elapse kTimeoutMs) VpnTunnelDidNotComeUpError);
      done || apply silent_fails || (by cbn; unfold kTimeoutMs; lia).
  - apply (moved_on_after n _ _ _ _ f c (started o) SocketFailure AmneziaServiceConnectionFailed);
      done || apply refused_fails || (by cbn; unfold kTimeoutMs; lia).
Qed.

(** A server whose name is not found. *)
Lemma no_address_settles (n : Z) (pre : list string) (x : string) (rest : list string) (f : Failover)
    (c c' : Connection) :
  at_server n pre x rest f -> csignals c' = csignals c ++ told_no_address -> lastError c' = Some AddressPoolError ->
  moved_on r n pre x rest [Error; Disconnected; Error] (sent f ++ [Shown Connecting; Shown Connecting])
    (settle r c' (mkSystem f c [])).
Proof.
  intros Hf Hc Hl. destruct (hear_connecting r n AddressPoolError pre x rest f Hf) as (Hf1 & _ & Hs1 & Ho1).
  set (f1 := fold_left _ [_; _] f) in *.
  set (f2 := fold_left (hear r AddressPoolError) (told_failure AddressPoolError) f1).
  set (f3 := fold_left (hear r AddressPoolError) [CState Error; CError AddressPoolError] f2).
  assert (Hf3 : fold_left (hear r (default InternalError (lastError c'))) told_no_address f = f3).
  { rewrite Hl. cbn [default from_option]. unfold told_no_address. by rewrite !fold_left_app. }
  destruct (hear_again r AddressPoolError AddressPoolError f2) as (Hagain & Hlast); [done..|].
  destruct (hear_failure r n AddressPoolError pre x rest f1)
    as [(l1 & y & l2 & Hy & Hlen & Hat & Hsw & Hse) | (Hy & Ha & Hsw & Hse)]; [done..| |]; fold f2 in Hsw, Hse.
  - specialize (Hagain Hsw). fold f3 in Hagain.
    rewrite (settle_spec r c c' f [] told_no_address
               ([Shown Connecting; Shown Connecting] ++ [OpenRequested y; Shown Connecting]));
      rewrite ?Hf3; [|done|by rewrite Hagain; controller; rewrite Hse, Ho1, app_assoc].
    left. exists l1, y, l2. cbn [controller requests]. rewrite Hagain. controller.
    split_and!; [done | done | exact Hat | done |]. by rewrite Hse, Ho1.
  - destruct (Hlast Hsw Ha) as (Ha3 & Hse3). fold f3 in Ha3, Hse3.
    rewrite (settle_spec r c c' f [] told_no_address
               ([Shown Connecting; Shown Connecting] ++ [Shown Error; Shown Disconnected; Shown Error]));
      rewrite ?Hf3; [|done|by rewrite Hse3, Hse, Ho1, <- !app_assoc].
    right. cbn [controller requests]. split_and!; [done.. |]. by rewrite Hse3, Hse, Ho1, <- !app_assoc.
Qed.

(** One request. *)
Lemma serve_one (pre : list string) (x : string) (rest : list string) (sys : System) (o : QJsonObject) (n : Z) :
  full_configuration s configuration x = Some o -> at_server n pre x rest (controller sys) -> kTimeoutMs <= n ->
  idle (connection sys) -> requests sys = [x] ->
  exists sys', serve_system sys = Some sys'
    /\ let out := sent (controller sys) ++ [Shown Connecting; Shown Connecting] in
       if server_works x
       then m_failoverActive (controller sys') = false /\ requests sys' = []
            /\ sent (controller sys') = out ++ connected_out pre x
       else idle (connection sys') /\ moved_on r (n - kTimeoutMs) pre x rest (final_states x) out sys'.
Proof.
  destruct sys as [f c reqs]. cbn [controller connection requests]. intros Ho Hf Hn Hi ->.
  unfold serve. cbn [requests connection controller]. unfold works, last_states.
  destruct (server_resolves x) eqn:Hr; unfold resolves in Hr; rewrite Ho in Hr; cbn [andb].
  - apply Z.eqb_eq in Hr. destruct (connect_works names s (configuration x) o Ho c Hi Hr) as (c1 & -> & Hc1 & Hs1 & Hp1).
    eexists. split; [done|].
    destruct (hear_connecting r n (default InternalError (lastError c1)) pre x rest f Hf) as (Hf1 & _ & Hsw1 & Ho1).
    rewrite (settle_spec r c c1 f [] _ _ Hs1 Ho1). cbn [app launches omap list_omap].
    pose proof (fate_settles n pre x rest _ c1 _ Hf1 Hn Hsw1 Hc1 Hp1) as Hfate. rewrite Ho1 in Hfate.
    by destruct (fate x).
  - apply Z.eqb_neq in Hr. destruct (connect_fails names s (configuration x) o Ho c Hi Hr) as (c1 & -> & Hs1 & Hi1 & Hl1).
    eexists. split; [done|]. split; [done|]. cbn [fold_left].
    apply (moved_on_weaken r n); [unfold kTimeoutMs; lia|]. by apply no_address_settles.
Qed.

Lemma serve_all_done (fuel : nat) (sys : System) : requests sys = [] -> serve_system_all fuel sys = Some sys.
Proof.
  intros Hr. induction fuel as [|fuel IH]; [done|]. cbn [serve_all]. unfold serve. by rewrite Hr.
Qed.

Lemma serve_all_trace (m : nat) (pre : list string) (x : string) (rest : list string) (fuel : nat) (sys : System) :
  (List.length rest < m)%nat -> (List.length rest < fuel)%nat ->
  (forall id, id ∈ x :: List.filter (prepared r) rest -> full_configuration s configuration id <> None) ->
  at_server (kTimeoutMs * (1 + Z.of_nat (List.length rest))) pre x rest (controller sys) ->
  idle (connection sys) -> requests sys = [x] ->
  exists sys', serve_system_all fuel sys = Some sys' /\ requests sys' = []
    /\ m_failoverActive (controller sys') = false
    /\ sent (controller sys')
       = sent (controller sys) ++ trace (negb (bool_decide (pre = []))) (x :: List.filter (prepared r) rest).
Proof.
  revert pre x rest fuel sys. induction m as [|m IH]; intros pre x rest fuel sys Hm Hfuel Hall Hf Hi Hr; [lia|].
  destruct fuel as [|fuel]; [lia|]. destruct (full_configuration s configuration x) as [o|] eqn:Ho;
    [|exfalso; by apply (Hall x); [left|]].
  destruct (serve_one pre x rest sys o _ Ho Hf) as (sys1 & Hs1 & Hout); [unfold kTimeoutMs; lia | done..|].
  cbn [serve_all attempts_trace]. rewrite Hs1. cbv zeta in Hout. destruct (server_works x) eqn:Hw.
  - destruct Hout as (Ha & Hr1 & Hse). exists sys1. rewrite serve_all_done by done. split_and!; [done..|].
    rewrite Hse, <- app_assoc. unfold connected_out. by destruct (bool_decide _).
  - destruct Hout as (Hi1 & [(l1 & y & l2 & Hy & Hlen & Hat & Hr1 & Hse) | (Hy & Ha & Hr1 & Hse)]).
    + rewrite Hy in *. destruct (IH (pre ++ x :: l1) y l2 fuel sys1) as (sys' & Hs' & Hr' & Ha' & Hse');
        [lia | lia | intros id Hid; apply Hall; by right | | done | done |].
      * eapply at_server_weaken; [|exact Hat]. unfold kTimeoutMs. lia.
      * exists sys'. split_and!; [done..|]. rewrite Hse', Hse. destruct pre; by rewrite <- !app_assoc.
    + exists sys1. rewrite serve_all_done by done. rewrite Hy. split_and!; [done..|]. by rewrite Hse, <- app_assoc.
Qed.

Lemma trace_fails (b : bool) (x y : string) (l : list string) :
  server_works x = false ->
  trace b (x :: y :: l)
  = [Shown Connecting; Shown Connecting; OpenRequested y; Shown Connecting] ++ trace true (y :: l).
Proof. intros Hx. cbn [attempts_trace]. by rewrite Hx. Qed.

(** What the signals of the attempts amount to. *)
Lemma trace_launches (b : bool) (x : string) (l : list string) :
  x :: launches (trace b (x :: l)) = asked names s configuration fate (x :: l).
Proof.
  revert b x. induction l as [|y l IH]; intros b x; cbn [asked].
  - cbn [attempts_trace]. destruct (server_works x); [by destruct b|]. unfold last_states.
    by destruct (server_resolves x).
  - destruct (server_works x) eqn:Hx; [cbn [attempts_trace]; rewrite Hx; by destruct b|].
    rewrite trace_fails, launches_app by done. f_equal. apply (IH true y).
Qed.

Lemma trace_shown (b : bool) (x : string) (l : list string) :
  exists k, shown (trace b (x :: l))
    = replicate k Connecting
      ++ match List.find server_works (x :: l) with
         | Some _ => [Connected]
         | None => final_states (List.last (x :: l) EmptyString)
         end.
Proof.
  revert b x. induction l as [|y l IH]; intros b x; cbn [List.find].
  - exists 2%nat. cbn [attempts_trace]. destruct (server_works x); [by destruct b|]. cbn [List.last]. unfold last_states.
    by destruct (server_resolves x).
  - destruct (server_works x) eqn:Hx; [exists 2%nat; cbn [attempts_trace]; rewrite Hx; by destruct b|].
    destruct (IH true y) as (k & Hk). exists (3 + k)%nat. rewrite trace_fails by done.
    change (List.last (x :: y :: l) EmptyString) with (List.last (y :: l) EmptyString).
    unfold shown in *. rewrite omap_app, Hk. done.
Qed.

Lemma trace_backups (b : bool) (x : string) (l : list string) :
  told_backups (trace b (x :: l))
  = match List.find server_works (x :: l) with
    | Some y => if b || negb (server_works x) then [y] else []
    | None => []
    end.
Proof.
  revert b x. induction l as [|y l IH]; intros b x; cbn [List.find].
  - cbn [attempts_trace]. destruct (server_works x); [by destruct b|]. unfold last_states.
    by destruct (server_resolves x).
  - destruct (server_works x) eqn:Hx; [cbn [attempts_trace]; rewrite Hx; by destruct b|].
    rewrite trace_fails by done. unfold told_backups in *. rewrite omap_app, IH.
    cbn [negb]. rewrite orb_true_r. cbn [List.find orb]. by destruct (server_works y).
Qed.
End ServeLemmas.

(** How a connection that is asked for ends. *)
Lemma connection_outcome `{Storage, Qt} (names : string -> list string) (s : AppSettings) (r : Servers)
    (configuration : string -> QJsonObject) (fate : string -> Fate) (id : string) (f : Failover) (c : Connection) :
  let candidates := id :: List.filter (prepared r) (other_servers r id) in
  let ok := works names s configuration fate in
  prepared r id = true -> idle c ->
  (forall x, x ∈ candidates -> full_configuration s configuration x <> None) ->
  exists sys out, serve_all names s r configuration fate 3 (mkSystem (openConnection r id f).2 c [id]) = Some sys
    /\ requests sys = [] /\ m_failoverActive (controller sys) = false
    /\ sent (controller sys) = sent f ++ out
    /\ launches out = asked names s configuration fate candidates
    /\ (exists k, shown out = replicate k Connecting
         ++ match List.find ok candidates with
            | Some _ => [Connected]
            | None => last_states names s configuration (List.last candidates EmptyString)
            end)
    /\ told_backups out = match List.find ok candidates with
                          | Some x => if ok id then [] else [x]
                          | None => []
                          end.
Proof.
  intros candidates ok Hp Hi Hall. set (sys0 := mkSystem _ c [id]).
  assert (Hsent : sent (controller sys0) = sent f ++ [OpenRequested id]).
  { unfold sys0, openConnection, launchConnection. fold (prepared r id). by rewrite Hp. }
  destruct (serve_all_trace names s r configuration fate 3 [] id (other_servers r id) 3 sys0)
    as (sys & Hs & Hr & Ha & Hse); try done.
  - unfold other_servers. rewrite length_take. lia.
  - unfold other_servers. rewrite length_take. lia.
  - apply openConnection_at_server. exact Hp.
  - exists sys. eexists. split_and!; [done | done | done | by rewrite Hse, Hsent, <- app_assoc |..].
    + rewrite launches_app. apply trace_launches.
    + destruct (trace_shown names s configuration fate false id (List.filter (prepared r) (other_servers r id)))
        as (k & Hk). exists k. exact Hk.
    + etrans; [apply (trace_backups names s configuration fate false)|].
      fold candidates ok. destruct (List.find ok candidates); [|done]. cbn [orb]. by destruct (ok id).
Qed.

(** Closing a connection that has a protocol, step by step. *)
Lemma close_settles `{Storage} (r : Servers) (sys : System) (p : Protocol) :
  m_vpnProtocol (connection sys) = Some p -> m_connectionState p <> Disconnected ->
  let sys' := close r sys in
  requests sys' = requests sys /\ m_failoverActive (controller sys') = false
  /\ m_vpnProtocol (connection sys') = None
  /\ sent (controller sys')
     = sent (controller sys) ++ [CloseRequested; Shown Disconnecting; Shown Disconnected].
Proof.
  destruct sys as [f c reqs]. cbn [connection controller requests]. intros Hp Hs. unfold close.
  cbn [connection controller requests].
  assert (Hc : csignals (disconnectFromVpn c) = csignals c ++ [CState Disconnecting; CState Disconnected]
               /\ m_vpnProtocol (disconnectFromVpn c) = None).
  { unfold disconnectFromVpn. rewrite Hp, release_spec, c_set_other by done. unfold is_in.
    rewrite (bool_decide_false _ Hs), c_set_disconnected by done. connection. by rewrite <- app_assoc. }
  destruct Hc as [Hc Hn].
  rewrite (settle_spec r c _ _ reqs _ [Shown Disconnecting; Shown Disconnected] Hc).
  - cbn [controller connection requests launches omap list_omap]. rewrite hear_close, app_nil_r. unfold closeConnection. controller.
    split_and!; [done | done | done |]. by rewrite <- !app_assoc.
  - rewrite hear_close. controller. by rewrite <- !app_assoc.
Qed.

(** ** Theorems *)

(** C2: the client ends up at the first server that works.  A connection that is asked
    for comes to an end after at most three servers, whatever each of them does: silent,
    refused, without traffic, or without an address.  The servers that are asked are
    the prepared ones up to the first that works; while another is left the client only
    shows that it is connecting, then that it is connected, and it says through which
    other server; if none works the failure of the last one is shown.  The time that
    three silent servers take is within the budget. *)
Theorem failover_first_working `{Storage, Qt} (names : string -> list string) (s : AppSettings) (r : Servers)
    (configuration : string -> QJsonObject) (fate : string -> Fate) (id : string) (f : Failover) (c : Connection) :
  let candidates := id :: List.filter (prepared r) (other_servers r id) in
  let ok := works names s configuration fate in
  prepared r id = true -> idle c ->
  (forall x, x ∈ candidates -> full_configuration s configuration x <> None) ->
  exists sys out, serve_all names s r configuration fate 3 (mkSystem (openConnection r id f).2 c [id]) = Some sys
    /\ requests sys = [] /\ m_failoverActive (controller sys) = false
    /\ sent (controller sys) = sent f ++ out
    /\ launches out = asked names s configuration fate candidates
    /\ (exists k, shown out = replicate k Connecting
         ++ match List.find ok candidates with
            | Some _ => [Connected]
            | None => last_states names s configuration (List.last candidates EmptyString)
            end)
    /\ told_backups out = match List.find ok candidates with
                          | Some x => if ok id then [] else [x]
                          | None => []
                          end.
Proof. apply connection_outcome. Qed.

(** C40: whatever happens after a connection was asked for (signals of the connection in
    any order, changes of the servers, time, requests), the servers that are asked are
    at most three, each at most once, the chosen one first and the others in the order
    of the list. *)
Theorem attempts_bounded `{Storage} (r : Servers) (id : string) (f : Failover) (events : list FEvent) :
  servers_ok r ->
  exists l, launches (sent (fold_left failover_event events (openConnection r id f).2)) = launches (sent f) ++ l
    /\ l `sublist_of` id :: List.filter (fun x => negb (String.eqb x id)) (m_orderedServerIds r)
    /\ (List.length l <= 3)%nat /\ NoDup l /\ (prepared r id = true -> head l = Some id).
Proof.
  intros Hr. set (p0 := if prepared r id then [id] else []).
  assert (Hb : bounded (launches (sent f)) p0 (failover_queue r id)
                 (fold_left failover_event events (openConnection r id f).2)).
  { apply bounded_run, openConnection_bounded. }
  destruct Hb as (l & -> & Hs & _). exists (p0 ++ l). split_and!; [done|..].
  - etrans; [exact Hs|]. rewrite failover_queue_spec. apply sublist_skip, sublist_take.
  - etrans; [by apply sublist_length | apply failover_queue_length].
  - by apply (sublist_NoDup _ (failover_queue r id)); [apply failover_queue_NoDup|].
  - unfold p0. by intros ->.
Qed.

(** A person who closes a connection that is being set up is obeyed: whatever the
    state of the choice, the end of the protocol does not count as a failure, no other
    server is asked, and the client shows that it is disconnecting and disconnected. *)
Theorem close_ends_failover `{Storage} (r : Servers) (sys : System) (p : Protocol) :
  m_vpnProtocol (connection sys) = Some p -> m_connectionState p <> Disconnected ->
  let sys' := close r sys in
  requests sys' = requests sys /\ m_failoverActive (controller sys') = false
  /\ m_vpnProtocol (connection sys') = None
  /\ sent (controller sys')
     = sent (controller sys) ++ [CloseRequested; Shown Disconnecting; Shown Disconnected].
Proof. apply close_settles. Qed.

(** A failure that is already on its way when the connection is closed undoes that:
    the controller still takes the next server, and its request to open comes after
    the request to close. *)
Theorem failure_after_close_reopens `{Storage} (r : Servers) (n code : Z) (pre : list string) (x y : string)
    (rest l : list string) (f : Failover) :
  plain_code code -> at_server n pre x rest f -> m_switching f = false ->
  List.filter (prepared r) rest = y :: l ->
  sent (fold_left (hear r code) (told_failure code) (closeConnection f))
  = sent f ++ [CloseRequested; OpenRequested y; Shown Connecting].
Proof.
  intros (Hsub & Hn & Hi) Hf Hs Hl.
  destruct (hear_failure r n code pre x rest (closeConnection f) Hsub Hn Hi Hf Hs)
    as [(l1 & y' & l2 & Hy & _ & _ & _ & ->) | (Hy & _)]; rewrite Hy in Hl; [|done].
  injection Hl as -> _. unfold closeConnection. controller. by rewrite <- app_assoc.
Qed.

(** A failure because of the subscription is not met with another server: it is shown
    at once and nothing is asked, however many servers are left; the code counts even
    when the protocol that reported it is gone. *)
Theorem subscription_stops `{Storage} (r : Servers) (fromProtocol : Z) (st : ConnectionState) (f : Failover) :
  m_switching f = false -> st = Error \/ st = Disconnected /\ m_wasConnecting f = true ->
  (isSubscriptionError fromProtocol = true
   \/ (fromProtocol = NoError \/ fromProtocol = InternalError)
      /\ isSubscriptionError (m_lastProtocolError f) = true) ->
  let f' := handleConnectionState r fromProtocol st f in
  sent f' = sent f ++ [Shown st] /\ m_failoverActive f' = false.
Proof.
  intros Hs Hst Hcode.
  assert (He : isSubscriptionError (lastConnectionError fromProtocol f) = true).
  { unfold lastConnectionError. destruct Hcode as [Hc | [Hc Hl]].
    - destruct (Z.eqb_spec fromProtocol NoError) as [->|]; [done|].
      destruct (Z.eqb_spec fromProtocol InternalError) as [->|]; done.
    - replace (_ || _) with true by (destruct Hc as [-> | ->]; done).
      destruct (Z.eqb_spec (m_lastProtocolError f) NoError) as [E|]; [by rewrite E in Hl | done]. }
  unfold handleConnectionState. rewrite Hs, He. by destruct Hst as [-> | [-> ->]].
Qed.

(** ** Witnesses *)

#[local] Existing Instance example_qt.
#[local] Instance witness_storage : Storage := example_storage example_array.

(** Of two servers the first is silent. *)
Definition example_fate (id : string) : Fate := if String.eqb id "a" then Silent else Answers 0.

Definition example_controller : Failover := (openConnection two_servers "a" new_failover).2.

Lemma failover_first_working_witness :
  exists sys out,
    serve_all example_names example_settings two_servers (fun _ => example_config) example_fate 3
      (mkSystem example_controller new_connection ["a"]) = Some sys
    /\ requests sys = [] /\ sent (controller sys) = sent new_failover ++ out
    /\ launches out = ["a"; "b"] /\ told_backups out = ["b"].
Proof.
  destruct (failover_first_working example_names example_settings two_servers (fun _ => example_config) example_fate
              "a" new_failover new_connection) as (sys & out & Hs & Hr & _ & Ho & Hl & _ & Hb);
    [by vm_compute | done | intros x _; by vm_compute |].
  exists sys, out. split_and!; [done | done | done | |].
  - etransitivity; [exact Hl | by vm_compute].
  - etransitivity; [exact Hb | by vm_compute].
Defined.

Lemma attempts_bounded_witness :
  exists l, launches (sent (fold_left failover_event [Hears two_servers AddressPoolError (CState Error)]
                              example_controller)) = launches (sent new_failover) ++ l
    /\ (List.length l <= 3)%nat /\ head l = Some "a".
Proof.
  destruct (attempts_bounded two_servers "a" new_failover [Hears two_servers AddressPoolError (CState Error)])
    as (l & Hl & _ & Hlen & _ & Hh); [apply two_servers_ok|].
  exists l. split_and!; [exact Hl | done | apply Hh; by vm_compute].
Defined.

Lemma close_ends_failover_witness :
  let sys := close two_servers (mkSystem example_controller example_connection []) in
  requests sys = [] /\ m_failoverActive (controller sys) = false.
Proof.
  destruct (close_ends_failover two_servers (mkSystem example_controller example_connection [])
              (Wireguard.setConnectionState Connected example_protocol)) as (Hr & Ha & _);
    [done | done | by split].
Defined.

Lemma failure_after_close_reopens_witness :
  sent (fold_left (hear two_servers AddressPoolError) (told_failure AddressPoolError)
          (closeConnection example_controller))
  = sent example_controller ++ [CloseRequested; OpenRequested "b"; Shown Connecting].
Proof.
  apply (failure_after_close_reopens two_servers 0 AddressPoolError [] "a" "b" ["b"] []); [done | | done | by vm_compute].
  split_and!; [by vm_compute | by vm_compute |]. left. split; [by vm_compute|]. exists kBudgetMs.
  by split; vm_compute.
Defined.

Lemma subscription_stops_witness :
  sent (handleConnectionState two_servers 1112 Error example_controller) = sent example_controller ++ [Shown Error].
Proof.
  apply (subscription_stops two_servers 1112 Error example_controller); [done | by left | by left].
Defined.
