(* ===== verification/ConnectionUi.v ===== *)
(** * The button of the connection

    [ConnectionUiController] of client/ui/controllers/connectionUiController.cpp, which
    stands between the pages and the choice of a server ([Failover]), and the
    preparation of a configuration in client/core/controllers/coreSignalHandlers.cpp.
    Calls that are queued wait in a list; signals are kept in their order.  Whether a
    server is supported beyond its kind is a parameter, as is the check of a
    configuration, whose answer is an event.

    The theorems say that what is shown always belongs to the state, that a press of
    the button leads to the first server that works or to an error, that a renewal
    opens the connection again once, what the counters of traffic are, and two cases
    in which the controller does not do what it should. *)

From stdpp Require Import base numbers list strings gmap.
From Stdlib Require Import ZArith Lia QArith.QArith_base Strings.String.
From S2P Require Import Prelude Json Config NetworkUtils AppSettings Wireguard VpnConnection ServersRepository Failover.
Open Scope string_scope.
Open Scope list_scope.
Open Scope Z_scope.

(** ** State *)

Inductive UiSignal :=
| ConnectionStateChanged
| TrafficChanged
| CacheCleared
| ConnectionErrorOccurred (code : Z)
| PreparingConfig
| PrepareConfig
| UnsupportedConnectDrawerRequested
| NoInstalledContainers
| BackupShown (serverName : string)
| ValidateRequested (subscription : bool).

(** Calls through the queue of events. *)
Inductive Queued := QueuedOpen | QueuedToggle.

(** [m_speedTimer] holds the milliseconds since it was started. *)
Record Ui := mkUi {
  m_isConnected : bool;
  m_isConnectionInProgress : bool;
  m_pendingReconnect : bool;
  m_connectionStateText : string;
  m_state : ConnectionState;
  m_rxSpeedMbps : Q;
  m_txSpeedMbps : Q;
  m_sessionRx : Z;
  m_sessionTx : Z;
  m_speedTimer : option Z;
  queue : list Queued;
  signals : list UiSignal
}.

Definition tell (e : UiSignal) (u : Ui) : Ui :=
  mkUi (m_isConnected u) (m_isConnectionInProgress u) (m_pendingReconnect u) (m_connectionStateText u) (m_state u)
    (m_rxSpeedMbps u) (m_txSpeedMbps u) (m_sessionRx u) (m_sessionTx u) (m_speedTimer u) (queue u) (signals u ++ [e]).
Definition enqueue (c : Queued) (u : Ui) : Ui :=
  mkUi (m_isConnected u) (m_isConnectionInProgress u) (m_pendingReconnect u) (m_connectionStateText u) (m_state u)
    (m_rxSpeedMbps u) (m_txSpeedMbps u) (m_sessionRx u) (m_sessionTx u) (m_speedTimer u) (queue u ++ [c]) (signals u).
Definition set_queue (l : list Queued) (u : Ui) : Ui :=
  mkUi (m_isConnected u) (m_isConnectionInProgress u) (m_pendingReconnect u) (m_connectionStateText u) (m_state u)
    (m_rxSpeedMbps u) (m_txSpeedMbps u) (m_sessionRx u) (m_sessionTx u) (m_speedTimer u) l (signals u).
Definition set_pending (b : bool) (u : Ui) : Ui :=
  mkUi (m_isConnected u) (m_isConnectionInProgress u) b (m_connectionStateText u) (m_state u)
    (m_rxSpeedMbps u) (m_txSpeedMbps u) (m_sessionRx u) (m_sessionTx u) (m_speedTimer u) (queue u) (signals u).
Definition set_timer (t : option Z) (u : Ui) : Ui :=
  mkUi (m_isConnected u) (m_isConnectionInProgress u) (m_pendingReconnect u) (m_connectionStateText u) (m_state u)
    (m_rxSpeedMbps u) (m_txSpeedMbps u) (m_sessionRx u) (m_sessionTx u) t (queue u) (signals u).

(** What is shown for a state: whether it is connected, whether something goes on, and
    a text before its translation. *)
Definition set_shown (connected inProgress : bool) (text : string) (u : Ui) : Ui :=
  mkUi connected inProgress (m_pendingReconnect u) text (m_state u)
    (m_rxSpeedMbps u) (m_txSpeedMbps u) (m_sessionRx u) (m_sessionTx u) (m_speedTimer u) (queue u) (signals u).
Definition set_ui_state (st : ConnectionState) (u : Ui) : Ui :=
  mkUi (m_isConnected u) (m_isConnectionInProgress u) (m_pendingReconnect u) (m_connectionStateText u) st
    (m_rxSpeedMbps u) (m_txSpeedMbps u) (m_sessionRx u) (m_sessionTx u) (m_speedTimer u) (queue u) (signals u).
Definition set_traffic (rxSpeed txSpeed : Q) (rx tx : Z) (u : Ui) : Ui :=
  mkUi (m_isConnected u) (m_isConnectionInProgress u) (m_pendingReconnect u) (m_connectionStateText u) (m_state u)
    rxSpeed txSpeed rx tx (m_speedTimer u) (queue u) (signals u).

Section Ui.
Variable tr : string -> string.

Definition new_ui : Ui :=
  mkUi false false false (tr "Connect") Disconnected 0%Q 0%Q 0 0 None [] [].

(** ** Signals of the controller *)

(** [code] is the last error of the connection. *)
Definition onConnectionStateChanged (code : Z) (st : ConnectionState) (u : Ui) : Ui :=
  let u0 := set_ui_state st u in
  let u1 :=
    match st with
    | Connected =>
        tell TrafficChanged
          (set_timer (Some 0) (set_traffic 0%Q 0%Q 0 0 (set_shown true false (tr "Connected") (tell CacheCleared u0))))
    | Connecting => set_shown false true (tr "Connecting...") u0
    | Reconnecting => set_shown false true (tr "Reconnecting...") u0
    | Disconnected =>
        let u2 := set_shown false false (tr "Connect") (tell TrafficChanged (set_traffic 0%Q 0%Q 0 0 u0)) in
        if m_pendingReconnect u2 then enqueue QueuedOpen (set_pending false u2) else u2
    | Disconnecting => set_shown false true (tr "Disconnecting...") u0
    | Preparing => set_shown false true (tr "Preparing...") u0
    | Error | Unknown => tell (ConnectionErrorOccurred code) (set_shown false false (tr "Connect") u0)
    end in
  tell ConnectionStateChanged u1.

Definition onTranslationsUpdated (code : Z) (u : Ui) : Ui := onConnectionStateChanged code (m_state u) u.

(** [quint64] *)
Definition wrap64 (n : Z) : Z := n mod 2 ^ 64.

(** Megabits in a second, of bytes in milliseconds. *)
Definition speed (bytes ms : Z) : Q :=
  let dt := if 0 <? ms then (inject_Z ms / 1000)%Q else 1%Q in
  (inject_Z bytes * 8 / 1000000 / dt)%Q.

Definition onBytesChanged (receivedBytes sentBytes : Z) (u : Ui) : Ui :=
  let ms := match m_speedTimer u with Some t => t | None => 1000 end in
  tell TrafficChanged
    (set_traffic (speed receivedBytes ms) (speed sentBytes ms)
       (wrap64 (m_sessionRx u + receivedBytes)) (wrap64 (m_sessionTx u + sentBytes)) (set_timer (Some 0) u)).

(** A signal of the controller; [name] is the display name of a server. *)
Definition ui_hears (name : string -> string) (code : Z) (u : Ui) (e : FSignal) : Ui :=
  match e with
  | Shown st => onConnectionStateChanged code st u
  | BytesShown rx tx => onBytesChanged rx tx u
  | SwitchedToBackup id => tell (BackupShown (name id)) u
  | _ => u
  end.

End Ui.

Section World.
Context `{Storage}.

(** ** Requests of the pages *)

(** [language] numbers the translations that are installed. *)
Record UiWorld := mkUiWorld { ui : Ui; control : Failover; language : nat }.

Definition errors (l : list UiSignal) : list Z :=
  omap (fun e => match e with ConnectionErrorOccurred code => Some code | _ => None end) l.

(** The handler of [connectionErrorOccurred] shows the error and asks for the state. *)
Definition handle_errors (l : list UiSignal) (f : Failover) : Failover :=
  fold_left (fun f _ => setConnectionState Disconnected f) (errors l) f.

(** A change of the controller of the button; its errors are handled at once. *)
Definition on_ui (g : Ui -> Ui) (w : UiWorld) : UiWorld :=
  let u := g (ui w) in
  mkUiWorld u (handle_errors (drop (List.length (signals (ui w))) (signals u)) (control w)) (language w).
Definition on_control (g : Failover -> Failover) (w : UiWorld) : UiWorld :=
  mkUiWorld (ui w) (g (control w)) (language w).

Definition AmneziaServiceNotRunning : Z := 103.
Definition NoInstalledContainersError : Z := 902.
Definition LegacyApiV1NotSupportedError : Z := 905.

Definition notifyConnectionBlocked (errorCode : Z) (u : Ui) : Ui :=
  if errorCode =? LegacyApiV1NotSupportedError then tell UnsupportedConnectDrawerRequested u
  else if errorCode =? NoInstalledContainersError then tell NoInstalledContainers u
  else tell (ConnectionErrorOccurred errorCode) u.

Variable r : Servers.

Definition openConnection (w : UiWorld) : UiWorld :=
  let serverId := m_defaultServerId r in
  if String.eqb serverId EmptyString then w
  else
    let '(errorCode, f) := Failover.openConnection r serverId (control w) in
    let w1 := mkUiWorld (ui w) f (language w) in
    if negb (errorCode =? NoError) then on_ui (notifyConnectionBlocked errorCode) w1 else w1.

Definition closeConnection (w : UiWorld) : UiWorld := on_control Failover.closeConnection w.

Definition reconnect (w : UiWorld) : UiWorld :=
  if m_isConnected (ui w) || m_isConnectionInProgress (ui w)
  then closeConnection (on_ui (set_pending true) w) else openConnection w.

(** [container] is what is said of the default container of a server: the error of
    looking for it, of its absence or of its kind. *)
Definition isConnectionSupported (ready : bool) (container : string -> Z) (serverId : string) : Z :=
  if String.eqb serverId EmptyString then InternalError
  else if negb ready then AmneziaServiceNotRunning
  else if isLegacyApiSubscription (serverKind serverId r) then LegacyApiV1NotSupportedError
  else container serverId.

(** The handler of [prepareConfig], which is called at once. *)
Definition prepare_config (w : UiWorld) : UiWorld :=
  let w1 := on_control (setConnectionState Preparing) w in
  let serverId := m_defaultServerId r in
  if String.eqb serverId EmptyString then on_control (setConnectionState Disconnected) w1
  else
    let kind := serverKind serverId r in
    on_ui (tell (ValidateRequested (isApiV2Subscription kind || isLegacyApiSubscription kind))) w1.

Definition configValidated (isValid : bool) (w : UiWorld) : UiWorld :=
  if isValid then openConnection w else on_control (setConnectionState Disconnected) w.

Definition toggleConnection (ready : bool) (container : string -> Z) (w : UiWorld) : UiWorld :=
  if is_in (m_state (ui w)) Preparing then on_ui (tell PreparingConfig) w
  else if m_isConnectionInProgress (ui w) then closeConnection w
  else if m_isConnected (ui w) then closeConnection w
  else
    let serverId := m_defaultServerId r in
    if String.eqb serverId EmptyString then w
    else
      let errorCode := isConnectionSupported ready container serverId in
      if negb (errorCode =? NoError) then on_ui (notifyConnectionBlocked errorCode) w
      else prepare_config (on_ui (tell PrepareConfig) w).

(** ** Events *)

(** Texts of the languages, and display names of servers. *)
Variables (tr : nat -> string -> string) (name : string -> string).

(** Something happens: a press of the button, a call from the queue, a renewal, a
    toggle from elsewhere, a signal, another language, the answer of the check, or the
    passing of time. *)
Inductive UiEvent :=
| Pressed
| QueueRuns
| ReconnectAsked
| ToggleAsked
| Heard (code : Z) (e : FSignal)
| LanguageChanged (code : Z) (l : nat)
| Validated (isValid : bool)
| TimePasses (ms : Z).

Definition ui_event (ready : bool) (container : string -> Z) (w : UiWorld) (e : UiEvent) : UiWorld :=
  match e with
  | Pressed => on_ui (enqueue QueuedToggle) w
  | QueueRuns =>
      match queue (ui w) with
      | [] => w
      | QueuedOpen :: q => openConnection (on_ui (set_queue q) w)
      | QueuedToggle :: q => toggleConnection ready container (on_ui (set_queue q) w)
      end
  | ReconnectAsked => reconnect w
  | ToggleAsked => toggleConnection ready container w
  | Heard code e => on_ui (fun u => ui_hears (tr (language w)) name code u e) w
  | LanguageChanged code l => on_ui (onTranslationsUpdated (tr l) code) (mkUiWorld (ui w) (control w) l)
  | Validated b => configValidated b w
  | TimePasses ms => on_ui (fun u => set_timer ((fun t => t + ms) <$> m_speedTimer u) u) w
  end.

End World.

(** ** Specification *)

Definition text_for (st : ConnectionState) : string :=
  match st with
  | Connected => "Connected"
  | Connecting => "Connecting..."
  | Reconnecting => "Reconnecting..."
  | Disconnecting => "Disconnecting..."
  | Preparing => "Preparing..."
  | Disconnected | Error | Unknown => "Connect"
  end.

Definition busy (st : ConnectionState) : bool :=
  match st with Connecting | Reconnecting | Disconnecting | Preparing => true | _ => false end.

Definition u64 (n : Z) : Prop := 0 <= n < 2 ^ 64.

(** What is shown belongs to the state. *)
Definition ui_ok (tr : string -> string) (u : Ui) : Prop :=
  m_isConnected u = is_in (m_state u) Connected
  /\ m_isConnectionInProgress u = busy (m_state u)
  /\ m_connectionStateText u = tr (text_for (m_state u))
  /\ u64 (m_sessionRx u) /\ u64 (m_sessionTx u).

Definition shown_backups (l : list UiSignal) : list string :=
  omap (fun e => match e with BackupShown n => Some n | _ => None end) l.

(** Traffic since the last time that a state set the counters back. *)
Fixpoint session (l : list FSignal) (rx tx : Z) : Z * Z :=
  match l with
  | [] => (rx, tx)
  | BytesShown a b :: l' => session l' (wrap64 (rx + a)) (wrap64 (tx + b))
  | Shown st :: l' =>
      if is_in st Connected || is_in st Disconnected then session l' 0 0 else session l' rx tx
  | _ :: l' => session l' rx tx
  end.

(** What the controller of the button makes of signals, each with the last error at
    its time. *)
Definition follow (tr name : string -> string) (l : list (Z * FSignal)) (u : Ui) : Ui :=
  fold_left (fun u '(code, e) => ui_hears tr name code u e) l u.

(** The servers, whether the service runs and what is said of the containers, when an
    event happens. *)
Abbreviation Env := (Servers * bool * (string -> Z))%type.

Definition ui_run `{Storage} (tr : nat -> string -> string) (name : string -> string) (w : UiWorld)
    (l : list (Env * UiEvent)) : UiWorld :=
  fold_left (fun w '(r, ready, container, e) => ui_event r tr name ready container w e) l w.

(** What one signal adds to those of the button. *)
Definition told (name : string -> string) (code : Z) (e : FSignal) : list UiSignal :=
  match e with
  | Shown Connected => [CacheCleared; TrafficChanged; ConnectionStateChanged]
  | Shown Disconnected => [TrafficChanged; ConnectionStateChanged]
  | Shown Error | Shown Unknown => [ConnectionErrorOccurred code; ConnectionStateChanged]
  | Shown _ => [ConnectionStateChanged]
  | BytesShown _ _ => [TrafficChanged]
  | SwitchedToBackup id => [BackupShown (name id)]
  | _ => []
  end.

Definition is_error (st : ConnectionState) : bool := is_in st Error || is_in st Unknown.

(** ** Examples *)

(** No servers. *)
Definition no_servers : Servers := mkServers empty empty [] EmptyString [].

(** A connection that is shown, with the signals of its end. *)
Definition example_ui : Ui := onConnectionStateChanged id 0 Connected (new_ui id).
Definition example_world : UiWorld := mkUiWorld example_ui example_controller 0.
Definition example_heard : list (Z * FSignal) := [(0, CloseRequested); (0, Shown Disconnecting); (0, Shown Disconnected)].

(** ** Lemmas *)

(** The fields of the controller. *)
Ltac ui_fields :=
  cbn [m_isConnected m_isConnectionInProgress m_pendingReconnect m_connectionStateText m_state m_rxSpeedMbps
       m_txSpeedMbps m_sessionRx m_sessionTx m_speedTimer queue signals tell enqueue set_queue set_pending set_timer
       set_shown set_ui_state set_traffic ui control language on_ui on_control] in *.

Lemma wrap64_bound (n : Z) : u64 (wrap64 n).
Proof. apply Z.mod_pos_bound. lia. Qed.

Section Lemmas.
Variable tr : string -> string.

Lemma state_changed_ok (code : Z) (st : ConnectionState) (u : Ui) :
  u64 (m_sessionRx u) -> u64 (m_sessionTx u) -> ui_ok tr (onConnectionStateChanged tr code st u).
Proof.
  intros Hr Ht. unfold onConnectionStateChanged, ui_ok. assert (u64 0) by (unfold u64; lia).
  destruct st; ui_fields; try done. by destruct (m_pendingReconnect u).
Qed.

Lemma state_changed_state (code : Z) (st : ConnectionState) (u : Ui) :
  m_state (onConnectionStateChanged tr code st u) = st.
Proof. unfold onConnectionStateChanged. destruct st; ui_fields; try done. by destruct (m_pendingReconnect u). Qed.

Lemma hears_ok (name : string -> string) (code : Z) (e : FSignal) (u : Ui) :
  ui_ok tr u -> ui_ok tr (ui_hears tr name code u e).
Proof.
  intros Hu. destruct e as [| | | |st|rx tx|id]; cbn [ui_hears]; try done.
  - apply state_changed_ok; apply Hu.
  - destruct Hu as (H1 & H2 & H3 & _). unfold onBytesChanged, ui_ok. ui_fields. auto using wrap64_bound.
Qed.

Lemma notify_ok (code : Z) (u : Ui) : ui_ok tr u -> ui_ok tr (notifyConnectionBlocked code u).
Proof. unfold notifyConnectionBlocked. by repeat case_match. Qed.
End Lemmas.

Section WorldLemmas.
Context `{Storage}.
Variables (r : Servers) (tr : nat -> string -> string) (name : string -> string).

Lemma openConnection_ok (w : UiWorld) :
  ui_ok (tr (language w)) (ui w) ->
  ui_ok (tr (language (openConnection r w))) (ui (openConnection r w)).
Proof.
  intros Hw. unfold openConnection. destruct (String.eqb _ _); [done|].
  destruct (Failover.openConnection _ _ _) as [code f]. destruct (negb _); [|done].
  ui_fields. by apply notify_ok.
Qed.

Lemma toggleConnection_ok (ready : bool) (container : string -> Z) (w : UiWorld) :
  ui_ok (tr (language w)) (ui w) ->
  ui_ok (tr (language (toggleConnection r ready container w))) (ui (toggleConnection r ready container w)).
Proof.
  intros Hw. unfold toggleConnection, prepare_config, closeConnection.
  repeat case_match; ui_fields; try done. by apply notify_ok.
Qed.

Lemma ui_event_ok (ready : bool) (container : string -> Z) (w : UiWorld) (e : UiEvent) :
  ui_ok (tr (language w)) (ui w) ->
  let w' := ui_event r tr name ready container w e in ui_ok (tr (language w')) (ui w').
Proof.
  intros Hw. destruct e as [| | | |code e|code l|b|ms]; cbn [ui_event].
  - done.
  - destruct (queue (ui w)) as [|[] q]; [done|by apply openConnection_ok|by apply toggleConnection_ok].
  - unfold reconnect. case_match; [done|by apply openConnection_ok].
  - by apply toggleConnection_ok.
  - by apply hears_ok.
  - apply state_changed_ok; apply Hw.
  - unfold configValidated. destruct b; [by apply openConnection_ok|done].
  - done.
Qed.
End WorldLemmas.

(** *** Following the signals of the controller *)

Section Follow.
Variables (tr name : string -> string).

Lemma follow_cons (code : Z) (e : FSignal) (l : list (Z * FSignal)) (u : Ui) :
  follow tr name ((code, e) :: l) u = follow tr name l (ui_hears tr name code u e).
Proof. done. Qed.

Lemma follow_ok (l : list (Z * FSignal)) (u : Ui) : ui_ok tr u -> ui_ok tr (follow tr name l u).
Proof.
  revert u. induction l as [|[code e] l IH]; intros u Hu; [done|]. rewrite follow_cons.
  by apply IH, hears_ok.
Qed.

Lemma last_default {A} (l : list A) (x d : A) : List.last (x :: l) d = List.last l x.
Proof.
  revert x d. induction l as [|y l IH]; intros x d; [done|].
  etransitivity; [exact (IH y d)|]. symmetry. apply IH.
Qed.

(** The state is the last one that was told. *)
Lemma follow_state (l : list (Z * FSignal)) (u : Ui) :
  m_state (follow tr name l u) = List.last (shown (map snd l)) (m_state u).
Proof.
  revert u. induction l as [|[code e] l IH]; intros u; [done|]. rewrite follow_cons, IH.
  destruct e as [| | | |st|rx tx|id]; try done. cbn [ui_hears map snd shown omap list_omap].
  rewrite state_changed_state. by rewrite last_default.
Qed.

Lemma hears_told (code : Z) (e : FSignal) (u : Ui) :
  signals (ui_hears tr name code u e) = signals u ++ told name code e.
Proof.
  destruct e as [| | | |st|rx tx|id]; cbn [ui_hears told]; rewrite ?app_nil_r; try done.
  destruct st; unfold onConnectionStateChanged; ui_fields; rewrite <- ?app_assoc; try done.
  destruct (m_pendingReconnect u); ui_fields; by rewrite <- app_assoc.
Qed.

Lemma follow_told (l : list (Z * FSignal)) (u : Ui) :
  signals (follow tr name l u) = signals u ++ List.concat (map (fun '(code, e) => told name code e) l).
Proof.
  revert u. induction l as [|[code e] l IH]; intros u; [by rewrite app_nil_r|].
  by rewrite follow_cons, IH, hears_told, <- app_assoc.
Qed.

Lemma told_errors (l : list (Z * FSignal)) :
  List.length (errors (List.concat (map (fun '(code, e) => told name code e) l)))
  = List.length (List.filter is_error (shown (map snd l))).
Proof.
  induction l as [|[code e] l IH]; [done|]. cbn [map List.concat snd]. unfold errors in *.
  rewrite omap_app, length_app, IH. destruct e as [| | | |[]|rx tx|id]; done.
Qed.

Lemma told_names (l : list (Z * FSignal)) :
  shown_backups (List.concat (map (fun '(code, e) => told name code e) l)) = map name (told_backups (map snd l)).
Proof.
  induction l as [|[code e] l IH]; [done|]. cbn [map List.concat snd]. unfold shown_backups in *.
  rewrite omap_app, IH. destruct e as [| | | |[]|rx tx|id]; done.
Qed.

Lemma follow_session (l : list (Z * FSignal)) (u : Ui) :
  (m_sessionRx (follow tr name l u), m_sessionTx (follow tr name l u))
  = session (map snd l) (m_sessionRx u) (m_sessionTx u).
Proof.
  revert u. induction l as [|[code e] l IH]; intros u; [done|]. rewrite follow_cons, IH.
  destruct e as [| | | |st|rx tx|id]; try done. cbn [ui_hears map snd session].
  destruct st; unfold onConnectionStateChanged; ui_fields; try done. by destruct (m_pendingReconnect u).
Qed.
End Follow.

(** *** A renewal *)

Lemma reconnect_closes `{Storage} (r : Servers) (w : UiWorld) :
  m_isConnected (ui w) || m_isConnectionInProgress (ui w) = true ->
  ui (reconnect r w) = set_pending true (ui w)
  /\ control (reconnect r w) = Failover.closeConnection (control w).
Proof.
  intros Hon. unfold reconnect. rewrite Hon. unfold closeConnection, on_control, on_ui, handle_errors. ui_fields.
  by rewrite drop_all.
Qed.

(** The end of a connection that is to be renewed. *)
Lemma pending_end (tr name : string -> string) (c1 c2 c3 : Z) (u : Ui) :
  queue u = [] ->
  let u' := follow tr name [(c1, CloseRequested); (c2, Shown Disconnecting); (c3, Shown Disconnected)]
              (set_pending true u) in
  m_state u' = Disconnected /\ queue u' = [QueuedOpen] /\ m_pendingReconnect u' = false.
Proof.
  intros Hq. cbn [follow fold_left ui_hears]. unfold onConnectionStateChanged. ui_fields. by rewrite Hq.
Qed.

Lemma queued_open `{Storage} (r : Servers) (tr : nat -> string -> string) (name : string -> string) (ready : bool)
    (container : string -> Z) (u : Ui) (f : Failover) (l : nat) :
  m_defaultServerId r <> EmptyString -> prepared r (m_defaultServerId r) = true -> queue u = [QueuedOpen] ->
  let w := ui_event r tr name ready container (mkUiWorld u f l) QueueRuns in
  launches (sent (control w)) = launches (sent f) ++ [m_defaultServerId r] /\ queue (ui w) = [].
Proof.
  intros Hid%String.eqb_neq Hp Hq. cbn [ui_event]. ui_fields. rewrite Hq. unfold openConnection. rewrite Hid.
  unfold Failover.openConnection, launchConnection. unfold prepared in Hp. rewrite Hp. cbn [negb]. ui_fields.
  unfold handle_errors. rewrite drop_all. cbn [errors omap list_omap fold_left sent fsend startFailover].
  split; [|done]. by rewrite launches_app.
Qed.

(** ** Theorems *)

(** C24: What is shown belongs to the state.  Whatever is pressed, asked for, heard or
    translated, in any order and with any servers, the page shows a connection exactly
    in the state of one, activity exactly in the four states of it, the text of the
    state in the language that is installed, and counters that fit their type. *)
Theorem ui_stays_consistent `{Storage} (tr : nat -> string -> string) (name : string -> string) (f : Failover)
    (l : nat) (events : list (Env * UiEvent)) :
  let w := ui_run tr name (mkUiWorld (new_ui (tr l)) f l) events in
  ui_ok (tr (language w)) (ui w).
Proof.
  assert (forall w, ui_ok (tr (language w)) (ui w) ->
            ui_ok (tr (language (ui_run tr name w events))) (ui (ui_run tr name w events))) as Hrun.
  { induction events as [|[[[r ready] container] e] events IH]; intros w Hw; [done|].
    by apply IH, (ui_event_ok r tr name ready container). }
  apply Hrun. unfold ui_ok, u64. by simpl.
Qed.

(** C18: A press of the button ends at the first server that works.  Once the
    configuration of the default server is found valid, the connection is asked for,
    and when the servers have met their fates the page shows a connection, without an
    error and with the name of the server if it is not the default one, if one of the
    servers that are tried works; otherwise it shows none, nothing goes on, and an
    error was reported. *)
Theorem press_shows_outcome `{Storage, Qt} (names : string -> list string) (s : AppSettings) (r : Servers)
    (configuration : string -> QJsonObject) (fate : string -> Fate) (tr name : string -> string)
    (w : UiWorld) (c : Connection) :
  let id := m_defaultServerId r in
  let candidates := id :: List.filter (prepared r) (other_servers r id) in
  let ok := works names s configuration fate in
  id <> EmptyString -> prepared r id = true -> idle c -> ui_ok tr (ui w) ->
  (forall x, x ∈ candidates -> full_configuration s configuration x <> None) ->
  exists sys out,
    serve_all names s r configuration fate 3 (mkSystem (control (configValidated r true w)) c [id]) = Some sys
    /\ sent (controller sys) = sent (control w) ++ out
    /\ forall heard, map snd heard = out ->
         let u := follow tr name heard (ui w) in
         exists news, signals u = signals (ui w) ++ news
           /\ m_isConnectionInProgress u = false
           /\ match List.find ok candidates with
              | Some x => m_isConnected u = true /\ errors news = []
                          /\ shown_backups news = if ok id then [] else [name x]
              | None => m_isConnected u = false /\ errors news <> [] /\ shown_backups news = []
              end.
Proof.
  intros id candidates ok Hid Hp Hc Hu Hall.
  assert (control (configValidated r true w) = (Failover.openConnection r id (control w)).2) as ->.
  { unfold configValidated, openConnection. fold id. apply String.eqb_neq in Hid. rewrite Hid.
    unfold Failover.openConnection, launchConnection. pose proof Hp as Hp'. unfold prepared in Hp'. by rewrite Hp'. }
  destruct (connection_outcome names s r configuration fate id (control w) c Hp Hc Hall)
    as (sys & out & Hs & _ & _ & Ho & _ & (k & Hk) & Hb).
  exists sys, out. split_and!; [done|done|]. intros heard Hh u. exists (List.concat (map (fun '(code, e) => told name code e) heard)).
  split; [apply follow_told|].
  pose proof (follow_ok tr name heard (ui w) Hu) as (H1 & H2 & _). fold u in H1, H2. rewrite H1, H2.
  pose proof (told_errors name heard) as He. unfold u. rewrite follow_state, told_names. rewrite Hh in *. rewrite Hk, Hb in *.
  rewrite List.filter_app, length_app in He.
  assert (List.filter is_error (replicate k Connecting) = []) as E by (clear; by induction k). rewrite E in He. clear E.
  fold candidates ok in He |- *. destruct (List.find ok candidates) as [x|]; simpl in He.
  - rewrite List.last_last. split_and!; [done|done|by apply length_zero_iff_nil|]. by destruct (ok id).
  - unfold last_states in *. destruct (resolves _ _ _ _);
      [change [Error; Disconnected] with ([Error] ++ [Disconnected])
      |change [Error; Disconnected; Error] with ([Error; Disconnected] ++ [Error])];
      rewrite app_assoc, List.last_last; split_and!; try done; intros E; by rewrite E in He.
Qed.

(** A renewal opens the connection again, once.  Asked for while a connection is
    shown or something goes on, it closes the connection; the end that is told queues
    one request, which asks for the default server and leaves nothing queued. *)
Theorem reconnect_reopens `{Storage} (tr : nat -> string -> string) (name : string -> string) (r : Servers)
    (ready : bool) (container : string -> Z) (w : UiWorld) (sys : System) (p : Protocol)
    (heard : list (Z * FSignal)) :
  m_isConnected (ui w) || m_isConnectionInProgress (ui w) = true -> queue (ui w) = [] ->
  control w = controller sys -> m_vpnProtocol (connection sys) = Some p -> m_connectionState p <> Disconnected ->
  m_defaultServerId r <> EmptyString -> prepared r (m_defaultServerId r) = true ->
  sent (controller (close r sys)) = sent (controller sys) ++ map snd heard ->
  let w1 := reconnect r w in
  let w2 := mkUiWorld (follow (tr (language w)) name heard (ui w1)) (controller (close r sys)) (language w) in
  let w3 := ui_event r tr name ready container w2 QueueRuns in
  control w1 = Failover.closeConnection (controller sys)
  /\ m_state (ui w2) = Disconnected /\ queue (ui w2) = [QueuedOpen] /\ m_pendingReconnect (ui w2) = false
  /\ launches (sent (control w3)) = launches (sent (controller sys)) ++ [m_defaultServerId r]
  /\ queue (ui w3) = [].
Proof.
  intros Hon Hq Hw Hp Hs Hid Hprep Hheard w1 w2 w3.
  destruct (close_settles r sys p Hp Hs) as (_ & _ & _ & Hsent). rewrite Hsent in Hheard.
  apply app_inv_head in Hheard. destruct heard as [|[c1 e1] [|[c2 e2] [|[c3 e3] [|]]]]; try discriminate Hheard.
  injection Hheard as <- <- <-.
  destruct (reconnect_closes r w Hon) as [Eu Ec]. rewrite Hw in Ec. fold w1 in Eu, Ec.
  destruct (pending_end (tr (language w)) name c1 c2 c3 (ui w) Hq) as (E1 & E2 & E3). rewrite <- Eu in *.
  destruct (queued_open r tr name ready container (ui w2) (controller (close r sys)) (language w) Hid Hprep E2) as [H1 H2].
  split_and!; [done|done|done|done| |exact H2].
  etransitivity; [exact H1|]. rewrite Hsent, launches_app. cbn [launches omap list_omap]. by rewrite app_nil_r.
Qed.

(** The counters of a session are the bytes that were reported since it began, in
    the width of their type. *)
Theorem session_totals (tr name : string -> string) (code : Z) (reports : list (Z * Z)) (u : Ui) :
  let u' := follow tr name ((code, Shown Connected) :: map (fun '(rx, tx) => (code, BytesShown rx tx)) reports) u in
  m_sessionRx u' = foldr Z.add 0 (map fst reports) mod 2 ^ 64
  /\ m_sessionTx u' = foldr Z.add 0 (map snd reports) mod 2 ^ 64.
Proof.
  set (l := map _ reports). intros u'.
  assert (forall a b, session (map snd l) (wrap64 a) (wrap64 b)
    = (wrap64 (a + foldr Z.add 0 (map fst reports)), wrap64 (b + foldr Z.add 0 (map snd reports)))) as Hl.
  { unfold l. clear. induction reports as [|[rx tx] reports IH]; intros a b; simpl; [by rewrite !Z.add_0_r|].
    assert (forall m n, wrap64 (wrap64 m + n) = wrap64 (m + n)) as E by (intros; unfold wrap64; by rewrite Zplus_mod_idemp_l).
    rewrite !E, IH, !Z.add_assoc. done. }
  pose proof (follow_session tr name ((code, Shown Connected) :: l) u) as Hf. fold u' in Hf.
  change (session _ _ _) with (session (map snd l) (wrap64 0) (wrap64 0)) in Hf. rewrite Hl in Hf.
  by injection Hf as -> ->.
Qed.

(** Another language sets the counters back: while a connection is shown, the
    traffic of the session is forgotten when the language changes. *)
Theorem language_forgets_traffic `{Storage} (tr : nat -> string -> string) (name : string -> string) (r : Servers)
    (ready : bool) (container : string -> Z) (w : UiWorld) (code : Z) (l : nat) :
  m_state (ui w) = Connected ->
  let w' := ui_event r tr name ready container w (LanguageChanged code l) in
  m_state (ui w') = Connected /\ m_sessionRx (ui w') = 0 /\ m_sessionTx (ui w') = 0
  /\ m_rxSpeedMbps (ui w') = 0%Q /\ m_txSpeedMbps (ui w') = 0%Q.
Proof.
  intros Hw. cbn [ui_event]. ui_fields. unfold onTranslationsUpdated. rewrite Hw. done.
Qed.

(** A preparation that ends without a server never ends for the button.  If the
    default server is gone when the configuration is found valid, nothing is asked for
    and nothing is told; from then on every press is answered with the word that the
    preparation goes on, whatever servers there are. *)
Theorem preparation_never_ends `{Storage} (tr : nat -> string -> string) (name : string -> string) (r : Servers)
    (w : UiWorld) (presses : list Env) :
  m_state (ui w) = Preparing -> m_defaultServerId r = EmptyString ->
  let w1 := configValidated r true w in
  let w2 := ui_run tr name w1 (map (fun env => (env, ToggleAsked)) presses) in
  control w2 = control w /\ m_state (ui w2) = Preparing
  /\ signals (ui w2) = signals (ui w) ++ replicate (List.length presses) PreparingConfig.
Proof.
  intros Hw Hr. assert (configValidated r true w = w) as E by (unfold configValidated, openConnection; by rewrite Hr).
  cbn zeta. rewrite E. clear E. revert w Hw. induction presses as [|[[r' ready] container] presses IH]; intros w Hw; simpl.
  - by rewrite app_nil_r.
  - assert (toggleConnection r' ready container w
      = mkUiWorld (tell PreparingConfig (ui w)) (control w) (language w)) as ->.
    { unfold toggleConnection. rewrite Hw. unfold on_ui. ui_fields. unfold handle_errors.
      by rewrite drop_app_length. }
    destruct (IH (mkUiWorld (tell PreparingConfig (ui w)) (control w) (language w)) Hw) as (H1 & H2 & H3).
    split_and!; [done|done|]. etransitivity; [exact H3|]. ui_fields. by rewrite <- app_assoc.
Qed.

(** *** Witnesses *)

#[local] Existing Instance example_qt.
#[local] Instance ui_storage : Storage := example_storage example_array.

Lemma press_shows_outcome_witness :
  exists sys out,
    serve_all example_names example_settings two_servers (fun _ => example_config) example_fate 3
      (mkSystem (control (configValidated two_servers true (mkUiWorld (new_ui id) new_failover 0)))
         new_connection ["a"]) = Some sys
    /\ sent (controller sys) = out
    /\ forall heard, map snd heard = out -> m_isConnectionInProgress (follow id id heard (new_ui id)) = false.
Proof.
  destruct (press_shows_outcome example_names example_settings two_servers (fun _ => example_config) example_fate id id
              (mkUiWorld (new_ui id) new_failover 0) new_connection) as (sys & out & Hs & Ho & Hu);
    [by vm_compute | by vm_compute | done | by unfold ui_ok, u64; simpl | intros x _; by vm_compute |].
  exists sys, out. split_and!; [exact Hs | exact Ho |].
  intros heard Hh. by destruct (Hu heard Hh) as (news & _ & Hp & _).
Defined.

Lemma reconnect_reopens_witness :
  let w1 := reconnect two_servers example_world in
  let sys := mkSystem example_controller example_connection [] in
  let w2 := mkUiWorld (follow id id example_heard (ui w1)) (controller (close two_servers sys)) 0 in
  queue (ui w2) = [QueuedOpen].
Proof.
  destruct (reconnect_reopens (fun _ => id) id two_servers true (fun _ => 0) example_world
           (mkSystem example_controller example_connection [])
           (Wireguard.setConnectionState Connected example_protocol) example_heard)
    as (_ & _ & Hq & _); [reflexivity..|done|by vm_compute|by vm_compute|by vm_compute|exact Hq].
Defined.

Lemma language_forgets_traffic_witness :
  m_sessionRx (ui (ui_event two_servers (fun _ => id) id true (fun _ => 0)
    (mkUiWorld (onBytesChanged 100 10 example_ui) new_failover 0) (LanguageChanged 0 1))) = 0.
Proof.
  apply (language_forgets_traffic (fun _ => id) id two_servers true (fun _ => 0)
    (mkUiWorld (onBytesChanged 100 10 example_ui) new_failover 0) 0 1). reflexivity.
Defined.

Lemma preparation_never_ends_witness :
  let w := mkUiWorld (onConnectionStateChanged id 0 Preparing (new_ui id)) new_failover 0 in
  control (ui_run (fun _ => id) id (configValidated no_servers true w)
    [((two_servers, true, fun _ => 0), ToggleAsked)]) = new_failover.
Proof.
  apply (preparation_never_ends (fun _ => id) id no_servers
    (mkUiWorld (onConnectionStateChanged id 0 Preparing (new_ui id)) new_failover 0)
    [(two_servers, true, fun _ => 0)]); reflexivity.
Defined.
