(* ===== verification/Firewall.v ===== *)
(** * The firewall of Linux

    [LinuxFirewall] of client/platforms/linux/daemon/linuxfirewall.cpp.  Its rules
    lie in anchors: a chain that stays in its place in the root chain, and a chain
    of rules that it jumps to while the anchor is enabled.  Every method runs lines
    of the shell around the tool iptables; a line is a value of [sh], a method a list
    of [Action]s.  The tool is the interface [Iptables], its documented behaviour
    [documented], and what a packet meets is [walk].

    The theorems show that the operations on anchors are what they seem (a list of
    anchors with a switch and rules each), that a packet meets the rules of the
    enabled anchors in order, and that the removal of the firewall restores every
    table. *)

From stdpp Require Import base numbers list strings gmap fin_maps.
From Stdlib Require Import ZArith Lia Strings.String Strings.Ascii.
From S2P Require Import Prelude Json Config.
Open Scope string_scope.
Open Scope list_scope.
Open Scope Z_scope.

(** ** The tool *)

Inductive IPVersion := IPv4 | IPv6 | Both.

(** The program for one version. *)
Inductive Command := iptables | ip6tables.

#[export] Instance Command_eq_dec : EqDecision Command.
Proof. solve_decision. Defined.

(** The calls that both versions stand for, in order; [getCommand]. *)
Definition getCommand (ip : IPVersion) : list Command :=
  match ip with IPv4 => [iptables] | IPv6 => [ip6tables] | Both => [iptables; ip6tables] end.

(** The options that are used.  A rule is the text of its specification, kept as it
    is written; numbers of rules start at one. *)
Inductive Ipt :=
| NewChain (chain : string)
| Flush (chain : string)
| DeleteChain (chain : string)
| ListChain (chain : string)
| AppendRule (chain rule : string)
| InsertRule (chain rule : string)
| DeleteRule (chain rule : string)
| DeleteNumber (chain : string) (n : nat)
| CheckRule (chain rule : string)
| ReplaceRule (chain : string) (n : nat) (rule : string).

(** The chains of a table. *)
Abbreviation Table := (gmap string (list string)).

Definition words (rule : string) : list string := split_on " "%char rule.

(** The argument of [-j]; every option has one argument. *)
Fixpoint target_of (ws : list string) : option string :=
  match ws with
  | [] => None
  | w :: rest =>
      if String.eqb w "!" then target_of rest
      else match rest with
           | a :: ws' => if String.eqb w "-j" then Some a else target_of ws'
           | [] => None
           end
  end.

Definition target (rule : string) : option string := target_of (words rule).

(** Targets that are not chains, and chains that are part of every table. *)
Definition verdicts : list string := ["ACCEPT"; "REJECT"; "MASQUERADE"; "MARK"].
Definition built_in : list string := ["OUTPUT"; "PREROUTING"; "POSTROUTING"].

(** A rule jumps to a chain that exists. *)
Definition jumps_well (T : Table) (rule : string) : bool :=
  match target rule with
  | Some c => bool_decide (c ∈ verdicts) || bool_decide (is_Some (T !! c))
  | None => true
  end.

Definition refers (chain : string) (rule : string) : bool := bool_decide (target rule = Some chain).

Definition referenced (T : Table) (chain : string) : bool :=
  existsb (fun cl => existsb (refers chain) (snd cl)) (map_to_list T).

Fixpoint remove_first (rule : string) (l : list string) : list string :=
  match l with
  | [] => []
  | r :: l' => if String.eqb r rule then l' else r :: remove_first rule l'
  end.

(** What a call does to its table; [None] where it fails and changes nothing.
    [accepted] are the rules that the tool accepts. *)
Definition documented (accepted : string -> bool) (call : Ipt) (T : Table) : option Table :=
  match call with
  | NewChain c =>
      if T !! c is Some _ then None
      else if (String.length c <=? 28)%nat then Some (<[c := []]> T) else None
  | Flush c => if T !! c is Some _ then Some (<[c := []]> T) else None
  | DeleteChain c =>
      if T !! c is Some [] then
        if bool_decide (c ∈ built_in) || referenced T c then None else Some (delete c T)
      else None
  | ListChain c => if T !! c is Some _ then Some T else None
  | AppendRule c r =>
      if T !! c is Some l then
        if accepted r && jumps_well T r then Some (<[c := l ++ [r]]> T) else None
      else None
  | InsertRule c r =>
      if T !! c is Some l then
        if accepted r && jumps_well T r then Some (<[c := r :: l]> T) else None
      else None
  | DeleteRule c r =>
      if T !! c is Some l then
        if bool_decide (r ∈ l) then Some (<[c := remove_first r l]> T) else None
      else None
  | DeleteNumber c n =>
      if T !! c is Some l then
        match n with
        | S i => if (i <? List.length l)%nat then Some (<[c := delete i l]> T) else None
        | O => None
        end
      else None
  | CheckRule c r =>
      if T !! c is Some l then if bool_decide (r ∈ l) then Some T else None else None
  | ReplaceRule c n r =>
      if T !! c is Some l then
        match n with
        | S i => if (i <? List.length l)%nat && accepted r && jumps_well T r then Some (<[c := <[i := r]> l]> T) else None
        | O => None
        end
      else None
  end.

(** A rule is accepted as one rule, or refused; of other texts (names of several
    addresses, signs of the shell) nothing is said. *)
Inductive Status := Accepted | Refused | Unclear.

#[export] Instance Status_eq_dec : EqDecision Status.
Proof. solve_decision. Defined.

Definition rule_of (call : Ipt) : option string :=
  match call with
  | AppendRule _ r | InsertRule _ r | DeleteRule _ r | CheckRule _ r | ReplaceRule _ _ r => Some r
  | _ => None
  end.

Class Iptables := {
  kernel : Type;
  tables : kernel -> Command -> string -> Table;
  ipt : Command -> string -> Ipt -> kernel -> bool * kernel;
  status : Command -> string -> Status
}.

Definition is_accepted `{Iptables} (cmd : Command) (rule : string) : bool :=
  bool_decide (status cmd rule = Accepted).

Definition clear_rule `{Iptables} (cmd : Command) (rule : string) : bool :=
  bool_decide (status cmd rule <> Unclear).

(** ** Lines of the shell *)

(** A line for one program and one table.  [TopIs] is the pipe that looks for a
    target in the first line of a listing, [DropLater] the one that deletes the next
    rule with that target; without such a rule xargs still calls the tool once, for
    the deletion of a rule without words. *)
Inductive sh :=
| Run (call : Ipt)
| Skip
| Not (a : sh)
| Or (a b : sh)
| And (a b : sh)
| Seq (a b : sh)
| If (c a b : sh)
| TopIs (parent chain : string)
| DropLater (parent chain : string).

Definition top_is (chain : string) (l : list string) : bool :=
  match l with r :: _ => refers chain r | [] => false end.

(** The number of the first rule after the top one that has the target. *)
Definition later_number (chain : string) (l : list string) : option nat :=
  match list_find (fun r => refers chain r = true) (drop 1 l) with
  | Some (i, _) => Some (S (S i))
  | None => None
  end.

(** A line that looks at its table by [look] and calls the tool by [call]. *)
Fixpoint shell {W} (look : W -> Table) (call : Ipt -> W -> bool * W) (s : sh) (w : W) : bool * W :=
  match s with
  | Run c => call c w
  | Skip => (true, w)
  | Not a => let '(ok, w1) := shell look call a w in (negb ok, w1)
  | Or a b => let '(ok, w1) := shell look call a w in if ok then (true, w1) else shell look call b w1
  | And a b => let '(ok, w1) := shell look call a w in if ok then shell look call b w1 else (false, w1)
  | Seq a b => shell look call b (snd (shell look call a w))
  | If c a b =>
      let '(ok, w1) := shell look call c w in if ok then shell look call a w1 else shell look call b w1
  | TopIs parent chain => (top_is chain (default [] (look w !! parent)), w)
  | DropLater parent chain =>
      match later_number chain (default [] (look w !! parent)) with
      | Some n => call (DeleteNumber parent n) w
      | None => call (DeleteRule parent EmptyString) w
      end
  end.

(** What a method does: a line for one program and table, another command, and the
    callbacks of anchors. *)
Inductive Callback := SetupTrafficSplitting | TeardownTrafficSplitting.

Inductive Action :=
| Line (cmd : Command) (tableName : string) (s : sh)
| Other (text : string)
| Register (key : string) (f : Callback)
| Call (key : string).

(** ** The state *)

Record Firewall `{Iptables} := mkFirewall {
  netfilter : kernel;
  commands : list string;
  anchorCallbacks : gmap string Callback
}.

Definition kAnchorName : string := "amnvpn".
Definition kPacketTag : string := "0x3211".
Definition kCGroupId : string := "0x567".
Definition kRtableName : string := "amnvpnrt".
Definition kOutputChain : string := "OUTPUT".
Definition kPostRoutingChain : string := "POSTROUTING".
Definition kPreRoutingChain : string := "PREROUTING".
Definition kRootChain : string := "amnvpn.anchors".
Definition kFilterTable : string := "filter".
Definition kNatTable : string := "nat".
Definition kRawTable : string := "raw".
Definition kMangleTable : string := "mangle".

Definition enabledKey (tableName anchor : string) : string := "enabled:" +:+ tableName +:+ ":" +:+ anchor.
Definition disabledKey (tableName anchor : string) : string := "disabled:" +:+ tableName +:+ ":" +:+ anchor.

Definition setupTrafficSplitting : list string :=
  ["if [ ! -d /sys/fs/cgroup/net_cls/amnvpnexclusions/ ] ; then mkdir /sys/fs/cgroup/net_cls/amnvpnexclusions/ ; sleep 0.1 ; echo "
     +:+ kCGroupId +:+ " > /sys/fs/cgroup/net_cls/amnvpnexclusions//net_cls.classid ; fi";
   "if ! ip rule list | grep -q " +:+ kPacketTag +:+ " ; then ip rule add from all fwmark " +:+ kPacketTag
     +:+ " lookup " +:+ kRtableName +:+ " pri 100 ; fi"].

Definition teardownTrafficSplitting : list string :=
  ["if ip rule list | grep -q " +:+ kPacketTag +:+ "; then ip rule del from all fwmark " +:+ kPacketTag
     +:+ " lookup " +:+ kRtableName +:+ " 2> /dev/null ; fi";
   "ip route flush table " +:+ kRtableName;
   "ip route flush cache"].

Definition callback (f : Callback) : list string :=
  match f with
  | SetupTrafficSplitting => setupTrafficSplitting
  | TeardownTrafficSplitting => teardownTrafficSplitting
  end.

(** ** Chains *)

Definition jump (chain : string) : string := "-j " +:+ chain.

(** A line for each version. *)
Definition each (ip : IPVersion) (tableName : string) (s : sh) : list Action :=
  map (fun cmd => Line cmd tableName s) (getCommand ip).

Definition create_line (chain : string) : sh := Or (Run (NewChain chain)) (Run (Flush chain)).

Definition delete_line (chain : string) : sh :=
  If (Run (ListChain chain)) (And (Run (Flush chain)) (Run (DeleteChain chain))) Skip.

Definition link_line (chain parent : string) (mustBeFirst : bool) : sh :=
  if mustBeFirst then
    If (Not (TopIs parent chain))
       (And (Run (InsertRule parent (jump chain))) (DropLater parent chain))
       Skip
  else If (Not (Run (CheckRule parent (jump chain)))) (Run (AppendRule parent (jump chain))) Skip.

Definition unlink_line (chain parent : string) : sh :=
  If (Run (CheckRule parent (jump chain))) (Run (DeleteRule parent (jump chain))) Skip.

Definition createChain (ip : IPVersion) (chain tableName : string) : list Action :=
  each ip tableName (create_line chain).

Definition deleteChain (ip : IPVersion) (chain tableName : string) : list Action :=
  each ip tableName (delete_line chain).

Definition linkChain (ip : IPVersion) (chain parent : string) (mustBeFirst : bool) (tableName : string)
  : list Action := each ip tableName (link_line chain parent mustBeFirst).

Definition unlinkChain (ip : IPVersion) (chain parent tableName : string) : list Action :=
  each ip tableName (unlink_line chain parent).

Definition ensureRootAnchorPriority (ip : IPVersion) : list Action :=
  linkChain ip kRootChain kOutputChain true kFilterTable.

(** ** Anchors *)

Definition anchorChain (anchor : string) : string := kAnchorName +:+ ".a." +:+ anchor.
Definition actualChain (anchor : string) : string := kAnchorName +:+ "." +:+ anchor.

Definition register (key : string) (f : option Callback) : list Action :=
  match f with Some g => [Register key g] | None => [] end.

(** The part of [installAnchor] for one version. *)
Definition install_one (cmd : Command) (anchor : string) (rules : list string) (tableName : string)
    (enableFunc disableFunc : option Callback) : list Action :=
  [Line cmd tableName (create_line (anchorChain anchor));
   Line cmd tableName (link_line (anchorChain anchor) kRootChain false)]
  ++ register (enabledKey tableName anchor) enableFunc
  ++ register (disabledKey tableName anchor) disableFunc
  ++ [Line cmd tableName (create_line (actualChain anchor))]
  ++ map (fun rule => Line cmd tableName (Run (AppendRule (actualChain anchor) rule))) rules.

Definition installAnchor (ip : IPVersion) (anchor : string) (rules : list string) (tableName : string)
    (enableFunc disableFunc : option Callback) : list Action :=
  List.concat (map (fun cmd => install_one cmd anchor rules tableName enableFunc disableFunc) (getCommand ip)).

(** With the defaults for its last arguments. *)
Definition installFilter (ip : IPVersion) (anchor : string) (rules : list string) : list Action :=
  installAnchor ip anchor rules kFilterTable None None.

Definition uninstall_one (cmd : Command) (anchor tableName : string) : list Action :=
  [Line cmd tableName (unlink_line (anchorChain anchor) kRootChain);
   Line cmd tableName (delete_line (anchorChain anchor));
   Line cmd tableName (delete_line (actualChain anchor))].

Definition uninstallAnchor (ip : IPVersion) (anchor tableName : string) : list Action :=
  List.concat (map (fun cmd => uninstall_one cmd anchor tableName) (getCommand ip)).

Definition enable_line (anchor : string) : sh :=
  If (Run (CheckRule (anchorChain anchor) (jump (actualChain anchor)))) Skip
     (Run (AppendRule (anchorChain anchor) (jump (actualChain anchor)))).

Definition disable_line (anchor : string) : sh :=
  If (Not (Run (CheckRule (anchorChain anchor) (jump (actualChain anchor))))) Skip
     (Run (Flush (anchorChain anchor))).

Definition enableAnchor (ip : IPVersion) (anchor tableName : string) : list Action :=
  each ip tableName (enable_line anchor).

Definition disableAnchor (ip : IPVersion) (anchor tableName : string) : list Action :=
  each ip tableName (disable_line anchor).

Definition replaceAnchor (ip : IPVersion) (anchor newRule tableName : string) : list Action :=
  each ip tableName (Seq (Run (ReplaceRule (actualChain anchor) 1 newRule)) Skip).

Definition setAnchorEnabled (ip : IPVersion) (anchor : string) (enabled : bool) (tableName : string)
  : list Action :=
  if enabled then enableAnchor ip anchor tableName ++ [Call (enabledKey tableName anchor)]
  else disableAnchor ip anchor tableName ++ [Call (disabledKey tableName anchor)].

(** ** Rules *)

Definition dns_rules (server : string) : list string :=
  ["-o amn0+ -d " +:+ server +:+ " -p udp --dport 53 -j ACCEPT";
   "-o amn0+ -d " +:+ server +:+ " -p tcp --dport 53 -j ACCEPT";
   "-o tun0+ -d " +:+ server +:+ " -p udp --dport 53 -j ACCEPT";
   "-o tun0+ -d " +:+ server +:+ " -p tcp --dport 53 -j ACCEPT";
   "-o tun2+ -d " +:+ server +:+ " -p udp --dport 53 -j ACCEPT";
   "-o tun2+ -d " +:+ server +:+ " -p tcp --dport 53 -j ACCEPT"].

Definition allow_rule (server : string) : string := "-d " +:+ server +:+ " -j ACCEPT".
Definition block_rule (server : string) : string := "-d " +:+ server +:+ " -j REJECT".

Definition getDNSRules (servers : list string) : list string := List.concat (map dns_rules servers).
Definition getAllowRule (servers : list string) : list string := map allow_rule servers.
Definition getBlockRule (servers : list string) : list string := map block_rule servers.

(** The rules of an anchor are exchanged; only those of version 4 ever are. *)
Definition update (anchor : string) (rules : list string) : list Action :=
  Line iptables kFilterTable (Run (Flush (actualChain anchor)))
  :: map (fun rule => Line iptables kFilterTable (Run (AppendRule (actualChain anchor) rule))) rules.

Definition updateDNSServers (servers : list string) : list Action :=
  update "320.allowDNS" (getDNSRules servers).
Definition updateAllowNets (servers : list string) : list Action :=
  update "110.allowNets" (getAllowRule servers).
Definition updateBlockNets (servers : list string) : list Action :=
  update "120.blockNets" (getBlockRule servers).

(** ** Installation *)

Definition uninstall : list Action :=
  unlinkChain Both kRootChain kOutputChain kFilterTable ++ deleteChain Both kRootChain kFilterTable
  ++ unlinkChain Both kRootChain kPreRoutingChain kRawTable ++ deleteChain Both kRootChain kRawTable
  ++ unlinkChain Both kRootChain kPostRoutingChain kNatTable ++ deleteChain Both kRootChain kNatTable
  ++ unlinkChain Both kRootChain kOutputChain kMangleTable ++ deleteChain Both kRootChain kMangleTable
  ++ uninstallAnchor Both "000.allowLoopback" kFilterTable
  ++ uninstallAnchor Both "400.allowPIA" kFilterTable
  ++ uninstallAnchor IPv4 "320.allowDNS" kFilterTable
  ++ uninstallAnchor Both "310.blockDNS" kFilterTable
  ++ uninstallAnchor Both "300.allowLAN" kFilterTable
  ++ uninstallAnchor Both "290.allowDHCP" kFilterTable
  ++ uninstallAnchor IPv6 "250.blockIPv6" kFilterTable
  ++ uninstallAnchor Both "200.allowVPN" kFilterTable
  ++ uninstallAnchor IPv4 "120.blockNets" kFilterTable
  ++ uninstallAnchor Both "130.allowMarkedXray" kFilterTable
  ++ uninstallAnchor IPv4 "110.allowNets" kFilterTable
  ++ uninstallAnchor Both "100.blockAll" kFilterTable
  ++ uninstallAnchor Both "100.transIp" kNatTable
  ++ uninstallAnchor Both "100.tagPkts" kMangleTable
  ++ uninstallAnchor Both "100.vpnTunOnly" kRawTable
  ++ map Other teardownTrafficSplitting.

(** The mark of xray_defs.h, 0x82. *)
Definition xrayTrafficMark : string := "130".

Definition loopback_rules : list string := ["-o lo+ -j ACCEPT"].
Definition block_dns_rules : list string := ["-p udp --dport 53 -j REJECT"; "-p tcp --dport 53 -j REJECT"].
Definition lan4_rules : list string :=
  ["-d 10.0.0.0/8 -j ACCEPT"; "-d 169.254.0.0/16 -j ACCEPT"; "-d 172.16.0.0/12 -j ACCEPT";
   "-d 192.168.0.0/16 -j ACCEPT"; "-d 224.0.0.0/4 -j ACCEPT"; "-d 255.255.255.255/32 -j ACCEPT"].
Definition lan6_rules : list string :=
  ["-d fc00::/7 -j ACCEPT"; "-d fe80::/10 -j ACCEPT"; "-d ff00::/8 -j ACCEPT"].
Definition dhcp4_rules : list string := ["-p udp -d 255.255.255.255 --sport 68 --dport 67 -j ACCEPT"].
Definition dhcp6_rules : list string := ["-p udp -d ff00::/8 --sport 546 --dport 547 -j ACCEPT"].
Definition block6_rules : list string := ["! -o lo+ -j REJECT"].
Definition vpn_rules : list string := ["-o amn0+ -j ACCEPT"; "-o tun0+ -j ACCEPT"; "-o tun2+ -j ACCEPT"].
Definition xray_rules : list string := ["-m mark --mark " +:+ xrayTrafficMark +:+ " -j ACCEPT"].
Definition block_all_rules : list string := ["-j REJECT"].
Definition nat_rules : list string := ["-j MASQUERADE"].
Definition tag_rules : list string :=
  ["-m cgroup --cgroup " +:+ kCGroupId +:+ " -j MARK --set-mark " +:+ kPacketTag].
Definition tun_rules : list string := ["-j ACCEPT"].

Definition install : list Action :=
  uninstall
  ++ createChain Both kRootChain kFilterTable ++ createChain Both kRootChain kRawTable
  ++ createChain Both kRootChain kNatTable ++ createChain Both kRootChain kMangleTable
  ++ installFilter Both "000.allowLoopback" loopback_rules
  ++ installFilter IPv4 "320.allowDNS" []
  ++ installFilter Both "310.blockDNS" block_dns_rules
  ++ installFilter IPv4 "300.allowLAN" lan4_rules
  ++ installFilter IPv6 "300.allowLAN" lan6_rules
  ++ installFilter IPv4 "290.allowDHCP" dhcp4_rules
  ++ installFilter IPv6 "290.allowDHCP" dhcp6_rules
  ++ installFilter IPv6 "250.blockIPv6" block6_rules
  ++ installFilter Both "200.allowVPN" vpn_rules
  ++ installFilter Both "130.allowMarkedXray" xray_rules
  ++ installFilter IPv4 "120.blockNets" []
  ++ installFilter IPv4 "110.allowNets" []
  ++ installFilter Both "100.blockAll" block_all_rules
  ++ installAnchor Both "100.transIp" nat_rules kNatTable None None
  ++ installAnchor Both "100.tagPkts" tag_rules kMangleTable
       (Some SetupTrafficSplitting) (Some TeardownTrafficSplitting)
  ++ installAnchor Both "100.vpnTunOnly" tun_rules kRawTable None None
  ++ linkChain Both kRootChain kOutputChain true kFilterTable
  ++ linkChain Both kRootChain kPostRoutingChain true kNatTable
  ++ linkChain Both kRootChain kOutputChain true kMangleTable
  ++ linkChain Both kRootChain kPreRoutingChain true kRawTable
  ++ map Other setupTrafficSplitting.

(** ** Running actions *)

Section Run.
Context `{Iptables}.

Definition set_netfilter (k : kernel) (w : Firewall) : Firewall :=
  mkFirewall _ k (commands w) (anchorCallbacks w).

(** A line on the system, with its exit code. *)
Definition exec (cmd : Command) (tableName : string) (s : sh) (k : kernel) : bool * kernel :=
  shell (fun k => tables k cmd tableName) (ipt cmd tableName) s k.

Definition say (l : list string) (w : Firewall) : Firewall :=
  mkFirewall _ (netfilter w) (commands w ++ l) (anchorCallbacks w).

Definition execute (a : Action) (w : Firewall) : Firewall :=
  match a with
  | Line cmd t s => set_netfilter (snd (exec cmd t s (netfilter w))) w
  | Other text => say [text] w
  | Register key f =>
      match anchorCallbacks w !! key with
      | Some _ => w
      | None => mkFirewall _ (netfilter w) (commands w) (<[key := f]> (anchorCallbacks w))
      end
  | Call key =>
      match anchorCallbacks w !! key with Some f => say (callback f) w | None => w end
  end.

Definition run (l : list Action) (w : Firewall) : Firewall := foldl (fun w a => execute a w) w l.

Definition isInstalled (w : Firewall) : bool :=
  fst (exec iptables kFilterTable (Run (CheckRule kOutputChain (jump kRootChain))) (netfilter w)).

(** [Both] counts as version 4 here. *)
Definition isAnchorEnabled (ip : IPVersion) (anchor tableName : string) (w : Firewall) : bool :=
  let cmd := match ip with IPv6 => ip6tables | _ => iptables end in
  fst (exec cmd tableName (Run (CheckRule (anchorChain anchor) (jump (actualChain anchor)))) (netfilter w)).

End Run.

(** ** What a packet meets *)

(** A packet, by the options of a rule that it satisfies. *)
Record Packet := mkPacket {
  leaves_by : string -> bool;
  goes_to : string -> bool;
  carries : string -> bool;
  from_port : string -> bool;
  to_port : string -> bool;
  has_mark : string -> bool
}.

Definition satisfies (p : Packet) (option_name argument : string) : bool :=
  if String.eqb option_name "-o" then leaves_by p argument
  else if String.eqb option_name "-d" then goes_to p argument
  else if String.eqb option_name "-p" then carries p argument
  else if String.eqb option_name "--sport" then from_port p argument
  else if String.eqb option_name "--dport" then to_port p argument
  else if String.eqb option_name "--mark" then has_mark p argument
  else String.eqb option_name "-m" || String.eqb option_name "-j".

(** A packet matches a rule if it satisfies every option of it. *)
Fixpoint matches (p : Packet) (ws : list string) : bool :=
  match ws with
  | [] => true
  | w :: rest =>
      if String.eqb w "!" then
        match rest with o :: a :: ws' => negb (satisfies p o a) && matches p ws' | _ => false end
      else match rest with a :: ws' => satisfies p w a && matches p ws' | [] => false end
  end.

Definition final_targets : list string := ["ACCEPT"; "REJECT"].

(** The verdict of rules of the filter table, [Some None] where they end without one;
    [n] bounds the depth of jumps. *)
Fixpoint walk (n : nat) (T : Table) (p : Packet) (rules : list string) : option (option string) :=
  (fix go (rules : list string) : option (option string) :=
     match rules with
     | [] => Some None
     | r :: rs =>
         if matches p (words r) then
           match target r with
           | Some c =>
               if bool_decide (c ∈ final_targets) then Some (Some c)
               else
                 match n, T !! c with
                 | S n', Some l => match walk n' T p l with Some None => go rs | v => v end
                 | _, _ => None
                 end
           | None => go rs
           end
         else go rs
     end) rules.

(** ** Anchors as a list *)

(** Name, whether it is enabled, and rules; in the order of the root chain. *)
Abbreviation Anchor := (string * (bool * list string))%type.

Definition set_anchor (X : string) (on : bool) (L : list Anchor) : list Anchor :=
  map (fun '(Y, (b, rules)) => (Y, (if String.eqb Y X then on else b, rules))) L.

Definition set_rules (X : string) (rules : list string) (L : list Anchor) : list Anchor :=
  map (fun '(Y, (b, old)) => (Y, (b, if String.eqb Y X then rules else old))) L.

Fixpoint first_match (p : Packet) (rules : list string) : option string :=
  match rules with
  | [] => None
  | r :: rs => if matches p (words r) then target r else first_match p rs
  end.

(** The verdict of the enabled anchors, in order. *)
Fixpoint decide_anchors (p : Packet) (L : list Anchor) : option string :=
  match L with
  | [] => None
  | (_, (on, rules)) :: L' =>
      match (if on then first_match p rules else None) with
      | Some v => Some v
      | None => decide_anchors p L'
      end
  end.

Definition links (L : list Anchor) : list string := map (fun a => jump (anchorChain (fst a))) L.

Definition chains (L : list Anchor) : list string :=
  List.concat (map (fun a => [anchorChain (fst a); actualChain (fst a)]) L).

(** Signs of names of chains. *)
Definition name_sign (c : ascii) : bool :=
  let n := N_of_ascii c in
  ((48 <=? n) && (n <=? 57) || (65 <=? n) && (n <=? 90) || (97 <=? n) && (n <=? 122) || (n =? 46))%N.

Fixpoint name_signs (s : string) : bool :=
  match s with EmptyString => true | String c s' => name_sign c && name_signs s' end.

Definition plain_name (s : string) : bool := name_signs s && (String.length s <=? 28)%nat.

(** Names of anchors whose chains differ from each other and from the root chain. *)
Definition anchor_name (X : string) : bool :=
  plain_name (anchorChain X) && plain_name (actualChain X)
  && match X with String c _ => negb (Ascii.eqb c "a") | EmptyString => false end.

Definition ours (chain : string) : bool := String.prefix "amnvpn." chain.

(** A rule that ends with a verdict. *)
Definition final_rule (rule : string) : bool :=
  match target rule with Some v => bool_decide (v ∈ verdicts) | None => false end.

Definition filter_rule (rule : string) : bool :=
  match target rule with Some v => bool_decide (v ∈ final_targets) | None => false end.

(** A table that holds the anchors [L] beside the chains of [base]. *)
Record laid (root : option (list string)) (L : list Anchor) (base T : Table) : Prop := {
  laid_names : NoDup (map fst L);
  laid_named : Forall (fun a => anchor_name (fst a) = true) L;
  laid_rules : Forall (fun a => Forall (fun r => final_rule r = true) (snd (snd a))) L;
  laid_root : T !! kRootChain = root;
  laid_anchor (X : string) (on : bool) (rules : list string) :
    (X, (on, rules)) ∈ L ->
    T !! anchorChain X = Some (if on then [jump (actualChain X)] else [])
    /\ T !! actualChain X = Some rules;
  laid_other (c : string) : c <> kRootChain -> c ∉ chains L -> T !! c = base !! c
}.

(** No chain of ours, no rule that jumps to one. *)
Definition free (T : Table) : Prop := forall c, ours c = true -> T !! c = None.

Definition unreferenced (T : Table) : Prop :=
  forall c l r d, T !! c = Some l -> r ∈ l -> target r = Some d -> ours d = false.

(** ** Lines on a table *)

Definition call_table (accepted : string -> bool) (call : Ipt) (T : Table) : bool * Table :=
  match documented accepted call T with Some T' => (true, T') | None => (false, T) end.

Definition line (accepted : string -> bool) (s : sh) (T : Table) : bool * Table :=
  shell id (call_table accepted) s T.

Definition lines (accepted : string -> bool) (l : list sh) (T : Table) : Table :=
  foldl (fun T s => snd (line accepted s T)) T l.

(** The lines of actions for one program and table. *)
Definition select (cmd : Command) (t : string) (l : list Action) : list sh :=
  omap (fun a =>
    match a with
    | Line cmd' t' s => if bool_decide (cmd' = cmd) && String.eqb t' t then Some s else None
    | _ => None
    end) l.

Fixpoint sh_rules (s : sh) : list string :=
  match s with
  | Run c => match rule_of c with Some r => [r] | None => [] end
  | Skip | TopIs _ _ => []
  | DropLater _ _ => [EmptyString]
  | Not a => sh_rules a
  | Or a b | And a b | Seq a b => sh_rules a ++ sh_rules b
  | If c a b => sh_rules c ++ sh_rules a ++ sh_rules b
  end.

Definition clear_action `{Iptables} (a : Action) : bool :=
  match a with Line cmd _ s => forallb (clear_rule cmd) (sh_rules s) | _ => true end.

(** Rules that the program writes itself, and the one without words. *)
Definition fixed_rules : list string :=
  EmptyString :: loopback_rules ++ block_dns_rules ++ vpn_rules ++ xray_rules ++ block_all_rules ++ nat_rules
  ++ tag_rules ++ tun_rules.

Definition fixed_rules_for (cmd : Command) : list string :=
  fixed_rules
  ++ match cmd with
     | iptables => lan4_rules ++ dhcp4_rules
     | ip6tables => lan6_rules ++ dhcp6_rules ++ block6_rules
     end.

(** The documented behaviour of the tool. *)
Class IptablesLaws `{Iptables} : Prop := {
  ipt_result cmd t call k :
    (forall r, rule_of call = Some r -> status cmd r <> Unclear) ->
    fst (ipt cmd t call k) = fst (call_table (is_accepted cmd) call (tables k cmd t));
  ipt_tables cmd t call k cmd' t' :
    (forall r, rule_of call = Some r -> status cmd r <> Unclear) ->
    tables (snd (ipt cmd t call k)) cmd' t' =
      if bool_decide (cmd = cmd') && String.eqb t t'
      then snd (call_table (is_accepted cmd) call (tables k cmd t))
      else tables k cmd' t';
  jump_accepted cmd c : plain_name c = true -> status cmd (jump c) = Accepted;
  fixed_accepted cmd r : r ∈ fixed_rules_for cmd -> status cmd r = Accepted
}.

(** ** The firewall as a whole *)

(** Which anchors of the filter table are enabled, and the rules that change. *)
Record Anchors := mkAnchors {
  on4 : string -> bool;
  on6 : string -> bool;
  dns_list : list string;
  block_list : list string;
  allow_list : list string
}.

Definition bodies4 (s : Anchors) : list (string * list string) :=
  [("000.allowLoopback", loopback_rules); ("320.allowDNS", dns_list s); ("310.blockDNS", block_dns_rules);
   ("300.allowLAN", lan4_rules); ("290.allowDHCP", dhcp4_rules); ("200.allowVPN", vpn_rules);
   ("130.allowMarkedXray", xray_rules); ("120.blockNets", block_list s); ("110.allowNets", allow_list s);
   ("100.blockAll", block_all_rules)].

Definition bodies6 : list (string * list string) :=
  [("000.allowLoopback", loopback_rules); ("310.blockDNS", block_dns_rules); ("300.allowLAN", lan6_rules);
   ("290.allowDHCP", dhcp6_rules); ("250.blockIPv6", block6_rules); ("200.allowVPN", vpn_rules);
   ("130.allowMarkedXray", xray_rules); ("100.blockAll", block_all_rules)].

Definition switched (on : string -> bool) (l : list (string * list string)) : list Anchor :=
  map (fun '(X, rules) => (X, (on X, rules))) l.

Definition filter_layout (s : Anchors) (cmd : Command) : list Anchor :=
  match cmd with iptables => switched (on4 s) (bodies4 s) | ip6tables => switched (on6 s) bodies6 end.

(** The anchors of the other tables stay as they are installed. *)
Definition layout (s : Anchors) (cmd : Command) (t : string) : list Anchor :=
  if String.eqb t kFilterTable then filter_layout s cmd
  else if String.eqb t kNatTable then [("100.transIp", (false, nat_rules))]
  else if String.eqb t kMangleTable then [("100.tagPkts", (false, tag_rules))]
  else [("100.vpnTunOnly", (false, tun_rules))].

Definition our_tables : list string := [kFilterTable; kNatTable; kRawTable; kMangleTable].

Definition parent_of (t : string) : string :=
  if String.eqb t kNatTable then kPostRoutingChain
  else if String.eqb t kRawTable then kPreRoutingChain
  else kOutputChain.

(** Tables without the firewall: they have the chain that it is linked into, in which no
    rule is without words (neither a condition nor a target). *)
Definition plain_table (t : string) (T : Table) : Prop :=
  free T /\ unreferenced T /\ (is_Some (T !! parent_of t) /\ EmptyString ∉ default [] (T !! parent_of t)).

Definition linked (t : string) (T : Table) : Table :=
  <[parent_of t := jump kRootChain :: default [] (T !! parent_of t)]> T.

Definition nothing_on : Anchors := mkAnchors (fun _ => false) (fun _ => false) [] [] [].

(** The rules that change end with a verdict of the filter table. *)
Definition sound_anchors (s : Anchors) : Prop :=
  Forall (fun r => filter_rule r = true) (dns_list s ++ block_list s ++ allow_list s).

Definition switch (X : string) (b : bool) (on : string -> bool) (Y : string) : bool :=
  if String.eqb Y X then b else on Y.

(** The operations, on the anchors alone. *)
Definition set_on (ip : IPVersion) (X : string) (b : bool) (s : Anchors) : Anchors :=
  mkAnchors
    (if bool_decide (iptables ∈ getCommand ip) then switch X b (on4 s) else on4 s)
    (if bool_decide (ip6tables ∈ getCommand ip) then switch X b (on6 s) else on6 s)
    (dns_list s) (block_list s) (allow_list s).

Definition set_dns (rules : list string) (s : Anchors) : Anchors :=
  mkAnchors (on4 s) (on6 s) rules (block_list s) (allow_list s).
Definition set_block (rules : list string) (s : Anchors) : Anchors :=
  mkAnchors (on4 s) (on6 s) (dns_list s) rules (allow_list s).
Definition set_allow (rules : list string) (s : Anchors) : Anchors :=
  mkAnchors (on4 s) (on6 s) (dns_list s) (block_list s) rules.

Section Whole.
Context `{Iptables}.

Definition table (w : Firewall) (cmd : Command) (t : string) : Table := tables (netfilter w) cmd t.

Definition clean (base : Command -> string -> Table) (w : Firewall) : Prop :=
  forall cmd t, t ∈ our_tables -> plain_table t (base cmd t) /\ table w cmd t = base cmd t.

Definition installed (base : Command -> string -> Table) (s : Anchors) (w : Firewall) : Prop :=
  sound_anchors s
  /\ forall cmd t, t ∈ our_tables ->
    plain_table t (base cmd t)
    /\ laid (Some (links (layout s cmd t))) (layout s cmd t) (linked t (base cmd t)) (table w cmd t).

(** A text for a destination that the tool accepts in every rule, or refuses in
    every rule. *)
Definition server_rules (server : string) : list string :=
  allow_rule server :: block_rule server :: dns_rules server.

Definition usable (server : string) : bool := is_accepted iptables (allow_rule server).

Definition clear_server (server : string) : Prop :=
  (string_has " "%char server = false
   /\ Forall (fun r => status iptables r = Accepted) (server_rules server))
  \/ Forall (fun r => status iptables r = Refused) (server_rules server).

(** Operations on the filter table, and what they do to the anchors. *)
Inductive FilterOp :=
| SetAnchor (ip : IPVersion) (anchor : string) (enabled : bool)
| DNSServers (servers : list string)
| AllowNets (servers : list string)
| BlockNets (servers : list string)
| EnsurePriority.

Definition op_actions (o : FilterOp) : list Action :=
  match o with
  | SetAnchor ip X b => setAnchorEnabled ip X b kFilterTable
  | DNSServers l => updateDNSServers l
  | AllowNets l => updateAllowNets l
  | BlockNets l => updateBlockNets l
  | EnsurePriority => ensureRootAnchorPriority Both
  end.

Definition op_ok (o : FilterOp) : Prop :=
  match o with
  | SetAnchor _ X _ => anchor_name X = true
  | DNSServers l | AllowNets l | BlockNets l => Forall clear_server l
  | EnsurePriority => True
  end.

Definition op_anchors (o : FilterOp) (s : Anchors) : Anchors :=
  match o with
  | SetAnchor ip X b => set_on ip X b s
  | DNSServers l => set_dns (getDNSRules (List.filter usable l)) s
  | AllowNets l => set_allow (getAllowRule (List.filter usable l)) s
  | BlockNets l => set_block (getBlockRule (List.filter usable l)) s
  | EnsurePriority => s
  end.

Definition ops_actions (l : list FilterOp) : list Action := List.concat (map op_actions l).
Definition ops_anchors (l : list FilterOp) (s : Anchors) : Anchors := foldl (fun s o => op_anchors o s) s l.

(** What the firewall says of a packet that goes out: the verdict of its root chain,
    if it is at the top of the output. *)
Definition verdict (cmd : Command) (p : Packet) (w : Firewall) : option (option string) :=
  match table w cmd kFilterTable !! kOutputChain with
  | Some (r :: _) => if refers kRootChain r then walk 3 (table w cmd kFilterTable) p [r] else Some None
  | _ => Some None
  end.

Definition same_table (cmd cmd' : Command) (t t' : string) : bool :=
  bool_decide (cmd = cmd') && String.eqb t t'.

(** What a line does to the system, in terms of its table alone. *)
Definition acts (cmd : Command) (t : string) (k : kernel) (r : bool * kernel) (r' : bool * Table) : Prop :=
  fst r = fst r'
  /\ forall cmd' t', tables (snd r) cmd' t' = if same_table cmd cmd' t t' then snd r' else tables k cmd' t'.

End Whole.

(** The lines that install one anchor. *)
Definition install_lines (X : string) (rules : list string) : list sh :=
  [create_line (anchorChain X); link_line (anchorChain X) kRootChain false; create_line (actualChain X)]
  ++ map (fun r => Run (AppendRule (actualChain X) r)) rules.

(** The lines that remove one anchor. *)
Definition uninstall_lines (X : string) : list sh :=
  [unlink_line (anchorChain X) kRootChain; delete_line (anchorChain X); delete_line (actualChain X)].

Definition remove_anchor (X : string) (L : list Anchor) : list Anchor :=
  List.filter (fun a => negb (String.eqb (fst a) X)) L.

(** The anchors that are removed from a table, and those that are installed in it. *)
Definition uninstall_names (cmd : Command) (t : string) : list string :=
  if String.eqb t kFilterTable then
    match cmd with
    | iptables =>
        ["000.allowLoopback"; "400.allowPIA"; "320.allowDNS"; "310.blockDNS"; "300.allowLAN"; "290.allowDHCP";
         "200.allowVPN"; "120.blockNets"; "130.allowMarkedXray"; "110.allowNets"; "100.blockAll"]
    | ip6tables =>
        ["000.allowLoopback"; "400.allowPIA"; "310.blockDNS"; "300.allowLAN"; "290.allowDHCP"; "250.blockIPv6";
         "200.allowVPN"; "130.allowMarkedXray"; "100.blockAll"]
    end
  else map fst (layout nothing_on cmd t).

Definition bodies (cmd : Command) (t : string) : list (string * list string) :=
  map (fun '(X, (_, rules)) => (X, rules)) (layout nothing_on cmd t).

Definition bodies_ok (cmd : Command) (l : list (string * list string)) : bool :=
  forallb (fun '(X, rules) =>
    anchor_name X && forallb final_rule rules && forallb (fun r => bool_decide (r ∈ fixed_rules_for cmd)) rules) l
  && bool_decide (NoDup (map fst l)).

(** Traffic that the rules speak of. *)
Definition tunnel (p : Packet) : bool := leaves_by p "amn0+" || leaves_by p "tun0+" || leaves_by p "tun2+".
Definition is_dns (p : Packet) : bool := (carries p "udp" || carries p "tcp") && to_port p "53".
Definition to_any (p : Packet) (l : list string) : bool := existsb (goes_to p) l.

(** Actions that leave other tables alone. *)
Definition within (a : Action) : bool :=
  match a with Line _ t _ => bool_decide (t ∈ our_tables) | _ => true end.

(** Rules whose status the laws tell. *)
Definition known_rule (cmd : Command) (r : string) : bool :=
  bool_decide (r ∈ fixed_rules_for cmd)
  || match r with
     | String "-" (String "j" (String " " c)) => plain_name c
     | _ => false
     end.

Definition known_action (a : Action) : bool :=
  match a with Line cmd _ s => forallb (known_rule cmd) (sh_rules s) | _ => true end.

(** *** A system for examples *)

(** The tables, and the tool as it is documented. *)
Definition example_sign (c : ascii) : bool :=
  name_sign c || existsb (Ascii.eqb c) [" "%char; "-"%char; "+"%char; ":"%char; "/"%char; "!"%char].

Fixpoint example_signs (s : string) : bool :=
  match s with EmptyString => true | String c s' => example_sign c && example_signs s' end.

Definition example_status (cmd : Command) (r : string) : Status :=
  if known_rule cmd r then Accepted
  else if negb (example_signs r) then Unclear
  else if contains_text "  " r then Refused else Accepted.

Definition example_iptables : Iptables := {|
  kernel := Command -> string -> Table;
  tables := fun k => k;
  ipt := fun cmd t call k =>
    let r := call_table (fun r => bool_decide (example_status cmd r = Accepted)) call (k cmd t) in
    (fst r, fun cmd' t' => if bool_decide (cmd = cmd') && String.eqb t t' then snd r else k cmd' t');
  status := example_status
|}.

(** Tables as they are before: rules of others in the output. *)
Definition example_table : Table :=
  <["OUTPUT" := ["-d 192.0.2.1 -j ACCEPT"]]> (<["PREROUTING" := []]> {["POSTROUTING" := []]}).

Definition example_firewall : @Firewall example_iptables :=
  mkFirewall example_iptables (fun _ _ => example_table) [] ∅.

Definition example_ops : list FilterOp :=
  [SetAnchor Both "000.allowLoopback" true; AllowNets ["203.0.113.1"; EmptyString];
   SetAnchor IPv4 "110.allowNets" true].

(** ** Lemmas: names *)

Lemma string_app_inj (a b c : string) : (a +:+ b = a +:+ c)%string -> b = c.
Proof. by induction a as [|d a IH]; [|intros [= ?%IH]]. Qed.

Lemma anchorChain_inj (X Y : string) : anchorChain X = anchorChain Y -> X = Y.
Proof. unfold anchorChain. by intros ?%string_app_inj%string_app_inj. Qed.

Lemma actualChain_inj (X Y : string) : actualChain X = actualChain Y -> X = Y.
Proof. unfold actualChain. by intros ?%string_app_inj%string_app_inj. Qed.

Lemma anchor_actual (X Y : string) : anchor_name Y = true -> anchorChain X <> actualChain Y.
Proof.
  unfold anchor_name. rewrite andb_true_iff. intros [_ HY] E.
  destruct Y as [|c Y]; [done|]. injection E as <- _. done.
Qed.

Lemma anchor_root (X : string) : anchorChain X <> kRootChain.
Proof. intros E. injection E. done. Qed.

Lemma actual_root (X : string) : anchor_name X = true -> actualChain X <> kRootChain.
Proof.
  unfold anchor_name. rewrite andb_true_iff. intros [_ HX] E.
  destruct X as [|c X]; [done|]. injection E as -> _. done.
Qed.

Lemma ours_anchor (X : string) : ours (anchorChain X) = true.
Proof. apply (prefix_app "amnvpn."). Qed.

Lemma ours_actual (X : string) : ours (actualChain X) = true.
Proof. apply (prefix_app "amnvpn."). Qed.

Lemma plain_no_space (s : string) : name_signs s = true -> string_has " "%char s = false.
Proof.
  induction s as [|c s IH]; [done|]. cbn [name_signs string_has].
  rewrite andb_true_iff. intros [Hc Hs]. rewrite IH by done.
  destruct (Ascii.eqb_spec " "%char c) as [<-|]; [discriminate Hc|done].
Qed.

Lemma words_jump (c : string) : plain_name c = true -> words (jump c) = ["-j"; c].
Proof.
  unfold plain_name. rewrite andb_true_iff. intros [Hc%plain_no_space _].
  unfold words, jump. change ("-j " +:+ c) with ("-j" +:+ String " "%char c)%string.
  by rewrite (split_on_first " "%char "-j" c), split_on_single.
Qed.

Lemma target_jump (c : string) : plain_name c = true -> target (jump c) = Some c.
Proof. intros Hc. unfold target. by rewrite words_jump. Qed.

Lemma jump_inj (a b : string) : jump a = jump b -> a = b.
Proof. apply string_app_inj. Qed.

Lemma matches_jump (p : Packet) (c : string) : plain_name c = true -> matches p (words (jump c)) = true.
Proof. intros Hc. by rewrite words_jump. Qed.

Lemma anchor_name_plain (X : string) :
  anchor_name X = true -> plain_name (anchorChain X) = true /\ plain_name (actualChain X) = true.
Proof. unfold anchor_name. rewrite !andb_true_iff. tauto. Qed.

Lemma plain_length (c : string) : plain_name c = true -> (String.length c <=? 28)%nat = true.
Proof. unfold plain_name. rewrite andb_true_iff. tauto. Qed.

Lemma plain_root : plain_name kRootChain = true.
Proof. done. Qed.

(** ** Lemmas: lines of the shell act on their table *)

Section Simulation.
Context `{IptablesLaws}.

Lemma acts_id cmd t b k : acts cmd t k (b, k) (b, tables k cmd t).
Proof.
  split; [done|]. intros cmd' t'. simpl. unfold same_table.
  destruct (bool_decide_reflect (cmd = cmd')) as [<-|]; [|done].
  by destruct (String.eqb_spec t t') as [<-|].
Qed.

Lemma acts_here cmd t k r r' : acts cmd t k r r' -> tables (snd r) cmd t = snd r'.
Proof.
  intros [_ Hr]. rewrite Hr. unfold same_table.
  by rewrite bool_decide_eq_true_2, String.eqb_refl.
Qed.

Lemma acts_trans cmd t k r r1 r' r1' :
  acts cmd t k r r' -> acts cmd t (snd r) r1 r1' -> acts cmd t k r1 r1'.
Proof.
  intros [_ Hr] [H1 Hr1]. split; [done|]. intros cmd' t'. rewrite Hr1, Hr. by case_match.
Qed.

Lemma acts_call cmd t call k :
  (forall r, rule_of call = Some r -> clear_rule cmd r = true) ->
  acts cmd t k (ipt cmd t call k) (call_table (is_accepted cmd) call (tables k cmd t)).
Proof.
  intros Hr. assert (forall r, rule_of call = Some r -> status cmd r <> Unclear).
  { intros r Hc%Hr. by apply bool_decide_eq_true in Hc. }
  split; [by apply ipt_result|]. intros. by apply ipt_tables.
Qed.

Lemma exec_acts cmd t s k :
  forallb (clear_rule cmd) (sh_rules s) = true ->
  acts cmd t k (exec cmd t s k) (line (is_accepted cmd) s (tables k cmd t)).
Proof.
  unfold exec, line. revert k.
  induction s as [c| |a IHa|a IHa b IHb|a IHa b IHb|a IHa b IHb|c IHc a IHa b IHb| |parent chain];
    intros k; cbn [sh_rules shell]; rewrite ?forallb_app, ?andb_true_iff; intros Hs.
  - apply acts_call. intros r Hr. rewrite Hr in Hs. simpl in Hs. by rewrite andb_true_r in Hs.
  - apply acts_id.
  - specialize (IHa k Hs). destruct (shell _ _ a k) as [ok k1], (shell id _ a _) as [ok' T1].
    destruct IHa as [Ha IHa]. simpl in Ha. subst ok'. by split.
  - destruct Hs as [Ha Hb]. specialize (IHa k Ha). pose proof (acts_here _ _ _ _ _ IHa) as Hh.
    destruct (shell _ _ a k) as [ok k1], (shell id _ a _) as [ok' T1].
    pose proof (proj1 IHa) as Hok. simpl in Hok, Hh. subst ok' T1.
    destruct ok; [exact IHa|]. by apply (acts_trans _ _ _ _ _ _ _ IHa), IHb.
  - destruct Hs as [Ha Hb]. specialize (IHa k Ha). pose proof (acts_here _ _ _ _ _ IHa) as Hh.
    destruct (shell _ _ a k) as [ok k1], (shell id _ a _) as [ok' T1].
    pose proof (proj1 IHa) as Hok. simpl in Hok, Hh. subst ok' T1.
    destruct ok; [|exact IHa]. by apply (acts_trans _ _ _ _ _ _ _ IHa), IHb.
  - destruct Hs as [Ha Hb]. specialize (IHa k Ha). pose proof (acts_here _ _ _ _ _ IHa) as Hh.
    rewrite <- Hh. by apply (acts_trans _ _ _ _ _ _ _ IHa), IHb.
  - destruct Hs as [Hc [Ha Hb]]. specialize (IHc k Hc). pose proof (acts_here _ _ _ _ _ IHc) as Hh.
    destruct (shell _ _ c k) as [ok k1], (shell id _ c _) as [ok' T1].
    pose proof (proj1 IHc) as Hok. simpl in Hok, Hh. subst ok' T1.
    destruct ok; apply (acts_trans _ _ _ _ _ _ _ IHc); auto.
  - apply acts_id.
  - unfold id at 2. destruct (later_number _ _); [by apply acts_call|].
    apply acts_call. intros r [= <-]. simpl in Hs. by rewrite andb_true_r in Hs.
Qed.

Lemma lines_app acc l1 l2 T : lines acc (l1 ++ l2) T = lines acc l2 (lines acc l1 T).
Proof. apply foldl_app. Qed.

(** Actions change a table by the lines that are for it. *)
Lemma run_table (l : list Action) (w : Firewall) (cmd : Command) (t : string) :
  forallb clear_action l = true ->
  table (run l w) cmd t = lines (is_accepted cmd) (select cmd t l) (table w cmd t).
Proof.
  unfold run. revert w. induction l as [|a l IH]; intros w; [done|].
  cbn [forallb foldl]. rewrite andb_true_iff. intros [Ha Hl]. rewrite IH by done.
  destruct a as [cmd' t' s|text|key f|key]; cbn [clear_action execute select] in *.
  - destruct (exec_acts cmd' t' s (netfilter w) Ha) as [_ Hr].
    unfold table at 1. cbn [set_netfilter netfilter]. rewrite Hr. unfold same_table.
    unfold select at 2. cbn [omap list_omap].
    destruct (bool_decide_reflect (cmd' = cmd)) as [->|]; [|done].
    by destruct (String.eqb_spec t' t) as [->|].
  - done.
  - by destruct (anchorCallbacks w !! key).
  - by destruct (anchorCallbacks w !! key).
Qed.

Lemma run_app (l1 l2 : list Action) (w : Firewall) : run (l1 ++ l2) w = run l2 (run l1 w).
Proof. apply foldl_app. Qed.

Lemma jump_clear cmd c : plain_name c = true -> clear_rule cmd (jump c) = true.
Proof. intros Hc. apply bool_decide_eq_true. by rewrite (jump_accepted _ _ Hc). Qed.

Lemma jump_is_accepted cmd c : plain_name c = true -> is_accepted cmd (jump c) = true.
Proof. intros Hc. apply bool_decide_eq_true. by apply jump_accepted. Qed.

Lemma fixed_is_accepted cmd r : r ∈ fixed_rules_for cmd -> is_accepted cmd r = true.
Proof. intros Hr. apply bool_decide_eq_true. by apply fixed_accepted. Qed.

Lemma accepted_clear cmd r : is_accepted cmd r = true -> clear_rule cmd r = true.
Proof. unfold is_accepted, clear_rule. rewrite !bool_decide_eq_true. by intros ->. Qed.

End Simulation.

(** ** Lemmas: what lines do to a table *)

Lemma elem_chains (c : string) (L : list Anchor) :
  c ∈ chains L <-> exists a, a ∈ L /\ (c = anchorChain (fst a) \/ c = actualChain (fst a)).
Proof.
  unfold chains. rewrite list_elem_of_In, in_concat. split.
  - intros (x & (a & <- & Ha)%in_map_iff & Hc). exists a. split; [by apply list_elem_of_In|].
    destruct Hc as [<-|[<-|[]]]; auto.
  - intros (a & Ha & Hc). exists [anchorChain (fst a); actualChain (fst a)]. split.
    + apply in_map_iff. exists a. split; [done|]. by apply list_elem_of_In.
    + destruct Hc as [->| ->]; simpl; auto.
Qed.

Lemma chains_ours (c : string) (L : list Anchor) : c ∈ chains L -> ours c = true.
Proof. intros (a & _ & [->| ->])%elem_chains; [apply ours_anchor|apply ours_actual]. Qed.

Lemma elem_names (X : string) (L : list Anchor) :
  X ∈ map fst L -> exists on rules, (X, (on, rules)) ∈ L.
Proof.
  intros ([Y [on rules]] & E & HX)%list_elem_of_fmap. simpl in E. subst Y. eauto.
Qed.

Lemma names_unique (X : string) (b b' : bool * list string) (L : list Anchor) :
  NoDup (map fst L) -> (X, b) ∈ L -> (X, b') ∈ L -> b = b'.
Proof.
  induction L as [|[Y c] L IH]; [by intros _ ?%not_elem_of_nil|].
  cbn [map fst]. intros [HY HL]%NoDup_cons. rewrite !elem_of_cons.
  assert (forall d, (Y, d) ∉ L) by (intros d Hd; apply HY; by apply (list_elem_of_fmap_2 fst L (Y, d))).
  intros [E|Hb] [E'|Hb']; simplify_eq; [done|by edestruct H|by edestruct H|by apply IH].
Qed.

Lemma set_anchor_names X on L : map fst (set_anchor X on L) = map fst L.
Proof.
  unfold set_anchor. rewrite map_map. apply map_ext. by intros [Y [b rules]].
Qed.

Lemma set_rules_names X rules L : map fst (set_rules X rules L) = map fst L.
Proof.
  unfold set_rules. rewrite map_map. apply map_ext. by intros [Y [b old]].
Qed.

Lemma same_names_links L L' : map fst L = map fst L' -> links L = links L'.
Proof.
  unfold links. rewrite <- !(map_map fst (fun X => jump (anchorChain X))). by intros ->.
Qed.

Lemma same_names_chains L L' : map fst L = map fst L' -> chains L = chains L'.
Proof.
  unfold chains. rewrite <- !(map_map fst (fun X => [anchorChain X; actualChain X])). by intros ->.
Qed.

Lemma Forall_names (P : string -> Prop) (L L' : list Anchor) :
  map fst L = map fst L' -> Forall (fun a => P (fst a)) L -> Forall (fun a => P (fst a)) L'.
Proof. intros E. rewrite <- !(List.Forall_map fst P). by rewrite E. Qed.

Lemma elem_set_anchor X on L Y b rules :
  (Y, (b, rules)) ∈ set_anchor X on L ->
  exists b', (Y, (b', rules)) ∈ L /\ b = if String.eqb Y X then on else b'.
Proof.
  unfold set_anchor. intros ([Z [b' rules']] & E & HL)%list_elem_of_fmap. simplify_eq. eauto.
Qed.

Lemma elem_set_rules X new L Y b rules :
  (Y, (b, rules)) ∈ set_rules X new L ->
  exists old, (Y, (b, old)) ∈ L /\ rules = if String.eqb Y X then new else old.
Proof.
  unfold set_rules. intros ([Z [b' rules']] & E & HL)%list_elem_of_fmap. simplify_eq. eauto.
Qed.

Lemma set_anchor_absent X on L : X ∉ map fst L -> set_anchor X on L = L.
Proof.
  intros HX. unfold set_anchor. rewrite <- (map_id L) at 2. apply map_ext_in.
  intros [Y [b rules]] HY. destruct (String.eqb_spec Y X) as [->|]; [|done].
  destruct HX. apply (list_elem_of_fmap_2 fst L (X, (b, rules))). by apply list_elem_of_In.
Qed.

Lemma set_rules_absent X new L : X ∉ map fst L -> set_rules X new L = L.
Proof.
  intros HX. unfold set_rules. rewrite <- (map_id L) at 2. apply map_ext_in.
  intros [Y [b rules]] HY. destruct (String.eqb_spec Y X) as [->|]; [|done].
  destruct HX. apply (list_elem_of_fmap_2 fst L (X, (b, rules))). by apply list_elem_of_In.
Qed.

Section Laid.
Context (root : option (list string)) (L : list Anchor) (base T : Table) (HT : laid root L base T).

Lemma laid_name X b : (X, b) ∈ L -> anchor_name X = true.
Proof. intros HX. by apply (proj1 (Forall_forall _ _) (laid_named _ _ _ _ HT) (X, b)). Qed.

(** An anchor that is not there has no chains. *)
Lemma laid_absent X :
  free base -> anchor_name X = true -> X ∉ map fst L ->
  T !! anchorChain X = None /\ T !! actualChain X = None.
Proof.
  intros Hb Hn HX. split; (rewrite (laid_other _ _ _ _ HT); [apply Hb; auto using ours_anchor, ours_actual|by auto using anchor_root, actual_root|]).
  - intros ([Y c] & HY & [E%anchorChain_inj|E])%elem_chains; simpl in E.
    + subst Y. by apply HX, (list_elem_of_fmap_2 fst L (X, c)).
    + by apply anchor_actual in E; [|eapply laid_name].
  - intros ([Y c] & HY & [E|E%actualChain_inj])%elem_chains; simpl in E.
    + by symmetry in E; apply anchor_actual in E.
    + subst Y. by apply HX, (list_elem_of_fmap_2 fst L (X, c)).
Qed.

Lemma laid_set_anchor X on :
  X ∈ map fst L ->
  laid root (set_anchor X on L) base
    (<[anchorChain X := if on then [jump (actualChain X)] else []]> T).
Proof.
  intros (b0 & rules0 & HX)%elem_names. pose proof (laid_name _ _ HX) as Hn.
  pose proof (set_anchor_names X on L) as EL. split.
  - rewrite EL. apply (laid_names _ _ _ _ HT).
  - apply (Forall_names (fun X => anchor_name X = true) L); [done|]. apply (laid_named _ _ _ _ HT).
  - apply Forall_forall. intros [Y [b rules]] (b' & HY & _)%elem_set_anchor.
    apply (proj1 (Forall_forall _ _) (laid_rules _ _ _ _ HT) _ HY).
  - rewrite lookup_insert_ne by apply anchor_root. apply (laid_root _ _ _ _ HT).
  - intros Y b rules (b' & HY & ->)%elem_set_anchor.
    destruct (laid_anchor _ _ _ _ HT _ _ _ HY) as [H1 H2].
    rewrite (lookup_insert_ne _ _ (actualChain Y)) by (eapply anchor_actual, laid_name, HY).
    split; [|done]. destruct (String.eqb_spec Y X) as [->|E]; [by rewrite lookup_insert_eq|].
    by rewrite lookup_insert_ne by (intros ?%anchorChain_inj; congruence).
  - intros c Hr Hc. rewrite (same_names_chains _ _ EL) in Hc.
    rewrite lookup_insert_ne; [by apply (laid_other _ _ _ _ HT)|].
    intros <-. apply Hc, elem_chains. eauto.
Qed.

Lemma laid_set_rules X rules :
  X ∈ map fst L -> Forall (fun r => final_rule r = true) rules ->
  laid root (set_rules X rules L) base (<[actualChain X := rules]> T).
Proof.
  intros (b0 & rules0 & HX)%elem_names Hf. pose proof (laid_name _ _ HX) as Hn.
  pose proof (set_rules_names X rules L) as EL. split.
  - rewrite EL. apply (laid_names _ _ _ _ HT).
  - apply (Forall_names (fun X => anchor_name X = true) L); [done|]. apply (laid_named _ _ _ _ HT).
  - apply Forall_forall. intros [Y [b new]] (old & HY & ->)%elem_set_rules. simpl.
    case_match; [done|]. apply (proj1 (Forall_forall _ _) (laid_rules _ _ _ _ HT) _ HY).
  - rewrite lookup_insert_ne by by apply actual_root. apply (laid_root _ _ _ _ HT).
  - intros Y b new (old & HY & ->)%elem_set_rules.
    destruct (laid_anchor _ _ _ _ HT _ _ _ HY) as [H1 H2].
    rewrite (lookup_insert_ne _ _ (anchorChain Y)) by (intros E; by eapply anchor_actual).
    split; [done|]. destruct (String.eqb_spec Y X) as [->|E]; [by rewrite lookup_insert_eq|].
    by rewrite lookup_insert_ne by (intros ?%actualChain_inj; congruence).
  - intros c Hr Hc. rewrite (same_names_chains _ _ EL) in Hc.
    rewrite lookup_insert_ne; [by apply (laid_other _ _ _ _ HT)|].
    intros <-. apply Hc, elem_chains. eauto.
Qed.

(** The root chain and chains of others can be changed beside the anchors. *)
Lemma laid_insert_root l : laid (Some l) L base (<[kRootChain := l]> T).
Proof.
  destruct HT. split; try done.
  - by rewrite lookup_insert_eq.
  - intros X on rules HX. rewrite !lookup_insert_ne; [by apply laid_anchor0| |].
    + intros E. by eapply actual_root; [eapply laid_name, HX|].
    + intros E. by eapply anchor_root.
  - intros c Hr Hc. rewrite lookup_insert_ne by done. by apply laid_other0.
Qed.

Lemma laid_delete_root : laid None L base (delete kRootChain T).
Proof.
  destruct HT. split; try done.
  - by rewrite lookup_delete_eq.
  - intros X on rules HX. rewrite !lookup_delete_ne; [by apply laid_anchor0| |].
    + intros E. by eapply actual_root; [eapply laid_name, HX|].
    + intros E. by eapply anchor_root.
  - intros c Hr Hc. rewrite lookup_delete_ne by done. by apply laid_other0.
Qed.

Lemma laid_insert_other c l : ours c = false -> laid root L (<[c := l]> base) (<[c := l]> T).
Proof.
  intros Hc. destruct HT. split; try done.
  - rewrite lookup_insert_ne; [done|]. by intros ->.
  - intros X on rules HX. rewrite !lookup_insert_ne; [by apply laid_anchor0| |].
    + intros ->. by rewrite ours_actual in Hc.
    + intros ->. by rewrite ours_anchor in Hc.
  - intros d Hr Hd. destruct (decide (c = d)) as [->|].
    + by rewrite !lookup_insert_eq.
    + rewrite !lookup_insert_ne by done. by apply laid_other0.
Qed.

Lemma laid_add X rules :
  X ∉ map fst L -> anchor_name X = true -> Forall (fun r => final_rule r = true) rules ->
  laid root (L ++ [(X, (false, rules))]) base (<[actualChain X := rules]> (<[anchorChain X := []]> T)).
Proof.
  intros HX Hn Hf. pose proof HT as [HL Hns Hrs Hr Ha Ho].
  assert (forall Y b, (Y, b) ∈ L -> Y <> X) as Hne.
  { intros Y b HY ->. by apply HX, (list_elem_of_fmap_2 fst L (X, b)). }
  split.
  - rewrite map_app. apply NoDup_app. repeat split; [done| |apply NoDup_singleton].
    intros Y HY ->%list_elem_of_singleton. done.
  - apply Forall_app. split; [done|]. by apply Forall_singleton.
  - apply Forall_app. split; [done|]. by apply Forall_singleton.
  - rewrite !lookup_insert_ne; [done|apply anchor_root|by apply actual_root].
  - intros Y on old [HY|E%list_elem_of_singleton]%elem_of_app.
    + pose proof (Hne _ _ HY). pose proof (laid_name _ _ HY).
      rewrite !lookup_insert_ne; [by apply Ha|..]; intros E;
        first [by apply anchorChain_inj in E | by apply actualChain_inj in E
              | by apply anchor_actual in E | by symmetry in E; apply anchor_actual in E].
    + simplify_eq. rewrite lookup_insert_eq, lookup_insert_ne, lookup_insert_eq; [done|].
      intros E. symmetry in E. by apply anchor_actual in E.
  - intros c Hc Hn'. assert ((c ∉ chains L) /\ c <> anchorChain X /\ c <> actualChain X) as (H1 & H2 & H3).
    { repeat split; [|intros ->..]; try intros Hin; apply Hn', elem_chains.
      - apply elem_chains in Hin as (a & Hin & E). exists a. split; [|done]. apply elem_of_app. auto.
      - exists (X, (false, rules)). split; [apply elem_of_app; right; by apply list_elem_of_singleton|auto].
      - exists (X, (false, rules)). split; [apply elem_of_app; right; by apply list_elem_of_singleton|auto]. }
    rewrite !lookup_insert_ne by done. by apply Ho.
Qed.

End Laid.

(** A line on a table, one call after another. *)
Ltac shell_line :=
  cbn [shell id fst snd negb create_line delete_line link_line unlink_line enable_line disable_line];
  unfold call_table; cbn [documented].

Section Lines.
Context (acc : string -> bool) (Hjump : forall c, plain_name c = true -> acc (jump c) = true).

Lemma jumps_well_jump (T : Table) c :
  plain_name c = true -> is_Some (T !! c) -> jumps_well T (jump c) = true.
Proof.
  intros Hc HT. unfold jumps_well. rewrite target_jump by done.
  apply orb_true_iff. right. by apply bool_decide_eq_true.
Qed.

Lemma jumps_well_final (T : Table) r : final_rule r = true -> jumps_well T r = true.
Proof. unfold final_rule, jumps_well. destruct (target r); [|done]. by intros ->. Qed.

Lemma enable_laid root L base T X :
  laid root L base T -> free base -> anchor_name X = true ->
  laid root (set_anchor X true L) base (snd (line acc (enable_line X) T)).
Proof.
  intros HT Hb Hn. pose proof (anchor_name_plain _ Hn) as [_ Hp]. unfold line. shell_line.
  destruct (decide (X ∈ map fst L)) as [HX|HX].
  - pose proof (laid_set_anchor _ _ _ _ HT X true HX) as HS.
    apply elem_names in HX as (b & rules & HX).
    destruct (laid_anchor _ _ _ _ HT _ _ _ HX) as [H1 H2]. rewrite H1. destruct b.
    + rewrite bool_decide_eq_true_2 by by apply list_elem_of_singleton.
      simpl. by rewrite insert_id in HS.
    + rewrite bool_decide_eq_false_2 by by apply not_elem_of_nil.
      rewrite H1, Hjump, jumps_well_jump by (rewrite ?H2; done). exact HS.
  - destruct (laid_absent _ _ _ _ HT X Hb Hn HX) as [H1 _]. rewrite H1. simpl.
    rewrite H1. simpl. by rewrite set_anchor_absent.
Qed.

Lemma disable_laid root L base T X :
  laid root L base T -> free base -> anchor_name X = true ->
  laid root (set_anchor X false L) base (snd (line acc (disable_line X) T)).
Proof.
  intros HT Hb Hn. unfold line. shell_line.
  destruct (decide (X ∈ map fst L)) as [HX|HX].
  - pose proof (laid_set_anchor _ _ _ _ HT X false HX) as HS.
    apply elem_names in HX as (b & rules & HX).
    destruct (laid_anchor _ _ _ _ HT _ _ _ HX) as [H1 H2]. rewrite H1. destruct b.
    + rewrite bool_decide_eq_true_2 by by apply list_elem_of_singleton.
      simpl. rewrite H1. exact HS.
    + rewrite bool_decide_eq_false_2 by by apply not_elem_of_nil.
      simpl. by rewrite insert_id in HS.
  - destruct (laid_absent _ _ _ _ HT X Hb Hn HX) as [H1 _]. rewrite H1. simpl.
    by rewrite set_anchor_absent.
Qed.

(** Rules are added to a chain, but for those that are refused. *)
Lemma append_lines c l rules T :
  T !! c = Some l -> Forall (fun r => acc r = true -> final_rule r = true) rules ->
  lines acc (map (fun r => Run (AppendRule c r)) rules) T = <[c := l ++ List.filter acc rules]> T.
Proof.
  revert l T. induction rules as [|r rules IH]; intros l T Hc Hf.
  - simpl. by rewrite app_nil_r, insert_id.
  - apply Forall_cons in Hf as [Hr Hf]. cbn [map]. unfold lines in *. cbn [foldl].
    unfold line at 2. shell_line. rewrite Hc. cbn [List.filter]. destruct (acc r).
    + rewrite jumps_well_final by auto. cbn [andb snd].
      rewrite (IH (l ++ [r])) by (done || apply lookup_insert_eq).
      by rewrite insert_insert_eq, <- app_assoc.
    + by apply IH.
Qed.

Lemma append_absent c rules T :
  T !! c = None -> lines acc (map (fun r => Run (AppendRule c r)) rules) T = T.
Proof.
  intros Hc. induction rules as [|r rules IH]; [done|]. cbn [map]. unfold lines in *. cbn [foldl].
  unfold line at 2. shell_line. rewrite Hc. exact IH.
Qed.

Lemma filter_final rules :
  Forall (fun r => acc r = true -> final_rule r = true) rules ->
  Forall (fun r => final_rule r = true) (List.filter acc rules).
Proof.
  intros Hf. induction Hf as [|r rules Hr _ IH]; simpl; [done|].
  case_match; [apply Forall_cons; auto|done].
Qed.

Lemma update_laid root L base T X rules :
  laid root L base T -> free base -> anchor_name X = true ->
  Forall (fun r => acc r = true -> final_rule r = true) rules ->
  laid root (set_rules X (List.filter acc rules) L) base
    (lines acc (Run (Flush (actualChain X)) :: map (fun r => Run (AppendRule (actualChain X) r)) rules) T).
Proof.
  intros HT Hb Hn Hf. unfold lines. cbn [foldl].
  change (foldl (fun T s => snd (line acc s T))) with (fun T l => lines acc l T).
  unfold line at 1. shell_line. destruct (decide (X ∈ map fst L)) as [HX|HX].
  - pose proof HX as (b & old & HX')%elem_names.
    destruct (laid_anchor _ _ _ _ HT _ _ _ HX') as [_ H2]. rewrite H2. cbn [snd].
    rewrite (append_lines _ []) by (done || apply lookup_insert_eq).
    rewrite insert_insert_eq. apply laid_set_rules; [done|done|]. by apply filter_final.
  - destruct (laid_absent _ _ _ _ HT X Hb Hn HX) as [_ H2]. rewrite H2. cbn [snd].
    by rewrite append_absent, set_rules_absent.
Qed.

Lemma links_elem X L : jump (anchorChain X) ∈ links L -> X ∈ map fst L.
Proof.
  intros ([Y b] & E%jump_inj%anchorChain_inj & HY)%list_elem_of_fmap. simpl in E. subst Y.
  by apply (list_elem_of_fmap_2 fst L (X, b)).
Qed.

Lemma install_laid L base T X rules :
  laid (Some (links L)) L base T -> free base -> anchor_name X = true -> X ∉ map fst L ->
  Forall (fun r => final_rule r = true) rules -> List.filter acc rules = rules ->
  let L' := L ++ [(X, (false, rules))] in
  laid (Some (links L')) L' base (lines acc (install_lines X rules) T).
Proof.
  intros HT Hb Hn HX Hf Ha L'. pose proof (anchor_name_plain _ Hn) as [Hp1 Hp2].
  destruct (laid_absent _ _ _ _ HT X Hb Hn HX) as [H1 H2].
  pose proof (anchor_actual X X Hn). pose proof (anchor_root X). pose proof (actual_root X Hn).
  unfold install_lines. rewrite lines_app.
  assert (lines acc [create_line (anchorChain X); link_line (anchorChain X) kRootChain false;
            create_line (actualChain X)] T
          = <[actualChain X := []]> (<[kRootChain := links L']> (<[anchorChain X := []]> T))) as ->.
  { unfold lines. cbn [foldl]. unfold line at 3. shell_line.
    rewrite H1, plain_length by done. cbn [fst snd].
    unfold line at 2. shell_line. rewrite lookup_insert_ne, (laid_root _ _ _ _ HT) by done.
    rewrite bool_decide_eq_false_2 by (intros HL%links_elem; done). cbn [fst snd negb].
    rewrite lookup_insert_ne, (laid_root _ _ _ _ HT) by done.
    rewrite Hjump, jumps_well_jump by (rewrite ?lookup_insert_eq; done). cbn [andb snd].
    unfold line. shell_line. rewrite !lookup_insert_ne, H2, plain_length by done. cbn [snd].
    unfold L', links. by rewrite map_app. }
  rewrite (append_lines _ []) by (apply lookup_insert_eq || by apply (Forall_impl _ _ _ Hf)).
  rewrite insert_insert_eq, Ha. cbn [app].
  rewrite (insert_insert_ne _ (actualChain X) kRootChain) by done.
  eapply laid_insert_root, laid_add; done.
Qed.

Lemma not_referenced (T : Table) c :
  (forall c' l r, T !! c' = Some l -> r ∈ l -> target r <> Some c) -> referenced T c = false.
Proof.
  intros HT. unfold referenced. apply existsb_false, Forall_forall. intros [c' l] Hc%elem_of_map_to_list.
  apply existsb_false, Forall_forall. intros r Hr. apply bool_decide_eq_false. by apply (HT c' l).
Qed.

Lemma ours_not_verdict d : ours d = true -> d ∉ verdicts.
Proof.
  intros Hd Hv. unfold verdicts in Hv. set_unfold in Hv. by repeat destruct Hv as [->|Hv].
Qed.

Lemma ours_not_built_in c : ours c = true -> bool_decide (c ∈ built_in) = false.
Proof.
  intros Hc. apply bool_decide_eq_false. intros Hv. unfold built_in in Hv. set_unfold in Hv.
  by repeat destruct Hv as [->|Hv].
Qed.

Lemma final_not_ours r d : final_rule r = true -> target r = Some d -> ours d = true -> False.
Proof.
  unfold final_rule. intros Hr E Hd. rewrite E in Hr. apply bool_decide_eq_true in Hr.
  by apply (ours_not_verdict d).
Qed.

(** Only anchors jump to chains of ours. *)
Lemma laid_targets root L base T c l r d :
  laid root L base T -> unreferenced base -> default [] root = [] ->
  T !! c = Some l -> r ∈ l -> target r = Some d -> ours d = true ->
  exists X, X ∈ map fst L /\ c = anchorChain X /\ d = actualChain X.
Proof.
  intros HT Hb Hroot Hc Hr Ht Hd. destruct (decide (c = kRootChain)) as [->|Hn].
  { rewrite (laid_root _ _ _ _ HT) in Hc. subst root. simpl in Hroot. subst l. by apply not_elem_of_nil in Hr. }
  destruct (decide (c ∈ chains L)) as [([X [on rules]] & HX & E)%elem_chains|Hch].
  - destruct (laid_anchor _ _ _ _ HT _ _ _ HX) as [H1 H2]. simpl in E.
    pose proof (laid_name _ _ _ _ HT _ _ HX) as [_ Hp]%anchor_name_plain.
    destruct E as [->| ->].
    + rewrite H1 in Hc. injection Hc as <-. destruct on; [|by apply not_elem_of_nil in Hr].
      apply list_elem_of_singleton in Hr as ->. rewrite target_jump in Ht by done. injection Ht as <-.
      exists X. split; [|done]. by apply (list_elem_of_fmap_2 fst L (X, (true, rules))).
    + rewrite H2 in Hc. injection Hc as <-.
      pose proof (proj1 (Forall_forall _ _) (laid_rules _ _ _ _ HT) _ HX) as Hf.
      by destruct (final_not_ours r d (proj1 (Forall_forall _ _) Hf _ Hr) Ht Hd).
  - rewrite (laid_other _ _ _ _ HT) in Hc by done. by rewrite (Hb _ _ _ _ Hc Hr Ht) in Hd.
Qed.

(** A chain that nothing jumps to is deleted. *)
Lemma delete_chain_line c l (T : Table) :
  T !! c = Some l -> ours c = true ->
  (forall c' l r, c' <> c -> T !! c' = Some l -> r ∈ l -> target r <> Some c) ->
  line acc (delete_line c) T = (true, delete c T).
Proof.
  intros Hc Ho HT. unfold line. shell_line. rewrite Hc. cbn [fst snd]. rewrite Hc.
  rewrite lookup_insert_eq, ours_not_built_in, not_referenced; [|intros c' l' r|done].
  - cbn [orb]. by rewrite delete_insert_eq.
  - destruct (decide (c' = c)) as [->|].
    + rewrite lookup_insert_eq. by intros [= <-] ?%not_elem_of_nil.
    + rewrite lookup_insert_ne by done. by apply HT.
Qed.

Lemma delete_absent_line c (T : Table) : T !! c = None -> line acc (delete_line c) T = (true, T).
Proof. intros Hc. unfold line. shell_line. by rewrite Hc. Qed.

Lemma remove_anchor_elem X L a : a ∈ remove_anchor X L <-> a ∈ L /\ fst a <> X.
Proof.
  unfold remove_anchor. rewrite !list_elem_of_In, filter_In, negb_true_iff, String.eqb_neq. done.
Qed.

Lemma remove_anchor_absent X L : X ∉ map fst L -> remove_anchor X L = L.
Proof.
  induction L as [|[Y b] L IH]; [done|]. cbn [map fst]. rewrite not_elem_of_cons. intros [HY HL].
  unfold remove_anchor in *. cbn [List.filter fst].
  destruct (String.eqb_spec Y X) as [->|]; [done|]. simpl. by rewrite IH.
Qed.

Lemma laid_remove L base T X :
  laid None L base T -> free base -> X ∈ map fst L ->
  laid None (remove_anchor X L) base (delete (actualChain X) (delete (anchorChain X) T)).
Proof.
  intros HT Hb (b0 & rules0 & HX)%elem_names. pose proof (laid_name _ _ _ _ HT _ _ HX) as Hn.
  pose proof (anchor_root X). pose proof (actual_root X Hn). pose proof HT as [HL Hns Hrs Hr Ha Ho].
  split.
  - clear - HL. unfold remove_anchor. induction L as [|[Y b] L IH]; [done|]. cbn [map fst] in HL.
    apply NoDup_cons in HL as [HY HL]. cbn [List.filter fst]. case_match; [|by apply IH].
    cbn [map fst]. apply NoDup_cons. split; [|by apply IH].
    intros ([Z c] & E & HZ)%list_elem_of_fmap. simpl in E. subst Z.
    apply remove_anchor_elem in HZ as [HZ _]. by apply HY, (list_elem_of_fmap_2 fst L (Y, c)).
  - apply Forall_forall. intros a [Ha' _]%remove_anchor_elem. by apply (proj1 (Forall_forall _ _) Hns).
  - apply Forall_forall. intros a [Ha' _]%remove_anchor_elem. by apply (proj1 (Forall_forall _ _) Hrs).
  - by rewrite !lookup_delete_ne.
  - intros Y on rules [HY E]%remove_anchor_elem. simpl in E. pose proof (laid_name _ _ _ _ HT _ _ HY).
    rewrite !lookup_delete_ne; [by apply Ha|..]; intros E';
      first [by apply anchorChain_inj in E' | by apply actualChain_inj in E'
            | by apply anchor_actual in E' | by symmetry in E'; apply anchor_actual in E'].
  - intros c Hc Hch. destruct (decide (c = actualChain X)) as [->|].
    { rewrite lookup_delete_eq. symmetry. apply Hb, ours_actual. }
    rewrite lookup_delete_ne by done. destruct (decide (c = anchorChain X)) as [->|].
    { rewrite lookup_delete_eq. symmetry. apply Hb, ours_anchor. }
    rewrite lookup_delete_ne by done. apply Ho; [done|].
    intros (a & Ha' & E)%elem_chains. apply Hch, elem_chains. exists a. split; [|done].
    apply remove_anchor_elem. split; [done|]. intros <-. by destruct E.
Qed.

Lemma uninstall_laid L base T X :
  laid None L base T -> free base -> unreferenced base -> anchor_name X = true ->
  laid None (remove_anchor X L) base (lines acc (uninstall_lines X) T).
Proof.
  intros HT Hb Hu Hn. unfold lines, uninstall_lines. cbn [foldl].
  assert (line acc (unlink_line (anchorChain X) kRootChain) T = (true, T)) as ->.
  { unfold line. shell_line. by rewrite (laid_root _ _ _ _ HT). }
  cbn [snd]. destruct (decide (X ∈ map fst L)) as [HX|HX].
  - pose proof HX as (b & rules & HX')%elem_names.
    destruct (laid_anchor _ _ _ _ HT _ _ _ HX') as [H1 H2].
    rewrite (delete_chain_line _ _ _ H1 (ours_anchor X)); cycle 1.
    { intros c' l r Hc Hl Hr E. destruct (laid_targets _ _ _ _ c' l r _ HT Hu eq_refl Hl Hr E (ours_anchor X))
        as (Y & HY & _ & E'). apply (anchor_actual X Y) in E'; [done|].
      apply elem_names in HY as (? & ? & HY). by eapply laid_name. }
    cbn [snd]. rewrite (delete_chain_line _ rules);
      [|by rewrite lookup_delete_ne by by apply anchor_actual|apply ours_actual|].
    + by apply laid_remove.
    + intros c' l r Hc. destruct (decide (c' = anchorChain X)) as [->|]; [by rewrite lookup_delete_eq|].
      rewrite lookup_delete_ne by done. intros Hl Hr E.
      destruct (laid_targets _ _ _ _ c' l r _ HT Hu eq_refl Hl Hr E (ours_actual X)) as (Y & HY & -> & E'%actualChain_inj).
      by subst Y.
  - destruct (laid_absent _ _ _ _ HT X Hb Hn HX) as [H1 H2].
    rewrite (delete_absent_line _ _ H1). cbn [snd]. by rewrite delete_absent_line, remove_anchor_absent.
Qed.

Lemma laid_nil base T : laid None [] base T -> free base -> T = base.
Proof.
  intros HT Hb. apply map_eq. intros c. destruct (decide (c = kRootChain)) as [->|].
  - rewrite (laid_root _ _ _ _ HT). symmetry. by apply Hb.
  - apply (laid_other _ _ _ _ HT); [done|]. apply not_elem_of_nil.
Qed.

Lemma laid_base base : free base -> laid None [] base base.
Proof.
  intros Hb. split; simpl; auto using NoDup_nil_2.
  by intros ? ? ? ?%not_elem_of_nil.
Qed.

Lemma create_root_laid base T :
  laid None [] base T -> laid (Some (links [])) [] base (snd (line acc (create_line kRootChain) T)).
Proof.
  intros HT. unfold line. shell_line. rewrite (laid_root _ _ _ _ HT). by eapply laid_insert_root.
Qed.

Lemma parent_not_ours t : ours (parent_of t) = false.
Proof. unfold parent_of. by repeat case_match. Qed.

Lemma laid_parent root L base T t : laid root L base T -> T !! parent_of t = base !! parent_of t.
Proof.
  intros HT. pose proof (parent_not_ours t) as Hp. apply (laid_other _ _ _ _ HT).
  - intros E. by rewrite E in Hp.
  - intros Hc%chains_ours. by rewrite Hc in Hp.
Qed.

Lemma unreferenced_top t T : plain_table t T -> Forall (fun r => refers kRootChain r = false) (default [] (T !! parent_of t)).
Proof.
  intros (_ & Hu & [l Hl] & _). rewrite Hl. apply Forall_forall. intros r Hr. apply bool_decide_eq_false.
  intros E. by pose proof (Hu _ _ _ _ Hl Hr E).
Qed.

Lemma link_root_laid l L base T t :
  laid (Some l) L base T -> plain_table t base ->
  laid (Some l) L (linked t base) (snd (line acc (link_line kRootChain (parent_of t) true) T)).
Proof.
  intros HT Hb. pose proof (unreferenced_top _ _ Hb) as Ht. destruct Hb as (_ & _ & [out Hout] & Hblank).
  rewrite Hout in Ht, Hblank. simpl in Ht, Hblank. unfold line, linked. shell_line.
  rewrite (laid_parent _ _ _ _ t HT), Hout. cbn [default from_option id].
  assert (top_is kRootChain out = false) as -> by (destruct Ht; [done|by simpl]).
  cbn [negb]. rewrite Hjump by done.
  rewrite jumps_well_jump by (try done; by rewrite (laid_root _ _ _ _ HT)). cbn [andb].
  unfold later_number. rewrite lookup_insert_eq. cbn [default from_option drop id].
  rewrite (proj2 (list_find_None _ _)).
  - rewrite bool_decide_eq_false_2 by (intros [[=]|Hin]%elem_of_cons; by apply Hblank). cbn [snd].
    apply laid_insert_other; [done|apply parent_not_ours].
  - by apply (Forall_impl _ _ _ Ht); intros r ->.
Qed.

(** A rule without words of the chain that the root chain is linked into is deleted. *)
Lemma link_drops_blank l L base T t out :
  laid (Some l) L base T -> base !! parent_of t = Some out -> EmptyString ∈ out ->
  Forall (fun r => refers kRootChain r = false) out ->
  snd (line acc (link_line kRootChain (parent_of t) true) T) !! parent_of t
  = Some (jump kRootChain :: remove_first EmptyString out).
Proof.
  intros HT Hout Hblank Ht. unfold line. shell_line.
  rewrite (laid_parent _ _ _ _ t HT), Hout. cbn [default from_option id].
  assert (top_is kRootChain out = false) as -> by (destruct Ht; [done|by simpl]).
  cbn [negb]. rewrite Hjump by done.
  rewrite jumps_well_jump by (try done; by rewrite (laid_root _ _ _ _ HT)). cbn [andb].
  unfold later_number. rewrite lookup_insert_eq. cbn [default from_option drop id].
  rewrite (proj2 (list_find_None _ _)) by (by apply (Forall_impl _ _ _ Ht); intros r ->).
  rewrite bool_decide_eq_true_2 by by right. cbn [snd]. by rewrite lookup_insert_eq.
Qed.

(** The root chain is in its place already. *)
Lemma relink_root root L base T t :
  laid root L (linked t base) T ->
  snd (line acc (link_line kRootChain (parent_of t) true) T) = T.
Proof.
  intros HT. unfold line. shell_line. rewrite (laid_parent _ _ _ _ t HT). unfold linked.
  rewrite lookup_insert_eq. cbn [default from_option id top_is]. unfold refers.
  by rewrite target_jump, bool_decide_eq_true_2.
Qed.

Lemma unlink_linked root L base T t :
  laid root L (linked t base) T -> plain_table t base ->
  laid root L base (snd (line acc (unlink_line kRootChain (parent_of t)) T)).
Proof.
  intros HT (_ & _ & [out Hout] & _). pose proof (laid_parent _ _ _ _ t HT) as Hp. unfold line. shell_line.
  rewrite Hp. unfold linked. rewrite lookup_insert_eq, bool_decide_eq_true_2 by by left. cbn [fst].
  rewrite Hp. unfold linked. rewrite lookup_insert_eq, bool_decide_eq_true_2 by by left. cbn [snd remove_first].
  rewrite String.eqb_refl, Hout. cbn [default from_option id].
  pose proof (laid_insert_other _ _ _ _ HT (parent_of t) out (parent_not_ours t)) as HT'.
  unfold linked in HT'. by rewrite insert_insert_eq, (insert_id _ _ _ Hout) in HT'.
Qed.

Lemma unlink_plain t base : plain_table t base -> snd (line acc (unlink_line kRootChain (parent_of t)) base) = base.
Proof.
  intros Hb. pose proof (unreferenced_top _ _ Hb) as Ht. destruct Hb as (_ & _ & [out Hout] & _).
  unfold line. shell_line. rewrite Hout in *. simpl in Ht. rewrite bool_decide_eq_false_2; [done|].
  intros Hr. apply (proj1 (Forall_forall _ _) Ht) in Hr. unfold refers in Hr.
  by rewrite target_jump, bool_decide_eq_true_2 in Hr.
Qed.

Lemma delete_root_laid l L base T :
  laid (Some l) L base T -> unreferenced base ->
  laid None L base (snd (line acc (delete_line kRootChain) T)).
Proof.
  intros HT Hu. rewrite (delete_chain_line _ l); [by eapply laid_delete_root|by apply HT|done|].
  intros c' l' r Hc Hl Hr E.
  destruct (laid_targets _ _ _ _ c' l' r kRootChain (laid_insert_root _ _ _ _ HT []) Hu eq_refl) as (X & HX & _ & E');
    [by rewrite lookup_insert_ne|done|done|done|].
  apply elem_names in HX as (? & ? & HX). symmetry in E'. apply actual_root in E'; [done|].
  by eapply laid_name.
Qed.

Lemma uninstall_all base names L T :
  laid None L base T -> free base -> unreferenced base -> Forall (fun X => anchor_name X = true) names ->
  laid None (foldl (fun L X => remove_anchor X L) L names) base (lines acc (List.concat (map uninstall_lines names)) T).
Proof.
  intros HT Hb Hu Hn. revert L T HT. induction Hn as [|X names HX Hn IH]; intros L T HT; [done|].
  cbn [map List.concat foldl]. rewrite lines_app. by apply IH, uninstall_laid.
Qed.

Lemma install_all base bodies L T :
  laid (Some (links L)) L base T -> free base ->
  NoDup (map fst L ++ map fst bodies) ->
  Forall (fun '(X, rules) => anchor_name X = true /\ Forall (fun r => final_rule r = true) rules
                            /\ List.filter acc rules = rules) bodies ->
  let L' := L ++ switched (fun _ => false) bodies in
  laid (Some (links L')) L' base
    (lines acc (List.concat (map (fun '(X, rules) => install_lines X rules) bodies)) T).
Proof.
  intros HT Hb Hd Hbs. revert L T HT Hd.
  induction Hbs as [|[X rules] bodies (Hn & Hf & Ha) Hbs IH]; intros L T HT Hd; simpl.
  - by rewrite app_nil_r.
  - rewrite lines_app.
    assert (X ∉ map fst L) as HX.
    { apply NoDup_app in Hd as (_ & Hd & _). intros HX. apply (Hd X HX). by left. }
    rewrite (cons_middle _ L), app_assoc. apply IH; [by apply install_laid|].
    rewrite map_app. simpl. by rewrite <- app_assoc.
Qed.

End Lines.

(** ** Lemmas: what a packet meets *)

Section Walk.
Context (T : Table) (p : Packet).

Lemma walk_cons n r rules :
  walk n T p (r :: rules) =
    if matches p (words r) then
      match target r with
      | Some c =>
          if bool_decide (c ∈ final_targets) then Some (Some c)
          else
            match n, T !! c with
            | S n', Some l => match walk n' T p l with Some None => walk n T p rules | v => v end
            | _, _ => None
            end
      | None => walk n T p rules
      end
    else walk n T p rules.
Proof. by destruct n. Qed.

Lemma walk_rules n rules :
  Forall (fun r => filter_rule r = true) rules -> walk n T p rules = Some (first_match p rules).
Proof.
  induction 1 as [|r rules Hr _ IH]; [by destruct n|]. rewrite walk_cons. cbn [first_match].
  case_match; [|done]. unfold filter_rule in Hr. destruct (target r) as [c|]; [|done]. by rewrite Hr.
Qed.

Lemma ours_not_final c : ours c = true -> bool_decide (c ∈ final_targets) = false.
Proof.
  intros Hc. apply bool_decide_eq_false. intros Hv. unfold final_targets in Hv. set_unfold in Hv.
  by repeat destruct Hv as [->|Hv].
Qed.

(** A jump to a chain of ours is followed. *)
Lemma walk_jump n c l rules :
  plain_name c = true -> ours c = true -> T !! c = Some l ->
  walk (S n) T p (jump c :: rules) =
    match walk n T p l with Some None => walk (S n) T p rules | v => v end.
Proof.
  intros Hc Ho Hl. by rewrite walk_cons, matches_jump, target_jump, ours_not_final, Hl by done.
Qed.

Lemma walk_links root L base :
  laid root L base T ->
  Forall (fun a => Forall (fun r => filter_rule r = true) (snd (snd a))) L ->
  forall L', L' ⊆ L -> walk 2 T p (links L') = Some (decide_anchors p L').
Proof.
  intros HT HL L'. induction L' as [|[X [on rules]] L' IH]; intros Hsub; [done|].
  assert ((X, (on, rules)) ∈ L) as HX by (apply Hsub; by left).
  destruct (laid_anchor _ _ _ _ HT _ _ _ HX) as [H1 H2].
  pose proof (anchor_name_plain _ (laid_name _ _ _ _ HT _ _ HX)) as [Hp1 Hp2].
  cbn [links map fst decide_anchors]. rewrite (walk_jump _ _ _ _ Hp1 (ours_anchor X) H1).
  change (map (fun a => jump (anchorChain (fst a))) L') with (links L').
  rewrite IH by (intros a Ha; apply Hsub; by right). destruct on; [|done].
  rewrite (walk_jump _ _ _ _ Hp2 (ours_actual X) H2).
  rewrite walk_rules by (apply (proj1 (Forall_forall _ _) HL _ HX)).
  by destruct (first_match p rules).
Qed.

End Walk.

Lemma our_tables_cases (P : string -> Prop) :
  P kFilterTable -> P kNatTable -> P kRawTable -> P kMangleTable -> forall t, t ∈ our_tables -> P t.
Proof.
  intros H1 H2 H3 H4 t. unfold our_tables. rewrite !elem_of_cons, elem_of_nil.
  by intros [->|[->|[->|[->|[]]]]].
Qed.

Section World.
Context `{IptablesLaws}.

Lemma known_clear cmd r : known_rule cmd r = true -> clear_rule cmd r = true.
Proof.
  unfold known_rule. rewrite orb_true_iff, bool_decide_eq_true. intros [Hr|Hr].
  - by apply accepted_clear, fixed_is_accepted.
  - repeat case_match; try done. by apply (jump_clear cmd).
Qed.

Lemma known_actions l : forallb known_action l = true -> forallb clear_action l = true.
Proof.
  rewrite !forallb_forall. intros Hl [cmd t s| | |] Ha; try done.
  specialize (Hl _ Ha). simpl in *. rewrite forallb_forall in *. intros r Hr. by apply known_clear, Hl.
Qed.

Lemma select_uninstall cmd t :
  t ∈ our_tables ->
  select cmd t uninstall =
    unlink_line kRootChain (parent_of t) :: delete_line kRootChain
    :: List.concat (map uninstall_lines (uninstall_names cmd t)).
Proof. revert t. apply our_tables_cases; destruct cmd; vm_compute; reflexivity. Qed.

Lemma select_install cmd t :
  t ∈ our_tables ->
  select cmd t install =
    select cmd t uninstall ++ [create_line kRootChain]
    ++ List.concat (map (fun '(X, rules) => install_lines X rules) (bodies cmd t))
    ++ [link_line kRootChain (parent_of t) true].
Proof. revert t. apply our_tables_cases; destruct cmd; vm_compute; reflexivity. Qed.

Lemma names_fit cmd t : t ∈ our_tables -> Forall (fun X => anchor_name X = true) (uninstall_names cmd t).
Proof. revert t. apply our_tables_cases; destruct cmd; repeat constructor. Qed.

Lemma removes_all s cmd t :
  t ∈ our_tables -> foldl (fun L X => remove_anchor X L) (layout s cmd t) (uninstall_names cmd t) = [].
Proof. revert t. apply our_tables_cases; destruct cmd; reflexivity. Qed.

Lemma removes_none (names : list string) : foldl (fun L X => remove_anchor X L) [] names = [].
Proof. by induction names. Qed.

Lemma uninstall_installed_table s cmd t base T :
  t ∈ our_tables -> plain_table t base ->
  laid (Some (links (layout s cmd t))) (layout s cmd t) (linked t base) T ->
  lines (is_accepted cmd) (select cmd t uninstall) T = base.
Proof.
  intros Ht Hb HT. rewrite select_uninstall by done. unfold lines. cbn [foldl].
  apply (unlink_linked (is_accepted cmd)) in HT; [|done]. destruct Hb as (Hf & Hu & _).
  apply (delete_root_laid (is_accepted cmd)) in HT; [|done].
  apply (laid_nil base); [|done]. rewrite <- (removes_all s cmd t) by done.
  apply uninstall_all; [done..|]. by apply names_fit.
Qed.

Lemma uninstall_clean_table cmd t base :
  t ∈ our_tables -> plain_table t base ->
  lines (is_accepted cmd) (select cmd t uninstall) base = base.
Proof.
  intros Ht Hb. rewrite select_uninstall by done. unfold lines. cbn [foldl].
  rewrite unlink_plain by done. destruct Hb as (Hf & Hu & _).
  rewrite delete_absent_line by by apply Hf. cbn [snd].
  apply (laid_nil base); [|done]. rewrite <- (removes_none (uninstall_names cmd t)).
  apply uninstall_all; [by apply laid_base|done..|]. by apply names_fit.
Qed.

Lemma layouts_ok cmd t : t ∈ our_tables -> bodies_ok cmd (bodies cmd t) = true.
Proof. revert t. apply our_tables_cases; destruct cmd; vm_compute; reflexivity. Qed.

Lemma layout_switched cmd t :
  t ∈ our_tables -> layout nothing_on cmd t = switched (fun _ => false) (bodies cmd t).
Proof. revert t. apply our_tables_cases; destruct cmd; reflexivity. Qed.

Lemma install_clean_table cmd t base :
  t ∈ our_tables -> plain_table t base ->
  laid (Some (links (layout nothing_on cmd t))) (layout nothing_on cmd t) (linked t base)
    (lines (is_accepted cmd) (select cmd t install) base).
Proof.
  intros Ht Hb. pose proof (layouts_ok cmd t Ht) as [Ho Hd]%andb_true_iff.
  apply bool_decide_eq_true in Hd. rewrite select_install, !lines_app, uninstall_clean_table by done.
  apply link_root_laid; [intros; by apply jump_is_accepted| |done].
  destruct Hb as (Hf & Hu & _).
  pose proof (create_root_laid (is_accepted cmd) _ _ (laid_base _ Hf)) as HT.
  pose proof (install_all (is_accepted cmd) (jump_is_accepted cmd) base (bodies cmd t) [] _ HT Hf) as HI.
  rewrite layout_switched by done. apply HI; [done|].
  apply Forall_forall. intros [X rules] HX%list_elem_of_In.
  rewrite forallb_forall in Ho. specialize (Ho _ HX). simpl in Ho.
  rewrite !andb_true_iff, !forallb_forall in Ho. destruct Ho as [[Hn Hfin] Hfix]. split; [done|]. split.
  - apply Forall_forall. intros r Hr%list_elem_of_In. by apply Hfin.
  - apply forallb_filter_id, forallb_forall. intros r Hr%Hfix%bool_decide_eq_true. by apply fixed_is_accepted.
Qed.

(** *** The whole firewall *)

Context (base : Command -> string -> Table).

Lemma uninstall_clear : forallb clear_action uninstall = true.
Proof. apply known_actions. vm_compute. reflexivity. Qed.

Lemma install_clear : forallb clear_action install = true.
Proof. apply known_actions. vm_compute. reflexivity. Qed.

Lemma run_uninstall_installed s w : installed base s w -> clean base (run uninstall w).
Proof.
  intros [_ Hw] cmd t Ht. destruct (Hw cmd t Ht) as [Hb HT]. split; [done|].
  rewrite run_table by apply uninstall_clear. by eapply uninstall_installed_table.
Qed.

Lemma run_uninstall_clean w : clean base w -> clean base (run uninstall w).
Proof.
  intros Hw cmd t Ht. destruct (Hw cmd t Ht) as [Hb HT]. split; [done|].
  rewrite run_table by apply uninstall_clear. rewrite HT. by apply uninstall_clean_table.
Qed.

Lemma run_install_clean w : clean base w -> installed base nothing_on (run install w).
Proof.
  intros Hw. split; [constructor|]. intros cmd t Ht. destruct (Hw cmd t Ht) as [Hb HT]. split; [done|].
  rewrite run_table by apply install_clear. rewrite HT. by apply install_clean_table.
Qed.

Lemma clear_jump_line cmd X (b : bool) :
  anchor_name X = true ->
  forallb (clear_rule cmd) (sh_rules (if b then enable_line X else disable_line X)) = true.
Proof.
  intros [_ Hp]%anchor_name_plain. pose proof (jump_clear cmd _ Hp) as Hc.
  destruct b; cbn [sh_rules enable_line disable_line rule_of app forallb]; by rewrite ?Hc.
Qed.

Lemma setAnchorEnabled_clear ip X b t :
  anchor_name X = true -> forallb clear_action (setAnchorEnabled ip X b t) = true.
Proof.
  intros HX. pose proof (fun cmd => clear_jump_line cmd X b HX) as Hc.
  unfold setAnchorEnabled, enableAnchor, disableAnchor, each.
  destruct b, ip; cbn [getCommand map app forallb clear_action] in *; by rewrite !Hc.
Qed.

Lemma select_setAnchorEnabled cmd t ip X b t' :
  select cmd t (setAnchorEnabled ip X b t') =
    if bool_decide (cmd ∈ getCommand ip) && String.eqb t' t
    then [if b then enable_line X else disable_line X] else [].
Proof.
  unfold setAnchorEnabled, enableAnchor, disableAnchor, each, select.
  destruct cmd, ip, b; cbn [map getCommand omap list_omap app]; by destruct (String.eqb t' t).
Qed.

Lemma layout_set_on s ip X b cmd :
  layout (set_on ip X b s) cmd kFilterTable =
    if bool_decide (cmd ∈ getCommand ip) then set_anchor X b (layout s cmd kFilterTable)
    else layout s cmd kFilterTable.
Proof. by destruct cmd, ip. Qed.

Lemma layout_other_table s s' cmd t : t <> kFilterTable -> layout s' cmd t = layout s cmd t.
Proof. intros Ht%String.eqb_neq. unfold layout. by rewrite Ht. Qed.

Lemma linked_free t T : free T -> free (linked t T).
Proof.
  intros HT c Hc. unfold linked. rewrite lookup_insert_ne; [by apply HT|].
  intros <-. by rewrite parent_not_ours in Hc.
Qed.

(** What lines do to the filter table, they do to the whole. *)
Lemma installed_step s s' l w :
  installed base s w -> sound_anchors s' -> forallb clear_action l = true ->
  (forall cmd t, t <> kFilterTable -> select cmd t l = []) ->
  (forall cmd b T, free b ->
     laid (Some (links (layout s cmd kFilterTable))) (layout s cmd kFilterTable) b T ->
     laid (Some (links (layout s' cmd kFilterTable))) (layout s' cmd kFilterTable) b
       (lines (is_accepted cmd) (select cmd kFilterTable l) T)) ->
  installed base s' (run l w).
Proof.
  intros [_ Hw] Hs Hc Hsel Hl. split; [done|]. intros cmd t Ht. destruct (Hw cmd t Ht) as [Hb HT].
  split; [done|]. rewrite run_table by done. destruct (String.eqb_spec t kFilterTable) as [->|E].
  - apply Hl; [|done]. apply linked_free. by destruct Hb.
  - rewrite Hsel by done. by rewrite (layout_other_table s s') by done.
Qed.

Lemma setAnchorEnabled_installed s ip X b w :
  anchor_name X = true -> installed base s w ->
  installed base (set_on ip X b s) (run (setAnchorEnabled ip X b kFilterTable) w).
Proof.
  intros HX Hw. apply (installed_step s); [done|by destruct Hw|by apply setAnchorEnabled_clear|..].
  - intros cmd t E. rewrite select_setAnchorEnabled.
    destruct (String.eqb_spec kFilterTable t); [done|by rewrite andb_false_r].
  - intros cmd b0 T Hb HT. rewrite select_setAnchorEnabled, layout_set_on, String.eqb_refl, andb_true_r.
    case_match; [|done]. rewrite (same_names_links _ _ (set_anchor_names X b _)).
    destruct b; [apply enable_laid|apply disable_laid]; auto using jump_is_accepted.
Qed.

Lemma ensureRootAnchorPriority_installed s w :
  installed base s w -> installed base s (run (ensureRootAnchorPriority Both) w).
Proof.
  intros [Hs Hw]. split; [done|]. intros cmd t Ht. destruct (Hw cmd t Ht) as [Hb HT]. split; [done|].
  rewrite run_table by (apply known_actions; reflexivity).
  destruct (String.eqb_spec t kFilterTable) as [->|E].
  - replace (select cmd kFilterTable _) with [link_line kRootChain (parent_of kFilterTable) true] by by destruct cmd.
    unfold lines. cbn [foldl]. by erewrite relink_root.
  - replace (select cmd t _) with (@nil sh); [done|]. apply String.eqb_neq in E. rewrite String.eqb_sym in E.
    unfold select, ensureRootAnchorPriority, linkChain, each. cbn [getCommand map omap list_omap].
    by rewrite E, !andb_false_r.
Qed.

Lemma select_update X rules cmd t :
  select cmd t (update X rules) =
    if bool_decide (iptables = cmd) && String.eqb kFilterTable t
    then Run (Flush (actualChain X)) :: map (fun r => Run (AppendRule (actualChain X) r)) rules else [].
Proof.
  unfold select, update. cbn [omap list_omap].
  assert (forall b : bool, omap (fun a => match a with
      | Line cmd' t' s => if bool_decide (cmd' = cmd) && String.eqb t' t then Some s else None
      | _ => None end) (map (fun rule => Line iptables kFilterTable (Run (AppendRule (actualChain X) rule))) rules)
    = if bool_decide (iptables = cmd) && String.eqb kFilterTable t
      then map (fun r => Run (AppendRule (actualChain X) r)) rules else []) as E.
  { intros _. destruct (_ && _) eqn:Eb; induction rules as [|r rules IH]; try done;
      cbn [map omap list_omap]; by rewrite Eb, IH. }
  rewrite (E true). by destruct (_ && _).
Qed.

Lemma update_clear X rules :
  Forall (fun r => clear_rule iptables r = true) rules -> forallb clear_action (update X rules) = true.
Proof.
  intros Hr. unfold update. cbn [forallb clear_action sh_rules rule_of andb].
  induction Hr as [|r rules Hr _ IH]; [done|]. cbn [map forallb clear_action sh_rules rule_of]. by rewrite Hr, IH.
Qed.

(** The rules of an anchor of version 4 are exchanged. *)
Lemma update_installed s s' X rules w :
  installed base s w -> sound_anchors s' -> anchor_name X = true ->
  Forall (fun r => clear_rule iptables r = true) rules ->
  Forall (fun r => is_accepted iptables r = true -> final_rule r = true) rules ->
  layout s' iptables kFilterTable
    = set_rules X (List.filter (is_accepted iptables) rules) (layout s iptables kFilterTable) ->
  layout s' ip6tables kFilterTable = layout s ip6tables kFilterTable ->
  installed base s' (run (update X rules) w).
Proof.
  intros Hw Hs HX Hc Hf E4 E6. apply (installed_step s); [done..|by apply update_clear| |].
  - intros cmd t E. rewrite select_update. destruct (String.eqb_spec kFilterTable t); [done|by rewrite andb_false_r].
  - intros cmd b T Hb HT. rewrite select_update, String.eqb_refl, andb_true_r. destruct cmd.
    + rewrite bool_decide_eq_true_2, E4, (same_names_links _ _ (set_rules_names X _ _)) by done. by apply update_laid.
    + rewrite bool_decide_eq_false_2 by done. by rewrite E6.
Qed.

(** Nothing happens to tables without the firewall. *)
Lemma clean_step l w :
  clean base w -> forallb clear_action l = true ->
  (forall cmd t b, t ∈ our_tables -> free b -> laid None [] b (lines (is_accepted cmd) (select cmd t l) b)) ->
  clean base (run l w).
Proof.
  intros Hw Hc Hl cmd t Ht. destruct (Hw cmd t Ht) as [Hb HT]. split; [done|].
  rewrite run_table, HT by done. destruct Hb as (Hf & _). by apply laid_nil; [apply Hl|].
Qed.

Lemma setAnchorEnabled_clean ip X b w :
  anchor_name X = true -> clean base w -> clean base (run (setAnchorEnabled ip X b kFilterTable) w).
Proof.
  intros HX Hw. apply clean_step; [done|by apply setAnchorEnabled_clear|]. intros cmd t b0 Ht Hb.
  rewrite select_setAnchorEnabled. pose proof (laid_base _ Hb) as HT. case_match; [|done].
  destruct b; [eapply (enable_laid _ (jump_is_accepted cmd)) in HT | eapply (disable_laid (is_accepted cmd)) in HT];
    try done; exact HT.
Qed.

Lemma update_clean X rules w :
  anchor_name X = true -> Forall (fun r => clear_rule iptables r = true) rules ->
  Forall (fun r => is_accepted iptables r = true -> final_rule r = true) rules ->
  clean base w -> clean base (run (update X rules) w).
Proof.
  intros HX Hc Hf Hw. apply clean_step; [done|by apply update_clear|]. intros cmd t b0 Ht Hb.
  rewrite select_update. pose proof (laid_base _ Hb) as HT. destruct (bool_decide_reflect (iptables = cmd)) as [<-|]; [|done].
  case_match; [|done]. by apply (update_laid (is_accepted iptables) _ _ _ _ X rules HT).
Qed.

Lemma isInstalled_check w :
  isInstalled w =
    match table w iptables kFilterTable !! kOutputChain with
    | Some l => bool_decide (jump kRootChain ∈ l)
    | None => false
    end.
Proof.
  unfold isInstalled, exec. cbn [shell]. rewrite ipt_result.
  - unfold call_table. cbn [documented]. unfold table. by repeat case_match.
  - intros r [= <-]. by rewrite jump_accepted.
Qed.

Lemma isInstalled_installed s w : installed base s w -> isInstalled w = true.
Proof.
  intros [_ Hw]. destruct (Hw iptables kFilterTable ltac:(by left)) as [Hb HT].
  rewrite isInstalled_check. change kOutputChain with (parent_of kFilterTable).
  rewrite (laid_parent _ _ _ _ kFilterTable HT). unfold linked. rewrite lookup_insert_eq.
  apply bool_decide_eq_true. by left.
Qed.

Lemma isInstalled_clean w : clean base w -> isInstalled w = false.
Proof.
  intros Hw. destruct (Hw iptables kFilterTable ltac:(by left)) as [Hb HT].
  rewrite isInstalled_check, HT. destruct Hb as (_ & Hu & _). case_match; [|done].
  apply bool_decide_eq_false. intros Hr. by pose proof (Hu _ _ _ _ H1 Hr (target_jump _ plain_root)).
Qed.

(** *** Verdicts *)

Lemma layout_filter_rules s cmd :
  sound_anchors s ->
  Forall (fun a => Forall (fun r => filter_rule r = true) (snd (snd a))) (filter_layout s cmd).
Proof.
  unfold sound_anchors. rewrite !Forall_app. intros (Hd & Hb & Ha).
  destruct cmd; repeat (apply Forall_cons; split); try apply Forall_nil_2; cbn [snd]; try done;
    apply Forall_forall; intros r Hr%list_elem_of_In; revert r Hr; apply forallb_forall; reflexivity.
Qed.

Lemma verdict_installed s w cmd p :
  installed base s w -> verdict cmd p w = Some (decide_anchors p (filter_layout s cmd)).
Proof.
  intros [Hs Hw]. destruct (Hw cmd kFilterTable ltac:(by left)) as [Hb HT].
  unfold verdict. change kOutputChain with (parent_of kFilterTable).
  rewrite (laid_parent _ _ _ _ kFilterTable HT). unfold linked at 1. rewrite lookup_insert_eq.
  unfold refers. rewrite target_jump, bool_decide_eq_true_2 by done.
  rewrite (walk_jump _ _ _ _ (links (layout s cmd kFilterTable))) by (try done; by apply HT).
  rewrite (walk_links _ _ _ _ _ HT) by (try done; by apply layout_filter_rules).
  by destruct (decide_anchors p _).
Qed.

Lemma verdict_clean w cmd p : clean base w -> verdict cmd p w = Some None.
Proof.
  intros Hw. destruct (Hw cmd kFilterTable ltac:(by left)) as [Hb HT].
  pose proof (unreferenced_top _ _ Hb) as Ht. unfold verdict. rewrite HT.
  change kOutputChain with (parent_of kFilterTable). destruct Hb as (_ & _ & [out Hout] & _).
  rewrite Hout in *. simpl in Ht. destruct Ht as [|r l Hr]; [done|]. by rewrite Hr.
Qed.

(** *** Rules for servers *)

Lemma words_allow server : string_has " "%char server = false -> words (allow_rule server) = ["-d"; server; "-j"; "ACCEPT"].
Proof.
  intros Hs. unfold words, allow_rule.
  change (_ +:+ server +:+ _)%string with ("-d" +:+ String " "%char (server +:+ String " "%char "-j ACCEPT"))%string.
  by rewrite (split_on_first " "%char "-d"), split_on_first.
Qed.

Lemma words_block server : string_has " "%char server = false -> words (block_rule server) = ["-d"; server; "-j"; "REJECT"].
Proof.
  intros Hs. unfold words, block_rule.
  change (_ +:+ server +:+ _)%string with ("-d" +:+ String " "%char (server +:+ String " "%char "-j REJECT"))%string.
  by rewrite (split_on_first " "%char "-d"), split_on_first.
Qed.

Lemma words_dns (interface protocol server : string) :
  string_has " "%char interface = false -> string_has " "%char protocol = false ->
  string_has " "%char server = false ->
  words ("-o " +:+ interface +:+ " -d " +:+ server +:+ " -p " +:+ protocol +:+ " --dport 53 -j ACCEPT")
  = ["-o"; interface; "-d"; server; "-p"; protocol; "--dport"; "53"; "-j"; "ACCEPT"].
Proof.
  intros Hi Hp Hs. unfold words.
  change (_ +:+ interface +:+ _)%string
    with ("-o" +:+ String " "%char (interface +:+ String " "%char ("-d" +:+ String " "%char (server
      +:+ String " "%char ("-p" +:+ String " "%char (protocol +:+ String " "%char "--dport 53 -j ACCEPT"))))))%string.
  by rewrite (split_on_first " "%char "-o"), split_on_first, (split_on_first " "%char "-d"), split_on_first,
    (split_on_first " "%char "-p"), split_on_first.
Qed.

Lemma clear_server_cases server :
  clear_server server ->
  (usable server = true /\ string_has " "%char server = false
   /\ Forall (fun r => is_accepted iptables r = true) (server_rules server))
  \/ (usable server = false /\ Forall (fun r => is_accepted iptables r = false) (server_rules server)).
Proof.
  unfold usable, is_accepted. intros [[Hs Hr]|Hr]; [left|right].
  - split; [|split; [done|]].
    + apply bool_decide_eq_true. by apply Forall_cons in Hr as [Hr _].
    + apply (Forall_impl _ _ _ Hr). intros r. by rewrite bool_decide_eq_true.
  - split.
    + apply bool_decide_eq_false. apply Forall_cons in Hr as [-> _]. done.
    + apply (Forall_impl _ _ _ Hr). intros r Er. apply bool_decide_eq_false. by rewrite Er.
Qed.

Lemma clear_server_rules server :
  clear_server server -> Forall (fun r => clear_rule iptables r = true) (server_rules server).
Proof.
  intros [[_ Hr]|Hr]; apply (Forall_impl _ _ _ Hr); intros r E; apply bool_decide_eq_true; by rewrite E.
Qed.

Lemma bool_filter_none {A} (f : A -> bool) (l : list A) : Forall (fun a => f a = false) l -> List.filter f l = [].
Proof. induction 1 as [|a l Ha _ IH]; [done|]. simpl. by rewrite Ha. Qed.

(** The rules of usable servers are those that are kept. *)
Lemma filter_servers (f : string -> list string) (l : list string) :
  (forall server, f server ⊆ server_rules server) -> Forall clear_server l ->
  List.filter (is_accepted iptables) (List.concat (map f l)) = List.concat (map f (List.filter usable l)).
Proof.
  intros Hf. induction 1 as [|server l Hs _ IH]; [done|]. cbn [map List.concat List.filter].
  rewrite List.filter_app, IH. destruct (clear_server_cases _ Hs) as [(-> & _ & Hr)|[-> Hr]].
  - cbn [map List.concat]. f_equal. apply forallb_filter_id, forallb_forall. intros r Hin%list_elem_of_In.
    by apply (proj1 (Forall_forall _ _) Hr), Hf.
  - rewrite bool_filter_none; [done|]. apply Forall_forall. intros r Hin.
    by apply (proj1 (Forall_forall _ _) Hr), Hf.
Qed.

Lemma map_concat_single {A B} (f : A -> B) (l : list A) : map f l = List.concat (map (fun a => [f a]) l).
Proof. induction l as [|a l IH]; [done|]. simpl. by rewrite <- IH. Qed.

Lemma allow_in_rules server : [allow_rule server] ⊆ server_rules server.
Proof. intros r ->%list_elem_of_singleton. by left. Qed.

Lemma block_in_rules server : [block_rule server] ⊆ server_rules server.
Proof. intros r ->%list_elem_of_singleton. right. by left. Qed.

Lemma dns_in_rules server : dns_rules server ⊆ server_rules server.
Proof. intros r Hr. right. by right. Qed.

Lemma concat_forall (P : string -> Prop) (f : string -> list string) (l : list string) :
  Forall (fun server => Forall P (f server)) l -> Forall P (List.concat (map f l)).
Proof. induction 1 as [|server l Hs _ IH]; [done|]. cbn [map List.concat]. by apply Forall_app. Qed.

Lemma clear_rules (f : string -> list string) (l : list string) :
  (forall server, f server ⊆ server_rules server) -> Forall clear_server l ->
  Forall (fun r => clear_rule iptables r = true) (List.concat (map f l)).
Proof.
  intros Hf Hl. apply concat_forall, (Forall_impl _ _ _ Hl). intros server Hs%clear_server_rules.
  apply Forall_forall. intros r Hr%Hf. by apply (proj1 (Forall_forall _ _) Hs).
Qed.

Lemma dns_words server :
  string_has " "%char server = false ->
  map words (dns_rules server) =
    [["-o"; "amn0+"; "-d"; server; "-p"; "udp"; "--dport"; "53"; "-j"; "ACCEPT"];
     ["-o"; "amn0+"; "-d"; server; "-p"; "tcp"; "--dport"; "53"; "-j"; "ACCEPT"];
     ["-o"; "tun0+"; "-d"; server; "-p"; "udp"; "--dport"; "53"; "-j"; "ACCEPT"];
     ["-o"; "tun0+"; "-d"; server; "-p"; "tcp"; "--dport"; "53"; "-j"; "ACCEPT"];
     ["-o"; "tun2+"; "-d"; server; "-p"; "udp"; "--dport"; "53"; "-j"; "ACCEPT"];
     ["-o"; "tun2+"; "-d"; server; "-p"; "tcp"; "--dport"; "53"; "-j"; "ACCEPT"]].
Proof.
  intros Hs. rewrite <- (words_dns "amn0+" "udp" server), <- (words_dns "amn0+" "tcp" server),
    <- (words_dns "tun0+" "udp" server), <- (words_dns "tun0+" "tcp" server),
    <- (words_dns "tun2+" "udp" server), <- (words_dns "tun2+" "tcp" server) by done.
  reflexivity.
Qed.

Lemma Forall_words (P : list string -> Prop) (l : list string) :
  Forall P (map words l) -> Forall (fun r => P (words r)) l.
Proof. by rewrite List.Forall_map. Qed.

(** The kept rules end with a verdict. *)
Lemma server_rules_final server :
  string_has " "%char server = false -> Forall (fun r => filter_rule r = true) (server_rules server).
Proof.
  intros Hs. unfold filter_rule, target.
  apply (Forall_words (fun ws => match target_of ws with
    | Some v => bool_decide (v ∈ final_targets) | None => false end = true)).
  unfold server_rules. cbn [map]. rewrite words_allow, words_block by done.
  pose proof (dns_words server Hs) as E. cbn [map] in E. rewrite E. repeat constructor.
Qed.

(** *** Verdicts of the rules for servers *)

Lemma first_match_app p l1 l2 :
  Forall (fun r => is_Some (target r)) l1 ->
  first_match p (l1 ++ l2) = match first_match p l1 with Some v => Some v | None => first_match p l2 end.
Proof.
  induction 1 as [|r l1 [v Hr] _ IH]; [done|]. cbn [app first_match].
  destruct (matches p (words r)); [by rewrite Hr|exact IH].
Qed.

Lemma filter_rule_target r : filter_rule r = true -> is_Some (target r).
Proof. unfold filter_rule. destruct (target r); [by eexists|done]. Qed.

(** A list of servers whose rules all lead to one verdict. *)
Lemma first_match_servers p (f : string -> list string) (test : string -> bool) (v : string) (l : list string) :
  (forall server, string_has " "%char server = false ->
     f server ⊆ server_rules server
     /\ first_match p (f server) = if test server then Some v else None) ->
  Forall clear_server l ->
  first_match p (List.concat (map f (List.filter usable l)))
  = if existsb (fun server => usable server && test server) l then Some v else None.
Proof.
  intros Hf. induction 1 as [|server l Hs _ IH]; [done|]. cbn [List.filter existsb].
  destruct (clear_server_cases _ Hs) as [(Hu & Hw & _)|[Hu _]]; rewrite Hu; [|exact IH].
  destruct (Hf server Hw) as [Hsub Hm]. cbn [map List.concat].
  rewrite first_match_app, Hm, IH.
  - by destruct (test server).
  - apply Forall_forall. intros r Hr%Hsub. apply filter_rule_target.
    by apply (proj1 (Forall_forall _ _) (server_rules_final _ Hw)).
Qed.

Lemma allow_match p l :
  Forall clear_server l ->
  first_match p (getAllowRule (List.filter usable l))
  = if existsb (fun server => usable server && goes_to p server) l then Some "ACCEPT" else None.
Proof.
  unfold getAllowRule. rewrite map_concat_single. apply first_match_servers. intros server Hs.
  split; [apply allow_in_rules|]. cbn [first_match]. unfold target. rewrite words_allow by done. cbn.
  by rewrite andb_true_r.
Qed.

Lemma block_match p l :
  Forall clear_server l ->
  first_match p (getBlockRule (List.filter usable l))
  = if existsb (fun server => usable server && goes_to p server) l then Some "REJECT" else None.
Proof.
  unfold getBlockRule. rewrite map_concat_single. apply first_match_servers. intros server Hs.
  split; [apply block_in_rules|]. cbn [first_match]. unfold target. rewrite words_block by done. cbn.
  by rewrite andb_true_r.
Qed.

Lemma first_match_words p (l : list string) :
  first_match p l = fold_right (fun ws v => if matches p ws then target_of ws else v) None (map words l).
Proof. induction l as [|r l IH]; [done|]. cbn [first_match map fold_right]. by rewrite IH. Qed.

Lemma dns_match p l :
  Forall clear_server l ->
  first_match p (getDNSRules (List.filter usable l))
  = if existsb (fun server => usable server && (tunnel p && is_dns p && goes_to p server)) l
    then Some "ACCEPT" else None.
Proof.
  unfold getDNSRules. apply first_match_servers. intros server Hs. split; [apply dns_in_rules|].
  rewrite first_match_words, dns_words by done. unfold tunnel, is_dns. cbn.
  by destruct (leaves_by p "amn0+"), (leaves_by p "tun0+"), (leaves_by p "tun2+"), (goes_to p server),
    (carries p "udp"), (carries p "tcp"), (to_port p "53").
Qed.

(** *** Operations *)

Lemma servers_filter_rules (f : string -> list string) (l : list string) :
  (forall server, f server ⊆ server_rules server) -> Forall clear_server l ->
  Forall (fun r => filter_rule r = true) (List.concat (map f (List.filter usable l))).
Proof.
  intros Hf Hl. apply concat_forall. apply Forall_forall. intros server Hs%list_elem_of_In.
  apply filter_In in Hs as [Hs Hu]. apply list_elem_of_In in Hs.
  destruct (clear_server_cases _ (proj1 (Forall_forall _ _) Hl _ Hs)) as [(_ & Hw & _)|[Hu' _]]; [|by rewrite Hu in Hu'].
  apply Forall_forall. intros r Hr%Hf. by apply (proj1 (Forall_forall _ _) (server_rules_final _ Hw)).
Qed.

Lemma filter_final_rule r : filter_rule r = true -> final_rule r = true.
Proof.
  unfold filter_rule, final_rule. destruct (target r); [|done]. rewrite !bool_decide_eq_true.
  unfold final_targets, verdicts. rewrite !elem_of_cons, elem_of_nil. tauto.
Qed.

Lemma servers_final (f : string -> list string) (l : list string) :
  (forall server, f server ⊆ server_rules server) -> Forall clear_server l ->
  Forall (fun r => is_accepted iptables r = true -> final_rule r = true) (List.concat (map f l)).
Proof.
  intros Hf Hl. apply concat_forall, (Forall_impl _ _ _ Hl). intros server Hs. apply Forall_forall.
  intros r Hr%Hf Ha. destruct (clear_server_cases _ Hs) as [(_ & Hw & _)|[_ Hn]].
  - by apply filter_final_rule, (proj1 (Forall_forall _ _) (server_rules_final _ Hw)).
  - by rewrite (proj1 (Forall_forall _ _) Hn _ Hr) in Ha.
Qed.

(** Servers are given to one of the anchors with changing rules. *)
Lemma servers_installed (f : string -> list string) X s s' l w :
  installed base s w -> (forall server, f server ⊆ server_rules server) -> Forall clear_server l ->
  anchor_name X = true ->
  let rules := List.concat (map f (List.filter usable l)) in
  (Forall (fun r => filter_rule r = true) rules -> sound_anchors s') ->
  layout s' iptables kFilterTable = set_rules X rules (layout s iptables kFilterTable) ->
  layout s' ip6tables kFilterTable = layout s ip6tables kFilterTable ->
  installed base s' (run (update X (List.concat (map f l))) w).
Proof.
  intros Hw Hf Hl HX rules Hs E4 E6. apply (update_installed s); [done| |done|by apply clear_rules|by apply servers_final| |done].
  - by apply Hs, servers_filter_rules.
  - by rewrite filter_servers.
Qed.

Lemma layout_set_dns r s :
  layout (set_dns r s) iptables kFilterTable = set_rules "320.allowDNS" r (layout s iptables kFilterTable).
Proof. reflexivity. Qed.

Lemma layout_set_allow r s :
  layout (set_allow r s) iptables kFilterTable = set_rules "110.allowNets" r (layout s iptables kFilterTable).
Proof. reflexivity. Qed.

Lemma layout_set_block r s :
  layout (set_block r s) iptables kFilterTable = set_rules "120.blockNets" r (layout s iptables kFilterTable).
Proof. reflexivity. Qed.

Lemma op_installed o s w :
  op_ok o -> installed base s w -> installed base (op_anchors o s) (run (op_actions o) w).
Proof.
  intros Ho Hw. pose proof (proj1 Hw) as Hs. unfold sound_anchors in Hs. rewrite !Forall_app in Hs.
  destruct o as [ip X b|l|l|l| ]; cbn [op_ok op_actions op_anchors] in *.
  - by apply setAnchorEnabled_installed.
  - apply (servers_installed dns_rules _ s);
      [exact Hw|exact dns_in_rules|exact Ho|reflexivity| |apply layout_set_dns|reflexivity].
    intros Hr. unfold sound_anchors. rewrite !Forall_app. tauto.
  - unfold updateAllowNets, getAllowRule.
    rewrite (map_concat_single allow_rule l), (map_concat_single allow_rule (List.filter usable l)).
    apply (servers_installed (fun server => [allow_rule server]) _ s);
      [exact Hw|exact allow_in_rules|exact Ho|reflexivity| |apply layout_set_allow|reflexivity].
    intros Hr. unfold sound_anchors. rewrite !Forall_app. tauto.
  - unfold updateBlockNets, getBlockRule.
    rewrite (map_concat_single block_rule l), (map_concat_single block_rule (List.filter usable l)).
    apply (servers_installed (fun server => [block_rule server]) _ s);
      [exact Hw|exact block_in_rules|exact Ho|reflexivity| |apply layout_set_block|reflexivity].
    intros Hr. unfold sound_anchors. rewrite !Forall_app. tauto.
  - by apply ensureRootAnchorPriority_installed.
Qed.

Lemma ops_installed l s w :
  Forall op_ok l -> installed base s w -> installed base (ops_anchors l s) (run (ops_actions l) w).
Proof.
  intros Hl. revert s w. induction Hl as [|o l Ho _ IH]; intros s w Hw; [done|].
  unfold ops_actions in *. cbn [map List.concat]. rewrite run_app. cbn [ops_anchors foldl].
  by apply IH, op_installed.
Qed.

Lemma servers_clean (f : string -> list string) X l w :
  clean base w -> (forall server, f server ⊆ server_rules server) -> Forall clear_server l ->
  anchor_name X = true -> clean base (run (update X (List.concat (map f l))) w).
Proof.
  intros Hw Hf Hl HX. apply update_clean; [done|by apply clear_rules|by apply servers_final|done].
Qed.

(** The operations do nothing while the firewall is not there. *)
Lemma op_clean o w : o <> EnsurePriority -> op_ok o -> clean base w -> clean base (run (op_actions o) w).
Proof.
  intros He Ho Hw. destruct o as [ip X b|l|l|l| ]; cbn [op_ok op_actions] in *; [..|done].
  - by apply setAnchorEnabled_clean.
  - apply (servers_clean dns_rules); [exact Hw|exact dns_in_rules|exact Ho|reflexivity].
  - unfold updateAllowNets, getAllowRule. rewrite (map_concat_single allow_rule l).
    apply servers_clean; [exact Hw|exact allow_in_rules|exact Ho|reflexivity].
  - unfold updateBlockNets, getBlockRule. rewrite (map_concat_single block_rule l).
    apply servers_clean; [exact Hw|exact block_in_rules|exact Ho|reflexivity].
Qed.

Lemma ops_clean l w :
  Forall (fun o => o <> EnsurePriority) l -> Forall op_ok l -> clean base w -> clean base (run (ops_actions l) w).
Proof.
  intros He Hl. revert w. induction Hl as [|o l Ho _ IH]; intros w Hw; [done|].
  apply Forall_cons in He as [He1 He]. unfold ops_actions in *. cbn [map List.concat]. rewrite run_app.
  by apply IH, op_clean.
Qed.

Lemma clear_ops l : Forall op_ok l -> forallb clear_action (ops_actions l) = true.
Proof.
  induction 1 as [|o l Ho _ IH]; [done|]. unfold ops_actions in *. cbn [map List.concat].
  rewrite forallb_app, IH, andb_true_r. destruct o as [ip X b|servers|servers|servers| ]; cbn [op_ok op_actions] in *.
  - by apply setAnchorEnabled_clear.
  - apply update_clear, (clear_rules dns_rules); [exact dns_in_rules|done].
  - apply update_clear. unfold getAllowRule. rewrite map_concat_single.
    apply clear_rules; [exact allow_in_rules|done].
  - apply update_clear. unfold getBlockRule. rewrite map_concat_single.
    apply clear_rules; [exact block_in_rules|done].
  - by apply known_actions.
Qed.

Lemma within_select l cmd t : forallb within l = true -> (t ∉ our_tables) -> select cmd t l = [].
Proof.
  intros Hl Ht. unfold select. induction l as [|a l IH]; [done|]. cbn [forallb] in Hl.
  apply andb_true_iff in Hl as [Ha Hl]. cbn [omap list_omap].
  destruct a as [cmd' t' s| | |]; try by apply IH. cbn [within] in Ha. apply bool_decide_eq_true in Ha.
  destruct (String.eqb_spec t' t) as [->|]; [done|]. rewrite andb_false_r. by apply IH.
Qed.

Lemma within_update X rules : forallb within (update X rules) = true.
Proof. unfold update. cbn [forallb within andb]. by induction rules. Qed.

Lemma within_ops l : forallb within (ops_actions l) = true.
Proof.
  induction l as [|o l IH]; [done|]. unfold ops_actions in *. cbn [map List.concat].
  rewrite forallb_app, IH, andb_true_r. destruct o as [ip X b|servers|servers|servers| ]; try apply within_update.
  - by destruct ip, b.
  - reflexivity.
Qed.

End World.

(** ** Theorems *)

(** C10: The anchors are what they seem.  However often anchors are switched on and
    off and lists of servers are exchanged, the tables hold the anchors that the
    same operations give on a plain list of anchors, and a packet that goes out gets
    the verdict of the first rule of an enabled anchor that it matches. *)
Theorem anchors_refine `{IptablesLaws} (base : Command -> string -> Table) (s : Anchors) (w : Firewall)
    (l : list FilterOp) :
  installed base s w -> Forall op_ok l ->
  installed base (ops_anchors l s) (run (ops_actions l) w)
  /\ forall cmd p, verdict cmd p (run (ops_actions l) w)
       = Some (decide_anchors p (filter_layout (ops_anchors l s) cmd)).
Proof.
  intros Hw Hl. assert (installed base (ops_anchors l s) (run (ops_actions l) w)) as Hi by by apply ops_installed.
  split; [done|]. intros cmd p. by apply (verdict_installed base).
Qed.

(** C19: The firewall leaves nothing behind.  From tables that know nothing of it,
    its installation, any operations and its removal give every table back as it
    was, for both versions of the protocol.  (The chains that it is linked into have no
    rule without words, which the linking would delete.) *)
Theorem uninstall_restores `{IptablesLaws} (w : Firewall) (l : list FilterOp) :
  clean (table w) w -> Forall op_ok l ->
  (exists s, installed (table w) s (run (ops_actions l) (run install w)))
  /\ forall cmd t, table (run uninstall (run (ops_actions l) (run install w))) cmd t = table w cmd t.
Proof.
  intros Hw Hl. assert (exists s, installed (table w) s (run (ops_actions l) (run install w))) as [s Hs].
  { eexists. by apply ops_installed, run_install_clean. }
  split; [by exists s|]. intros cmd t. destruct (decide (t ∈ our_tables)) as [Ht|Ht].
  - by destruct (run_uninstall_installed _ _ _ Hs cmd t Ht).
  - rewrite (run_table uninstall) by apply uninstall_clear.
    rewrite (run_table (ops_actions l)) by by apply clear_ops.
    rewrite (run_table install) by apply install_clear.
    rewrite (within_select uninstall) by (reflexivity || exact Ht).
    rewrite (within_select (ops_actions l)) by (apply within_ops || exact Ht).
    rewrite (within_select install) by (reflexivity || exact Ht). reflexivity.
Qed.

(** *** Witnesses *)

Lemma example_laws : @IptablesLaws example_iptables.
Proof.
  split.
  - intros cmd t call k _. reflexivity.
  - intros cmd t call k cmd' t' _. reflexivity.
  - intros cmd c Hc. assert (known_rule cmd (jump c) = true) as E by (apply orb_true_iff; right; exact Hc).
    change (example_status cmd (jump c) = Accepted). unfold example_status. by rewrite E.
  - intros cmd r Hr. cbn. unfold example_status, known_rule. by rewrite bool_decide_eq_true_2.
Qed.

Lemma example_table_plain t : t ∈ our_tables -> plain_table t example_table.
Proof.
  intros Ht. split; [|split].
  - intros c Hc. unfold example_table. rewrite !lookup_insert_ne, lookup_singleton_ne; [done|..];
      intros <-; discriminate Hc.
  - intros c l r d Hl Hr Ht'.
    assert (map_Forall (fun _ l => Forall (fun r => match target r with Some d => ours d = false | None => True end) l)
              example_table) as HF.
    { unfold example_table. repeat (apply map_Forall_insert_2; [repeat constructor|]).
      apply map_Forall_empty. }
    specialize (HF c l Hl). apply (proj1 (Forall_forall _ _) HF) in Hr. by rewrite Ht' in Hr.
  - revert t Ht. apply our_tables_cases; (split; [by eexists|apply (bool_decide_unpack _); by vm_compute]).
Qed.

Lemma example_clean : clean (fun _ _ => example_table) example_firewall.
Proof. intros cmd t Ht. split; [by apply example_table_plain|done]. Qed.

#[local] Existing Instance example_iptables.
#[local] Existing Instance example_laws.

Lemma example_server : clear_server "203.0.113.1".
Proof. left. split; [reflexivity|]. repeat constructor. Qed.

Lemma example_no_server : clear_server EmptyString.
Proof. right. repeat constructor. Qed.

Lemma example_ops_ok : Forall op_ok example_ops.
Proof.
  repeat (apply Forall_cons; split); try reflexivity; try apply Forall_nil_2.
  - apply example_server.
  - apply example_no_server.
Qed.

Lemma anchors_refine_witness :
  Forall op_ok example_ops
  /\ forall p, verdict iptables p (run (ops_actions example_ops) (run install example_firewall))
    = Some (if leaves_by p "lo+" || goes_to p "203.0.113.1" then Some "ACCEPT" else None).
Proof.
  split; [exact example_ops_ok|]. intros p. pose proof (run_install_clean _ _ example_clean) as Hi.
  destruct (anchors_refine _ _ _ example_ops Hi example_ops_ok) as [_ Hv]. rewrite Hv.
  destruct p as [out dest prot sport dport mark]. vm_compute. by destruct (out "lo+"), (dest "203.0.113.1").
Defined.

Lemma uninstall_restores_witness :
  clean (table example_firewall) example_firewall
  /\ forall cmd t,
       table (run uninstall (run (ops_actions example_ops) (run install example_firewall))) cmd t = example_table.
Proof.
  split; [apply example_clean|].
  exact (proj2 (uninstall_restores example_firewall example_ops example_clean example_ops_ok)).
Defined.
