(* ===== verification/KillSwitch.v ===== *)
(** * The kill switch

    [KillSwitch] of service/server/killswitch.cpp, on Linux, and the rules that the
    daemon sets for an interface (client/platforms/linux/daemon/
    wireguardutilslinux.cpp), over [Firewall].  The setting of the strict mode is the
    value that is stored; the settings are a map ([SecureSettings]).  Every call
    returns true and does not say so.

    The theorems say what passes: with the kill switch on, in strict mode, and for
    the configuration of an interface; that the strict mode keeps the firewall in
    place in every state of the service; and that in one mode the sites are not
    blocked. *)

From stdpp Require Import base numbers list strings gmap fin_maps.
From Stdlib Require Import ZArith Lia Strings.String Strings.Ascii.
From S2P Require Import Prelude IpAddress Json Config LocalSocket Firewall.
Open Scope string_scope.
Open Scope list_scope.
Open Scope Z_scope.

Section Service.
Context `{Iptables}.

Record KillSwitch := mkKillSwitch {
  firewall : Firewall;
  m_allowedRanges : list string;
  strictKillSwitchEnabled : option bool
}.

Definition set_firewall (w : Firewall) (k : KillSwitch) : KillSwitch :=
  mkKillSwitch w (m_allowedRanges k) (strictKillSwitchEnabled k).

Definition set_ranges (l : list string) (k : KillSwitch) : KillSwitch :=
  mkKillSwitch (firewall k) l (strictKillSwitchEnabled k).

Definition apply_ops (l : list FilterOp) (k : KillSwitch) : KillSwitch :=
  set_firewall (run (ops_actions l) (firewall k)) k.

(** The firewall is installed if it is not there. *)
Definition ensure_installed (k : KillSwitch) : KillSwitch :=
  if isInstalled (firewall k) then k else set_firewall (run install (firewall k)) k.

Definition isStrictKillSwitchEnabled (k : KillSwitch) : bool :=
  default false (strictKillSwitchEnabled k).

(** ** The end of a connection *)

Definition strict_ops : list FilterOp :=
  [SetAnchor Both "000.allowLoopback" true;
   SetAnchor Both "100.blockAll" true;
   SetAnchor IPv4 "110.allowNets" false;
   SetAnchor IPv4 "120.blockNets" false;
   SetAnchor Both "130.allowMarkedXray" false;
   SetAnchor IPv4 "200.allowVPN" false;
   SetAnchor IPv6 "250.blockIPv6" true;
   SetAnchor Both "290.allowDHCP" false;
   SetAnchor Both "300.allowLAN" false;
   SetAnchor IPv4 "310.blockDNS" false;
   SetAnchor IPv4 "320.allowDNS" false;
   SetAnchor Both "400.allowPIA" false].

Definition loose_ops : list FilterOp :=
  [SetAnchor Both "000.allowLoopback" true;
   SetAnchor Both "100.blockAll" false;
   SetAnchor IPv4 "110.allowNets" false;
   SetAnchor IPv4 "120.blockNets" false;
   SetAnchor Both "130.allowMarkedXray" false;
   SetAnchor IPv4 "200.allowVPN" false;
   SetAnchor IPv6 "250.blockIPv6" false;
   SetAnchor Both "290.allowDHCP" true;
   SetAnchor Both "300.allowLAN" true;
   SetAnchor IPv4 "310.blockDNS" false;
   SetAnchor IPv4 "320.allowDNS" true;
   SetAnchor Both "400.allowPIA" false].

Definition disableKillSwitch (k : KillSwitch) : KillSwitch :=
  let k1 :=
    if isStrictKillSwitchEnabled k then apply_ops strict_ops k
    else let k0 := apply_ops loose_ops k in set_firewall (run uninstall (firewall k0)) k0 in
  set_ranges [] k1.

Definition all_traffic_ops : list FilterOp :=
  [SetAnchor Both "100.blockAll" true;
   SetAnchor Both "130.allowMarkedXray" false;
   SetAnchor Both "000.allowLoopback" true;
   SetAnchor IPv6 "250.blockIPv6" true].

Definition disableAllTraffic (k : KillSwitch) : KillSwitch :=
  set_ranges [] (apply_ops all_traffic_ops (ensure_installed k)).

Definition init (k : KillSwitch) : KillSwitch :=
  if isStrictKillSwitchEnabled k then disableAllTraffic k else k.

Definition refresh (enabled : bool) (k : KillSwitch) : KillSwitch :=
  let k1 := mkKillSwitch (firewall k) (m_allowedRanges k) (Some enabled) in
  if isStrictKillSwitchEnabled k1 then disableAllTraffic k1 else disableKillSwitch k1.

(** ** Allowed ranges *)

Definition resetAllowedRange (ranges : list string) (k : KillSwitch) : KillSwitch :=
  apply_ops [SetAnchor IPv4 "110.allowNets" true; AllowNets ranges] (set_ranges ranges k).

Definition add_range (l : list string) (range : string) : list string :=
  if negb (String.eqb range EmptyString) && negb (bool_decide (range ∈ l)) then l ++ [range] else l.

Definition addAllowedRange (ranges : list string) (k : KillSwitch) : KillSwitch :=
  resetAllowedRange (foldl add_range (m_allowedRanges k) ranges) k.

(** ** A connection *)

Definition text_of (v : QJsonValue) : string := chars (toString v).

(** The flags and lists that the mode of split tunnelling gives. *)
Record Mode := mkMode {
  blockAll : bool;
  allowNets : bool;
  blockNets : bool;
  allowMarkedXray : bool;
  allownets : list string;
  blocknets : list string
}.

Definition mode_of (configStr : QJsonObject) : Mode :=
  let splitTunnelType := toInt (obj_value configStr "splitTunnelType") in
  let sites := map (fun v => text_of (Some v)) (toArray (obj_value configStr "splitTunnelSites")) in
  let server := text_of (obj_value configStr "vpnServer") in
  if splitTunnelType =? 0 then mkMode true true false true [server] []
  else if splitTunnelType =? 1 then mkMode false false true true [] sites
  else if splitTunnelType =? 2 then mkMode true true false false (server :: sites) []
  else mkMode false false false false [] [].

(** The texts at the start of an array, up to the first value that is none. *)
Fixpoint leading_strings (l : list json) : list string :=
  match l with
  | v :: l' => if isString (Some v) then text_of (Some v) :: leading_strings l' else []
  | [] => []
  end.

Definition dns_servers (configStr : QJsonObject) : list string :=
  let dns1 := text_of (obj_value configStr "dns1") in
  [dns1]
  ++ (if contains_text amneziaDnsIp dns1 then [] else [text_of (obj_value configStr "dns2")])
  ++ ["127.0.0.1"; "127.0.0.53"]
  ++ leading_strings (toArray (obj_value configStr "allowedDnsServers")).

(** The anchor of the blocked sites gets the flag of another one. *)
Definition enable_list (m : Mode) (dnsServers : list string) : list FilterOp :=
  [SetAnchor Both "000.allowLoopback" true;
   SetAnchor Both "100.blockAll" (blockAll m);
   SetAnchor IPv4 "110.allowNets" (allowNets m);
   AllowNets (allownets m);
   SetAnchor IPv4 "120.blockNets" (blockAll m);
   BlockNets (blocknets m);
   SetAnchor Both "130.allowMarkedXray" true;
   SetAnchor IPv4 "200.allowVPN" true;
   SetAnchor IPv6 "250.blockIPv6" true;
   SetAnchor Both "290.allowDHCP" true;
   SetAnchor Both "300.allowLAN" true;
   SetAnchor IPv4 "310.blockDNS" true;
   DNSServers dnsServers;
   SetAnchor IPv4 "320.allowDNS" true;
   SetAnchor Both "400.allowPIA" true].

Definition enable_ops (configStr : QJsonObject) : list FilterOp :=
  enable_list (mode_of configStr) (dns_servers configStr).

Definition enableKillSwitch (configStr : QJsonObject) (k : KillSwitch) : KillSwitch :=
  apply_ops (enable_ops configStr) (ensure_installed k).

(** ** The rules of an interface *)

(** The fields of [FirewallParams] that are used; the others are zero. *)
Record FirewallParams := mkParams {
  params_dnsServers : list string;
  params_allowAddrs : list string;
  params_blockAddrs : list string;
  params_blockAll : bool;
  params_allowNets : bool;
  params_blockNets : bool
}.

Definition firewall_params `{Qt} (config : InterfaceConfig) : FirewallParams :=
  let dns := chars (m_primaryDnsServer config)
             :: (if isEmpty (m_secondaryDnsServer config) then [] else [chars (m_secondaryDnsServer config)]) in
  if existsb (fun ip => IPAddress_eqb ip (IPAddress_of_string parseSubnet hostAddress "0.0.0.0/0")) (m_allowedIPAddressRanges config) then
    match m_excludedAddresses config with
    | [] => mkParams dns [] [] true false false
    | nets => mkParams dns nets [] true true false
    end
  else mkParams dns [] (map ip_text (m_allowedIPAddressRanges config)) false false true.

Definition rules_ops (params : FirewallParams) : list FilterOp :=
  [EnsurePriority;
   SetAnchor Both "000.allowLoopback" true;
   SetAnchor Both "100.blockAll" (params_blockAll params);
   SetAnchor IPv4 "110.allowNets" (params_allowNets params);
   AllowNets (params_allowAddrs params);
   SetAnchor IPv4 "120.blockNets" (params_blockNets params);
   BlockNets (params_blockAddrs params);
   SetAnchor IPv4 "200.allowVPN" true;
   SetAnchor IPv6 "250.blockIPv6" true;
   SetAnchor Both "290.allowDHCP" true;
   SetAnchor Both "300.allowLAN" true;
   SetAnchor IPv4 "310.blockDNS" true;
   DNSServers (params_dnsServers params);
   SetAnchor IPv4 "320.allowDNS" true;
   SetAnchor Both "400.allowPIA" true].

Definition applyFirewallRules (params : FirewallParams) (k : KillSwitch) : KillSwitch :=
  apply_ops (rules_ops params) (ensure_installed k).

(** What [addInterface] does to the firewall once the interface is configured. *)
Definition interface_added `{Qt} (config : InterfaceConfig) (k : KillSwitch) : KillSwitch :=
  if m_killSwitchEnabled config then applyFirewallRules (firewall_params config) k else k.

(** ** What passes *)

Definition lan4 : list string :=
  ["10.0.0.0/8"; "169.254.0.0/16"; "172.16.0.0/12"; "192.168.0.0/16"; "224.0.0.0/4"; "255.255.255.255/32"].
Definition lan6 : list string := ["fc00::/7"; "fe80::/10"; "ff00::/8"].

Definition dhcp4 (p : Packet) : bool :=
  carries p "udp" && goes_to p "255.255.255.255" && from_port p "68" && to_port p "67".
Definition dhcp6 (p : Packet) : bool :=
  carries p "udp" && goes_to p "ff00::/8" && from_port p "546" && to_port p "547".

Definition to_usable (p : Packet) (servers : list string) : bool :=
  existsb (fun server => usable server && goes_to p server) servers.

(** Requests for names go through the tunnel to a server that is listed; other
    traffic goes to the local network, through the tunnel, or to a server that may be
    reached beside it; [marked] is traffic with the mark of Xray. *)
Definition accepts4 (servers dns : list string) (marked : bool) (p : Packet) : option bool :=
  if leaves_by p "lo+" then Some true
  else if is_dns p then Some (tunnel p && to_usable p dns)
  else if to_any p lan4 || dhcp4 p || tunnel p || (marked && has_mark p xrayTrafficMark) || to_usable p servers
  then Some true else None.

Definition accepts6 (p : Packet) : bool := leaves_by p "lo+" || to_any p lan6 || dhcp6 p.

Definition word (accepted : bool) : string := if accepted then "ACCEPT" else "REJECT".

(** What the firewall says of a packet. *)
Definition says (cmd : Command) (p : Packet) (k : KillSwitch) (v : option bool) : Prop :=
  verdict cmd p (firewall k) = Some (word <$> v).

(** ** States of the service *)

Definition servers_of (configStr : QJsonObject) : list string :=
  allownets (mode_of configStr) ++ blocknets (mode_of configStr) ++ dns_servers configStr.

Definition params_servers (params : FirewallParams) : list string :=
  params_dnsServers params ++ params_allowAddrs params ++ params_blockAddrs params.

(** The service starts with tables that know nothing of the firewall, and gets any
    calls whose texts the tool accepts or refuses. *)
Inductive service_run (base : Command -> string -> Table) : KillSwitch -> Prop :=
| service_starts w strict :
    clean base w -> service_run base (init (mkKillSwitch w [] strict))
| service_refresh k enabled : service_run base k -> service_run base (refresh enabled k)
| service_disable k : service_run base k -> service_run base (disableKillSwitch k)
| service_disableAll k : service_run base k -> service_run base (disableAllTraffic k)
| service_reset k ranges :
    service_run base k -> Forall clear_server ranges -> service_run base (resetAllowedRange ranges k)
| service_add k ranges :
    service_run base k -> Forall clear_server ranges -> service_run base (addAllowedRange ranges k)
| service_enable k configStr :
    service_run base k -> Forall clear_server (servers_of configStr) ->
    service_run base (enableKillSwitch configStr k)
| service_rules k params :
    service_run base k -> Forall clear_server (params_servers params) ->
    service_run base (applyFirewallRules params k).

(** The rules for names of version 6 are never enabled. *)
Definition there (base : Command -> string -> Table) (k : KillSwitch) : Prop :=
  exists s, installed base s (firewall k) /\ on6 s "310.blockDNS" = false.

Definition service_ok (base : Command -> string -> Table) (k : KillSwitch) : Prop :=
  (clean base (firewall k) /\ isStrictKillSwitchEnabled k = false \/ there base k)
  /\ Forall clear_server (m_allowedRanges k).

(** Operations that leave the rules for names of version 6 alone. *)
Definition leaves_dns6 (o : FilterOp) : bool :=
  match o with
  | SetAnchor ip X _ => negb (bool_decide (ip6tables ∈ getCommand ip) && String.eqb X "310.blockDNS")
  | _ => true
  end.

Definition op_servers (o : FilterOp) : list string :=
  match o with DNSServers l | AllowNets l | BlockNets l => l | _ => [] end.

Definition op_names (o : FilterOp) : bool :=
  match o with SetAnchor _ X _ => anchor_name X | _ => true end.

Definition good_ops (l : list FilterOp) : bool := forallb op_names l && forallb leaves_dns6 l.

End Service.

Definition orelse (a b : option string) : option string := match a with Some v => Some v | None => b end.

(** ** Examples *)

Definition example_off : @KillSwitch example_iptables :=
  @mkKillSwitch example_iptables example_firewall [] None.

Definition example_service (strict : bool) : @KillSwitch example_iptables :=
  @init example_iptables (@mkKillSwitch example_iptables example_firewall [] (Some strict)).

Definition example_json (splitTunnelType : Z) : QJsonObject :=
  [("splitTunnelType", JDouble (QArith_base.inject_Z splitTunnelType)); ("splitTunnelSites", JArray [JString "198.51.100.7"]);
   ("vpnServer", JString "203.0.113.1"); ("dns1", JString "1.1.1.1"); ("dns2", JString EmptyString)].

(** A packet beside the tunnel to a site. *)
Definition example_packet : Packet :=
  mkPacket (String.eqb "eth0") (String.eqb "198.51.100.7") (String.eqb "tcp") (fun _ => false) (String.eqb "443") (fun _ => false).

(** [clear_server] as a test. *)
Definition clear_serverb `{Iptables} (server : string) : bool :=
  negb (string_has " "%char server)
  && forallb (fun r => bool_decide (status iptables r = Accepted)) (server_rules server)
  || forallb (fun r => bool_decide (status iptables r = Refused)) (server_rules server).

(** ** Lemmas: verdicts of the anchors *)

(** Rules without texts from elsewhere, by evaluation. *)
Ltac fixed_match p :=
  destruct p as [out dest prot sport dport mark]; vm_compute;
  repeat match goal with |- context [if ?f ?x then _ else _] => destruct (f x) end; reflexivity.

Section Verdicts.
Context (p : Packet).

Lemma match_loopback : first_match p loopback_rules = if leaves_by p "lo+" then Some "ACCEPT" else None.
Proof. fixed_match p. Qed.

Lemma match_block_dns : first_match p block_dns_rules = if is_dns p then Some "REJECT" else None.
Proof. fixed_match p. Qed.

Lemma match_lan4 : first_match p lan4_rules = if to_any p lan4 then Some "ACCEPT" else None.
Proof. fixed_match p. Qed.

Lemma match_lan6 : first_match p lan6_rules = if to_any p lan6 then Some "ACCEPT" else None.
Proof. fixed_match p. Qed.

Lemma match_dhcp4 : first_match p dhcp4_rules = if dhcp4 p then Some "ACCEPT" else None.
Proof. fixed_match p. Qed.

Lemma match_dhcp6 : first_match p dhcp6_rules = if dhcp6 p then Some "ACCEPT" else None.
Proof. fixed_match p. Qed.

Lemma match_block6 : first_match p block6_rules = if leaves_by p "lo+" then None else Some "REJECT".
Proof. fixed_match p. Qed.

Lemma match_vpn : first_match p vpn_rules = if tunnel p then Some "ACCEPT" else None.
Proof. fixed_match p. Qed.

Lemma match_xray : first_match p xray_rules = if has_mark p xrayTrafficMark then Some "ACCEPT" else None.
Proof. fixed_match p. Qed.

Lemma match_block_all : first_match p block_all_rules = Some "REJECT".
Proof. fixed_match p. Qed.

Lemma decide4 s :
  decide_anchors p (filter_layout s iptables) =
    orelse (if on4 s "000.allowLoopback" && leaves_by p "lo+" then Some "ACCEPT" else None)
    (orelse (if on4 s "320.allowDNS" then first_match p (dns_list s) else None)
    (orelse (if on4 s "310.blockDNS" && is_dns p then Some "REJECT" else None)
    (orelse (if on4 s "300.allowLAN" && to_any p lan4 then Some "ACCEPT" else None)
    (orelse (if on4 s "290.allowDHCP" && dhcp4 p then Some "ACCEPT" else None)
    (orelse (if on4 s "200.allowVPN" && tunnel p then Some "ACCEPT" else None)
    (orelse (if on4 s "130.allowMarkedXray" && has_mark p xrayTrafficMark then Some "ACCEPT" else None)
    (orelse (if on4 s "120.blockNets" then first_match p (block_list s) else None)
    (orelse (if on4 s "110.allowNets" then first_match p (allow_list s) else None)
    (if on4 s "100.blockAll" then Some "REJECT" else None))))))))).
Proof.
  unfold filter_layout, switched, bodies4. cbn [map decide_anchors].
  rewrite match_loopback, match_block_dns, match_lan4, match_dhcp4, match_vpn, match_xray, match_block_all.
  by destruct (on4 s "000.allowLoopback"), (on4 s "310.blockDNS"), (on4 s "300.allowLAN"), (on4 s "290.allowDHCP"),
    (on4 s "200.allowVPN"), (on4 s "130.allowMarkedXray"), (on4 s "100.blockAll").
Qed.

Lemma decide6 s :
  decide_anchors p (filter_layout s ip6tables) =
    orelse (if on6 s "000.allowLoopback" && leaves_by p "lo+" then Some "ACCEPT" else None)
    (orelse (if on6 s "310.blockDNS" && is_dns p then Some "REJECT" else None)
    (orelse (if on6 s "300.allowLAN" && to_any p lan6 then Some "ACCEPT" else None)
    (orelse (if on6 s "290.allowDHCP" && dhcp6 p then Some "ACCEPT" else None)
    (orelse (if on6 s "250.blockIPv6" && negb (leaves_by p "lo+") then Some "REJECT" else None)
    (orelse (if on6 s "200.allowVPN" && tunnel p then Some "ACCEPT" else None)
    (orelse (if on6 s "130.allowMarkedXray" && has_mark p xrayTrafficMark then Some "ACCEPT" else None)
    (if on6 s "100.blockAll" then Some "REJECT" else None))))))).
Proof.
  unfold filter_layout, switched, bodies6. cbn [map decide_anchors].
  rewrite match_loopback, match_block_dns, match_lan6, match_dhcp6, match_block6, match_vpn, match_xray, match_block_all.
  by destruct (on6 s "000.allowLoopback"), (on6 s "310.blockDNS"), (on6 s "300.allowLAN"), (on6 s "290.allowDHCP"),
    (on6 s "250.blockIPv6"), (on6 s "200.allowVPN"), (on6 s "130.allowMarkedXray"), (on6 s "100.blockAll"), (leaves_by p "lo+").
Qed.

End Verdicts.

(** ** Lemmas: states of the service *)

Section States.
Context `{IptablesLaws} (base : Command -> string -> Table).

Lemma good_ops_ok l :
  good_ops l = true -> Forall clear_server (List.concat (map op_servers l)) -> Forall op_ok l.
Proof.
  unfold good_ops. rewrite andb_true_iff. intros [Hl _]. induction l as [|o l IH]; [done|].
  cbn [map List.concat forallb] in *. rewrite Forall_app. apply andb_true_iff in Hl as [Ho Hl]. intros [Hs Hr].
  apply Forall_cons. split; [|by apply IH]. by destruct o.
Qed.

Lemma good_ops_dns6 l s :
  good_ops l = true -> on6 (ops_anchors l s) "310.blockDNS" = on6 s "310.blockDNS".
Proof.
  unfold good_ops. rewrite andb_true_iff. intros [_ Hl]. revert s.
  induction l as [|o l IH]; intros s; [done|]. cbn [forallb] in Hl. apply andb_true_iff in Hl as [Ho Hl].
  unfold ops_anchors in *. cbn [foldl]. rewrite IH by done.
  destruct o as [ip X b|l'|l'|l'| ]; try done. cbn [leaves_dns6 op_anchors set_on on6] in *.
  case_match; [|done]. unfold switch. simpl in Ho. rewrite String.eqb_sym. by destruct (String.eqb X _).
Qed.

(** Operations on an installed firewall. *)
Lemma apply_ops_installed l k s :
  good_ops l = true -> Forall clear_server (List.concat (map op_servers l)) ->
  installed base s (firewall k) -> installed base (ops_anchors l s) (firewall (apply_ops l k)).
Proof. intros Hg Hl Hs. apply ops_installed; [by apply good_ops_ok|done]. Qed.

Lemma apply_ops_there l k :
  good_ops l = true -> Forall clear_server (List.concat (map op_servers l)) ->
  there base k -> there base (apply_ops l k).
Proof.
  intros Hg Hl (s & Hs & Hd). exists (ops_anchors l s). split; [by apply apply_ops_installed|].
  by rewrite good_ops_dns6.
Qed.

Lemma apply_ops_clean l k :
  good_ops l = true -> Forall clear_server (List.concat (map op_servers l)) ->
  Forall (fun o => o <> EnsurePriority) l ->
  clean base (firewall k) -> clean base (firewall (apply_ops l k)).
Proof. intros Hg Hl He Hs. apply ops_clean; [done|by apply good_ops_ok|done]. Qed.

(** The firewall is put in place. *)
Lemma ensure_installed_there k :
  clean base (firewall k) \/ there base k -> there base (ensure_installed k).
Proof.
  unfold ensure_installed. intros [Hk|(s & Hs & Hd)].
  - rewrite (isInstalled_clean base) by done. exists nothing_on. split; [|done]. by apply run_install_clean.
  - rewrite (isInstalled_installed base s) by done. by exists s.
Qed.

Lemma service_ok_there k : service_ok base k -> there base (ensure_installed k).
Proof. intros [[[Hk _]|Hk] _]; apply ensure_installed_there; auto. Qed.

Lemma strict_ensure k : strictKillSwitchEnabled (ensure_installed k) = strictKillSwitchEnabled k.
Proof. unfold ensure_installed. by case_match. Qed.

Lemma ranges_ensure k : m_allowedRanges (ensure_installed k) = m_allowedRanges k.
Proof. unfold ensure_installed. by case_match. Qed.

Lemma disableAllTraffic_ok k : clean base (firewall k) \/ there base k -> service_ok base (disableAllTraffic k).
Proof.
  intros Hk%ensure_installed_there. split; [right|constructor].
  by apply (apply_ops_there all_traffic_ops) in Hk.
Qed.

(** The end of a connection removes the firewall. *)
Lemma disableKillSwitch_clean k :
  isStrictKillSwitchEnabled k = false -> clean base (firewall k) \/ there base k ->
  clean base (firewall (disableKillSwitch k)).
Proof.
  intros E Hk. unfold disableKillSwitch. rewrite E. cbn [firewall set_ranges set_firewall].
  destruct Hk as [Hk|(s & Hk & _)].
  - apply run_uninstall_clean, apply_ops_clean; [done|constructor|by repeat constructor|done].
  - eapply run_uninstall_installed, apply_ops_installed; [done|constructor|done].
Qed.

Lemma disableKillSwitch_ok k :
  (clean base (firewall k) /\ isStrictKillSwitchEnabled k = false) \/ there base k ->
  service_ok base (disableKillSwitch k).
Proof.
  intros Hk. split; [|constructor]. destruct (isStrictKillSwitchEnabled k) eqn:E.
  - right. destruct Hk as [[_ [=]]|Hk]. unfold disableKillSwitch. rewrite E.
    by apply (apply_ops_there strict_ops) in Hk.
  - left. split.
    + apply disableKillSwitch_clean; [done|]. destruct Hk as [[Hk _]|Hk]; auto.
    + unfold disableKillSwitch. by rewrite E.
Qed.

Lemma add_ranges_clear l ranges :
  Forall clear_server l -> Forall clear_server ranges -> Forall clear_server (foldl add_range l ranges).
Proof.
  intros Hl Hr. revert l Hl. induction Hr as [|r ranges Hr _ IH]; intros l Hl; [done|]. cbn [foldl].
  apply IH. unfold add_range. case_match; [|done]. apply Forall_app. split; [done|]. by apply Forall_singleton.
Qed.

Lemma resetAllowedRange_ok ranges k :
  service_ok base k -> Forall clear_server ranges -> service_ok base (resetAllowedRange ranges k).
Proof.
  intros [Hk _] Hr. split; [|done]. destruct Hk as [[Hk E]|Hk].
  - left. split; [|done]. apply apply_ops_clean; [done|by cbn [map op_servers List.concat app]; rewrite app_nil_r|by repeat constructor|done].
  - right. apply apply_ops_there; [done|by cbn [map op_servers List.concat app]; rewrite app_nil_r|done].
Qed.

Lemma connection_ok l k :
  service_ok base k -> good_ops l = true -> Forall clear_server (List.concat (map op_servers l)) ->
  service_ok base (apply_ops l (ensure_installed k)).
Proof.
  intros Hk Hg Hl. pose proof (service_ok_there k Hk) as Ht. split; [right; by apply apply_ops_there|].
  cbn [apply_ops set_firewall m_allowedRanges]. rewrite ranges_ensure. by destruct Hk.
Qed.

Lemma enable_good configStr : good_ops (enable_ops configStr) = true.
Proof. done. Qed.

Lemma enable_servers configStr :
  Forall clear_server (servers_of configStr) ->
  Forall clear_server (List.concat (map op_servers (enable_ops configStr))).
Proof.
  unfold servers_of. rewrite !Forall_app. intros (Ha & Hb & Hd).
  cbn [enable_ops enable_list map op_servers List.concat app]. rewrite !Forall_app. auto.
Qed.

Lemma rules_servers params :
  Forall clear_server (params_servers params) ->
  Forall clear_server (List.concat (map op_servers (rules_ops params))).
Proof.
  unfold params_servers. rewrite !Forall_app. intros (Ha & Hb & Hd).
  cbn [rules_ops map op_servers List.concat app]. rewrite !Forall_app. auto.
Qed.

Lemma service_run_ok_lemma k : service_run base k -> service_ok base k.
Proof.
  induction 1 as [w strict Hw|k enabled _ IH|k _ IH|k _ IH|k ranges _ IH Hr|k ranges _ IH Hr|k configStr _ IH Hc
    |k params _ IH Hp].
  - unfold init. case_match eqn:E; [apply disableAllTraffic_ok; by left|]. split; [by left|constructor].
  - unfold refresh. destruct enabled; [apply disableAllTraffic_ok|apply disableKillSwitch_ok].
    + destruct IH as [[[IH _]|IH] _]; [by left|by right].
    + destruct IH as [[[IH _]|IH] _]; [by left|by right].
  - apply disableKillSwitch_ok. by destruct IH.
  - apply disableAllTraffic_ok. destruct IH as [[[IH _]|IH] _]; [by left|by right].
  - by apply resetAllowedRange_ok.
  - apply resetAllowedRange_ok; [done|]. apply add_ranges_clear; [|done]. by destruct IH.
  - apply connection_ok; [done|done|by apply enable_servers].
  - apply connection_ok; [done|done|by apply rules_servers].
Qed.

(** *** What passes *)

Lemma verdict_after l k s cmd p :
  good_ops l = true -> Forall clear_server (List.concat (map op_servers l)) -> installed base s (firewall k) ->
  verdict cmd p (firewall (apply_ops l k)) = Some (decide_anchors p (filter_layout (ops_anchors l s) cmd)).
Proof. intros Hg Hl Hs. apply (verdict_installed base). by apply apply_ops_installed. Qed.

Lemma strict_decides s cmd p :
  on6 s "310.blockDNS" = false ->
  decide_anchors p (filter_layout (ops_anchors strict_ops s) cmd) = Some (word (leaves_by p "lo+")).
Proof.
  intros Hd. destruct cmd; [rewrite decide4|rewrite decide6].
  - transitivity (orelse (if leaves_by p "lo+" then Some "ACCEPT" else None) (Some "REJECT")); [reflexivity|].
    by destruct (leaves_by p "lo+").
  - transitivity (orelse (if leaves_by p "lo+" then Some "ACCEPT" else None)
      (orelse (if on6 s "310.blockDNS" && is_dns p then Some "REJECT" else None)
      (orelse (if negb (leaves_by p "lo+") then Some "REJECT" else None)
      (orelse (if on6 s "200.allowVPN" && tunnel p then Some "ACCEPT" else None) (Some "REJECT"))))); [reflexivity|].
    rewrite Hd. by destruct (leaves_by p "lo+").
Qed.

Lemma connection_decides4 s l p servers dns blocked :
  on4 (ops_anchors l s) "000.allowLoopback" = true -> on4 (ops_anchors l s) "320.allowDNS" = true ->
  on4 (ops_anchors l s) "310.blockDNS" = true -> on4 (ops_anchors l s) "300.allowLAN" = true ->
  on4 (ops_anchors l s) "290.allowDHCP" = true -> on4 (ops_anchors l s) "200.allowVPN" = true ->
  first_match p (dns_list (ops_anchors l s))
    = (if existsb (fun server => usable server && (tunnel p && is_dns p && goes_to p server)) dns
       then Some "ACCEPT" else None) ->
  (if on4 (ops_anchors l s) "110.allowNets" then first_match p (allow_list (ops_anchors l s)) else None)
    = (if to_usable p servers then Some "ACCEPT" else None) ->
  (if on4 (ops_anchors l s) "120.blockNets" then first_match p (block_list (ops_anchors l s)) else None)
    = (if to_usable p blocked then Some "REJECT" else None) ->
  (servers = [] \/ blocked = []) ->
  decide_anchors p (filter_layout (ops_anchors l s) iptables) =
    orelse (word <$> accepts4 servers dns (on4 (ops_anchors l s) "130.allowMarkedXray") p)
      (if to_usable p blocked || on4 (ops_anchors l s) "100.blockAll" then Some "REJECT" else None).
Proof.
  intros H1 H2 H3 H4 H5 H6 Hd Ha Hb Hs. rewrite decide4, H1, H2, H3, H4, H5, H6, Hd, Ha, Hb.
  assert (existsb (fun server => usable server && (tunnel p && is_dns p && goes_to p server)) dns
    = tunnel p && is_dns p && to_usable p dns) as ->.
  { unfold to_usable. clear. induction dns as [|d dns IH]; simpl; [by rewrite andb_false_r|].
    rewrite IH. by destruct (usable d), (tunnel p), (is_dns p). }
  unfold accepts4. cbn [andb].
  destruct (leaves_by p "lo+"); [done|]. destruct (is_dns p).
  { rewrite andb_true_r. by destruct (tunnel p), (to_usable p dns). }
  rewrite andb_false_r. cbn [orelse]. destruct (to_any p lan4); [done|]. destruct (dhcp4 p); [done|].
  destruct (tunnel p); [done|]. cbn [orb].
  destruct (on4 (ops_anchors l s) "130.allowMarkedXray" && has_mark p xrayTrafficMark); [done|]. cbn [orb].
  destruct Hs as [->| ->]; cbn [to_usable existsb orelse orb]; by repeat case_match.
Qed.

Lemma connection_decides6 s l p :
  on6 (ops_anchors l s) "000.allowLoopback" = true -> on6 (ops_anchors l s) "310.blockDNS" = false ->
  on6 (ops_anchors l s) "300.allowLAN" = true -> on6 (ops_anchors l s) "290.allowDHCP" = true ->
  on6 (ops_anchors l s) "250.blockIPv6" = true ->
  decide_anchors p (filter_layout (ops_anchors l s) ip6tables) = Some (word (accepts6 p)).
Proof.
  intros H1 H2 H3 H4 H5. rewrite decide6, H1, H2, H3, H4, H5. unfold accepts6.
  by destruct (leaves_by p "lo+"), (to_any p lan6), (dhcp6 p).
Qed.

End States.

(** ** Theorems *)

Section Theorems.
Context `{IptablesLaws} (base : Command -> string -> Table).

(** The texts of the anchors after the lists were exchanged. *)
Lemma enable_lists m dns s :
  allow_list (ops_anchors (enable_list m dns) s) = getAllowRule (List.filter usable (allownets m))
  /\ block_list (ops_anchors (enable_list m dns) s) = getBlockRule (List.filter usable (blocknets m))
  /\ dns_list (ops_anchors (enable_list m dns) s) = getDNSRules (List.filter usable dns).
Proof. repeat split. Qed.

Lemma rules_lists params s :
  allow_list (ops_anchors (rules_ops params) s) = getAllowRule (List.filter usable (params_allowAddrs params))
  /\ block_list (ops_anchors (rules_ops params) s) = getBlockRule (List.filter usable (params_blockAddrs params))
  /\ dns_list (ops_anchors (rules_ops params) s) = getDNSRules (List.filter usable (params_dnsServers params)).
Proof. repeat split. Qed.

Lemma enable_says m dns s p :
  Forall clear_server (allownets m ++ blocknets m ++ dns) ->
  (allowNets m = true /\ blocknets m = [] \/ allowNets m = false /\ blockAll m = false) ->
  decide_anchors p (filter_layout (ops_anchors (enable_list m dns) s) iptables) =
    orelse (word <$> accepts4 (if allowNets m then allownets m else []) dns true p)
      (if blockAll m then Some "REJECT" else None).
Proof.
  rewrite !Forall_app. intros (Ha & Hb & Hd) Hm. destruct (enable_lists m dns s) as (Ea & Eb & Ed).
  rewrite (connection_decides4 s _ p (if allowNets m then allownets m else []) dns []); try reflexivity.
  - by rewrite Ed, dns_match.
  - rewrite Ea. change (on4 _ "110.allowNets") with (allowNets m). destruct (allowNets m); [by rewrite allow_match|done].
  - rewrite Eb. change (on4 _ "120.blockNets") with (blockAll m).
    destruct Hm as [[_ ->]|[_ ->]]; [by destruct (blockAll m)|done].
  - by right.
Qed.

(** *** What is meant to pass while a connection takes all traffic but that to some sites *)

Definition field (configStr : QJsonObject) (k : string) : string := text_of (obj_value configStr k).

(** A packet to a host that the firewall takes for one and of which [P] holds. *)
Definition to_host (P : string -> Prop) (p : Packet) : Prop :=
  exists host, P host /\ usable host = true /\ goes_to p host = true.

(** The VPN server, and, where sites bypass the tunnel, the sites. *)
Definition beside_tunnel (configStr : QJsonObject) (host : string) : Prop :=
  host = field configStr "vpnServer"
  \/ toInt (obj_value configStr "splitTunnelType") = 2
     /\ exists site, site ∈ toArray (obj_value configStr "splitTunnelSites") /\ host = text_of (Some site).

(** The servers for names: the first, the second unless the first is the one of the VPN server, the
    resolvers of the machine, and the allowed ones up to the first value that is no text. *)
Definition name_server (configStr : QJsonObject) (host : string) : Prop :=
  host = field configStr "dns1"
  \/ contains_text amneziaDnsIp (field configStr "dns1") = false /\ host = field configStr "dns2"
  \/ host = "127.0.0.1" \/ host = "127.0.0.53"
  \/ exists before after, toArray (obj_value configStr "allowedDnsServers") = map JString before ++ JString host :: after.

(** A request for a name passes only through the tunnel and to a server for names; anything
    else passes in the local network, through the tunnel, with the mark of Xray, or to a host
    beside the tunnel. *)
Definition meant_to_pass (configStr : QJsonObject) (p : Packet) : Prop :=
  leaves_by p "lo+" = true
  \/ is_dns p = true /\ tunnel p = true /\ to_host (name_server configStr) p
  \/ is_dns p = false /\ (to_any p lan4 = true \/ dhcp4 p = true \/ tunnel p = true \/ has_mark p xrayTrafficMark = true
       \/ to_host (beside_tunnel configStr) p).

Lemma to_usable_host (P : string -> Prop) (l : list string) p :
  (forall host, host ∈ l <-> P host) -> to_usable p l = true <-> to_host P p.
Proof.
  intros Hl. unfold to_usable, to_host. rewrite existsb_exists. split.
  - intros (h & Hh%list_elem_of_In%Hl & (Hu & Hg)%andb_prop). eauto.
  - intros (h & Hh%Hl%list_elem_of_In & Hu & Hg). exists h. by rewrite Hu, Hg.
Qed.

Lemma allownets_meant configStr host :
  toInt (obj_value configStr "splitTunnelType") = 0 \/ toInt (obj_value configStr "splitTunnelType") = 2 ->
  host ∈ allownets (mode_of configStr) <-> beside_tunnel configStr host.
Proof.
  unfold beside_tunnel, mode_of. intros [-> | ->]; cbn [Z.eqb Pos.eqb allownets].
  - rewrite list_elem_of_singleton. split; [by left|]. by intros [?|[[=] _]].
  - rewrite elem_of_cons, list_elem_of_fmap. naive_solver.
Qed.

Lemma leading_meant l host :
  host ∈ leading_strings l <-> exists before after, l = map JString before ++ JString host :: after.
Proof.
  induction l as [|v l IH]; cbn [leading_strings].
  { rewrite elem_of_nil. split; [done|]. by intros ([] & after & [=]). }
  destruct v as [| | |t| |]; cbn [isString]; try (rewrite elem_of_nil; split; [done|]; by intros ([] & after & [=])).
  rewrite elem_of_cons, IH. unfold text_of. cbn [toString chars default from_option id]. split.
  - intros [->|(before & after & ->)]; [by exists [], l|by exists (t :: before), after].
  - intros ([|t' before] & after & [= -> ->]); [by left|right; by exists before, after].
Qed.

Lemma dns_meant configStr host : host ∈ dns_servers configStr <-> name_server configStr host.
Proof.
  unfold dns_servers, name_server, field. rewrite !elem_of_app, leading_meant, list_elem_of_singleton, elem_of_cons, list_elem_of_singleton.
  destruct (contains_text amneziaDnsIp _); rewrite ?elem_of_nil, ?list_elem_of_singleton; naive_solver.
Qed.

Lemma accepts4_meant configStr p :
  toInt (obj_value configStr "splitTunnelType") = 0 \/ toInt (obj_value configStr "splitTunnelType") = 2 ->
  default false (accepts4 (allownets (mode_of configStr)) (dns_servers configStr) true p) = true <-> meant_to_pass configStr p.
Proof.
  intros Hm. unfold accepts4, meant_to_pass.
  rewrite <- (to_usable_host _ _ p (fun h => allownets_meant configStr h Hm)), <- (to_usable_host _ _ p (dns_meant configStr)).
  destruct (leaves_by p "lo+"); [split; [by left|done]|]. destruct (is_dns p).
  - cbn [default from_option id]. rewrite andb_true_iff. split; [intros (Ht & Hn); right; left; auto|].
    intros [[=]|[(_ & Ht & Hn)|([=] & _)]]. auto.
  - cbn [andb]. set (b := to_any p lan4 || _ || _ || _ || _).
    assert (Hb : b = true <-> to_any p lan4 = true \/ dhcp4 p = true \/ tunnel p = true
                              \/ has_mark p xrayTrafficMark = true \/ to_usable p (allownets (mode_of configStr)) = true)
      by (unfold b; rewrite !orb_true_iff; tauto).
    rewrite <- Hb. destruct b; cbn [default from_option id]; split; auto; intros [[=]|[([=] & _)|(_ & [=])]].
Qed.

(** C4: The kill switch does not leak.  While it is on for a connection that takes
    all traffic, or all but that to some sites, every packet gets a verdict, whatever the
    service did before and whatever rules of others follow.  A packet of version 4 is accepted
    exactly if it stays on the machine; or is a request for a name that goes through the
    tunnel to a server for names of the configuration or of the machine; or is no such request and goes to the
    local network, asks for an address (DHCP), goes through the tunnel, bears the mark of Xray, or
    goes to the VPN server or, in the second mode only, to one of the sites of the configuration.  Requests for names to
    the local network or beside the tunnel are rejected.  A packet of version 6 is accepted exactly if it stays
    on the machine or in the local network or asks for an address, whether or not it would go through the tunnel. *)
Theorem killswitch_no_leak (k : KillSwitch) (configStr : QJsonObject) :
  service_run base k -> Forall clear_server (servers_of configStr) ->
  toInt (obj_value configStr "splitTunnelType") = 0 \/ toInt (obj_value configStr "splitTunnelType") = 2 ->
  forall p,
    (exists accepted, says iptables p (enableKillSwitch configStr k) (Some accepted) /\ (accepted = true <-> meant_to_pass configStr p))
    /\ says ip6tables p (enableKillSwitch configStr k) (Some (leaves_by p "lo+" || to_any p lan6 || dhcp6 p)).
Proof.
  intros Hk Hs Hm p. apply service_run_ok_lemma, service_ok_there in Hk as (s & Hi & Hd).
  assert (blockAll (mode_of configStr) = true /\ allowNets (mode_of configStr) = true /\ blocknets (mode_of configStr) = [])
    as (E1 & E2 & E3) by (unfold mode_of; by destruct Hm as [->| ->]).
  pose proof (enable_servers configStr Hs) as Hs'. split; [eexists; split; [|exact (accepts4_meant configStr p Hm)]|]; unfold says, enableKillSwitch.
  - rewrite (verdict_after base _ _ s) by done. unfold enable_ops. rewrite enable_says by (try done; by left).
    rewrite E1, E2. by destruct (accepts4 _ _ _ p).
  - rewrite (verdict_after base _ _ s) by done. rewrite connection_decides6 by
      (reflexivity || by rewrite good_ops_dns6). done.
Qed.

(** C39: In the mode in which only some sites use the tunnel, the kill switch does not
    block them: the anchor of the blocked sites gets the flag of another mode.  A
    packet to a site that would go out beside the tunnel, because the tunnel is down,
    is left to the rules of the system. *)
Theorem killswitch_sites_pass (k : KillSwitch) (configStr : QJsonObject) (site : string) (p : Packet) :
  service_run base k -> Forall clear_server (servers_of configStr) ->
  toInt (obj_value configStr "splitTunnelType") = 1 ->
  JString site ∈ toArray (obj_value configStr "splitTunnelSites") -> usable site = true ->
  goes_to p site = true -> accepts4 [] (dns_servers configStr) true p = None ->
  site ∈ blocknets (mode_of configStr) /\ blockNets (mode_of configStr) = true
  /\ says iptables p (enableKillSwitch configStr k) None.
Proof.
  intros Hk Hs Hm Hsite Hu Hg Ha. apply service_run_ok_lemma, service_ok_there in Hk as (s & Hi & Hd).
  assert (blockAll (mode_of configStr) = false /\ allowNets (mode_of configStr) = false) as (E1 & E2).
  { unfold mode_of. by rewrite Hm. }
  split; [|split].
  - unfold mode_of. rewrite Hm. simpl. by apply (list_elem_of_fmap_2 (fun v => text_of (Some v)) _ (JString site)).
  - unfold mode_of. by rewrite Hm.
  - unfold says, enableKillSwitch. rewrite (verdict_after base _ _ s) by (try done; by apply enable_servers).
    unfold enable_ops. rewrite enable_says by (try done; by right). by rewrite E1, E2, Ha.
Qed.

(** C6: The strict mode.  In every state of the service in which it is on, the
    firewall is in place, and the end of a connection leaves only traffic that stays
    on the machine, for both versions; in every state in which it is off, the end of
    a connection gives the tables back as they were before the service started. *)
Theorem strict_mode_holds (k : KillSwitch) :
  service_run base k ->
  if isStrictKillSwitchEnabled k
  then isInstalled (firewall k) = true
       /\ forall cmd p, says cmd p (disableKillSwitch k) (Some (leaves_by p "lo+"))
  else forall cmd t, t ∈ our_tables -> table (firewall (disableKillSwitch k)) cmd t = base cmd t.
Proof.
  intros Hk%service_run_ok_lemma. pose proof (proj1 Hk) as Ht. destruct (isStrictKillSwitchEnabled k) eqn:E.
  - destruct Ht as [[_ [=]]|(s & Hi & Hd)]. split; [by apply (isInstalled_installed base s)|].
    intros cmd p. unfold says, disableKillSwitch. rewrite E. cbn [firewall set_ranges].
    rewrite (verdict_after base _ _ s) by (done || constructor). by rewrite strict_decides.
  - assert (clean base (firewall (disableKillSwitch k))) as Hc.
    { apply disableKillSwitch_clean; [done|]. destruct Ht as [[Hc _]|Hc]; auto. }
    intros cmd t Ht'. by destruct (Hc cmd t Ht').
Qed.

(** C23: The rules of the daemon for an interface.  On a machine without the firewall,
    the configuration of an interface with the kill switch lets through what stays on
    the machine, the local network, requests for an address, the tunnel and requests for
    names through it; of
    the rest, an interface for all traffic lets only the excluded addresses through,
    and an interface for some networks blocks these networks and leaves everything
    else to the system.  Of version 6 only the local network is left. *)
Theorem interface_rules_block `{Qt} (k : KillSwitch) (config : InterfaceConfig) (p : Packet) :
  clean base (firewall k) -> m_killSwitchEnabled config = true ->
  Forall clear_server (params_servers (firewall_params config)) ->
  let all := existsb (fun ip => IPAddress_eqb ip (IPAddress_of_string parseSubnet hostAddress "0.0.0.0/0"))
               (m_allowedIPAddressRanges config) in
  let dns := params_dnsServers (firewall_params config) in
  says ip6tables p (interface_added config k) (Some (accepts6 p))
  /\ if all
     then says iptables p (interface_added config k)
            (Some (default false (accepts4 (m_excludedAddresses config) dns false p)))
     else says iptables p (interface_added config k)
            (match accepts4 [] dns false p with
             | Some v => Some v
             | None => if to_usable p (map ip_text (m_allowedIPAddressRanges config)) then Some false else None
             end).
Proof.
  intros Hk Hon Hs all dns. unfold interface_added, says, applyFirewallRules. rewrite Hon.
  assert (installed base nothing_on (firewall (ensure_installed k))) as Hi.
  { unfold ensure_installed. rewrite (isInstalled_clean base) by done. by apply run_install_clean. }
  pose proof (rules_servers _ Hs) as Hs'. unfold params_servers in Hs. rewrite !Forall_app in Hs.
  destruct Hs as (Hd & Ha & Hb). set (params := firewall_params config) in *.
  rewrite !(verdict_after base _ _ nothing_on) by done. split; [by rewrite connection_decides6|].
  destruct (rules_lists params nothing_on) as (Ea & Eb & Ed).
  assert (forall servers blocked, (if params_allowNets params then params_allowAddrs params else []) = servers ->
    (if params_blockNets params then params_blockAddrs params else []) = blocked -> servers = [] \/ blocked = [] ->
    decide_anchors p (filter_layout (ops_anchors (rules_ops params) nothing_on) iptables)
    = orelse (word <$> accepts4 servers dns false p)
        (if to_usable p blocked || params_blockAll params then Some "REJECT" else None)) as Hdec.
  { intros servers blocked E1 E2 Hor. rewrite (connection_decides4 _ _ p servers dns blocked); try reflexivity; [..|done].
    - rewrite Ed. by apply dns_match.
    - rewrite Ea. change (on4 _ "110.allowNets") with (params_allowNets params). rewrite <- E1.
      destruct (params_allowNets params); [by apply allow_match|done].
    - rewrite Eb. change (on4 _ "120.blockNets") with (params_blockNets params). rewrite <- E2.
      destruct (params_blockNets params); [by apply block_match|done]. }
  unfold params, firewall_params in Hdec |- *. fold all in Hdec |- *. destruct all.
  - destruct (m_excludedAddresses config) as [|x l] eqn:El;
      rewrite (Hdec _ [] eq_refl eq_refl) by auto; cbn; by destruct (accepts4 _ _ _ p) as [[]|].
  - rewrite (Hdec [] _ eq_refl eq_refl) by auto. cbn [params_blockAll]. rewrite orb_false_r.
    destruct (accepts4 _ _ _ p); [done|]. by destruct (to_usable p _).
Qed.

End Theorems.

(** *** Witnesses *)

#[local] Existing Instance example_iptables.
#[local] Existing Instance example_laws.
#[local] Existing Instance example_qt.

Lemma clear_servers_by_test (l : list string) : forallb clear_serverb l = true -> Forall clear_server l.
Proof.
  rewrite forallb_forall. intros Hl. apply Forall_forall. intros server Hs%list_elem_of_In%Hl.
  unfold clear_serverb in Hs. rewrite orb_true_iff, andb_true_iff, negb_true_iff, !forallb_forall in Hs.
  destruct Hs as [[Hw Hs]|Hs]; [left; split; [done|]|right]; apply Forall_forall;
    intros r Hr%list_elem_of_In%Hs; by apply bool_decide_eq_true in Hr.
Qed.

Ltac clear_servers := apply clear_servers_by_test; vm_compute; reflexivity.

Lemma example_running strict : service_run (fun _ _ => example_table) (example_service strict).
Proof. apply service_starts, example_clean. Qed.

Lemma example_rejected :
  accepts4 (allownets (mode_of (example_json 0))) (dns_servers (example_json 0)) true example_packet = None.
Proof. vm_compute. reflexivity. Qed.

Lemma example_accepted :
  accepts4 (allownets (mode_of (example_json 2))) (dns_servers (example_json 2)) true example_packet = Some true.
Proof. vm_compute. reflexivity. Qed.

Lemma example_clear n : n = 0 \/ n = 1 \/ n = 2 -> Forall clear_server (servers_of (example_json n)).
Proof. intros [->|[->| ->]]; clear_servers. Qed.

Lemma killswitch_no_leak_witness :
  says iptables example_packet (enableKillSwitch (example_json 0) (example_service false)) (Some false)
  /\ says iptables example_packet (enableKillSwitch (example_json 2) (example_service true)) (Some true).
Proof.
  destruct (killswitch_no_leak _ (example_service false) (example_json 0) (example_running false)
    (example_clear 0 ltac:(auto)) (or_introl eq_refl) example_packet) as [(v0 & H0 & E0) _].
  destruct (killswitch_no_leak _ (example_service true) (example_json 2) (example_running true)
    (example_clear 2 ltac:(auto)) (or_intror eq_refl) example_packet) as [(v2 & H2 & E2) _].
  rewrite <- accepts4_meant, example_rejected in E0 by (left; reflexivity).
  rewrite <- accepts4_meant, example_accepted in E2 by (right; reflexivity).
  assert (v0 = false) as -> by (destruct v0; [symmetry; exact (proj1 E0 eq_refl)|reflexivity]).
  rewrite (proj2 E2 eq_refl) in H2. split; [exact H0|exact H2].
Defined.

Lemma killswitch_sites_pass_witness :
  says iptables example_packet (enableKillSwitch (example_json 1) (example_service false)) None.
Proof.
  refine (proj2 (proj2 (killswitch_sites_pass _ (example_service false) (example_json 1) "198.51.100.7" example_packet
    (example_running false) (example_clear 1 ltac:(auto)) eq_refl _ _ eq_refl _))).
  - by left.
  - vm_compute. reflexivity.
  - vm_compute. reflexivity.
Defined.

Lemma strict_mode_holds_witness :
  isInstalled (firewall (example_service true)) = true
  /\ says iptables example_packet (disableKillSwitch (example_service true)) (Some false).
Proof.
  pose proof (strict_mode_holds _ (example_service true) (example_running true)) as Hs.
  assert (isStrictKillSwitchEnabled (example_service true) = true) as E by (vm_compute; reflexivity).
  rewrite E in Hs. destruct Hs as [Hi Hs].
  split; [exact Hi|]. exact (Hs iptables example_packet).
Defined.

Lemma example_params_clear : Forall clear_server (params_servers (firewall_params example_config)).
Proof. clear_servers. Qed.

Lemma interface_rules_block_witness :
  says ip6tables example_packet (interface_added example_config example_off) (Some false).
Proof.
  exact (proj1 (interface_rules_block (fun _ _ => example_table) example_off example_config
    example_packet example_clean eq_refl example_params_clear)).
Defined.
