(* ===== verification/PingHelper.v ===== *)
(** * Pings through the tunnel

    [PingHelper] of client/mozilla/pinghelper.cpp: a ring of the last thirty-two pings,
    found by a sequence number of sixteen bits, and the statistics over it.  The sender
    of pings is outside; times are milliseconds since the epoch and are given to the
    operations that ask for them.

    The theorems say which replies count, also after the number has run over, that the
    average is rounded to the nearest, and what the loss and the maximum are; and that
    a reply before the first ping is taken for one. *)

From stdpp Require Import base numbers list.
From Stdlib Require Import ZArith Lia QArith.QArith_base.
From S2P Require Import Prelude.
Open Scope list_scope.
Open Scope Z_scope.

Definition PING_TIMEOUT_SEC : Z := 1.
Definition PING_STATS_WINDOW : Z := 32.

(** [quint16] and [uint] *)
Definition wrap16 (n : Z) : Z := n mod 2 ^ 16.
Definition wrap32 (n : Z) : Z := n mod 2 ^ 32.

Record PingSendData := mkPing { timestamp : Z; latency_of : Z; sequence : Z }.

Definition no_ping : PingSendData := mkPing (-1) (-1) 0.

(** [sender] tells whether there is one, [timer] whether the timer runs. *)
Record PingHelper := mkHelper {
  m_sequence : Z;
  m_pingData : list PingSendData;
  sender : bool;
  timer : bool
}.

Definition new_helper : PingHelper := mkHelper 0 (replicate 32 no_ping) false false.

Definition start (h : PingHelper) : PingHelper := mkHelper 0 (replicate 32 no_ping) true true.

Definition stop (h : PingHelper) : PingHelper := mkHelper (m_sequence h) (m_pingData h) false false.

Definition slot (seq : Z) : nat := Z.to_nat (seq mod PING_STATS_WINDOW).

(** The number that is sent, too. *)
Definition nextPing (now : Z) (h : PingHelper) : Z * PingHelper :=
  (m_sequence h,
   mkHelper (wrap16 (m_sequence h + 1))
     (<[slot (m_sequence h) := mkPing now (-1) (m_sequence h)]> (m_pingData h)) (sender h) (timer h)).

(** The time that is told, if the reply counts. *)
Definition pingReceived (now seq : Z) (h : PingHelper) : option Z * PingHelper :=
  match m_pingData h !! slot seq with
  | Some data =>
      if sequence data =? seq then
        let ms := now - timestamp data in
        (Some ms,
         mkHelper (m_sequence h) (<[slot seq := mkPing (timestamp data) ms (sequence data)]> (m_pingData h))
           (sender h) (timer h))
      else (None, h)
  | None => (None, h)
  end.

(** ** Statistics *)

Definition answered (l : list PingSendData) : list Z :=
  List.filter (fun ms => negb (ms <? 0)) (map latency_of l).

Definition latency (h : PingHelper) : Z :=
  let l := answered (m_pingData h) in
  let recvCount := Z.of_nat (length l) in
  if recvCount <=? 0 then 0
  else wrap32 (Z.quot (foldl Z.add 0 l + Z.quot recvCount 2) recvCount).

(** The root of the mean of the squares, cut to an integer. *)
Definition stddev (h : PingHelper) : Z :=
  let l := answered (m_pingData h) in
  let recvCount := Z.of_nat (length l) in
  let average := latency h in
  if recvCount <=? 0 then 0
  else wrap32 (Z.sqrt (foldl (fun t ms => t + (average - ms) * (average - ms)) 0 l / recvCount)).

Definition maximum (h : PingHelper) : Z :=
  foldl (fun maxRtt ms => if (maxRtt <? ms) && (ms <? 2 ^ 32 - 1) then ms else maxRtt) 0 (answered (m_pingData h)).

Definition lost (now : Z) (data : PingSendData) : bool :=
  (latency_of data <? 0) && ((0 <? timestamp data) && (timestamp data <? now - PING_TIMEOUT_SEC * 1000)).

Definition loss (now : Z) (h : PingHelper) : Q :=
  let recvCount := Z.of_nat (length (answered (m_pingData h))) in
  let sendCount := recvCount + Z.of_nat (length (List.filter (lost now) (m_pingData h))) in
  if sendCount <=? 0 then 0%Q else (inject_Z (sendCount - recvCount) / inject_Z PING_STATS_WINDOW)%Q.

(** ** Specification *)

(** Pings and replies, with their times. *)
Inductive PingEvent := Sent (now : Z) | Reply (now seq : Z).

Definition ping_event (h : PingHelper) (e : PingEvent) : PingHelper :=
  match e with
  | Sent now => snd (nextPing now h)
  | Reply now seq => snd (pingReceived now seq h)
  end.

(** The times of the pings of a run. *)
Definition sends (l : list PingEvent) : list Z :=
  omap (fun e => match e with Sent now => Some now | Reply _ _ => None end) l.

(** The ping with the number [i], counted from the start without an end, is one of the
    last ones. *)
Definition recent (n i : Z) : Prop := 0 <= i < n /\ n - PING_STATS_WINDOW <= i.

(** The ring after pings at [times]: each slot has the last ping that belongs there. *)
Definition ring (times : list Z) (h : PingHelper) : Prop :=
  length (m_pingData h) = 32%nat
  /\ m_sequence h = wrap16 (Z.of_nat (length times))
  /\ (forall i t, recent (Z.of_nat (length times)) i -> times !! Z.to_nat i = Some t ->
        exists ms, m_pingData h !! slot i = Some (mkPing t ms (wrap16 i)))
  /\ (forall k, Z.of_nat (length times) <= k < PING_STATS_WINDOW ->
        exists ms, m_pingData h !! slot k = Some (mkPing (-1) ms 0)).

(** The replies that count. *)
Definition counts (times : list Z) (now seq : Z) : option Z :=
  let n := Z.of_nat (length times) in
  let i := n - 1 - (n - 1 - seq) mod 2 ^ 16 in
  if (0 <=? i) && (n - PING_STATS_WINDOW <=? i) then
    match times !! Z.to_nat i with Some t => Some (now - t) | None => None end
  else None.

(** ** Lemmas *)

Lemma slot_mod (a b : Z) : a mod 32 = b mod 32 -> slot a = slot b.
Proof. unfold slot, PING_STATS_WINDOW. by intros ->. Qed.

Lemma slot_eq (a b : Z) : slot a = slot b -> a mod 32 = b mod 32.
Proof.
  unfold slot, PING_STATS_WINDOW. intros E%Z2Nat.inj; [done|..]; apply Z.mod_pos_bound; lia.
Qed.

Lemma slot_wrap16 (i : Z) : slot (wrap16 i) = slot i.
Proof.
  apply slot_mod. unfold wrap16. change (2 ^ 16) with (32 * 2048). 
  apply Z.mod_mod_divide. exists 2048. lia.
Qed.

Lemma slot_bound (i : Z) : (slot i < 32)%nat.
Proof. unfold slot, PING_STATS_WINDOW. pose proof (Z.mod_pos_bound i 32). lia. Qed.

Lemma ring_start (h : PingHelper) : ring [] (start h).
Proof.
  split_and!; [done|done| |].
  - intros i t [Hi _]. simpl in Hi. lia.
  - intros k Hk. exists (-1). apply lookup_replicate. split; [done|apply slot_bound].
Qed.

Lemma ring_sent (times : list Z) (now : Z) (h : PingHelper) :
  ring times h -> ring (times ++ [now]) (snd (nextPing now h)).
Proof.
  intros (Hlen & Hseq & Hold & Hnew). unfold nextPing. cbn [snd]. unfold ring. cbn [m_pingData m_sequence].
  rewrite length_insert, length_app, Nat2Z.inj_add. cbn [length]. change (Z.of_nat 1) with 1.
  set (n := Z.of_nat (length times)) in *. assert (0 <= n) by lia.
  assert (slot (m_sequence h) = slot n) as Es by (rewrite Hseq; apply slot_wrap16). rewrite Es.
  split_and!; [done| | |].
  - rewrite Hseq. unfold wrap16. by rewrite Zplus_mod_idemp_l.
  - intros i t [Hi Hw] Ht. unfold PING_STATS_WINDOW in Hw. destruct (decide (i = n)) as [->|Hne].
    + rewrite lookup_app_r in Ht by lia. replace (Z.to_nat n - length times)%nat with 0%nat in Ht by lia.
      injection Ht as ->. exists (-1). rewrite list_lookup_insert_eq by (rewrite Hlen; apply slot_bound).
      by rewrite Hseq.
    + rewrite lookup_app_l in Ht by lia. rewrite list_lookup_insert_ne.
      * apply Hold; [|done]. split; unfold PING_STATS_WINDOW; lia.
      * intros E%slot_eq. apply Hne.
        assert ((n - i) mod 32 = 0) as E0 by (rewrite Zminus_mod, E, Z.sub_diag; done).
        rewrite Z.mod_small in E0 by lia. lia.
  - intros k Hk. unfold PING_STATS_WINDOW in Hk. rewrite list_lookup_insert_ne; [apply Hnew; unfold PING_STATS_WINDOW; lia|].
    intros E%slot_eq. rewrite !Z.mod_small in E by lia. lia.
Qed.

Lemma ring_reply (times : list Z) (now seq : Z) (h : PingHelper) :
  ring times h -> ring times (snd (pingReceived now seq h)).
Proof.
  intros (Hlen & Hseq & Hold & Hnew). unfold pingReceived. destruct (m_pingData h !! slot seq) as [data|] eqn:E; [|done].
  case_match; [|done]. cbn [snd]. unfold ring. cbn [m_pingData m_sequence]. rewrite length_insert.
  split_and!; [done|done| |].
  - intros i t Hi Ht. destruct (Hold i t Hi Ht) as [ms Hms]. destruct (decide (slot seq = slot i)) as [Es|Es].
    + rewrite Es in *. rewrite list_lookup_insert_eq by (rewrite Hlen; apply slot_bound).
      rewrite E in Hms. injection Hms as ->. eauto.
    + rewrite list_lookup_insert_ne by done. eauto.
  - intros k Hk. destruct (Hnew k Hk) as [ms Hms]. destruct (decide (slot seq = slot k)) as [Es|Es].
    + rewrite Es in *. rewrite list_lookup_insert_eq by (rewrite Hlen; apply slot_bound).
      rewrite E in Hms. injection Hms as ->. eauto.
    + rewrite list_lookup_insert_ne by done. eauto.
Qed.

Lemma ring_run (l : list PingEvent) (times : list Z) (h : PingHelper) :
  ring times h -> ring (times ++ sends l) (foldl ping_event h l).
Proof.
  revert times h. induction l as [|[now|now seq] l IH]; intros times h Hr; simpl.
  - by rewrite app_nil_r.
  - rewrite (cons_middle now times), app_assoc. apply IH. by apply ring_sent.
  - apply IH. by apply ring_reply.
Qed.

(** The last ping before [n] whose number has the same rest. *)
Lemma last_before (n q m : Z) :
  0 < m -> let i := n - 1 - (n - 1 - q) mod m in i mod m = q mod m /\ n - m <= i < n.
Proof.
  intros Hm i. pose proof (Z.mod_pos_bound (n - 1 - q) m Hm). split; [|lia].
  unfold i. rewrite Zminus_mod_idemp_r. f_equal. lia.
Qed.

Lemma cong_unique (m n a b : Z) :
  0 < m -> n - m <= a < n -> n - m <= b < n -> a mod m = b mod m -> a = b.
Proof.
  intros Hm Ha Hb E. pose proof (Z_div_mod_eq_full a m). pose proof (Z_div_mod_eq_full b m).
  assert (a / m = b / m) by nia. nia.
Qed.

(** What lies in the slot of a number. *)
Lemma slot_content (times : list Z) (h : PingHelper) (q : Z) :
  ring times h ->
  let n := Z.of_nat (length times) in
  (exists j t ms, recent n j /\ times !! Z.to_nat j = Some t /\ j mod 32 = q mod 32
     /\ m_pingData h !! slot q = Some (mkPing t ms (wrap16 j)))
  \/ (n <= q mod 32 /\ exists ms, m_pingData h !! slot q = Some (mkPing (-1) ms 0)).
Proof.
  intros (Hlen & Hseq & Hold & Hnew) n. destruct (last_before n q 32 ltac:(lia)) as [Ej Hj].
  set (j := n - 1 - (n - 1 - q) mod 32) in *. destruct (Z.ltb_spec j 0) as [Hj0|Hj0].
  - right. assert (j + 32 = j mod 32) as E by (apply (Z.mod_unique _ _ (-1)); lia).
    split; [lia|]. pose proof (Z.mod_pos_bound q 32 ltac:(lia)).
    rewrite (slot_mod q (q mod 32)) by by rewrite Z.mod_mod by lia.
    apply Hnew. unfold PING_STATS_WINDOW. fold n. lia.
  - left. destruct (lookup_lt_is_Some_2 times (Z.to_nat j)) as [t Ht]; [lia|].
    destruct (Hold j t) as [ms Hms]; [split; unfold PING_STATS_WINDOW; fold n; lia|done|].
    exists j, t, ms. split_and!; [split; unfold PING_STATS_WINDOW; lia|done|done|]. by rewrite (slot_mod q j).
Qed.

Lemma mod_16_32 (a b : Z) : a mod 2 ^ 16 = b mod 2 ^ 16 -> a mod 32 = b mod 32.
Proof.
  intros E. rewrite <- (Z.mod_mod_divide a (2 ^ 16) 32), <- (Z.mod_mod_divide b (2 ^ 16) 32) by (exists 2048; lia).
  by rewrite E.
Qed.

Lemma ring_counts (times : list Z) (h : PingHelper) (now q : Z) :
  ring times h -> 0 <= q < 2 ^ 16 -> times <> [] \/ q <> 0 ->
  fst (pingReceived now q h) = counts times now q.
Proof.
  intros Hr Hq Hnz. unfold counts, pingReceived.
  pose proof (slot_content times h q Hr) as Hc. cbn zeta in Hc. set (n := Z.of_nat (length times)) in *.
  destruct (last_before n q (2 ^ 16) ltac:(lia)) as [Ei Hi]. set (i := n - 1 - (n - 1 - q) mod 2 ^ 16) in *.
  assert (wrap16 i = q) as Hwi by (unfold wrap16; rewrite Ei, Z.mod_small by lia; done).
  pose proof (mod_16_32 _ _ Ei) as Ei32. unfold PING_STATS_WINDOW.
  destruct Hc as [(j & t & ms & [Hj Hjw] & Ht & Ej & ->)|[Hn [ms ->]]]; cbn [sequence timestamp]; unfold PING_STATS_WINDOW in *.
  - destruct (Z.eqb_spec (wrap16 j) q) as [E|E].
    + assert (i = j) as ->.
      { apply (cong_unique (2 ^ 16) n); [lia|lia|lia|]. rewrite Ei, <- E. unfold wrap16. by rewrite Z.mod_mod. }
      rewrite (proj2 (Z.leb_le 0 j)), (proj2 (Z.leb_le (n - 32) j)) by lia. by rewrite Ht.
    + destruct (Z.leb_spec 0 i), (Z.leb_spec (n - 32) i); try done. destruct E.
      by rewrite (cong_unique 32 n j i) by (lia || congruence).
  - pose proof (Z.mod_pos_bound q 32 ltac:(lia)). destruct (Z.eqb_spec 0 q) as [<-|E].
    { destruct Hnz as [Hnz|]; [|done]. change (0 mod 32) with 0 in Hn. destruct times; [done|]. simpl in n. lia. }
    destruct (Z.leb_spec 0 i), (Z.leb_spec (n - 32) i); try done.
    assert (i mod 32 = i) by (apply Z.mod_small; lia). lia.
Qed.

Lemma foldl_add (l : list Z) (a : Z) : foldl Z.add a l = a + foldr Z.add 0 l.
Proof. revert a. induction l as [|x l IH]; intros a; simpl; [lia|]. rewrite IH. lia. Qed.

Lemma answered_nonneg (l : list PingSendData) : Forall (fun ms => 0 <= ms) (answered l).
Proof.
  apply Forall_forall. intros ms Hms%list_elem_of_In. apply List.filter_In in Hms as [_ Hms].
  apply negb_true_iff, Z.ltb_ge in Hms. done.
Qed.

Lemma sum_bounds (l : list Z) (b : Z) :
  Forall (fun ms => 0 <= ms) l -> Forall (fun ms => ms < b) l ->
  0 <= foldr Z.add 0 l <= Z.of_nat (length l) * b.
Proof. induction 1; intros Hb; simpl; [lia|]. apply Forall_cons in Hb as [? ?]. specialize (IHForall ltac:(done)). lia. Qed.

Lemma maximum_fold (l : list Z) (m : Z) :
  Forall (fun ms => ms < 2 ^ 32 - 1) l ->
  let r := foldl (fun maxRtt ms => if (maxRtt <? ms) && (ms <? 2 ^ 32 - 1) then ms else maxRtt) m l in
  m <= r /\ Forall (fun ms => ms <= r) l /\ (r = m \/ r ∈ l).
Proof.
  intros Hl. revert m. induction Hl as [|x l Hx _ IH]; intros m; simpl; [split_and!; [lia|constructor|by left]|].
  rewrite (proj2 (Z.ltb_lt x (2 ^ 32 - 1)) Hx), andb_true_r.
  destruct (Z.ltb_spec m x); destruct (IH (if m <? x then x else m)) as (H1 & H2 & H3).
  - rewrite (proj2 (Z.ltb_lt m x)) in * by lia. split_and!; [lia|by constructor|].
    right. destruct H3 as [->|H3]; [by left|by right].
  - rewrite (proj2 (Z.ltb_ge m x)) in * by lia. split_and!; [lia|constructor; [lia|done]|].
    destruct H3 as [->|H3]; [by left|right; by right].
Qed.

(** The loss is the share of late pings in the window. *)
Lemma loss_share (now : Z) (h : PingHelper) :
  length (m_pingData h) = 32%nat ->
  exists k, 0 <= k <= 32 /\ (loss now h == k # 32)%Q
    /\ (k = 0 <-> Forall (fun data => lost now data = false) (m_pingData h)).
Proof.
  intros Hlen. set (l := List.filter (lost now) (m_pingData h)). exists (Z.of_nat (length l)).
  assert (length l <= 32)%nat by (rewrite <- Hlen; apply List.filter_length_le).
  split_and!; [lia|lia| |].
  - unfold loss. fold l. destruct (Z.leb_spec (Z.of_nat (length (answered (m_pingData h))) + Z.of_nat (length l)) 0).
    + replace (Z.of_nat (length l)) with 0 by lia. done.
    + replace (_ + _ - _) with (Z.of_nat (length l)) by lia. unfold Qeq, Qdiv. simpl. lia.
  - split.
    + intros E. apply Forall_forall. intros data Hd. apply not_true_is_false. intros Hl.
      assert (In data l) as Hin by (apply List.filter_In; split; [by apply list_elem_of_In|done]).
      destruct l; [done|simpl in E; lia].
    + intros Hd. unfold l. clear - Hd. induction Hd as [|data t Hd _ IH]; [done|]. simpl. by rewrite Hd.
Qed.

(** ** Theorems *)

(** C26: The replies that count.  After any pings and replies, however often the
    sixteen bits of the number have run over, a reply counts exactly if it answers one
    of the last thirty-two pings, and the time told is that since this ping was sent;
    only the number zero before the first ping is excepted. *)
Theorem replies_to_recent_pings (h : PingHelper) (l : list PingEvent) (now q : Z) :
  0 <= q < 2 ^ 16 -> sends l <> [] \/ q <> 0 ->
  fst (pingReceived now q (foldl ping_event (start h) l)) = counts (sends l) now q.
Proof. intros Hq Hl. apply ring_counts; [|done|done]. apply (ring_run l []), ring_start. Qed.

(** The statistics.  Over the replies in the ring, the average is the nearest whole
    number, the maximum is one of them and no less than any, and the loss is between
    none and all of the window and zero exactly if no ping is late. *)
Theorem ping_statistics (h : PingHelper) (l : list PingEvent) (now : Z) :
  let h' := foldl ping_event (start h) l in
  let times := answered (m_pingData h') in
  let sum := foldr Z.add 0 times in
  let n := Z.of_nat (length times) in
  Forall (fun ms => ms < 2 ^ 31) times ->
  (if n =? 0 then latency h' = 0 else - n <= 2 * (n * latency h' - sum) <= n)
  /\ Forall (fun ms => ms <= maximum h') times /\ (maximum h' = 0 \/ maximum h' ∈ times)
  /\ (0 <= loss now h' <= 1)%Q
  /\ ((loss now h' == 0)%Q <-> Forall (fun data => lost now data = false) (m_pingData h')).
Proof.
  intros h' times sum n Ht. pose proof (answered_nonneg (m_pingData h')) as Hn. fold times in Hn.
  assert (length (m_pingData h') = 32%nat) as Hlen.
  { assert (ring (sends l) h') as (E & _) by (apply (ring_run l []), ring_start). done. }
  pose proof (sum_bounds times (2 ^ 31) Hn Ht) as Hs. fold sum n in Hs.
  destruct (loss_share now h') as (k & Hk & Hloss & Hzero); [done|].
  split_and!.
  - unfold latency. fold times n. destruct (Z.eqb_spec n 0) as [->|Hn0]; [done|].
    rewrite (proj2 (Z.leb_gt n 0)) by lia. rewrite foldl_add. fold sum. rewrite Z.add_0_l.
    assert (0 < n) by lia. rewrite (Z.quot_div_nonneg n 2) by lia.
    assert (0 <= n / 2 <= n) by (split; [apply Z.div_pos; lia|apply Z.div_le_upper_bound; lia]).
    rewrite Z.quot_div_nonneg by lia. unfold wrap32. rewrite Z.mod_small.
    + pose proof (Z.mul_div_le (sum + n / 2) n ltac:(lia)). pose proof (Z.mul_succ_div_gt (sum + n / 2) n ltac:(lia)).
      pose proof (Z.mul_div_le n 2 ltac:(lia)). pose proof (Z.mul_succ_div_gt n 2 ltac:(lia)). lia.
    + split; [apply Z.div_pos; lia|]. apply Z.div_lt_upper_bound; [lia|]. nia.
  - unfold maximum. apply (maximum_fold times 0). apply (Forall_impl _ _ _ Ht). simpl. lia.
  - unfold maximum. apply (maximum_fold times 0). apply (Forall_impl _ _ _ Ht). simpl. lia.
  - rewrite Hloss. unfold Qle. simpl. lia.
  - rewrite Hloss. unfold Qle. simpl. lia.
  - rewrite Hloss, <- Hzero. unfold Qeq. simpl. lia.
Qed.

(** A reply before the first ping.  The number zero of the empty slots is taken for
    that of a ping at the time minus one, so a stray reply with this number counts, and
    its time is that since the epoch. *)
Theorem stray_reply_counts (h : PingHelper) (now : Z) :
  0 <= now < 2 ^ 63 - 1 ->
  fst (pingReceived now 0 (start h)) = Some (now + 1)
  /\ answered (m_pingData (snd (pingReceived now 0 (start h)))) = [now + 1].
Proof.
  intros Hn. replace (now + 1) with (now - -1) by lia. split; [done|].
  unfold pingReceived, answered. simpl. destruct (Z.ltb_spec (now - -1) 0); [lia|done].
Qed.

(** *** Witnesses *)

(** Forty pings, a second apart, of which one is answered. *)
Definition example_pings : list PingEvent :=
  map (fun i => Sent (1000 * Z.of_nat i)) (seq 1 40) ++ [Reply 40025 39].

Lemma replies_to_recent_pings_witness :
  fst (pingReceived 40100 8 (foldl ping_event (start new_helper) example_pings)) = Some 31100
  /\ fst (pingReceived 40100 7 (foldl ping_event (start new_helper) example_pings)) = None.
Proof.
  split.
  - rewrite (replies_to_recent_pings new_helper example_pings 40100 8); [reflexivity|lia|by right].
  - rewrite (replies_to_recent_pings new_helper example_pings 40100 7); [reflexivity|lia|by right].
Defined.

Lemma ping_statistics_witness :
  let h := foldl ping_event (start new_helper) example_pings in
  - 1 <= 2 * (1 * latency h - 25) <= 1.
Proof.
  refine (proj1 (ping_statistics new_helper example_pings 41000 _)).
  apply Forall_singleton. reflexivity.
Defined.

Lemma stray_reply_counts_witness : fst (pingReceived 1700000000000 0 (start new_helper)) = Some 1700000000001.
Proof. apply (stray_reply_counts new_helper 1700000000000). lia. Defined.
