(* ===== verification/ServerLatency.v ===== *)
(** * Latencies of servers and the speed test

    [ServerLatencyController] of client/ui/controllers/serverLatencyController.cpp.
    Probes of servers and of countries work alike and are one model: a probe is ended
    by a connection, an error or its timer, whichever comes first, and the others find
    it done.  A hash is iterated in an order of its own, which is a parameter of what
    looks for the best entry.  Sockets and requests are outside; decoding of base 64
    and of percent signs are parameters.

    The theorems say that every probe settles, that the best entry is the least, what
    a line of a subscription means, and that the speed test ends. *)

From stdpp Require Import base numbers list strings gmap.
From Stdlib Require Import ZArith Lia QArith.QArith_base Strings.String Strings.Ascii.
From S2P Require Import Prelude Json Config Script Framing.
Open Scope string_scope.
Open Scope list_scope.
Open Scope Z_scope.

(** ** Probes *)

Inductive LatencySignal := LatencyChanged (key : string) (ms : Z) | MeasurementFinished.

Record Probe := mkProbe { probe_key : string; probe_host : string; probe_port : Z; probe_done : bool }.

(** [m_latency] with [m_pending], or [m_countryLatency] with [m_countryPending]. *)
Record Latencies := mkLatencies {
  m_latency : gmap string Z;
  m_pending : Z;
  probes : list Probe;
  latency_signals : list LatencySignal
}.

Definition no_latencies : Latencies := mkLatencies ∅ 0 [] [].

Definition set_latency (key : string) (ms : Z) (s : Latencies) : Latencies :=
  mkLatencies (<[key := ms]> (m_latency s)) (m_pending s) (probes s) (latency_signals s ++ [LatencyChanged key ms]).

(** [measureOne], [measureCountryOne]: the socket is asked to connect. *)
Definition measureOne (key host : string) (port : Z) (s : Latencies) : Latencies :=
  mkLatencies (m_latency s) (m_pending s + 1) (probes s ++ [mkProbe key host port false]) (latency_signals s).

(** Its [finish], for the probe with the number [i]. *)
Definition finish (i : nat) (ms : Z) (s : Latencies) : Latencies :=
  match probes s !! i with
  | None => s
  | Some p =>
      if probe_done p then s
      else
        let s1 := set_latency (probe_key p) ms
                    (mkLatencies (m_latency s) (m_pending s)
                       (<[i := mkProbe (probe_key p) (probe_host p) (probe_port p) true]> (probes s)) (latency_signals s)) in
        mkLatencies (m_latency s1) (m_pending s1 - 1) (probes s1)
          (latency_signals s1 ++ if m_pending s1 - 1 <=? 0 then [MeasurementFinished] else [])
  end.

(** How a probe ends: [elapsed] since it began, an error, or three seconds. *)
Inductive Outcome := SocketOpened (elapsed : N) | SocketError | ProbeTimeout.

Definition outcome_ms (o : Outcome) : Z :=
  match o with SocketOpened elapsed => Z.of_N elapsed | SocketError | ProbeTimeout => -2 end.

(** The rows of the model: the number and the host of a server. *)
Definition measure_row (s : Latencies) (row : string * string) : Latencies :=
  let '(serverId, host) := row in
  if String.eqb serverId EmptyString || String.eqb host EmptyString then s
  else measureOne serverId host 443 (set_latency serverId (-3) s).

Definition measureAll (rows : list (string * string)) (s : Latencies) : Latencies := fold_left measure_row rows s.

Definition latencyFor (key : string) (s : Latencies) : Z := default (-1) (m_latency s !! key).

(** ** The best entry *)

(** One step of the loop: the best value so far and its key. *)
Definition better (acc : Z * string) (kv : string * Z) : Z * string :=
  let '(best, _) := acc in
  if (0 <? snd kv) && ((best <? 0) || (snd kv <? best)) then (snd kv, fst kv) else acc.

Definition best_of (l : list (string * Z)) : Z * string := fold_left better l (-1, EmptyString).

(** [l] is the hash in the order of its iteration. *)
Definition bestLatency (l : list (string * Z)) : Z := fst (best_of l).
Definition bestServerId (l : list (string * Z)) : string := snd (best_of l).

(** The same loop over [m_countryLatency]. *)
Definition bestCountryCode (l : list (string * Z)) : string := snd (best_of l).

(** ** Lines of a subscription *)

(** The text from the first place of a word on, and the text after a character. *)
Fixpoint from_text (w s : string) : option string :=
  if String.prefix w s then Some s
  else match s with EmptyString => None | String _ s' => from_text w s' end.

Fixpoint after_char (c : ascii) (s : string) : option string :=
  match s with
  | EmptyString => None
  | String d s' => if Ascii.eqb c d then Some s' else after_char c s'
  end.

Definition host_end (c : ascii) : bool := Ascii.eqb c "?" || Ascii.eqb c "#" || Ascii.eqb c "/".

Fixpoint until_end (s : string) : string :=
  match s with
  | EmptyString => EmptyString
  | String c s' => if host_end c then EmptyString else String c (until_end s')
  end.

(** The texts before and after the last place of a character. *)
Fixpoint last_split (c : ascii) (s : string) : option (string * string) :=
  match s with
  | EmptyString => None
  | String d s' =>
      match last_split c s' with
      | Some (a, b) => Some (String d a, b)
      | None => if Ascii.eqb c d then Some (EmptyString, s') else None
      end
  end.

(** [toUInt]: zero where the text is no number that fits; the port has sixteen bits. *)
Definition string_toUInt (s : string) : Z :=
  match signed_digits (drop_space s) with
  | Some n => if (0 <=? n) && (n <? 2 ^ 32) then n else 0
  | None => 0
  end.

Definition port_of (s : string) : Z := string_toUInt s mod 2 ^ 16.

(** The letters of the first two regional indicators. *)
Fixpoint indicators (cc : string) (points : list Z) : string :=
  match points with
  | [] => EmptyString
  | c :: points' =>
      if (127462 <=? c) && (c <=? 127487) then
        let cc' := (cc ++ String (ascii_of_N (Z.to_N (65 + (c - 127462)))) EmptyString)%string in
        if (String.length cc' =? 2)%nat then cc' else indicators cc' points'
      else indicators cc points'
  end.

Definition countryCodeFromTag (tag : list Z) : string := indicators EmptyString tag.

Section Subscription.
(** [QUrl::fromPercentEncoding], as code points, and [QByteArray::fromBase64]. *)
Variables (decode : string -> list Z) (fromBase64 : string -> string).

(** Host, port and country of a line. *)
Definition parse_line (uri : string) : option (string * Z * string) :=
  s1 ← from_text "://" uri;
  s2 ← after_char "@" s1;
  '(host, port_text) ← last_split ":" (until_end s2);
  let port := port_of port_text in
  if String.eqb host EmptyString || (port =? 0) then None
  else
    let tag := match after_char "#" uri with Some t => decode t | None => [] end in
    let cc := countryCodeFromTag tag in
    if String.eqb cc EmptyString then None else Some (host, port, cc).

(** A line starts a probe, unless one for its country goes on. *)
Definition subscription_line (acc : Z * Latencies) (line : string) : Z * Latencies :=
  let '(started, s) := acc in
  match parse_line (trimmed line) with
  | None => acc
  | Some (host, port, cc) =>
      if latencyFor cc s =? -3 then acc
      else (started + 1, measureOne cc host port (set_latency cc (-3) s))
  end.

Definition line_break (c : ascii) : bool := Ascii.eqb c (ascii_of_N 10) || Ascii.eqb c (ascii_of_N 13).

(** The parts between line breaks that are not empty. *)
Fixpoint split_lines (s : string) : list string :=
  match s with
  | EmptyString => []
  | String c s' =>
      if line_break c then split_lines s'
      else match split_lines s' with
           | [] => [String c EmptyString]
           | w :: ws =>
               match s' with
               | String d _ => if line_break d then String c EmptyString :: w :: ws else String c w :: ws
               | EmptyString => [String c EmptyString]
               end
           end
  end.

Definition body_text (body : string) : string :=
  let text := trimmed body in
  if contains_text "://" text then text
  else let decoded := fromBase64 text in if String.eqb decoded EmptyString then text else decoded.

Definition parseSubscriptionBody (body : string) (s : Latencies) : Latencies :=
  let '(started, s1) := fold_left subscription_line (split_lines (body_text body)) (0, s) in
  if started =? 0
  then mkLatencies (m_latency s1) (m_pending s1) (probes s1) (latency_signals s1 ++ [MeasurementFinished]) else s1.

(** ** Fetching a subscription *)

Record Countries := mkCountries { country_latencies : Latencies; m_countryFetchInFlight : bool }.

(** The state after the call, and the address of a request if one is sent; [hosts] tells
    whether a text is a valid URL with a host. *)
Definition measureCountries (hosts : string -> bool) (subscriptionKey : string) (c : Countries) : Countries * option string :=
  if m_countryFetchInFlight c then (c, None)
  else
    let key := trimmed subscriptionKey in
    if String.eqb key EmptyString then (c, None)
    else if contains_text "://" key && negb (String.prefix "http" key)
    then (mkCountries (parseSubscriptionBody key (country_latencies c)) (m_countryFetchInFlight c), None)
    else if hosts key then (mkCountries (country_latencies c) true, Some key) else (c, None).

(** The reply: [None] is an error. *)
Definition subscription_fetched (body : option string) (c : Countries) : Countries :=
  let s := country_latencies c in
  mkCountries
    match body with
    | None => mkLatencies (m_latency s) (m_pending s) (probes s) (latency_signals s ++ [MeasurementFinished])
    | Some b => parseSubscriptionBody b s
    end false.

(** What happens to the latencies. *)
Inductive LatencyEvent := RowsMeasured (rows : list (string * string)) | BodyParsed (body : string) | ProbeEnds (i : nat) (o : Outcome).

Definition latency_step (s : Latencies) (e : LatencyEvent) : Latencies :=
  match e with
  | RowsMeasured rows => measureAll rows s
  | BodyParsed body => parseSubscriptionBody body s
  | ProbeEnds i o => finish i (outcome_ms o) s
  end.

Definition latency_run (es : list LatencyEvent) (s : Latencies) : Latencies := fold_left latency_step es s.

(** The timers of all probes. *)
Definition all_timeouts (s : Latencies) : list LatencyEvent :=
  (fun i => ProbeEnds i ProbeTimeout) <$> seq 0 (List.length (probes s)).
End Subscription.

(** ** The speed test *)

Record SpeedReply := mkReply { reply_id : nat; reply_upload : bool; reply_seen : Z }.

(** The rates, amounts and times are the rationals that the doubles stand for. *)
Record SpeedResult := mkResult { res_Mbps : Q; res_MB : Q; res_secs : Q }.

Definition no_result : SpeedResult := mkResult 0 0 0.

(** [m_speedTestState] is 0 idle, 1 downloading, 2 uploading, 3 done, -1 error;
    [m_speedStarted] holds the time at which [m_speedTimer] was started, [m_speedCap] the
    time at which it fires; [now] is the time in milliseconds. *)
Record Speed := mkSpeed {
  m_speedTestState : Z;
  download : SpeedResult;
  upload : SpeedResult;
  m_speedReplies : list SpeedReply;
  m_speedBytes : Z;
  m_speedStarted : option Z;
  m_speedPending : Z;
  m_speedCap : option Z;
  now : Z
}.

Definition speed_idle : Speed := mkSpeed 0 no_result no_result [] 0 None 0 None 0.

Definition kSpeedStreams : nat := 4.
Definition kSpeedCapMs : Z := 10000.

Definition beginSpeedPhase (s : Speed) : Speed :=
  mkSpeed (m_speedTestState s) (download s) (upload s) [] 0 None (Z.of_nat kSpeedStreams)
    (Some (now s + kSpeedCapMs)) (now s).

(** [startSpeedDownload], [startSpeedUpload]: the requests of a phase. *)
Definition start_phase (up : bool) (s : Speed) : Speed :=
  let s1 := beginSpeedPhase s in
  mkSpeed (m_speedTestState s1) (download s1) (upload s1)
    (m_speedReplies s1 ++ ((fun i => mkReply i up 0) <$> seq 0 kSpeedStreams)) (m_speedBytes s1) (m_speedStarted s1)
    (m_speedPending s1) (m_speedCap s1) (now s1).

Definition runSpeedTest (s : Speed) : Speed :=
  if (m_speedTestState s =? 1) || (m_speedTestState s =? 2) then s
  else start_phase false
         (mkSpeed 1 no_result no_result (m_speedReplies s) (m_speedBytes s) (m_speedStarted s) (m_speedPending s)
            (m_speedCap s) (now s)).

(** The result of a phase, if it is long enough to tell. *)
Definition phase_result (s : Speed) (old : SpeedResult) : SpeedResult :=
  let ms := match m_speedStarted s with Some t => now s - t | None => 0 end in
  if (200 <? ms) && (0 <? m_speedBytes s) then
    let secs := (inject_Z ms / 1000)%Q in
    mkResult (inject_Z (m_speedBytes s) * 8 / 1000000 / secs)%Q (inject_Z (m_speedBytes s) / 1000000)%Q secs
  else old.

Definition finishSpeedDownload (s : Speed) : Speed :=
  start_phase true
    (mkSpeed 2 (phase_result s (download s)) (upload s) (m_speedReplies s) (m_speedBytes s) (m_speedStarted s)
       (m_speedPending s) None (now s)).

Definition positive (q : Q) : bool := negb (Qle_bool q 0).

Definition finishSpeedUpload (s : Speed) : Speed :=
  let up := phase_result s (upload s) in
  mkSpeed (if positive (res_Mbps (download s)) || positive (res_Mbps up) then 3 else -1)
    (download s) up (m_speedReplies s) (m_speedBytes s) (m_speedStarted s) (m_speedPending s) None (now s).

Definition is_reply (id : nat) (up : bool) (r : SpeedReply) : bool := Nat.eqb id (reply_id r) && Bool.eqb up (reply_upload r).

(** [downloadProgress], [uploadProgress] of a reply that has not finished. *)
Definition progress (id : nat) (up : bool) (got : Z) (s : Speed) : Speed :=
  match List.find (is_reply id up) (m_speedReplies s) with
  | None => s
  | Some r =>
      mkSpeed (m_speedTestState s) (download s) (upload s)
        (map (fun r' => if is_reply id up r' then mkReply id up got else r') (m_speedReplies s))
        (m_speedBytes s + (got - reply_seen r))
        (match m_speedStarted s with Some t => Some t | None => if 0 <? got then Some (now s) else None end)
        (m_speedPending s) (m_speedCap s) (now s)
  end.

(** [finished] of a reply. *)
Definition reply_finished (id : nat) (up : bool) (s : Speed) : Speed :=
  if existsb (is_reply id up) (m_speedReplies s) then
    let s1 := mkSpeed (m_speedTestState s) (download s) (upload s)
                (List.filter (fun r => negb (is_reply id up r)) (m_speedReplies s)) (m_speedBytes s) (m_speedStarted s)
                (m_speedPending s - 1) (m_speedCap s) (now s) in
    if m_speedPending s1 <=? 0 then if up then finishSpeedUpload s1 else finishSpeedDownload s1 else s1
  else s.

(** A reply that is aborted finishes at once. *)
Definition abortSpeedReplies (s : Speed) : Speed :=
  fold_left (fun s' r => reply_finished (reply_id r) (reply_upload r) s') (m_speedReplies s) s.

(** A millisecond passes; the timer is single shot. *)
Definition speed_tick (s : Speed) : Speed :=
  let t := now s + 1 in
  let s1 cap := mkSpeed (m_speedTestState s) (download s) (upload s) (m_speedReplies s) (m_speedBytes s)
                  (m_speedStarted s) (m_speedPending s) cap t in
  match m_speedCap s with
  | Some deadline => if deadline <=? t then abortSpeedReplies (s1 None) else s1 (Some deadline)
  | None => s1 None
  end.

Inductive SpeedEvent := RunTest | Progress (id : nat) (up : bool) (got : Z) | ReplyFinished (id : nat) (up : bool) | Tick.

Definition speed_step (s : Speed) (e : SpeedEvent) : Speed :=
  match e with
  | RunTest => runSpeedTest s
  | Progress id up got => progress id up got s
  | ReplyFinished id up => reply_finished id up s
  | Tick => speed_tick s
  end.

Definition speed_run (es : list SpeedEvent) (s : Speed) : Speed := fold_left speed_step es s.

Definition starts_test (e : SpeedEvent) : bool := match e with RunTest => true | _ => false end.

Fixpoint ticks (es : list SpeedEvent) : Z :=
  match es with [] => 0 | Tick :: es' => 1 + ticks es' | _ :: es' => ticks es' end.

(** ** Every probe settles *)

Definition unfinished (s : Latencies) : list Probe := List.filter (fun p => negb (probe_done p)) (probes s).

(** The counter is the number of unfinished probes, and what is being measured has one. *)
Definition latencies_ok (s : Latencies) : Prop :=
  m_pending s = Z.of_nat (List.length (unfinished s)) /\
  (forall k, m_latency s !! k = Some (-3) -> exists p, In p (unfinished s) /\ probe_key p = k) /\
  (forall p, In p (probes s) -> m_latency s !! probe_key p <> None).

Lemma unfinished_app (l1 l2 : list Probe) :
  List.filter (fun p => negb (probe_done p)) (l1 ++ l2) =
  List.filter (fun p => negb (probe_done p)) l1 ++ List.filter (fun p => negb (probe_done p)) l2.
Proof. apply List.filter_app. Qed.

(** A probe that begins, announced by -3. *)
Lemma measure_ok (k h : string) (port : Z) (s : Latencies) :
  latencies_ok s -> latencies_ok (measureOne k h port (set_latency k (-3) s)).
Proof.
  intros (Hn & Hm & Hp). unfold measureOne, set_latency. cbn [m_latency m_pending probes latency_signals].
  split_and!.
  - unfold unfinished in *. cbn [probes]. rewrite unfinished_app, length_app. cbn. lia.
  - intros k' Hk. destruct (decide (k' = k)) as [-> | Hne].
    + exists (mkProbe k h port false). split; [ | reflexivity ].
      unfold unfinished. cbn [probes]. rewrite unfinished_app. apply in_or_app. right. left. reflexivity.
    + cbn [m_latency] in Hk. rewrite lookup_insert_ne in Hk by congruence.
      destruct (Hm _ Hk) as (p & Hin & Hkey). exists p. split; [ | exact Hkey ].
      unfold unfinished in *. cbn [probes]. rewrite unfinished_app. apply in_or_app. left. exact Hin.
  - intros p Hin. cbn [m_latency probes] in *.
    destruct (decide (probe_key p = k)) as [-> | Hne]; [ rewrite lookup_insert_eq; discriminate | ].
    rewrite lookup_insert_ne by congruence. apply in_app_or in Hin as [Hin | [<- | []]]; [ exact (Hp _ Hin) | ].
    cbn in Hne. congruence.
Qed.

(** Signals do not matter. *)
Lemma ok_signals (s : Latencies) (l : list LatencySignal) :
  latencies_ok s -> latencies_ok (mkLatencies (m_latency s) (m_pending s) (probes s) l).
Proof. intros H. exact H. Qed.

(** The probe that ends, taken out of the list. *)
Lemma finish_split (i : nat) (p : Probe) (l : list Probe) :
  l !! i = Some p ->
  l = take i l ++ p :: drop (S i) l /\ forall q, <[i := q]> l = take i l ++ q :: drop (S i) l.
Proof.
  intros Hi. split; [ symmetry; apply take_drop_middle; exact Hi | ].
  intros q. apply insert_take_drop. apply lookup_lt_Some in Hi. exact Hi.
Qed.

Lemma finish_ok (i : nat) (ms : Z) (s : Latencies) : ms <> -3 -> latencies_ok s -> latencies_ok (finish i ms s).
Proof.
  intros Hms (Hn & Hm & Hp). unfold finish.
  destruct (probes s !! i) as [p|] eqn:Hi; [ | split_and!; assumption ].
  destruct (probe_done p) eqn:Hd; [ split_and!; assumption | ].
  unfold set_latency. cbn [m_latency m_pending probes latency_signals].
  destruct (finish_split i p (probes s) Hi) as (Hl & Hins). rewrite Hins.
  set (l1 := take i (probes s)) in *. set (l2 := drop (S i) (probes s)) in *.
  unfold latencies_ok, unfinished in *. rewrite Hl in Hn, Hm, Hp. rewrite unfinished_app in Hn.
  cbn [List.filter] in Hn. rewrite Hd in Hn. cbn [negb] in Hn. rewrite length_app in Hn. cbn [List.length] in Hn.
  split_and!; cbn [m_latency m_pending probes latency_signals].
  - rewrite unfinished_app, length_app. cbn [List.filter probe_done negb]. lia.
  - intros k Hk. destruct (decide (k = probe_key p)) as [-> | Hne].
    + rewrite lookup_insert_eq in Hk. congruence.
    + rewrite lookup_insert_ne in Hk by congruence. destruct (Hm _ Hk) as (q & Hin & Hq). exists q. split; [ | exact Hq ].
      rewrite unfinished_app in *. cbn [List.filter probe_done negb] in *. rewrite Hd in Hin. cbn [negb] in Hin.
      apply in_app_or in Hin. apply in_or_app. destruct Hin as [Hin | [<- | Hin]]; [ left; exact Hin | congruence | right; exact Hin ].
  - intros q Hin. destruct (decide (probe_key q = probe_key p)) as [-> | Hne];
      [ rewrite lookup_insert_eq; discriminate | ].
    rewrite lookup_insert_ne by congruence. apply Hp.
    apply in_app_or in Hin. apply in_or_app. destruct Hin as [Hin | [<- | Hin]]; [ left; exact Hin | | right; right; exact Hin ].
    cbn in Hne. congruence.
Qed.

Lemma measureAll_ok (rows : list (string * string)) (s : Latencies) : latencies_ok s -> latencies_ok (measureAll rows s).
Proof.
  unfold measureAll. revert s. induction rows as [ | [id host] rows IH ]; intros s H; [ exact H | ].
  cbn [fold_left]. apply IH. unfold measure_row. destruct (_ || _); [ exact H | apply measure_ok; exact H ].
Qed.

Lemma outcome_not_measuring (o : Outcome) : outcome_ms o <> -3.
Proof. destruct o; cbn; lia. Qed.

(** After [finish] the probe is done; others are as they were or done. *)
Lemma finish_probes (i : nat) (ms : Z) (s : Latencies) :
  List.length (probes (finish i ms s)) = List.length (probes s) /\
  forall j p, probes (finish i ms s) !! j = Some p ->
    probe_done p = true \/ (j <> i /\ probes s !! j = Some p).
Proof.
  unfold finish. destruct (probes s !! i) as [q|] eqn:Hi.
  2: { split; [ reflexivity | ]. intros j p Hj. right. split; [ congruence | exact Hj ]. }
  destruct (probe_done q) eqn:Hd.
  - split; [ reflexivity | ]. intros j p Hj. destruct (decide (j = i)) as [-> | Hne]; [ left; congruence | right; tauto ].
  - unfold set_latency. cbn [probes]. split; [ apply length_insert | ].
    intros j p Hj. apply list_lookup_insert_Some in Hj as [ (-> & <- & _) | Hj ]; [ left; reflexivity | ].
    right. destruct Hj as (Hne & Hj). split; [ congruence | exact Hj ].
Qed.

Section Settling.
Context (decode : string -> list Z) (fromBase64 : string -> string).
Local Abbreviation parse_line := (parse_line decode).
Local Abbreviation subscription_line := (subscription_line decode).
Local Abbreviation parseSubscriptionBody := (parseSubscriptionBody decode fromBase64).
Local Abbreviation latency_run := (latency_run decode fromBase64).

(** The timers one after the other. *)
Lemma timeouts_done (n : nat) (s : Latencies) (P : nat -> Prop) :
  (forall j p, probes s !! j = Some p -> probe_done p = true \/ P j) ->
  forall k j p, probes (latency_run ((fun i => ProbeEnds i ProbeTimeout) <$> seq k n) s) !! j = Some p ->
    probe_done p = true \/ (P j /\ (j < k \/ k + n <= j)%nat).
Proof.
  intros Hs k. revert s P Hs k. induction n as [ | n IH ]; intros s P Hs k j p Hj.
  - destruct (Hs _ _ Hj) as [Hd | Hd]; [ left; exact Hd | right; split; [ exact Hd | lia ] ].
  - cbn [seq fmap list_fmap] in Hj. unfold ServerLatency.latency_run in Hj. cbn [fold_left] in Hj.
    destruct (IH (latency_step decode fromBase64 s (ProbeEnds k ProbeTimeout)) (fun j => P j /\ j <> k)
                (ltac:(cbn [latency_step]; intros j' p' Hj';
                  destruct (proj2 (finish_probes k (outcome_ms ProbeTimeout) s) _ _ Hj') as [Hd | (Hne & Hj'')];
                  [ left; exact Hd | destruct (Hs _ _ Hj'') as [Hd | Hd]; [ left; exact Hd | right; tauto ] ]))
                (S k) j p Hj) as [Hd | ((Hd & Hne) & Hr)]; [ left; exact Hd | right ].
    split; [ exact Hd | lia ].
Qed.

Lemma timeouts_ok (l : list nat) (s : Latencies) :
  latencies_ok s -> latencies_ok (latency_run ((fun i => ProbeEnds i ProbeTimeout) <$> l) s).
Proof.
  unfold ServerLatency.latency_run. revert s. induction l as [ | i l IH ]; intros s H; [ exact H | ].
  cbn [fmap list_fmap fold_left]. apply IH. apply finish_ok; [ apply outcome_not_measuring | exact H ].
Qed.

Lemma subscription_line_ok (line : string) (acc : Z * Latencies) :
  latencies_ok (snd acc) -> latencies_ok (snd (subscription_line acc line)).
Proof.
  destruct acc as [started s]. unfold ServerLatency.subscription_line. cbn [snd]. intros H.
  destruct (parse_line _) as [[[host port] cc]|]; [ | exact H ].
  destruct (_ =? _); [ exact H | ]. cbn [snd]. apply measure_ok. exact H.
Qed.

Lemma body_ok (body : string) (s : Latencies) : latencies_ok s -> latencies_ok (parseSubscriptionBody body s).
Proof.
  intros H. unfold ServerLatency.parseSubscriptionBody.
  assert (Hf : forall lines acc, latencies_ok (snd acc) -> latencies_ok (snd (fold_left subscription_line lines acc))).
  { induction lines as [ | l lines IH ]; intros acc Ha; [ exact Ha | ]. apply IH, subscription_line_ok, Ha. }
  specialize (Hf (split_lines (body_text fromBase64 body)) (0, s) H).
  destruct (fold_left _ _ _) as [started s1]. destruct (started =? 0); exact Hf.
Qed.

Lemma latency_run_ok (es : list LatencyEvent) (s : Latencies) : latencies_ok s -> latencies_ok (latency_run es s).
Proof.
  unfold ServerLatency.latency_run. revert s. induction es as [ | e es IH ]; intros s H; [ exact H | ].
  cbn [fold_left]. apply IH. destruct e; cbn [latency_step];
    [ apply measureAll_ok | apply body_ok | apply finish_ok; [ apply outcome_not_measuring | ] ]; exact H.
Qed.

(** A list of probes that are all done. *)
Lemma all_done (l : list Probe) :
  (forall j p, l !! j = Some p -> probe_done p = true) -> List.filter (fun p => negb (probe_done p)) l = [].
Proof.
  induction l as [ | p l IH ]; intros H; [ reflexivity | ]. cbn [List.filter].
  rewrite (H 0%nat p eq_refl). apply IH. intros j q Hj. exact (H (S j) q Hj).
Qed.

(** Whatever lists are measured and however probes end, in any order and some never, the
    number of pending probes is the number of those not ended, and only what has an unfinished
    probe is shown as being measured; once the timers of all probes have run, none is pending
    and nothing is left as being measured. *)
Theorem probes_settle (es : list LatencyEvent) :
  let s := latency_run es no_latencies in
  let s' := latency_run (all_timeouts s) s in
  (m_pending s = Z.of_nat (List.length (unfinished s)) /\
   forall k, latencyFor k s = -3 -> exists p, In p (unfinished s) /\ probe_key p = k) /\
  m_pending s' = 0 /\ forall k, latencyFor k s' <> -3.
Proof.
  intros s s'. assert (Hs : latencies_ok s) by (apply latency_run_ok; split_and!; [ reflexivity | discriminate | intros p [] ]).
  assert (Hs' : latencies_ok s') by (apply timeouts_ok; exact Hs).
  assert (Hfor : forall k x, latencyFor k x = -3 -> m_latency x !! k = Some (-3)).
  { intros k x. unfold latencyFor. destruct (m_latency x !! k); cbn; [ congruence | lia ]. }
  assert (Hnone : unfinished s' = []).
  { apply all_done. intros j p Hj.
    assert (Hlen : (j < List.length (probes s))%nat -> probe_done p = true).
    { intros Hlt. destruct (timeouts_done (List.length (probes s)) s (fun _ => True) (fun _ _ _ => or_intror I) 0 j p Hj)
        as [Hd | (_ & Hr)]; [ exact Hd | lia ]. }
    apply Hlen. apply lookup_lt_Some in Hj. revert Hj. unfold s', all_timeouts. generalize (seq 0 (List.length (probes s))).
    clear. intros l. revert j. generalize s. induction l as [ | i l IH ]; intros x j Hj; [ exact Hj | ].
    specialize (IH _ _ Hj). cbn [latency_step] in IH. rewrite (proj1 (finish_probes _ _ _)) in IH. exact IH. }
  destruct Hs as (Hn & Hm & _). destruct Hs' as (Hn' & Hm' & _). rewrite Hnone in Hn', Hm'.
  split_and!; [ exact Hn | intros k Hk; apply Hm, Hfor, Hk | exact Hn' | ].
  intros k Hk. destruct (Hm' k (Hfor _ _ Hk)) as (p & [] & _).
Qed.

(** *** One probe per country *)

(** The first line of each country that is not busy. *)
Fixpoint first_of_country (busy : string -> bool) (l : list (string * Z * string)) : list (string * Z * string) :=
  match l with
  | [] => []
  | (host, port, cc) :: l' =>
      if busy cc then first_of_country busy l'
      else (host, port, cc) :: first_of_country (fun c => String.eqb c cc || busy c) l'
  end.

Definition country_probe (t : string * Z * string) : Probe :=
  let '(host, port, cc) := t in mkProbe cc host port false.

Definition measuring (s : Latencies) (cc : string) : bool := latencyFor cc s =? -3.

Definition parsed_lines (lines : list string) : list (string * Z * string) := omap (fun l => parse_line (trimmed l)) lines.

Lemma first_of_country_ext (f g : string -> bool) (l : list (string * Z * string)) :
  (forall c, f c = g c) -> first_of_country f l = first_of_country g l.
Proof.
  revert f g. induction l as [ | [[h p] cc] l IH ]; intros f g H; [ reflexivity | ]. cbn [first_of_country].
  rewrite (H cc). destruct (g cc); [ apply IH, H | ]. f_equal. apply IH. intros c. rewrite (H c). reflexivity.
Qed.

Lemma measuring_measureOne (k h : string) (p : Z) (s : Latencies) (c : string) :
  measuring (measureOne k h p (set_latency k (-3) s)) c = (String.eqb c k || measuring s c)%bool.
Proof.
  unfold measuring, latencyFor, measureOne, set_latency. cbn [m_latency].
  destruct (String.eqb_spec c k) as [-> | Hne]; [ rewrite lookup_insert_eq; reflexivity | ].
  rewrite lookup_insert_ne by congruence. reflexivity.
Qed.

Lemma lines_probes (lines : list string) (n : Z) (s : Latencies) :
  let targets := first_of_country (measuring s) (parsed_lines lines) in
  let '(n', s') := fold_left subscription_line lines (n, s) in
  n' = n + Z.of_nat (List.length targets) /\
  probes s' = probes s ++ (country_probe <$> targets) /\
  m_pending s' = m_pending s + Z.of_nat (List.length targets).
Proof.
  revert n s. induction lines as [ | line lines IH ]; intros n s.
  - cbn. rewrite app_nil_r. split_and!; [ lia | reflexivity | lia ].
  - unfold parsed_lines. cbn [fold_left omap list_omap]. unfold ServerLatency.subscription_line at 2.
    destruct (parse_line (trimmed line)) as [[[host port] cc]|] eqn:Hp; [ | apply IH ].
    cbn [first_of_country]. change (latencyFor cc s =? -3) with (measuring s cc).
    destruct (measuring s cc); [ apply IH | ].
    set (s1 := measureOne cc host port (set_latency cc (-3) s)).
    specialize (IH (n + 1) s1). cbv zeta in IH. unfold parsed_lines in IH.
    destruct (fold_left subscription_line lines (n + 1, s1)) as [n' s'].
    rewrite (first_of_country_ext (measuring s1) (fun c => String.eqb c cc || measuring s c)%bool) in IH
      by (intros c; apply measuring_measureOne).
    destruct IH as (-> & -> & ->). cbn [List.length fmap list_fmap country_probe].
    unfold s1, measureOne, set_latency. cbn [probes m_pending]. rewrite <- app_assoc. split_and!; [ lia | reflexivity | lia ].
Qed.

(** A subscription starts one probe for each country it names that is not being measured
    already, at the host and port of the country's first line that can be read; if there is
    none, the measurement is reported as finished at once. *)
Theorem one_probe_per_country (body : string) (s : Latencies) :
  let targets := first_of_country (measuring s) (parsed_lines (split_lines (body_text fromBase64 body))) in
  let s' := parseSubscriptionBody body s in
  probes s' = probes s ++ (country_probe <$> targets) /\
  m_pending s' = m_pending s + Z.of_nat (List.length targets) /\
  (targets = [] -> last (latency_signals s') = Some MeasurementFinished) /\
  NoDup ((fun t => snd t) <$> targets).
Proof.
  intros targets s'.
  assert (Hnd : forall busy l, NoDup ((fun t => snd t) <$> first_of_country busy l) /\
            forall c, c ∈ ((fun t => snd t) <$> first_of_country busy l) -> busy c = false).
  { intros busy l. revert busy. induction l as [ | [[h p] cc] l IH ]; intros busy; cbn [first_of_country].
    - split; [ constructor | intros c Hc; inversion Hc ].
    - destruct (busy cc) eqn:Hb; [ apply IH | ]. destruct (IH (fun c => String.eqb c cc || busy c)%bool) as (H1 & H2).
      cbn [fmap list_fmap snd]. split.
      + constructor; [ | exact H1 ]. intros Hin. specialize (H2 _ Hin). cbn in H2. rewrite String.eqb_refl in H2. discriminate.
      + intros c Hc. apply elem_of_cons in Hc as [-> | Hc]; [ exact Hb | ]. specialize (H2 _ Hc). cbn in H2.
        apply orb_false_elim in H2. tauto. }
  pose proof (lines_probes (split_lines (body_text fromBase64 body)) 0 s) as H. cbv zeta in H. fold targets in H.
  unfold s', ServerLatency.parseSubscriptionBody.
  destruct (fold_left subscription_line _ _) as [n s1]. destruct H as (-> & Hp & Hn).
  split_and!; [ | | | exact (proj1 (Hnd _ _)) ].
  - destruct (_ =? 0); exact Hp.
  - destruct (_ =? 0); exact Hn.
  - intros ->. cbn [List.length]. cbn. apply last_snoc.
Qed.

(** *** What a line says *)

Definition lacks (c : ascii) (s : string) : Prop := after_char c s = None.

Lemma after_char_app (c : ascii) (a b : string) :
  lacks c a -> after_char c (a +:+ String c b) = Some b /\ after_char c (a +:+ b) = after_char c b.
Proof.
  unfold lacks. induction a as [ | d a IH ]; intros H.
  - split; [ change (EmptyString +:+ String c b) with (String c b); cbn [after_char]; rewrite Ascii.eqb_refl; reflexivity | reflexivity ].
  - cbn [after_char] in H. change (String d a +:+ String c b) with (String d (a +:+ String c b)).
    change (String d a +:+ b) with (String d (a +:+ b)). cbn [after_char].
    destruct (Ascii.eqb c d); [ discriminate | apply IH, H ].
Qed.

Lemma lacks_app (c : ascii) (a b : string) : lacks c a -> lacks c b -> lacks c (a +:+ b).
Proof. intros Ha Hb. unfold lacks. rewrite (proj2 (after_char_app c a b Ha)). exact Hb. Qed.

Lemma from_text_scheme (scheme rest : string) :
  lacks ":" scheme -> from_text "://" (scheme +:+ "://" +:+ rest) = Some ("://" +:+ rest).
Proof.
  unfold lacks. induction scheme as [ | d a IH ]; intros H; [ destruct rest; reflexivity | ].
  cbn [after_char] in H. change (String d a +:+ ?x) with (String d (a +:+ x)). cbn [from_text].
  destruct (Ascii.eqb ":" d) eqn:Hd; [ discriminate | ]. cbn [String.prefix].
  destruct (ascii_dec ":" d) as [<- | Hne]; [ rewrite Ascii.eqb_refl in Hd; discriminate | ]. apply IH, H.
Qed.

Definition plain_host (s : string) : Prop := lacks "?" s /\ lacks "#" s /\ lacks "/" s.

(** What may come after the port. *)
Definition ends_host (s : string) : bool := match s with EmptyString => true | String c _ => host_end c end.

Lemma until_end_app (a b : string) : plain_host a -> ends_host b = true -> until_end (a +:+ b) = a.
Proof.
  intros (H1 & H2 & H3) Hb. unfold lacks in *. induction a as [ | d a IH ].
  - change (EmptyString +:+ b) with b. destruct b as [ | c b ]; [ reflexivity | ]. cbn in Hb |- *. rewrite Hb. reflexivity.
  - change (String d a +:+ b) with (String d (a +:+ b)). cbn [until_end after_char] in *. unfold host_end.
    rewrite (Ascii.eqb_sym d "?"), (Ascii.eqb_sym d "#"), (Ascii.eqb_sym d "/").
    destruct (Ascii.eqb "?" d); [ discriminate | ]. destruct (Ascii.eqb "#" d); [ discriminate | ].
    destruct (Ascii.eqb "/" d); [ discriminate | ]. cbn [orb]. f_equal. apply IH; assumption.
Qed.

Lemma last_split_lacks (c : ascii) (s : string) : lacks c s -> last_split c s = None.
Proof.
  unfold lacks. induction s as [ | d s IH ]; [ reflexivity | ]. cbn [after_char last_split].
  destruct (Ascii.eqb c d); [ discriminate | ]. intros H. rewrite (IH H). reflexivity.
Qed.

Lemma last_split_app (c : ascii) (a b : string) : lacks c b -> last_split c (a +:+ String c b) = Some (a, b).
Proof.
  intros Hb. induction a as [ | d a IH ].
  - change (EmptyString +:+ ?x) with x. cbn [last_split]. rewrite (last_split_lacks c b Hb), Ascii.eqb_refl. reflexivity.
  - change (String d a +:+ ?x) with (String d (a +:+ x)). cbn [last_split]. rewrite IH. reflexivity.
Qed.

(** The parts of a link. *)
Definition share_link (scheme user host port query tag : string) : string :=
  scheme +:+ "://" +:+ user +:+ "@" +:+ host +:+ ":" +:+ port +:+ query +:+ "#" +:+ tag.

(** A line made of scheme, user, host, port, query and tag is read as its host, its port
    and the country of its tag, whatever colons the host holds; it is passed over where the
    tag has no flag or the port is zero, and a port of more than sixteen bits is taken modulo
    65536 instead of refused. *)
Theorem share_link_read (scheme user host port query tag : string) :
  lacks ":" scheme -> lacks "#" scheme -> lacks "@" user -> lacks "#" user ->
  plain_host host -> plain_host port -> lacks ":" port -> host <> EmptyString ->
  lacks "#" query -> ends_host query = true ->
  parse_line (share_link scheme user host port query tag) =
  (let p := string_toUInt port mod 65536 in
   let cc := countryCodeFromTag (decode tag) in
   if (p =? 0) || String.eqb cc EmptyString then None else Some (host, p, cc)).
Proof.
  intros Hs Hs' Hu Hu' Hh Hp Hpc Hne Hq Hqe. unfold ServerLatency.parse_line, share_link.
  rewrite (from_text_scheme scheme _ Hs). cbn [mbind option_bind].
  assert (Hat : after_char "@" ("://" +:+ user +:+ "@" +:+ host +:+ ":" +:+ port +:+ query +:+ "#" +:+ tag)
                = Some (host +:+ ":" +:+ port +:+ query +:+ "#" +:+ tag)).
  { change ("://" +:+ ?x) with (String ":" (String "/" (String "/" x))). cbn [after_char]. simpl Ascii.eqb. cbv iota.
    apply (proj1 (after_char_app "@" user _ Hu)). }
  rewrite Hat. cbn [mbind option_bind].
  assert (Hcol : plain_host (host +:+ String ":" port)).
  { destruct Hh as (A1 & A2 & A3). destruct Hp as (B1 & B2 & B3).
    split_and!; apply lacks_app; try assumption; unfold lacks in *; cbn [after_char]; simpl Ascii.eqb; assumption. }
  assert (Hend : ends_host (query +:+ "#" +:+ tag) = true) by (destruct query; [ reflexivity | exact Hqe ]).
  assert (Hun : until_end (host +:+ ":" +:+ port +:+ query +:+ "#" +:+ tag) = host +:+ String ":" port).
  { rewrite <- (until_end_app _ _ Hcol Hend). f_equal. rewrite string_app_assoc. reflexivity. }
  rewrite Hun, (last_split_app ":" host port Hpc). cbn [mbind option_bind]. cbv zeta.
  destruct (String.eqb_spec host EmptyString) as [-> | _]; [ contradiction | ]. cbn [orb]. unfold port_of.
  change (2 ^ 16) with 65536. destruct (_ =? 0); [ reflexivity | ]. cbn [orb].
  assert (Hhash : after_char "#" (scheme +:+ "://" +:+ user +:+ "@" +:+ host +:+ ":" +:+ port +:+ query +:+ "#" +:+ tag) = Some tag).
  { destruct Hh as (_ & A2 & _). destruct Hp as (_ & B2 & _).
    rewrite (proj2 (after_char_app "#" scheme _ Hs')), (proj2 (after_char_app "#" "://" _ eq_refl)),
      (proj2 (after_char_app "#" user _ Hu')), (proj2 (after_char_app "#" "@" _ eq_refl)),
      (proj2 (after_char_app "#" host _ A2)), (proj2 (after_char_app "#" ":" _ eq_refl)),
      (proj2 (after_char_app "#" port _ B2)), (proj2 (after_char_app "#" query _ Hq)). reflexivity. }
  rewrite Hhash. reflexivity.
Qed.
End Settling.

(** ** The best entry is the least *)

(** What is known of the best entry after some of the hash. *)
Definition best_ok (acc : Z * string) (l : list (string * Z)) : Prop :=
  (acc = (-1, EmptyString) /\ forall k v, In (k, v) l -> v <= 0) \/
  (0 < fst acc /\ In (snd acc, fst acc) l /\ forall k v, In (k, v) l -> 0 < v -> fst acc <= v).

Lemma best_of_ok (l : list (string * Z)) : best_ok (best_of l) l.
Proof.
  unfold best_of. induction l as [ | [k v] l IH ] using rev_ind; [ left; split; [ reflexivity | intros k v [] ] | ].
  rewrite fold_left_app. cbn [fold_left]. destruct (fold_left better l _) as [b i] eqn:E. clear E.
  unfold better. cbn [fst snd].
  assert (Hin : forall k' v', In (k', v') (l ++ [(k, v)]) -> In (k', v') l \/ (k' = k /\ v' = v)).
  { intros k' v' H. apply in_app_or in H as [H | [H | []]]; [ left; exact H | right; split; congruence ]. }
  destruct (Z.ltb_spec 0 v) as [Hv | Hv]; cbn [andb].
  - destruct ((b <? 0) || (v <? b)) eqn:Hb.
    + right. cbn [fst snd]. split_and!; [ exact Hv | apply in_or_app; right; left; reflexivity | ].
      intros k' v' H Hpos. destruct (Hin _ _ H) as [Hl | (_ & ->)]; [ | lia ].
      destruct IH as [ (Ha & Hall) | (Ha & _ & Hall) ]; specialize (Hall _ _ Hl); cbn [fst] in *; [ lia | ].
      specialize (Hall Hpos). apply orb_true_iff in Hb. lia.
    + apply orb_false_elim in Hb. destruct IH as [ (Ha & _) | (Ha & Hi & Hall) ]; [ injection Ha as -> ->; lia | ].
      right. cbn [fst snd] in *. split_and!; [ exact Ha | apply in_or_app; left; exact Hi | ].
      intros k' v' H Hpos. destruct (Hin _ _ H) as [Hl | (_ & ->)]; [ exact (Hall _ _ Hl Hpos) | lia ].
  - destruct IH as [ (Ha & Hall) | (Ha & Hi & Hall) ]; [ left | right ].
    + split; [ exact Ha | ]. intros k' v' H. destruct (Hin _ _ H) as [Hl | (_ & ->)]; [ exact (Hall _ _ Hl) | exact Hv ].
    + cbn [fst snd] in *. split_and!; [ exact Ha | apply in_or_app; left; exact Hi | ].
      intros k' v' H Hpos. destruct (Hin _ _ H) as [Hl | (_ & ->)]; [ exact (Hall _ _ Hl Hpos) | lia ].
Qed.

(** In whatever order the hash is gone through, the best server (or country) is one with the
    least positive latency, and the best latency is its own; where no latency is positive the
    answers are empty and -1, so a server that answers within a millisecond is never the
    best. *)
Theorem best_is_least (s : Latencies) (l : list (string * Z)) (Hl : l ≡ₚ map_to_list (m_latency s)) :
  (bestServerId l = EmptyString /\ bestCountryCode l = EmptyString /\ bestLatency l = -1 /\ forall k v, m_latency s !! k = Some v -> v <= 0) \/
  (m_latency s !! bestServerId l = Some (bestLatency l) /\ bestCountryCode l = bestServerId l /\ 0 < bestLatency l /\
   forall k v, m_latency s !! k = Some v -> 0 < v -> bestLatency l <= v).
Proof.
  assert (Hin : forall k v, In (k, v) l <-> m_latency s !! k = Some v).
  { intros k v. rewrite <- list_elem_of_In, Hl. apply elem_of_map_to_list. }
  unfold bestServerId, bestCountryCode, bestLatency. destruct (best_of_ok l) as [ (-> & H) | (H1 & H2 & H3) ]; [ left | right ].
  - split_and!; [ reflexivity .. | ]. intros k v Hk. apply (H k). apply Hin, Hk.
  - split_and!; [ apply Hin, H2 | reflexivity | exact H1 | ]. intros k v Hk. apply (H3 k). apply Hin, Hk.
Qed.

Lemma best_is_least_witness :
  bestServerId [("a", 30); ("b", -2); ("c", 12)] = "c" /\ bestLatency [("a", 30); ("b", -2); ("c", 12)] = 12.
Proof.
  assert (Hl : [("a", 30); ("b", -2); ("c", 12)] ≡ₚ
               map_to_list (m_latency (mkLatencies {["a" := 30; "b" := -2; "c" := 12]} 0 [] []))).
  { cbn [m_latency]. rewrite !map_to_list_insert by reflexivity. rewrite map_to_list_singleton. reflexivity. }
  destruct (best_is_least _ _ Hl) as [ (H & _) | H ]; [ vm_compute in H; discriminate | ].
  split; reflexivity.
Defined.

(** ** The speed test ends *)

(** The requests of a phase that are not over. *)
Definition streaming (up : bool) (s : Speed) : Prop :=
  m_speedReplies s <> [] /\ m_speedPending s = Z.of_nat (List.length (m_speedReplies s)) /\
  NoDup (map reply_id (m_speedReplies s)) /\ Forall (fun r => reply_upload r = up) (m_speedReplies s).

Definition deadline_set (s : Speed) : Prop :=
  exists t, m_speedCap s = Some t /\ now s < t <= now s + kSpeedCapMs.

Definition verdict_of (s : Speed) : Z :=
  if positive (res_Mbps (download s)) || positive (res_Mbps (upload s)) then 3 else -1.

Definition at_rest (s : Speed) : Prop :=
  (m_speedTestState s = 0 \/ m_speedTestState s = verdict_of s) /\ m_speedReplies s = [] /\ m_speedCap s = None.

Definition speed_ok (s : Speed) : Prop :=
  (m_speedTestState s = 1 /\ streaming false s /\ deadline_set s) \/
  (m_speedTestState s = 2 /\ streaming true s /\ deadline_set s) \/
  at_rest s.

(** The time a test still has. *)
Definition time_left (s : Speed) : Z :=
  match m_speedCap s with
  | Some t => t - now s + (if m_speedTestState s =? 1 then kSpeedCapMs else 0)
  | None => 0
  end.

Ltac speed_cbn :=
  cbn [m_speedTestState download upload m_speedReplies m_speedBytes m_speedStarted m_speedPending m_speedCap now
       reply_id reply_upload reply_seen] in *.

Lemma verdict_not_running (s : Speed) : verdict_of s <> 1 /\ verdict_of s <> 2 /\ verdict_of s <> 0.
Proof. unfold verdict_of. destruct (_ || _); lia. Qed.

Lemma start_phase_ok (up : bool) (s : Speed) : streaming up (start_phase up s) /\ deadline_set (start_phase up s).
Proof.
  unfold start_phase, beginSpeedPhase. split.
  - split_and!; [ discriminate | reflexivity | | ].
    + speed_cbn. cbn. repeat (constructor; [ set_solver | ]). constructor.
    + speed_cbn. repeat constructor.
  - exists (now s + kSpeedCapMs). unfold kSpeedCapMs. speed_cbn. split; [ reflexivity | lia ].
Qed.

(** The end of a phase, once none of its requests is left. *)
Definition phase_end (up : bool) (s : Speed) : Speed := if up then finishSpeedUpload s else finishSpeedDownload s.

Lemma phase_end_ok (up : bool) (s : Speed) :
  m_speedReplies s = [] ->
  speed_ok (phase_end up s) /\ m_speedTestState (phase_end up s) <> 0 /\
  time_left (phase_end up s) = (if up then 0 else kSpeedCapMs).
Proof.
  intros Hr. destruct up; unfold phase_end.
  - split_and!.
    + right. right. unfold at_rest. split_and!; [ right; reflexivity | exact Hr | reflexivity ].
    + apply (verdict_not_running (finishSpeedUpload s)).
    + reflexivity.
  - split_and!.
    + right. left. split; [ reflexivity | apply start_phase_ok ].
    + discriminate.
    + unfold time_left, finishSpeedDownload, start_phase, beginSpeedPhase. speed_cbn. change (2 =? 1) with false. cbv iota. lia.
Qed.

Lemma is_reply_refl (r : SpeedReply) : is_reply (reply_id r) (reply_upload r) r = true.
Proof. unfold is_reply. rewrite Nat.eqb_refl, Bool.eqb_reflx. reflexivity. Qed.

(** Taking a reply out of replies with numbers of their own takes out just that one. *)
Lemma remove_reply (id : nat) (up : bool) (l : list SpeedReply) :
  NoDup (map reply_id l) -> existsb (is_reply id up) l = true ->
  S (List.length (List.filter (fun r => negb (is_reply id up r)) l)) = List.length l.
Proof.
  induction l as [ | r l IH ]; intros Hnd He; [ discriminate | ]. cbn [map] in Hnd. apply NoDup_cons in Hnd as (Hni & Hnd).
  cbn [existsb List.filter] in *. destruct (is_reply id up r) eqn:Hr; cbn [negb].
  - cbn [List.length]. f_equal. f_equal. apply forallb_filter_id. apply forallb_forall. intros x Hx.
    destruct (is_reply id up x) eqn:Hx'; [ exfalso | reflexivity ]. unfold is_reply in *.
    apply andb_prop in Hr as (Hr & _), Hx' as (Hx' & _). apply Nat.eqb_eq in Hr, Hx'. apply Hni.
    apply list_elem_of_In. rewrite <- Hr, Hx'. apply in_map, Hx.
  - cbn [List.length orb] in *. f_equal. apply IH; assumption.
Qed.

(** The state without a reply. *)
Definition without_reply (id : nat) (up : bool) (s : Speed) : Speed :=
  mkSpeed (m_speedTestState s) (download s) (upload s)
    (List.filter (fun r => negb (is_reply id up r)) (m_speedReplies s)) (m_speedBytes s) (m_speedStarted s)
    (m_speedPending s - 1) (m_speedCap s) (now s).

Lemma NoDup_map_filter (f : SpeedReply -> bool) (l : list SpeedReply) :
  NoDup (map reply_id l) -> NoDup (map reply_id (List.filter f l)).
Proof.
  induction l as [ | r l IH ]; intros H; [ constructor | ]. cbn [map] in H. apply NoDup_cons in H as (Hni & H).
  cbn [List.filter]. destruct (f r); [ | apply IH, H ]. cbn [map]. apply NoDup_cons. split; [ | apply IH, H ].
  intros Hin. apply Hni. apply list_elem_of_In in Hin. apply list_elem_of_In. apply in_map_iff in Hin as (x & Hx & Hin).
  apply in_map_iff. exists x. split; [ exact Hx | ]. apply filter_In in Hin. tauto.
Qed.

(** A reply that finishes leaves others, or ends the phase. *)
Lemma reply_finished_cases (id : nat) (up' up : bool) (s : Speed) :
  streaming up s ->
  (existsb (is_reply id up') (m_speedReplies s) = false /\ reply_finished id up' s = s) \/
  (up' = up /\ reply_finished id up' s = without_reply id up s /\ streaming up (without_reply id up s)) \/
  (up' = up /\ reply_finished id up' s = phase_end up (without_reply id up s) /\ m_speedReplies (without_reply id up s) = []).
Proof.
  intros (Hne & Hp & Hnd & Hall). unfold reply_finished.
  destruct (existsb (is_reply id up') (m_speedReplies s)) eqn:He; [ right | left; split; reflexivity ].
  assert (up' = up) as ->.
  { apply existsb_exists in He as (r & Hr & Hi). unfold is_reply in Hi. apply andb_prop in Hi as (_ & Hi).
    apply eqb_prop in Hi. rewrite Forall_forall in Hall. rewrite Hi. apply Hall. apply list_elem_of_In, Hr. }
  fold (without_reply id up s). pose proof (remove_reply id up _ Hnd He) as Hlen.
  change (List.filter (fun r => negb (is_reply id up r)) (m_speedReplies s)) with (m_speedReplies (without_reply id up s)) in Hlen.
  assert (Hpend : m_speedPending (without_reply id up s) = Z.of_nat (List.length (m_speedReplies (without_reply id up s)))).
  { change (m_speedPending (without_reply id up s)) with (m_speedPending s - 1). lia. }
  destruct (Z.leb_spec (m_speedPending (without_reply id up s)) 0) as [H0 | H0].
  - right. split_and!; [ reflexivity | destruct up; reflexivity | ].
    apply length_zero_iff_nil. rewrite Hpend in H0. lia.
  - left. split_and!; [ reflexivity | reflexivity | ]. split_and!.
    + intros E. rewrite E in Hpend. cbn [List.length] in Hpend. lia.
    + exact Hpend.
    + apply NoDup_map_filter, Hnd.
    + unfold without_reply. speed_cbn. rewrite Forall_forall in *. intros r Hr. apply Hall.
      apply list_elem_of_In in Hr. apply filter_In in Hr. apply list_elem_of_In. tauto.
Qed.

(** Aborting the replies ends the phase. *)
Lemma abort_ends (up : bool) (s : Speed) :
  streaming up s -> exists s1, abortSpeedReplies s = phase_end up s1 /\ m_speedReplies s1 = [].
Proof.
  unfold abortSpeedReplies. remember (m_speedReplies s) as l eqn:El. revert s El.
  induction l as [ | r l IH ]; intros s El Hs; [ destruct Hs as (Hne & _); congruence | ].
  cbn [fold_left]. pose proof Hs as (_ & Hp & Hnd & Hall). rewrite <- El in Hp, Hnd, Hall.
  assert (Hup : reply_upload r = up) by (inversion Hall; assumption).
  assert (Hw : m_speedReplies (without_reply (reply_id r) up s) = l).
  { unfold without_reply. speed_cbn. rewrite <- El. cbn [List.filter]. rewrite <- Hup at 1. rewrite is_reply_refl. cbn [negb].
    apply forallb_filter_id. apply forallb_forall. intros x Hx. cbn [map] in Hnd. apply NoDup_cons in Hnd as (Hni & _).
    unfold is_reply. destruct (Nat.eqb_spec (reply_id r) (reply_id x)) as [E | _]; [ exfalso | reflexivity ].
    apply Hni. rewrite E. apply list_elem_of_In, in_map, Hx. }
  rewrite Hup. destruct (reply_finished_cases (reply_id r) up up s Hs) as [ Hc | [ (_ & -> & Hst) | (_ & -> & Hnil) ] ].
  - exfalso. destruct Hc as (Hc & _). rewrite <- El in Hc. cbn [existsb] in Hc. rewrite <- Hup in Hc at 1.
    rewrite is_reply_refl in Hc. discriminate.
  - apply IH; [ symmetry; exact Hw | exact Hst ].
  - exists (without_reply (reply_id r) up s). split; [ | exact Hnil ]. rewrite Hw in Hnil. rewrite Hnil. reflexivity.
Qed.

(** A step other than a new test keeps the invariant and uses up time. *)
Definition step_good (s s' : Speed) (spent : Z) : Prop :=
  speed_ok s' /\ (m_speedTestState s <> 0 -> m_speedTestState s' <> 0) /\ time_left s' <= Z.max 0 (time_left s - spent).

(** A state that runs has time left. *)
Lemma running_left (up : bool) (s : Speed) :
  m_speedTestState s = (if up then 2 else 1) -> deadline_set s ->
  exists t, m_speedCap s = Some t /\ now s < t <= now s + kSpeedCapMs /\
    time_left s = t - now s + (if up then 0 else kSpeedCapMs).
Proof.
  intros Hst (t & Hc & Ht). exists t. split_and!; [ exact Hc | tauto | tauto | ].
  unfold time_left. rewrite Hc, Hst. destruct up; reflexivity.
Qed.

Lemma running_ok (up : bool) (s : Speed) :
  m_speedTestState s = (if up then 2 else 1) -> streaming up s -> deadline_set s -> speed_ok s.
Proof. intros H1 H2 H3. destruct up; [ right; left | left ]; tauto. Qed.

Lemma end_good (up : bool) (s s1 : Speed) (spent t : Z) :
  m_speedReplies s1 = [] -> time_left s = t + (if up then 0 else kSpeedCapMs) -> spent <= t ->
  step_good s (phase_end up s1) spent.
Proof.
  intros Hr Ht Hle. destruct (phase_end_ok up s1 Hr) as (H1 & H2 & H3). split_and!; [ exact H1 | intros _; exact H2 | ].
  rewrite H3, Ht. destruct up; lia.
Qed.

Lemma finished_good (id : nat) (up' up : bool) (s : Speed) :
  m_speedTestState s = (if up then 2 else 1) -> streaming up s -> deadline_set s ->
  step_good s (reply_finished id up' s) 0.
Proof.
  intros Hst Hs Hd. destruct (running_left up s Hst Hd) as (t & Hc & Ht & Hl).
  destruct (reply_finished_cases id up' up s Hs) as [ (_ & ->) | [ (_ & -> & Hw) | (_ & -> & Hw) ] ].
  - split_and!; [ exact (running_ok up s Hst Hs Hd) | tauto | lia ].
  - split_and!; [ exact (running_ok up (without_reply id up s) Hst Hw Hd) | tauto | ].
    change (time_left (without_reply id up s)) with (time_left s). lia.
  - apply (end_good up s _ 0 (t - now s) Hw Hl). lia.
Qed.

Lemma progress_shape (id : nat) (up' : bool) (got : Z) (s : Speed) :
  m_speedTestState (progress id up' got s) = m_speedTestState s /\ m_speedCap (progress id up' got s) = m_speedCap s /\
  now (progress id up' got s) = now s /\ forall up, streaming up s -> streaming up (progress id up' got s).
Proof.
  unfold progress. destruct (find _ _) as [r|]; [ | tauto ]. split_and!; [ reflexivity | reflexivity | reflexivity | ].
  intros up (H1 & H2 & H3 & H4). unfold streaming. speed_cbn. rewrite length_map, map_map.
  assert (Hid : map (fun x => reply_id (if is_reply id up' x then mkReply id up' got else x)) (m_speedReplies s)
                = map reply_id (m_speedReplies s)).
  { apply map_ext. intros x. destruct (is_reply id up' x) eqn:E; [ | reflexivity ]. unfold is_reply in E.
    apply andb_prop in E as (E & _). apply Nat.eqb_eq in E. exact E. }
  rewrite Hid. split_and!; [ destruct (m_speedReplies s); [ contradiction | discriminate ] | exact H2 | exact H3 | ].
  rewrite Forall_forall in *. intros x Hx. apply list_elem_of_In, in_map_iff in Hx as (y & <- & Hy).
  apply list_elem_of_In in Hy. specialize (H4 _ Hy). destruct (is_reply id up' y) eqn:E; [ | exact H4 ].
  unfold is_reply in E. apply andb_prop in E as (_ & E). apply eqb_prop in E. cbn. congruence.
Qed.

Lemma progress_good (id : nat) (up' up : bool) (got : Z) (s : Speed) :
  m_speedTestState s = (if up then 2 else 1) -> streaming up s -> deadline_set s ->
  step_good s (progress id up' got s) 0.
Proof.
  intros Hst Hs Hd. destruct (progress_shape id up' got s) as (E1 & E2 & E3 & H). split_and!.
  - apply (running_ok up); [ congruence | apply H, Hs | ]. unfold deadline_set. rewrite E2, E3. exact Hd.
  - congruence.
  - unfold time_left. rewrite E1, E2, E3. lia.
Qed.

Lemma tick_good (up : bool) (s : Speed) :
  m_speedTestState s = (if up then 2 else 1) -> streaming up s -> deadline_set s -> step_good s (speed_tick s) 1.
Proof.
  intros Hst Hs Hd. destruct (running_left up s Hst Hd) as (t & Hc & Ht & Hl). unfold speed_tick. rewrite Hc.
  destruct (Z.leb_spec t (now s + 1)) as [Hle | Hgt].
  - match goal with |- step_good _ (abortSpeedReplies ?x) _ => destruct (abort_ends up x Hs) as (s1 & -> & Hr) end.
    apply (end_good up s s1 1 (t - now s) Hr Hl). lia.
  - split_and!.
    + apply (running_ok up); [ exact Hst | exact Hs | ]. exists t. unfold kSpeedCapMs in *. speed_cbn. split; [ reflexivity | lia ].
    + tauto.
    + rewrite Hl. unfold time_left. speed_cbn. rewrite Hst. destruct up; [ change (2 =? 1) with false | change (1 =? 1) with true ]; cbv iota; lia.
Qed.

(** At rest nothing but the time changes. *)
Lemma rest_good (e : SpeedEvent) (s : Speed) : starts_test e = false -> at_rest s -> step_good s (speed_step s e) 1.
Proof.
  intros He (H1 & H2 & H3). assert (Hl : time_left s = 0) by (unfold time_left; rewrite H3; reflexivity).
  destruct e as [ | id up got | id up | ]; [ discriminate | | | ]; cbn [speed_step].
  - unfold progress. rewrite H2. cbn [find]. split_and!; [ right; right; split_and!; assumption | tauto | lia ].
  - unfold reply_finished. rewrite H2. cbn [existsb]. split_and!; [ right; right; split_and!; assumption | tauto | lia ].
  - unfold speed_tick. rewrite H3. split_and!; [ right; right; split_and!; [ exact H1 | exact H2 | reflexivity ] | tauto | ].
    unfold time_left. speed_cbn. lia.
Qed.

Lemma speed_step_good (e : SpeedEvent) (s : Speed) :
  starts_test e = false -> speed_ok s -> step_good s (speed_step s e) (ticks [e]).
Proof.
  intros He Hok.
  assert (Hrun : forall up : bool, m_speedTestState s = (if up then 2 else 1) -> streaming up s -> deadline_set s ->
                   step_good s (speed_step s e) (ticks [e])).
  { intros up H1 H2 H3. destruct e as [ | id up' got | id up' | ]; [ discriminate | | | ]; cbn [speed_step ticks].
    - apply (progress_good _ _ up); assumption.
    - apply (finished_good _ _ up); assumption.
    - apply (tick_good up); assumption. }
  destruct Hok as [ (H1 & H2 & H3) | [ (H1 & H2 & H3) | H ] ]; [ apply (Hrun false) | apply (Hrun true) | ]; try assumption.
  destruct (rest_good e s He H) as (A & B & C). split_and!; [ exact A | exact B | ].
  assert (time_left s = 0) by (unfold time_left; rewrite (proj2 (proj2 H)); reflexivity). lia.
Qed.

Lemma run_test_ok (s : Speed) :
  speed_ok s -> speed_ok (runSpeedTest s) /\ m_speedTestState (runSpeedTest s) <> 0 /\ time_left (runSpeedTest s) <= 20000.
Proof.
  intros Hok. unfold runSpeedTest. destruct (_ || _) eqn:Hr.
  - split; [ exact Hok | ]. apply orb_true_iff in Hr.
    destruct Hok as [ (H1 & _ & H3) | [ (H1 & _ & H3) | (H1 & _) ] ].
    + destruct (running_left false s H1 H3) as (t & _ & Ht & Hl). unfold kSpeedCapMs in *. lia.
    + destruct (running_left true s H1 H3) as (t & _ & Ht & Hl). unfold kSpeedCapMs in *. lia.
    + pose proof (verdict_not_running s). lia.
  - split_and!; [ left; split; [ reflexivity | apply start_phase_ok ] | discriminate | ].
    unfold time_left, start_phase, beginSpeedPhase. speed_cbn. change (1 =? 1) with true. unfold kSpeedCapMs. lia.
Qed.

Lemma ticks_nonneg (es : list SpeedEvent) : 0 <= ticks es.
Proof. induction es as [ | [] es IH ]; cbn [ticks]; lia. Qed.

Lemma speed_run_good (es : list SpeedEvent) (s : Speed) :
  existsb starts_test es = false -> speed_ok s -> step_good s (speed_run es s) (ticks es).
Proof.
  unfold speed_run. revert s. induction es as [ | e es IH ]; intros s He Hok.
  - split_and!; [ exact Hok | tauto | cbn; lia ].
  - cbn [existsb] in He. apply orb_false_elim in He as (He & Hes). cbn [fold_left].
    destruct (speed_step_good e s He Hok) as (A & B & C). destruct (IH _ Hes A) as (A' & B' & C').
    split_and!; [ exact A' | tauto | ].
    assert (ticks (e :: es) = ticks [e] + ticks es) by (destruct e; cbn [ticks]; lia).
    pose proof (ticks_nonneg es). pose proof (ticks_nonneg [e]). lia.
Qed.

Lemma speed_reachable_ok (es : list SpeedEvent) : speed_ok (speed_run es speed_idle).
Proof.
  unfold speed_run. induction es as [ | e es IH ] using rev_ind.
  - right. right. split_and!; [ left; reflexivity | reflexivity | reflexivity ].
  - rewrite fold_left_app. cbn [fold_left]. destruct (starts_test e) eqn:He.
    + destruct e; try discriminate. apply run_test_ok, IH.
    + apply speed_step_good; assumption.
Qed.

(** C25: a speed test ends within twenty seconds of its start, whatever happened before,
    whatever the replies do and if they do nothing: it is then done where one of the two
    rates was measured and in error where none was, no request is left and no timer runs. *)
Theorem speed_test_ends (before after : list SpeedEvent)
  (Hone : existsb starts_test after = false) (Htime : 20000 <= ticks after) :
  let s := speed_run after (runSpeedTest (speed_run before speed_idle)) in
  m_speedTestState s = (if positive (res_Mbps (download s)) || positive (res_Mbps (upload s)) then 3 else -1) /\
  m_speedReplies s = [] /\ m_speedCap s = None.
Proof.
  intros s. destruct (run_test_ok _ (speed_reachable_ok before)) as (H1 & H2 & H3).
  destruct (speed_run_good after _ Hone H1) as (A & B & C). fold s in A, B, C.
  specialize (B H2). assert (Hl : time_left s <= 0) by lia.
  destruct A as [ (E & _ & Hd) | [ (E & _ & Hd) | ([E | E] & Hr & Hc) ] ].
  - destruct (running_left false s E Hd) as (t & _ & Ht & Hl'). unfold kSpeedCapMs in *. lia.
  - destruct (running_left true s E Hd) as (t & _ & Ht & Hl'). lia.
  - contradiction.
  - split_and!; [ exact E | exact Hr | exact Hc ].
Qed.

(** One download stream gets a megabyte, then nothing more comes. *)
Definition example_speed : list SpeedEvent :=
  Progress 1 false 1000000 :: replicate (Z.to_nat 20000) Tick.

Lemma speed_test_ends_witness :
  m_speedTestState (speed_run example_speed (runSpeedTest (speed_run [] speed_idle))) = 3 /\
  m_speedReplies (speed_run example_speed (runSpeedTest (speed_run [] speed_idle))) = [].
Proof.
  destruct (speed_test_ends [] example_speed) as (H & Hr & _); [ vm_compute; reflexivity | vm_compute; discriminate | ].
  split; [ | exact Hr ]. rewrite H. vm_compute. reflexivity.
Defined.

(** A flag, percent encoding left out. *)
Definition example_decode (tag : string) : list Z := if String.eqb tag "de" then [127465; 127466; 32] else [].

Lemma share_link_read_witness :
  parse_line example_decode (share_link "vless" "id" "de.example" "65979" "?type=tcp" "de") = Some ("de.example", 443, "DE").
Proof.
  rewrite (share_link_read example_decode); [ reflexivity | .. ];
    repeat split; (reflexivity || discriminate).
Defined.

Lemma one_probe_per_country_witness :
  List.length (probes (parseSubscriptionBody example_decode (fun s => s)
    (share_link "vless" "id" "a.example" "443" "?x" "de" +:+ String (ascii_of_N 10)
     (share_link "vless" "id" "b.example" "443" "?x" "de")) no_latencies)) = 1%nat.
Proof.
  rewrite (proj1 (one_probe_per_country example_decode (fun s => s) _ no_latencies)). vm_compute. reflexivity.
Defined.
