(* ===== verification/AndroidTunnel.v ===== *)
(** * The WireGuard tunnel of the Android application

    Models [Protocol.kt] (split tunnelling of a configuration, the calls that set up the
    interface), [Wireguard.kt] and [WireguardConfig.kt] (reading the configuration, the
    text for the backend, and the life of a tunnel with the job that waits for its
    handshake) and [InetNetwork.parse], all under client/android.  The routes themselves
    are those of [AndroidRoutes].  [None] is a thrown exception.  Names of hosts,
    org.json and base 64 are the interface [Java]; the answers of the system and of the
    backend are arguments of the steps that ask for them.

    The order of a hash set is not that of its elements here; theorems speak of members
    only.  The status job is cut where another thread can act between its reading and
    its writing. *)

From stdpp Require Import base numbers list strings pretty sets.
From Stdlib Require Import ZArith Lia QArith.QArith_base Strings.String Strings.Ascii.
From S2P Require Import Prelude Json Config Framing IpRange AndroidRoutes.
Open Scope string_scope.
Open Scope list_scope.
Open Scope Z_scope.

(** ** What the code calls *)

Class Java := {
  parseInetAddress : string -> option (list Z);
  ip_text : list Z -> string;
  base64ToHex : string -> option string;
  (** [JSONObject]'s conversion of a value to a text, a number and a truth value. *)
  coerced_text : json -> string;
  coerced_int : json -> option Z;
  coerced_bool : json -> option bool
}.

(** A whole number is itself, a text is itself, and an address is read from its text. *)
Class JavaLaws `{Java} := {
  text_of_string s : coerced_text (JString s) = s;
  int_of_number n : - 2 ^ 31 <= n < 2 ^ 31 -> coerced_int (JDouble (inject_Z n)) = Some n;
  address_wf s a : parseInetAddress s = Some a -> wf_addr a
}.

(** [toInt] of Kotlin: a sign and digits, and nothing else. *)
Fixpoint only_digits (seen : bool) (acc : Z) (s : string) : option Z :=
  match s with
  | EmptyString => if seen then Some acc else None
  | String c s' => match digit_value c with Some d => only_digits true (acc * 10 + d) s' | None => None end
  end.

Definition toInt (s : string) : option Z :=
  n ← match s with
      | String "-" s' => Z.opp <$> only_digits false 0 s'
      | String "+" s' => only_digits false 0 s'
      | _ => only_digits false 0 s
      end;
  if (- 2 ^ 31 <=? n) && (n <? 2 ^ 31) then Some n else None.

Definition maxPrefixLength (a : list Z) : Z := if (List.length a =? 4)%nat then 32 else 128.

Section Reading.
Context `{Java}.

(** [InetNetwork.parse] *)
Definition parse_network (data : string) : option InetNetwork :=
  let split := split_on "/" data in
  address ← parseInetAddress (hd EmptyString split);
  if (List.length split =? 1)%nat then Some (address, maxPrefixLength address)
  else mask ← toInt (List.last split EmptyString); Some (address, mask).

(** *** org.json *)

Definition optInt (o : QJsonObject) (name : string) : Z :=
  match obj_value o name with Some v => default 0 (coerced_int v) | None => 0 end.

Definition getInt (o : QJsonObject) (name : string) : option Z := v ← obj_value o name; coerced_int v.

Definition optBoolean (o : QJsonObject) (name : string) : bool :=
  match obj_value o name with Some v => default false (coerced_bool v) | None => false end.

Definition getString (o : QJsonObject) (name : string) : option string := coerced_text <$> obj_value o name.

Definition optStringOrNull (o : QJsonObject) (name : string) : option string :=
  match obj_value o name with
  | Some v => let s := coerced_text v in if String.eqb s EmptyString then None else Some s
  | None => None
  end.

Definition getJSONArray (o : QJsonObject) (name : string) : option (list json) :=
  match obj_value o name with Some (JArray l) => Some l | _ => None end.

Definition getJSONObject (o : QJsonObject) (name : string) : option QJsonObject :=
  match obj_value o name with Some (JObject x) => Some x | _ => None end.

(** An element that [asSequence<String>] casts. *)
Definition cast_string (v : json) : option string := match v with JString s => Some s | _ => None end.
End Reading.

(** ** The builder *)

(** The parameters of the protocol extension. *)
Record Extension := mkExtension {
  jc : option Z; jmin : option Z; jmax : option Z;
  s1 : option Z; s2 : option Z; s3 : option Z; s4 : option Z;
  h1 : option string; h2 : option string; h3 : option string; h4 : option string;
  i1 : option string; i2 : option string; i3 : option string; i4 : option string; i5 : option string
}.

Definition no_extension : Extension :=
  mkExtension None None None None None None None None None None None None None None None None.

(** [WireguardConfig.Builder]; what routing uses is the [Builder] of [AndroidRoutes].  The
    fields that no WireGuard configuration sets (search domain, proxy, address families) are
    left out. *)
Record WgBuilder := mkWgBuilder {
  routing : Builder;
  dnsServers : list (list Z);
  includedApplications : list string;
  excludedApplications : list string;
  allowSplitTunneling : bool;
  endpoint : list Z * Z;
  persistentKeepalive : Z;
  privateKeyHex : string;
  publicKeyHex : string;
  preSharedKeyHex : option string;
  useProtocolExtension : bool;
  extension : Extension
}.

Definition WIREGUARD_DEFAULT_MTU : Z := 1280.

Definition new_builder : WgBuilder :=
  mkWgBuilder (mkBuilder [] [] [] [] WIREGUARD_DEFAULT_MTU) [] [] [] true ([], 0) 0 EmptyString EmptyString None false
    no_extension.

Definition set_routing (r : Builder) (b : WgBuilder) : WgBuilder :=
  mkWgBuilder r (dnsServers b) (includedApplications b) (excludedApplications b) (allowSplitTunneling b) (endpoint b)
    (persistentKeepalive b) (privateKeyHex b) (publicKeyHex b) (preSharedKeyHex b) (useProtocolExtension b) (extension b).

Definition set_apps (inc ex : list string) (b : WgBuilder) : WgBuilder :=
  mkWgBuilder (routing b) (dnsServers b) inc ex (allowSplitTunneling b) (endpoint b)
    (persistentKeepalive b) (privateKeyHex b) (publicKeyHex b) (preSharedKeyHex b) (useProtocolExtension b) (extension b).

(** [+=] on a set. *)
Definition put `{EqDecision A} (l : list A) (x : A) : list A := if decide (x ∈ l) then l else l ++ [x].

Definition includeAddress (n : InetNetwork) (b : Builder) : Builder :=
  mkBuilder (addresses b) (routes b) (put (includedAddresses b) n) (excludedAddresses b) (mtu b).

Definition excludeAddress (n : InetNetwork) (b : Builder) : Builder :=
  mkBuilder (addresses b) (routes b) (includedAddresses b) (put (excludedAddresses b) n) (mtu b).

Section Configuration.
Context `{Java}.

(** *** The parameters of the extension *)

(** [?.let { set(it.toInt()) }] *)
Definition let_int (o : QJsonObject) (name : string) (old : option Z) : option (option Z) :=
  match optStringOrNull o name with Some t => Some <$> toInt t | None => Some old end.

(** [?.trim()?.let { if (it.isNotEmpty()) set(it) }] *)
Definition let_trimmed (o : QJsonObject) (name : string) (old : option string) : option string :=
  match optStringOrNull o name with
  | Some t => let t' := trimmed t in if String.eqb t' EmptyString then old else Some t'
  | None => old
  end.

Definition let_text (o : QJsonObject) (name : string) (old : option string) : option string :=
  match optStringOrNull o name with Some t => Some t | None => old end.

Definition configExtensionParameters (configData : QJsonObject) (e : Extension) : option Extension :=
  jc' ← let_int configData "Jc" (jc e);
  jmin' ← let_int configData "Jmin" (jmin e);
  jmax' ← let_int configData "Jmax" (jmax e);
  s1' ← let_int configData "S1" (s1 e);
  s2' ← let_int configData "S2" (s2 e);
  s3' ← let_int configData "S3" (s3 e);
  s4' ← let_int configData "S4" (s4 e);
  Some (mkExtension jc' jmin' jmax' s1' s2' s3' s4'
          (let_trimmed configData "H1" (h1 e)) (let_trimmed configData "H2" (h2 e))
          (let_trimmed configData "H3" (h3 e)) (let_trimmed configData "H4" (h4 e))
          (let_text configData "I1" (i1 e)) (let_text configData "I2" (i2 e)) (let_text configData "I3" (i3 e))
          (let_text configData "I4" (i4 e)) (let_text configData "I5" (i5 e))).

(** *** [configWireguard] *)

Definition let_dns (config : QJsonObject) (name : string) (l : list (list Z)) : option (list (list Z)) :=
  match optStringOrNull config name with
  | Some dns => put l <$> parseInetAddress (trimmed dns)
  | None => Some l
  end.

Definition defRoutes : list InetNetwork := [ipv4Default; ipv6Default].

Definition configWireguard (config configData : QJsonObject) (b : WgBuilder) : option WgBuilder :=
  client_ip ← getString configData "client_ip";
  nets ← mapM (fun address => parse_network (trimmed address)) (split_on "," client_ip);
  dns1 ← let_dns config "dns1" (dnsServers b);
  dns2 ← let_dns config "dns2" dns1;
  allowed ← getJSONArray configData "allowed_ips";
  texts ← mapM cast_string allowed;
  parsed ← mapM (fun route => parse_network (trimmed route)) texts;
  let rs := foldl put [] parsed in
  let allow := if existsb (fun n => bool_decide (n ∉ defRoutes)) rs then false else allowSplitTunneling b in
  mtu' ← let_int configData "mtu" (Some (mtu (routing b)));
  hostName ← getString configData "hostName";
  host ← parseInetAddress (trimmed hostName);
  port ← getInt configData "port";
  ext ← (if optBoolean configData "isObfuscationEnabled"
         then (fun e => (true, e)) <$> configExtensionParameters configData (extension b)
         else Some (useProtocolExtension b, extension b));
  keepalive ← let_int configData "persistent_keep_alive" (Some (persistentKeepalive b));
  private64 ← getString configData "client_priv_key";
  private ← base64ToHex private64;
  public64 ← getString configData "server_pub_key";
  public ← base64ToHex public64;
  psk ← (match optStringOrNull configData "psk_key" with
         | Some t => Some <$> base64ToHex t
         | None => Some (preSharedKeyHex b)
         end);
  let r := routing b in
  let r1 := addRoutes rs (mkBuilder (foldl put (addresses r) nets) (routes r) (includedAddresses r) (excludedAddresses r)
                            (default 0 mtu')) in
  Some (mkWgBuilder r1 dns2 (includedApplications b) (excludedApplications b) allow (host, port)
          (default 0 keepalive) private public psk ext.1 ext.2).

(** *** Split tunnelling of the configuration *)

Definition configSplitTunneling (config : QJsonObject) (b : WgBuilder) : option WgBuilder :=
  if negb (allowSplitTunneling b) then Some b
  else
    let splitTunnelType := optInt config "splitTunnelType" in
    if splitTunnelType =? 0 then Some b
    else
      sites ← getJSONArray config "splitTunnelSites";
      handler ← (if splitTunnelType =? 1 then Some includeAddress
                 else if splitTunnelType =? 2 then Some excludeAddress else None);
      nets ← mapM (fun v => parse_network (coerced_text v)) sites;
      Some (set_routing (foldl (fun r n => handler n r) (routing b) nets) b).

Definition configAppSplitTunneling (config : QJsonObject) (b : WgBuilder) : option WgBuilder :=
  let splitTunnelType := optInt config "appSplitTunnelType" in
  if splitTunnelType =? 0 then Some b
  else
    apps ← getJSONArray config "splitTunnelApps";
    let names := coerced_text <$> apps in
    if splitTunnelType =? 1 then Some (set_apps (foldl put (includedApplications b) names) (excludedApplications b) b)
    else if splitTunnelType =? 2 then Some (set_apps (includedApplications b) (foldl put (excludedApplications b) names) b)
    else None.

(** [WireguardConfig.build] with the block of [Wireguard] or of [Awg]. *)
Definition build (sdk_lt_33 : bool) (b : WgBuilder) : option WgBuilder :=
  r ← configBuild sdk_lt_33 (routing b); Some (set_routing r b).

Definition split_and_build (sdk_lt_33 : bool) (config : QJsonObject) (b : WgBuilder) : option WgBuilder :=
  b1 ← configSplitTunneling config b;
  b2 ← configAppSplitTunneling config b1;
  build sdk_lt_33 b2.

Definition parseConfig (sdk_lt_33 : bool) (config : QJsonObject) : option WgBuilder :=
  configData ← getJSONObject config "wireguard_config_data";
  b ← configWireguard config configData new_builder;
  split_and_build sdk_lt_33 config b.

Definition set_extension (e : Extension) (b : WgBuilder) : WgBuilder :=
  mkWgBuilder (routing b) (dnsServers b) (includedApplications b) (excludedApplications b) (allowSplitTunneling b)
    (endpoint b) (persistentKeepalive b) (privateKeyHex b) (publicKeyHex b) (preSharedKeyHex b) true e.

Definition Awg_parseConfig (sdk_lt_33 : bool) (config : QJsonObject) : option WgBuilder :=
  configData ← getJSONObject config "awg_config_data";
  e ← configExtensionParameters configData (extension new_builder);
  b ← configWireguard config configData (set_extension e new_builder);
  split_and_build sdk_lt_33 config b.

(** *** The text for the backend *)

Definition network_text (n : InetNetwork) : string := (ip_text n.1 ++ "/" ++ pretty n.2)%string.

Definition endpoint_text (e : list Z * Z) : string :=
  if (List.length e.1 =? 4)%nat then (ip_text e.1 ++ ":" ++ pretty e.2)%string
  else ("[" ++ ip_text e.1 ++ "]:" ++ pretty e.2)%string.

Definition opt_line (name : string) (v : option string) : list string :=
  match v with Some t => [(name ++ t)%string] | None => [] end.

(** [validateProtocolExtensionParameters] and the lines after it. *)
Definition extension_lines (e : Extension) : option (list string) :=
  jc' ← jc e; jmin' ← jmin e; jmax' ← jmax e; s1' ← s1 e; s2' ← s2 e;
  h1' ← h1 e; h2' ← h2 e; h3' ← h3 e; h4' ← h4 e;
  Some (["jc=" +:+ pretty jc'; "jmin=" +:+ pretty jmin'; "jmax=" +:+ pretty jmax'; "s1=" +:+ pretty s1'; "s2=" +:+ pretty s2']
        ++ opt_line "s3=" (pretty <$> s3 e) ++ opt_line "s4=" (pretty <$> s4 e)
        ++ ["h1=" +:+ h1'; "h2=" +:+ h2'; "h3=" +:+ h3'; "h4=" +:+ h4']
        ++ opt_line "i1=" (i1 e) ++ opt_line "i2=" (i2 e) ++ opt_line "i3=" (i3 e) ++ opt_line "i4=" (i4 e)
        ++ opt_line "i5=" (i5 e)).

Definition appendDeviceLine (b : WgBuilder) : option (list string) :=
  ext ← (if useProtocolExtension b then extension_lines (extension b) else Some []);
  Some (("private_key=" +:+ privateKeyHex b) :: ext).

(** The networks that the peer accepts. *)
Definition allowed_networks (b : WgBuilder) : list InetNetwork :=
  map inetNetwork (List.filter include (routes (routing b))).

Definition appendPeerLine (b : WgBuilder) : list string :=
  ["public_key=" +:+ publicKeyHex b]
  ++ map (fun n => "allowed_ip=" +:+ network_text n) (allowed_networks b)
  ++ ["endpoint=" +:+ endpoint_text (endpoint b)]
  ++ (if persistentKeepalive b =? 0 then []
      else ["persistent_keepalive_interval=" +:+ pretty (persistentKeepalive b)])
  ++ opt_line "preshared_key=" (preSharedKeyHex b).

Definition toWgUserspaceString (b : WgBuilder) : option (list string) :=
  device ← appendDeviceLine b; Some (device ++ ["replace_peers=true"] ++ appendPeerLine b).
End Configuration.

(** ** The interface *)

Inductive Call :=
| SetSession | AddAddress (n : InetNetwork) | AddDnsServer (a : list Z)
| AddRoute (n : InetNetwork) | ExcludeRoute (n : InetNetwork)
| AddAllowedApplication (app : string) | AddDisallowedApplication (app : string)
| SetMtu (mtu : Z) | SetBlocking (blocking : bool) | SetUnderlyingNetworks | SetMetered (metered : bool).

(** [sdk_lt_33] and [sdk_lt_29] are the versions of Android, [samsung] the brand. *)
Definition route_call (sdk_lt_33 : bool) (r : Route) : list Call :=
  if include r then [AddRoute (inetNetwork r)]
  else if sdk_lt_33 then [] else [ExcludeRoute (inetNetwork r)].

Definition buildVpnInterface (samsung sdk_lt_33 sdk_lt_29 : bool) (b : WgBuilder) : list Call :=
  [SetSession]
  ++ map AddAddress (addresses (routing b))
  ++ map AddDnsServer (dnsServers b)
  ++ (if samsung then map (fun a => AddRoute (a, maxPrefixLength a)) (dnsServers b) else [])
  ++ flat_map (route_call sdk_lt_33) (routes (routing b))
  ++ map AddAllowedApplication (includedApplications b)
  ++ map AddDisallowedApplication (excludedApplications b)
  ++ [SetMtu (mtu (routing b)); SetBlocking true; SetUnderlyingNetworks]
  ++ (if sdk_lt_29 then [] else [SetMetered false]).

(** ** The life of a tunnel *)

Inductive ProtocolState := DISCONNECTED | CONNECTED | CONNECTING | DISCONNECTING | RECONNECTING | UNKNOWN.

#[export] Instance ProtocolState_eq_dec : EqDecision ProtocolState.
Proof. solve_decision. Defined.

(** A status job: launched and not yet run, about to read the handshake, between the reading
    and what follows from it, in its [delay], or ended. *)
Inductive JobPhase := Launched | Reading | HasRead (lastHandshake : Z) | Sleeping | Ended.

Record StatusJob := mkJob { phase : JobPhase; cancelled : bool }.

(** [tunnelHandle] is -1 without a tunnel; [open_tunnels] are those of the backend.  The state
    is shared with the service. *)
Record Tunnel := mkTunnel {
  tunnelHandle : Z;
  config : option WgBuilder;
  state : ProtocolState;
  statusJob : option nat;
  jobs : list StatusJob;
  open_tunnels : list Z
}.

Definition no_tunnel : Tunnel := mkTunnel (-1) None UNKNOWN None [] [].

(** The answers of the system and of the backend while a tunnel is started: whether the calls
    of [buildVpnInterface] are accepted and the interface is granted, the handle of the new
    tunnel, and whether its sockets are protected. *)
Record Answers := mkAnswers { accepted : bool; granted : bool; handle : Z; protected4 : bool; protected6 : bool }.

Definition set_state (st : ProtocolState) (w : Tunnel) : Tunnel :=
  mkTunnel (tunnelHandle w) (config w) st (statusJob w) (jobs w) (open_tunnels w).

Definition set_job (i : nat) (j : StatusJob) (w : Tunnel) : Tunnel :=
  mkTunnel (tunnelHandle w) (config w) (state w) (statusJob w) (<[i := j]> (jobs w)) (open_tunnels w).

Definition cancel (l : list StatusJob) (job : option nat) : list StatusJob :=
  match job with
  | Some i => alter (fun j => mkJob (phase j) true) i l
  | None => l
  end.

(** [GoBackend.awgTurnOff] *)
Definition close_tunnel (h : Z) (l : list Z) : list Z := List.filter (fun h' => negb (h' =? h)) l.

Definition turnOffVpn (w : Tunnel) : Tunnel :=
  mkTunnel (-1) (config w) (state w) None (cancel (jobs w) (statusJob w)) (close_tunnel (tunnelHandle w) (open_tunnels w)).

Definition launchStatusJob (w : Tunnel) : Tunnel :=
  mkTunnel (tunnelHandle w) (config w) (state w) (Some (List.length (jobs w))) (jobs w ++ [mkJob Launched false])
    (open_tunnels w).

(** The result is false where an exception is thrown. *)
Definition start `{Java} (c : WgBuilder) (stopExistingVpn : bool) (a : Answers) (w : Tunnel) : bool * Tunnel :=
  if negb stopExistingVpn && negb (tunnelHandle w =? -1) then (true, w)
  else if negb (accepted a) then (false, w)
  else
    let w1 := if stopExistingVpn && negb (tunnelHandle w =? -1) then turnOffVpn w else w in
    if negb (granted a) then (false, w1)
    else match toWgUserspaceString c with
      | None => (false, w1)
      | Some _ =>
          if handle a <? 0
          then (false, mkTunnel (-1) (config w1) (state w1) (statusJob w1) (jobs w1) (open_tunnels w1))
          else
            let w2 := mkTunnel (handle a) (config w1) (state w1) (statusJob w1) (jobs w1) (open_tunnels w1 ++ [handle a]) in
            if negb (protected4 a && protected6 a)
            then (false, mkTunnel (-1) (config w2) (state w2) (statusJob w2) (jobs w2)
                           (close_tunnel (handle a) (open_tunnels w2)))
            else (true, launchStatusJob w2)
      end.

(** [initialize] and [internalInit]: the scope of earlier jobs is cancelled. *)
Definition initialize (w : Tunnel) : Tunnel :=
  mkTunnel (tunnelHandle w) (config w) (state w) (statusJob w) (map (fun j => mkJob (phase j) true) (jobs w)) (open_tunnels w).

(** [parsed] is the result of [parseConfig]. *)
Definition startVpn `{Java} (parsed : option WgBuilder) (a : Answers) (w : Tunnel) : bool * Tunnel :=
  match parsed with
  | None => (false, w)
  | Some c =>
      let '(ok, w') := start c false a w in
      (ok, if ok then mkTunnel (tunnelHandle w') (Some c) (state w') (statusJob w') (jobs w') (open_tunnels w') else w')
  end.

Definition stopVpn (w : Tunnel) : Tunnel :=
  if tunnelHandle w =? -1 then w else set_state DISCONNECTED (turnOffVpn w).

Definition reconnectVpn `{Java} (a : Answers) (w : Tunnel) : bool * Tunnel :=
  match config w with
  | None => (false, w)
  | Some c => start c true a w
  end.

(** [getLastHandshake]; [answer] is the handshake in the backend's text, none where there is no
    text or no such line in it. *)
Definition getLastHandshake (answer : option Z) (w : Tunnel) : Z :=
  if tunnelHandle w =? -1 then -1 else default (-2) answer.

(** The steps of a status job: it is dispatched unless it was cancelled before, it reads, it acts on
    what it read, and it wakes up unless it was cancelled in its sleep. *)
Definition job_runs (i : nat) (w : Tunnel) : Tunnel :=
  match jobs w !! i with
  | Some (mkJob Launched c) => set_job i (mkJob (if c then Ended else Reading) c) w
  | Some (mkJob Sleeping c) => set_job i (mkJob (if c then Ended else Reading) c) w
  | _ => w
  end.

Definition job_reads (i : nat) (answer : option Z) (w : Tunnel) : Tunnel :=
  match jobs w !! i with
  | Some (mkJob Reading c) => set_job i (mkJob (HasRead (getLastHandshake answer w)) c) w
  | _ => w
  end.

Definition job_acts (i : nat) (w : Tunnel) : Tunnel :=
  match jobs w !! i with
  | Some (mkJob (HasRead h) c) =>
      if h =? 0 then set_job i (mkJob Sleeping c) w
      else
        let w1 := if (h =? -2) || (0 <? h) then set_state CONNECTED w
                  else if h =? -1 then set_state DISCONNECTED w else w in
        let w2 := set_job i (mkJob Ended c) w1 in
        mkTunnel (tunnelHandle w2) (config w2) (state w2) None (jobs w2) (open_tunnels w2)
  | _ => w
  end.

(** What the service and the jobs do with the tunnel.  An exception of a start is caught by the
    handler of the service, which says that the tunnel is down. *)
Inductive TunnelEvent :=
| Starts (parsed : option WgBuilder) (a : Answers)
| Reconnects (a : Answers)
| Stops
| JobRuns (i : nat)
| JobReads (i : nat) (answer : option Z)
| JobActs (i : nat).

Definition caught (r : bool * Tunnel) : Tunnel := if fst r then snd r else set_state DISCONNECTED (snd r).

Definition tunnel_step `{Java} (w : Tunnel) (e : TunnelEvent) : Tunnel :=
  match e with
  | Starts parsed a => caught (startVpn parsed a (initialize w))
  | Reconnects a => caught (reconnectVpn a w)
  | Stops => stopVpn w
  | JobRuns i => job_runs i w
  | JobReads i answer => job_reads i answer w
  | JobActs i => job_acts i w
  end.

Definition tunnel_run `{Java} (es : list TunnelEvent) (w : Tunnel) : Tunnel := fold_left tunnel_step es w.

(** ** Where packets go *)

(** The routes that the system was given. *)
Definition call_route (c : Call) : option Route :=
  match c with
  | AddRoute n => Some (mkRoute n true)
  | ExcludeRoute n => Some (mkRoute n false)
  | _ => None
  end.

(** The most specific route that covers an address, as the system documents it. *)
Definition more_specific (a : list Z) (best : option Route) (r : Route) : option Route :=
  if in_networkb (inetNetwork r) a then
    match best with
    | Some b => if (inetNetwork r).2 <? (inetNetwork b).2 then best else Some r
    | None => Some r
    end
  else best.

Definition best_route (l : list Route) (a : list Z) : option Route := foldl (more_specific a) None l.

Definition tunnelled (calls : list Call) (a : list Z) : bool :=
  match best_route (omap call_route calls) a with Some r => include r | None => false end.

(** The peer accepts packets to an address. *)
Definition peer_accepts (b : WgBuilder) (a : list Z) : bool := existsb (fun n => in_networkb n a) (allowed_networks b).

(** ** No tunnel is left behind *)

Ltac tunnel_cbn := cbn [tunnelHandle config state statusJob jobs open_tunnels fst snd] in *.

(** What the backend has open is the tunnel that the handle names. *)
Definition one_tunnel (w : Tunnel) : Prop :=
  (tunnelHandle w = -1 /\ open_tunnels w = []) \/ (0 <= tunnelHandle w /\ open_tunnels w = [tunnelHandle w]).

Lemma one_tunnel_off (w : Tunnel) : one_tunnel w -> one_tunnel (turnOffVpn w) /\ tunnelHandle (turnOffVpn w) = -1.
Proof.
  intros [ (Hh & Ho) | (Hh & Ho) ]; split; try reflexivity; left; (split; [ reflexivity | ]); unfold turnOffVpn; tunnel_cbn; rewrite Ho.
  - reflexivity.
  - unfold close_tunnel. cbn [List.filter]. rewrite Z.eqb_refl. reflexivity.
Qed.

Lemma one_tunnel_start `{Java} (c : WgBuilder) (again : bool) (a : Answers) (w : Tunnel) :
  one_tunnel w -> one_tunnel (snd (start c again a w)).
Proof.
  intros Hw. unfold start. destruct (negb again && negb (tunnelHandle w =? -1)) eqn:Hup; [ exact Hw | ].
  destruct (accepted a); cbn [negb]; [ | exact Hw ].
  set (w1 := if again && negb (tunnelHandle w =? -1) then turnOffVpn w else w).
  assert (H1 : one_tunnel w1 /\ tunnelHandle w1 = -1).
  { unfold w1. destruct (Z.eqb_spec (tunnelHandle w) (-1)) as [E | E].
    - rewrite andb_false_r. split; assumption.
    - destruct again; [ cbn [andb negb]; apply one_tunnel_off, Hw | discriminate ]. }
  clearbody w1. destruct H1 as (H1 & Hh). destruct H1 as [ (_ & Ho) | (Hge & _) ]; [ | lia ].
  destruct (granted a); cbn [negb]; [ | left; split; assumption ].
  destruct (toWgUserspaceString c); [ | left; split; assumption ].
  destruct (Z.ltb_spec (handle a) 0) as [Hneg | Hpos]; [ left; split; [ reflexivity | exact Ho ] | ].
  destruct (protected4 a && protected6 a); cbn [negb]; tunnel_cbn; rewrite ?Ho.
  - right. split; [ exact Hpos | unfold launchStatusJob; tunnel_cbn; rewrite ?Ho; reflexivity ].
  - left. split; [ reflexivity | ]. tunnel_cbn. rewrite ?Ho. unfold close_tunnel. cbn. rewrite Z.eqb_refl. reflexivity.
Qed.

(** A step of a job leaves the tunnels alone. *)
Lemma job_keeps_tunnels (w w' : Tunnel) :
  tunnelHandle w' = tunnelHandle w -> open_tunnels w' = open_tunnels w -> one_tunnel w -> one_tunnel w'.
Proof. unfold one_tunnel. intros -> ->. tauto. Qed.

Ltac job_cases := repeat match goal with
  | |- context [jobs ?w !! ?i] => destruct (jobs w !! i) as [[[] ?]|]
  | |- context [if ?b then _ else _] => destruct b
  end.

Lemma job_handles (e : TunnelEvent) `{Java} (w : Tunnel) :
  match e with JobRuns _ | JobReads _ _ | JobActs _ => True | _ => False end ->
  tunnelHandle (tunnel_step w e) = tunnelHandle w /\ open_tunnels (tunnel_step w e) = open_tunnels w.
Proof.
  destruct e; intros []; cbn [tunnel_step]; unfold job_runs, job_reads, job_acts, set_job, set_state;
    job_cases; split; reflexivity.
Qed.

Lemma one_tunnel_caught (r : bool * Tunnel) : one_tunnel (snd r) -> one_tunnel (caught r).
Proof. unfold caught. destruct (fst r); exact id. Qed.

(** Whatever is started, renewed, stopped and answered, in any order and with the status jobs in
    between, the backend has exactly the tunnel open that the protocol holds, and none where it
    holds none: no path of a failure leaves a tunnel behind. *)
Theorem no_tunnel_left `{Java} (es : list TunnelEvent) :
  let w := tunnel_run es no_tunnel in
  open_tunnels w = (if tunnelHandle w =? -1 then [] else [tunnelHandle w]) /\ -1 <= tunnelHandle w.
Proof.
  intros w. assert (Hw : one_tunnel w).
  { unfold w, tunnel_run. clear w. induction es as [ | e es IH ] using rev_ind; [ left; split; reflexivity | ].
    rewrite fold_left_app. cbn [fold_left]. set (w := fold_left tunnel_step es no_tunnel) in *. clearbody w.
    destruct e; cbn [tunnel_step].
    - apply one_tunnel_caught. unfold startVpn. destruct parsed as [c|]; [ | exact IH ].
      pose proof (one_tunnel_start c false a (initialize w) IH) as Hs. destruct (start c false a (initialize w)) as [[] w']; exact Hs.
    - apply one_tunnel_caught. unfold reconnectVpn. destruct (config w); [ apply one_tunnel_start | ]; exact IH.
    - unfold stopVpn. destruct (_ =? _); [ exact IH | apply one_tunnel_off, IH ].
    - destruct (job_handles (JobRuns i) w I) as (E1 & E2). exact (job_keeps_tunnels _ _ E1 E2 IH).
    - destruct (job_handles (JobReads i answer) w I) as (E1 & E2). exact (job_keeps_tunnels _ _ E1 E2 IH).
    - destruct (job_handles (JobActs i) w I) as (E1 & E2). exact (job_keeps_tunnels _ _ E1 E2 IH). }
  destruct Hw as [ (Hh & Ho) | (Hh & Ho) ].
  - rewrite Hh, Ho. split; [ reflexivity | lia ].
  - destruct (Z.eqb_spec (tunnelHandle w) (-1)); [ lia | ]. split; [ exact Ho | lia ].
Qed.

(** ** After a stop *)

(** A job that has read a handshake and has not told it. *)
Definition will_connect (j : StatusJob) : bool :=
  match phase j with HasRead h => (h =? -2) || (0 <? h) | _ => false end.

Definition job_event (e : TunnelEvent) : bool :=
  match e with JobRuns _ | JobReads _ _ | JobActs _ => true | _ => false end.

Definition down (w : Tunnel) : Prop :=
  tunnelHandle w = -1 /\ state w = DISCONNECTED /\ Forall (fun j => will_connect j = false) (jobs w).

Lemma Forall_alter_jobs (l : list StatusJob) (job : option nat) :
  Forall (fun j => will_connect j = false) l -> Forall (fun j => will_connect j = false) (cancel l job).
Proof.
  intros H. destruct job as [i|]; [ | exact H ]. cbn [cancel].
  apply Forall_alter; [ exact H | ]. intros j _ Hj. exact Hj.
Qed.

Lemma set_job_down (i : nat) (j : StatusJob) (w : Tunnel) : will_connect j = false -> down w -> down (set_job i j w).
Proof.
  intros Hj (H1 & H2 & H3). split_and!; [ exact H1 | exact H2 | ]. apply Forall_insert; assumption.
Qed.

Lemma down_step `{Java} (e : TunnelEvent) (w : Tunnel) : job_event e = true -> down w -> down (tunnel_step w e).
Proof.
  intros He Hd. destruct e as [ | | | i | i answer | i ]; try discriminate; cbn [tunnel_step].
  - unfold job_runs. destruct (jobs w !! i) as [[[] c]|]; try exact Hd; apply set_job_down; try exact Hd; destruct c; reflexivity.
  - unfold job_reads. destruct (jobs w !! i) as [[[] c]|]; try exact Hd. apply set_job_down; [ | exact Hd ].
    unfold getLastHandshake. rewrite (proj1 Hd). reflexivity.
  - unfold job_acts. destruct (jobs w !! i) as [[[ | | h | | ] c]|] eqn:Hi; try exact Hd.
    destruct (h =? 0); [ apply set_job_down; [ reflexivity | exact Hd ] | ].
    pose proof (proj1 (Forall_lookup _ _) (proj2 (proj2 Hd)) i _ Hi) as Hw. unfold will_connect in Hw. cbn [phase] in Hw.
    rewrite Hw.
    assert (Hend : forall st, st = DISCONNECTED -> down (set_job i (mkJob Ended c) (set_state st w))).
    { intros st ->. apply set_job_down; [ reflexivity | ]. destruct Hd as (A & B & C). split_and!; [ exact A | reflexivity | exact C ]. }
    destruct (h =? -1); [ exact (Hend _ eq_refl) | ].
    exact (set_job_down i (mkJob Ended c) w eq_refl Hd).
Qed.

(** A tunnel that is stopped stays down in what is told, whatever the status jobs of its life do
    afterwards, provided that none of them has already read a handshake that it has not yet told. *)
Theorem stop_stays_down `{Java} (w : Tunnel) (es : list TunnelEvent) :
  tunnelHandle w <> -1 -> Forall (fun j => will_connect j = false) (jobs w) -> forallb job_event es = true ->
  let w' := tunnel_run es (stopVpn w) in
  state w' = DISCONNECTED /\ tunnelHandle w' = -1.
Proof.
  intros Hup Hj Hes. assert (Hd : down (stopVpn w)).
  { unfold stopVpn. destruct (Z.eqb_spec (tunnelHandle w) (-1)); [ contradiction | ].
    split_and!; [ reflexivity | reflexivity | ]. apply Forall_alter_jobs, Hj. }
  assert (Hr : down (tunnel_run es (stopVpn w))).
  { unfold tunnel_run. generalize dependent (stopVpn w). induction es as [ | e es IH ]; intros x Hx; [ exact Hx | ].
    cbn [forallb] in Hes. apply andb_prop in Hes as (He & Hes). apply (IH Hes). apply down_step; assumption. }
  destruct Hr as (A & B & _). split; assumption.
Qed.

(** A status job that has read a handshake when the tunnel is stopped tells it afterwards: the
    cancelled job is not suspended in between, and the service then shows a connection without a
    tunnel. *)
Theorem late_handshake_told `{Java} (w : Tunnel) (i : nat) (h : Z) (c : bool) :
  tunnelHandle w <> -1 -> jobs w !! i = Some (mkJob (HasRead h) c) -> 0 < h ->
  let w' := tunnel_run [Stops; JobActs i] w in
  state w' = CONNECTED /\ tunnelHandle w' = -1.
Proof.
  intros Hup Hi Hh. unfold tunnel_run. cbn [fold_left tunnel_step]. unfold stopVpn.
  destruct (Z.eqb_spec (tunnelHandle w) (-1)); [ contradiction | ].
  assert (Hj : exists c', jobs (set_state DISCONNECTED (turnOffVpn w)) !! i = Some (mkJob (HasRead h) c')).
  { unfold set_state, turnOffVpn. tunnel_cbn. unfold cancel. destruct (statusJob w) as [k|]; [ | eauto ].
    destruct (decide (k = i)) as [-> | Hne].
    - rewrite list_lookup_alter_eq, Hi. eexists. reflexivity.
    - rewrite list_lookup_alter_ne, Hi by congruence. eauto. }
  destruct Hj as (c' & Hj). unfold job_acts. rewrite Hj.
  destruct (Z.eqb_spec h 0); [ lia | ]. destruct (Z.ltb_spec 0 h); [ | lia ]. rewrite orb_true_r. split; reflexivity.
Qed.

(** ** Routes of the interface and of the peer *)

(** The best route is one of the list, covers the address, and none that covers it is more specific. *)
Definition is_best (l : list Route) (a : list Z) (best : option Route) : Prop :=
  match best with
  | Some b => b ∈ l /\ in_networkb (inetNetwork b) a = true /\
      forall r, r ∈ l -> in_networkb (inetNetwork r) a = true -> (inetNetwork r).2 <= (inetNetwork b).2
  | None => forall r, r ∈ l -> in_networkb (inetNetwork r) a = false
  end.

Lemma best_route_spec (l : list Route) (a : list Z) : is_best l a (best_route l a).
Proof.
  unfold best_route. induction l as [ | r l IH ] using rev_ind; [ intros r Hr; inversion Hr | ].
  rewrite foldl_app. cbn [foldl]. destruct (foldl (more_specific a) None l) as [b|] eqn:E; clear E; unfold more_specific.
  - destruct IH as (Hin & Hc & Hmax). destruct (in_networkb (inetNetwork r) a) eqn:Hr.
    + destruct (Z.ltb_spec (inetNetwork r).2 (inetNetwork b).2) as [Hlt | Hge].
      * split_and!; [ set_solver | exact Hc | ]. intros x [Hx | ->%list_elem_of_singleton]%elem_of_app Hxc; [ auto | lia ].
      * split_and!; [ set_solver | exact Hr | ]. intros x [Hx | ->%list_elem_of_singleton]%elem_of_app Hxc; [ | lia ].
        specialize (Hmax _ Hx Hxc). lia.
    + split_and!; [ set_solver | exact Hc | ]. intros x [Hx | ->%list_elem_of_singleton]%elem_of_app Hxc; [ auto | congruence ].
  - destruct (in_networkb (inetNetwork r) a) eqn:Hr.
    + split_and!; [ set_solver | exact Hr | ]. intros x [Hx | ->%list_elem_of_singleton]%elem_of_app Hxc; [ | lia ].
      rewrite (IH _ Hx) in Hxc. discriminate.
    + intros x [Hx | ->%list_elem_of_singleton]%elem_of_app; [ auto | exact Hr ].
Qed.

(** The routes that the calls of an interface give to the system. *)
Lemma interface_routes_brand (samsung old older : bool) (b : WgBuilder) :
  omap call_route (buildVpnInterface samsung old older b) =
  (if samsung then map (fun a => mkRoute (a, maxPrefixLength a) true) (dnsServers b) else [])
  ++ if old then List.filter include (routes (routing b)) else routes (routing b).
Proof.
  assert (Hnone : forall {A} (f : A -> Call) (l : list A), (forall x, call_route (f x) = None) -> omap call_route (map f l) = []).
  { intros A f l Hf. induction l as [ | x l IH ]; [ reflexivity | ]. cbn. rewrite Hf. exact IH. }
  assert (Hroutes : forall l, omap call_route (flat_map (route_call old) l) = if old then List.filter include l else l).
  { induction l as [ | [n []] l IH ]; [ destruct old; reflexivity | | ]; cbn [flat_map route_call inetNetwork include].
    - cbn. rewrite IH. destruct old; reflexivity.
    - rewrite omap_app, IH. destruct old; reflexivity. }
  assert (Hdns : forall l, omap call_route (map (fun a => AddRoute (a, maxPrefixLength a)) l)
                   = map (fun a => mkRoute (a, maxPrefixLength a) true) l).
  { induction l as [ | a l IH ]; [ reflexivity | ]. cbn. f_equal. exact IH. }
  unfold buildVpnInterface. rewrite !omap_app, !Hnone, Hroutes by reflexivity. cbn.
  destruct samsung, older; cbn; rewrite ?Hdns, ?app_nil_r; reflexivity.
Qed.

Lemma interface_routes (old older : bool) (b : WgBuilder) :
  omap call_route (buildVpnInterface false old older b) =
  if old then List.filter include (routes (routing b)) else routes (routing b).
Proof. exact (interface_routes_brand false old older b). Qed.

Lemma routes_coverb (l : list Route) (a : list Z) :
  routes_cover l a <-> exists r, r ∈ l /\ include r = true /\ in_networkb (inetNetwork r) a = true.
Proof.
  unfold routes_cover. rewrite Exists_exists. split; intros (r & Hr & Hi & Hn); exists r;
    (split_and!; [ exact Hr | exact Hi | ]); apply in_networkb_spec; exact Hn.
Qed.

(** With included routes only, an address is tunnelled if one of them covers it. *)
Lemma included_tunnelled (l : list Route) (a : list Z) :
  Forall (fun r => include r = true) l ->
  (match best_route l a with Some r => include r | None => false end) = true <-> routes_cover l a.
Proof.
  intros Hl. pose proof (best_route_spec l a) as Hb. rewrite routes_coverb. rewrite Forall_forall in Hl.
  destruct (best_route l a) as [b|]; cbn [is_best] in Hb.
  - destruct Hb as (Hin & Hc & _). split; [ intros _; exists b; auto | intros _; auto ].
  - split; [ discriminate | ]. intros (r & Hr & _ & Hn). rewrite (Hb _ Hr) in Hn. discriminate.
Qed.

(** Networks that are more specific than the default routes. *)
Definition narrower (n : InetNetwork) : Prop := (if isIpv4 n then 0 else 3) < n.2.

Lemma covers_same_kind (n m : InetNetwork) (a : list Z) :
  in_networkb n a = true -> in_networkb m a = true -> isIpv4 n = isIpv4 m.
Proof.
  unfold in_networkb, isIpv4. intros (H1 & _)%andb_prop (H2 & _)%andb_prop. apply Nat.eqb_eq in H1, H2. congruence.
Qed.

(** Over the default routes, exclusions that are more specific win. *)
Lemma exclusive_best (l : list Route) (ex : list InetNetwork) (a : list Z) :
  exclusive_shape l ex -> Forall narrower ex ->
  (match best_route l a with Some r => include r | None => false end) = true <->
  (in_network ipv4Default a \/ in_network ipv6Global a) /\ ~ Exists (fun n => in_network n a) ex.
Proof.
  intros (d1 & d2 & m & -> & Hd & Hm & Hex) Hn. rewrite Forall_forall in Hn. rewrite Forall_forall in Hm.
  pose proof (best_route_spec ([mkRoute d1 true; mkRoute d2 true] ++ m) a) as Hb.
  assert (Hinc : forall r, r ∈ [mkRoute d1 true; mkRoute d2 true] ++ m -> include r = true ->
            inetNetwork r = ipv4Default \/ inetNetwork r = ipv6Global).
  { intros r [Hr | Hr]%elem_of_app Hi; [ | rewrite (Hm _ Hr) in Hi; discriminate ].
    apply elem_of_cons in Hr as [-> | ->%list_elem_of_singleton]; cbn; destruct Hd as [(-> & ->) | (-> & ->)]; auto. }
  assert (Hhas : forall d, d = ipv4Default \/ d = ipv6Global -> mkRoute d true ∈ [mkRoute d1 true; mkRoute d2 true] ++ m).
  { intros d Hd'. apply elem_of_app. left. destruct Hd as [(-> & ->) | (-> & ->)], Hd' as [-> | ->]; set_solver. }
  set (l := [mkRoute d1 true; mkRoute d2 true] ++ m) in *.
  assert (Hexl : forall n, n ∈ ex -> mkRoute n false ∈ l).
  { intros n Hin. apply elem_of_app. right. apply Hex, Hin. }
  assert (Hexl' : forall r, r ∈ l -> include r = false -> inetNetwork r ∈ ex).
  { intros r [Hr | Hr]%elem_of_app Hi.
    - apply elem_of_cons in Hr as [-> | ->%list_elem_of_singleton]; discriminate.
    - apply Hex. destruct r as [n []]; [ discriminate | exact Hr ]. }
  clearbody l. clear Hd Hm Hex.
  destruct (best_route l a) as [b|]; cbn [is_best] in Hb.
  - destruct Hb as (Hin & Hc & Hmax). destruct (include b) eqn:Hi; split; try done.
    + intros _. specialize (Hinc _ Hin Hi). split.
      * destruct Hinc as [E | E]; rewrite E in Hc; apply in_networkb_spec in Hc; auto.
      * intros (n & Hnx & Hna)%Exists_exists. apply in_networkb_spec in Hna.
        specialize (Hmax _ (Hexl _ Hnx) Hna). cbn [inetNetwork] in Hmax. specialize (Hn _ Hnx). unfold narrower in Hn.
        rewrite (covers_same_kind _ _ _ Hna Hc) in Hn. destruct Hinc as [E | E]; rewrite E in *; cbn in *; lia.
    + intros (_ & Hno). exfalso. apply Hno. apply Exists_exists. exists (inetNetwork b).
      split; [ auto | apply in_networkb_spec; exact Hc ].
  - split; [ discriminate | ]. intros (Hdef & _).
    destruct Hdef as [Ha | Ha]; apply in_networkb_spec in Ha;
      [ rewrite <- (Hb _ (Hhas ipv4Default (or_introl eq_refl))) | rewrite <- (Hb _ (Hhas ipv6Global (or_intror eq_refl))) ]; exact Ha.
Qed.

(** *** From the configuration to the interface *)

Lemma elem_of_put `{EqDecision A} (l : list A) (x y : A) : y ∈ put l x <-> y ∈ l \/ y = x.
Proof. unfold put. case_decide; set_solver. Qed.

Lemma elem_of_puts `{EqDecision A} (xs l : list A) (y : A) : y ∈ foldl put l xs <-> y ∈ l \/ y ∈ xs.
Proof.
  revert l. induction xs as [ | x xs IH ]; intros l; cbn [foldl]; [ set_solver | ]. rewrite IH, elem_of_put. set_solver.
Qed.

Lemma puts_nonempty `{EqDecision A} (xs l : list A) : xs <> [] -> foldl put l xs <> [].
Proof.
  destruct xs as [ | x xs ]; [ done | ]. intros _ E. pose proof (proj2 (elem_of_puts (x :: xs) l x)) as Hx.
  rewrite E in Hx. apply (not_elem_of_nil x), Hx. right. left.
Qed.

Lemma mapM_nonempty {A B} (f : A -> option B) (l : list A) (k : list B) : mapM f l = Some k -> l <> [] -> k <> [].
Proof. intros Hm Hl ->. apply length_mapM in Hm. destruct l; [ done | discriminate ]. Qed.

(** What [configWireguard] leaves where split tunnelling is still allowed. *)
Lemma configWireguard_new `{Java} (config configData : QJsonObject) (b : WgBuilder) :
  configWireguard config configData new_builder = Some b ->
  includedAddresses (routing b) = [] /\ excludedAddresses (routing b) = [] /\ addresses (routing b) <> [] /\
  includedApplications b = [] /\ excludedApplications b = [] /\
  Forall (fun r => include r = true) (routes (routing b)) /\
  (allowSplitTunneling b = true -> default_routes (routes (routing b))).
Proof.
  unfold configWireguard. intros E. cbv zeta in E.
  repeat (apply bind_Some in E as (? & ? & E)). injection E as <-.
  cbn [routing includedApplications excludedApplications allowSplitTunneling includedAddresses excludedAddresses addresses
       routes addRoutes set_routes new_builder].
  match goal with Hn : mapM _ (split_on _ _) = Some ?nets |- _ =>
    assert (Hnets : nets <> []) by exact (mapM_nonempty _ _ _ Hn (split_on_nonempty _ _))
  end.
  split_and!; try reflexivity; [ apply puts_nonempty, Hnets | | ].
  - apply Forall_forall. intros r [Hr | Hr]%elem_of_put_routes; [ by apply not_elem_of_nil in Hr | ].
    by apply list_elem_of_fmap in Hr as (n & -> & _).
  - intros Hallow. apply Forall_forall. intros r [Hr | Hr]%elem_of_put_routes; [ by apply not_elem_of_nil in Hr | ].
    apply list_elem_of_fmap in Hr as (n & -> & Hn).
    match type of Hallow with (if ?x then _ else _) = _ => destruct x eqn:Hx; [ discriminate | ] end.
    assert (Hd : n ∈ defRoutes).
    { destruct (decide (n ∈ defRoutes)) as [ | Hnd ]; [ done | exfalso ]. apply not_true_iff_false in Hx. apply Hx.
      apply existsb_exists. exists n. split; [ by apply list_elem_of_In | by apply bool_decide_eq_true ]. }
    apply elem_of_cons in Hd as [-> | ->%list_elem_of_singleton]; tauto.
Qed.

(** The addresses that a handler puts into the builder. *)
Lemma exclude_all (nets : list InetNetwork) (r : Builder) :
  let r' := foldl (fun r n => excludeAddress n r) r nets in
  addresses r' = addresses r /\ routes r' = routes r /\ includedAddresses r' = includedAddresses r /\ mtu r' = mtu r /\
  excludedAddresses r' = foldl put (excludedAddresses r) nets.
Proof. revert r. induction nets as [ | n nets IH ]; intros r; cbn [foldl]; [ tauto | ]. apply (IH (excludeAddress n r)). Qed.

Lemma include_all (nets : list InetNetwork) (r : Builder) :
  let r' := foldl (fun r n => includeAddress n r) r nets in
  addresses r' = addresses r /\ routes r' = routes r /\ excludedAddresses r' = excludedAddresses r /\ mtu r' = mtu r /\
  includedAddresses r' = foldl put (includedAddresses r) nets.
Proof. revert r. induction nets as [ | n nets IH ]; intros r; cbn [foldl]; [ tauto | ]. apply (IH (includeAddress n r)). Qed.

(** Applications do not touch the rest, and whether they can be read does not depend on it. *)
Lemma apps_keep `{Java} (config : QJsonObject) (b b' : WgBuilder) :
  is_Some (configAppSplitTunneling config b) ->
  exists b2, configAppSplitTunneling config b' = Some b2 /\ routing b2 = routing b' /\ dnsServers b2 = dnsServers b'.
Proof.
  intros (x & Hx). unfold configAppSplitTunneling in *. destruct (_ =? 0); [ eauto | ].
  destruct (getJSONArray config "splitTunnelApps"); [ | discriminate ]. cbn [mbind option_bind] in *.
  destruct (_ =? 1); [ eauto | ]. destruct (_ =? 2); [ eauto | discriminate ].
Qed.

(** Applications are allowed or disallowed, never both, as the system demands. *)
Lemma apps_one_kind `{Java} (config : QJsonObject) (b b' : WgBuilder) :
  includedApplications b = [] -> excludedApplications b = [] -> configAppSplitTunneling config b = Some b' ->
  includedApplications b' = [] \/ excludedApplications b' = [].
Proof.
  intros Hi He. unfold configAppSplitTunneling. destruct (_ =? 0); [ intros [= <-]; auto | ].
  destruct (getJSONArray config "splitTunnelApps"); [ | discriminate ]. cbn [mbind option_bind].
  destruct (_ =? 1); [ intros [= <-]; right; exact He | ]. destruct (_ =? 2); [ intros [= <-]; left; exact Hi | discriminate ].
Qed.

(** The peer accepts what the interface sends into the tunnel. *)
Lemma tunnelled_accepted (old older : bool) (b : WgBuilder) (a : list Z) :
  tunnelled (buildVpnInterface false old older b) a = true -> peer_accepts b a = true.
Proof.
  unfold tunnelled. rewrite interface_routes. pose proof (best_route_spec (if old then List.filter include (routes (routing b)) else routes (routing b)) a) as Hb.
  destruct (best_route _ a) as [r|]; [ | discriminate ]. intros Hi. destruct Hb as (Hin & Hc & _).
  apply existsb_exists. exists (inetNetwork r). split; [ | exact Hc ]. apply in_map. apply filter_In.
  destruct old; [ apply list_elem_of_In, filter_In in Hin; tauto | split; [ by apply list_elem_of_In | exact Hi ] ].
Qed.

Lemma split_keeps (b b1 : Builder) :
  processSplitTunneling b = Some b1 -> addresses b1 = addresses b /\ mtu b1 = mtu b.
Proof.
  unfold processSplitTunneling. destruct (_ && _); [ discriminate | ].
  destruct (bool_decide _); [ intros [= <-]; split; reflexivity | ].
  destruct (bool_decide _); intros [= <-]; split; reflexivity.
Qed.

Lemma default6_keeps (b : Builder) :
  addresses (replace_default6 b) = addresses b /\ mtu (replace_default6 b) = mtu b.
Proof. unfold replace_default6. destruct (existsb _ _); split; reflexivity. Qed.

Lemma validate_ok (b : Builder) : addresses b <> [] -> routes b <> [] -> mtu b <> 0 -> validate b = Some b.
Proof.
  intros H1 H2 H3. unfold validate. rewrite !bool_decide_false by done.
  destruct (Z.eqb_spec (mtu b) 0); [ contradiction | reflexivity ].
Qed.

(** The routes of exclusive split tunnelling on systems that can exclude. *)
Lemma exclusive_new (b : Builder) (ex : list InetNetwork) :
  exclusive_shape (routes (replace_default6 b)) ex ->
  exists b', processRoutes false b = Some b' /\ routes b' = routes (replace_default6 b) /\
    addresses b' = addresses b /\ mtu b' = mtu b.
Proof.
  intros (d1 & d2 & m & Hl & Hd & Hm & _). eexists. split; [ reflexivity | ].
  cbn [set_routes routes addresses mtu]. split; [ | apply default6_keeps ].
  apply AndroidRoutes.filter_all. rewrite Hl. apply Forall_app. split.
  - destruct Hd as [(-> & ->) | (-> & ->)]; repeat constructor.
  - apply (Forall_impl _ _ _ Hm). intros r Hr. unfold is_loopback_route. rewrite Hr. reflexivity.
Qed.

(** What exclusive split tunnelling sends into the tunnel. *)
Definition outside (ex : list InetNetwork) (a : list Z) : Prop :=
  (in_network ipv4Default a \/ in_network ipv6Global a) /\ ~ Exists (fun n => in_network n a) ex.

(** Where the routes of exclusive split tunnelling lead, on either kind of system. *)
Lemma exclusive_builds (old older : bool) (b : WgBuilder) :
  includedAddresses (routing b) = [] -> excludedAddresses (routing b) <> [] -> addresses (routing b) <> [] ->
  mtu (routing b) <> 0 -> Forall wf_net (excludedAddresses (routing b)) ->
  Forall narrower (excludedAddresses (routing b)) -> default_routes (routes (routing b)) ->
  (exists a, wf_addr a /\ outside (excludedAddresses (routing b)) a /\ ~ is_loopback a) ->
  exists b', build old b = Some b' /\ dnsServers b' = dnsServers b /\ forall a, wf_addr a -> ~ is_loopback a ->
    (tunnelled (buildVpnInterface false old older b') a = true <-> outside (excludedAddresses (routing b)) a).
Proof.
  intros Hin Hex Had Hmtu Hwf Hnar Hdef (a0 & Ha0 & Hout & Hlo).
  destruct (exclusive_routes _ Hin Hex Hdef Hwf) as (b1 & Hb1 & Hw1 & Hsh).
  destruct (split_keeps _ _ Hb1) as (Ead & Emtu). destruct (default6_keeps b1) as (Ead' & Emtu').
  unfold build, configBuild. rewrite Hb1. cbn [mbind option_bind].
  assert (Hr : exists r, processRoutes old b1 = Some r /\ addresses r = addresses (routing b) /\ mtu r = mtu (routing b) /\
            routes r <> [] /\ forall b' a, routing b' = r -> wf_addr a -> ~ is_loopback a ->
              (tunnelled (buildVpnInterface false old older b') a = true <-> outside (excludedAddresses (routing b)) a)).
  { destruct old.
    - destruct (processRoutes_old b1 Hw1) as (r & -> & Hinc & E1 & E2 & Hcov); [ exact (exclusive_shape_excludes _ _ Hex Hsh) | ].
      exists r. split_and!; [ reflexivity | congruence | congruence | | ].
      + intros E. specialize (Hcov a0 Ha0). rewrite E, (exclusive_decides _ _ _ Hsh) in Hcov.
        apply (Exists_nil (fun r => include r = true /\ in_network (inetNetwork r) a0)). apply Hcov. split; [ exact Hout | exact Hlo ].
      + intros b' a <- Ha Hla. unfold tunnelled. rewrite interface_routes.
        rewrite forallb_filter_id by (apply forallb_forall; intros x Hx%list_elem_of_In; exact (proj1 (Forall_forall _ _) Hinc x Hx)).
        rewrite (included_tunnelled _ _ Hinc), (Hcov a Ha), (exclusive_decides _ _ _ Hsh). unfold outside. tauto.
    - destruct (exclusive_new b1 _ Hsh) as (r & -> & Er & E1 & E2). exists r.
      split_and!; [ reflexivity | congruence | congruence | | ].
      + rewrite Er. destruct Hsh as (d1 & d2 & m & -> & _). discriminate.
      + intros b' a <- Ha Hla. unfold tunnelled. rewrite interface_routes, Er. apply exclusive_best; assumption. }
  destruct Hr as (r & -> & E1 & E2 & Hne & Ht). cbn [mbind option_bind].
  rewrite validate_ok by congruence. cbn [mbind option_bind]. eexists. split_and!; [ reflexivity | reflexivity | ].
  intros a Ha Hla. apply Ht; [ reflexivity | assumption.. ].
Qed.

(** *** Routes of single addresses before the others *)

(** From a route that covers the address, the rest either leaves it, and then has nothing as
    specific, or decides alone. *)
Lemma more_specific_from (a : list Z) (h : Route) (l : list Route) :
  (foldl (more_specific a) (Some h) l = Some h /\
   forall x, foldl (more_specific a) None l = Some x -> (inetNetwork x).2 < (inetNetwork h).2) \/
  foldl (more_specific a) (Some h) l = foldl (more_specific a) None l.
Proof.
  induction l as [ | r l IH ] using rev_ind; [ left; split; [ reflexivity | discriminate ] | ].
  rewrite !foldl_app. cbn [foldl]. destruct IH as [(-> & Hlt) | ->]; [ | right; reflexivity ].
  unfold more_specific. destruct (in_networkb (inetNetwork r) a); [ | left; split; [ reflexivity | exact Hlt ] ].
  destruct (foldl _ None l) as [x|].
  - specialize (Hlt x eq_refl). destruct (Z.ltb_spec (inetNetwork r).2 (inetNetwork h).2) as [H1 | H1].
    + left. split; [ reflexivity | ]. intros y. destruct (_ <? _); intros [= <-]; assumption.
    + right. destruct (Z.ltb_spec (inetNetwork r).2 (inetNetwork x).2); [ lia | reflexivity ].
  - destruct (Z.ltb_spec (inetNetwork r).2 (inetNetwork h).2) as [H1 | H1]; [ left | right; reflexivity ].
    split; [ reflexivity | ]. intros y [= <-]. exact H1.
Qed.

(** Included routes put before others send into the tunnel what these send, and what they cover. *)
Lemma included_before (hs l : list Route) (a : list Z) :
  Forall (fun r => include r = true) hs ->
  let T l := match best_route l a with Some r => include r | None => false end in
  (T l = true -> T (hs ++ l) = true) /\
  (T (hs ++ l) = true -> T l = true \/ exists h, h ∈ hs /\ in_networkb (inetNetwork h) a = true).
Proof.
  intros Hhs T. unfold T. pose proof (best_route_spec hs a) as Hb. unfold best_route in *. rewrite foldl_app.
  destruct (foldl (more_specific a) None hs) as [h|]; [ | tauto ]. destruct Hb as (Hin & Hc & _).
  pose proof (proj1 (Forall_forall _ _) Hhs h Hin) as Hi. cbn beta in Hi.
  destruct (more_specific_from a h l) as [(-> & _) | ->]; [ | tauto ]. split; [ intros _; exact Hi | intros _; right; eauto ].
Qed.

(** The route of a single address covers this address only. *)
Lemma host_route (d a : list Z) : wf_addr d -> wf_addr a -> in_networkb (d, maxPrefixLength d) a = true -> a = d.
Proof.
  intros Hd Ha Hin%in_networkb_spec. destruct Hin as (Hlen & Hs). cbn [fst snd] in *.
  assert (E : maxMask d - maxPrefixLength d = 0) by (unfold maxMask, maxPrefixLength; destruct Hd as [[-> | ->] _]; reflexivity).
  rewrite E, !Z.shiftr_0_r in Hs. apply be_value_inj; [ apply Ha | apply Hd | exact Hlen | exact Hs ].
Qed.

Lemma let_dns_wf `{JavaLaws} (config : QJsonObject) (name : string) (l l' : list (list Z)) :
  let_dns config name l = Some l' -> Forall wf_addr l -> Forall wf_addr l'.
Proof.
  unfold let_dns. destruct (optStringOrNull config name) as [t|]; [ | intros [= <-]; done ].
  intros (a & Ha & ->)%fmap_Some Hl. apply address_wf in Ha. apply Forall_forall. intros x [Hx | ->]%elem_of_put; [ | exact Ha ].
  exact (proj1 (Forall_forall _ _) Hl x Hx).
Qed.

Lemma configWireguard_dns `{JavaLaws} (config configData : QJsonObject) (b : WgBuilder) :
  configWireguard config configData new_builder = Some b -> Forall wf_addr (dnsServers b).
Proof.
  unfold configWireguard. intros E. cbv zeta in E.
  apply bind_Some in E as (? & _ & E). apply bind_Some in E as (? & _ & E).
  apply bind_Some in E as (dns1 & H1 & E). apply bind_Some in E as (dns2 & H2 & E).
  repeat (apply bind_Some in E as (? & ? & E)). injection E as <-. cbn [dnsServers].
  apply (let_dns_wf _ _ _ _ H2), (let_dns_wf _ _ _ _ H1). constructor.
Qed.

(** The brand adds the servers for names and nothing else. *)
Lemma brand_adds_servers (samsung old older : bool) (b : WgBuilder) (a : list Z) :
  Forall wf_addr (dnsServers b) -> wf_addr a ->
  (tunnelled (buildVpnInterface false old older b) a = true -> tunnelled (buildVpnInterface samsung old older b) a = true) /\
  (tunnelled (buildVpnInterface samsung old older b) a = true ->
   tunnelled (buildVpnInterface false old older b) a = true \/ (samsung = true /\ a ∈ dnsServers b)).
Proof.
  intros Hdns Ha. destruct samsung; [ | tauto ]. unfold tunnelled. rewrite interface_routes, interface_routes_brand.
  set (hs := map _ _). set (l := if old then _ else _).
  destruct (included_before hs l a) as (H1 & H2); [ apply Forall_map, Forall_forall; reflexivity | ].
  split; [ exact H1 | ]. intros Ht. destruct (H2 Ht) as [ | (h & Hh & Hc)]; [ left; assumption | right ].
  split; [ reflexivity | ]. apply list_elem_of_fmap in Hh as (d & -> & Hd).
  rewrite (host_route d a (proj1 (Forall_forall _ _) Hdns d Hd) Ha Hc). exact Hd.
Qed.

(** C3: sites that are to bypass the tunnel bypass it, and nothing else does.  For a configuration
    that allows exactly default routes, has an MTU other than zero, and excludes sites that are more
    specific than these, the application builds an interface, on systems that can exclude routes and on those
    that cannot.  Loopback addresses aside, the system sends every address outside the sites (of version 6, the
    global ones) through it and the peer accepts it; inside the sites, at most servers for names
    are sent through it, and these on Samsung devices only, where they get routes of their own. *)
Theorem excluded_sites_bypass `{JavaLaws} (samsung old older : bool) (config configData : QJsonObject) (b : WgBuilder)
    (sites : list json) (nets : list InetNetwork) :
  configWireguard config configData new_builder = Some b ->
  allowSplitTunneling b = true -> mtu (routing b) <> 0 ->
  obj_value config "splitTunnelType" = Some (JDouble (inject_Z 2)) ->
  getJSONArray config "splitTunnelSites" = Some sites ->
  mapM (fun v => parse_network (coerced_text v)) sites = Some nets ->
  nets <> [] -> Forall wf_net nets -> Forall narrower nets ->
  is_Some (configAppSplitTunneling config b) ->
  (exists a, wf_addr a /\ outside nets a /\ ~ is_loopback a) ->
  exists b', split_and_build old config b = Some b' /\
    forall a, wf_addr a -> ~ is_loopback a ->
      (outside nets a -> tunnelled (buildVpnInterface samsung old older b') a = true /\ peer_accepts b' a = true) /\
      (tunnelled (buildVpnInterface samsung old older b') a = true ->
       outside nets a \/ (samsung = true /\ a ∈ dnsServers b)).
Proof.
  intros Hb Hallow Hmtu Htype Hsites Hnets Hne Hwf Hnar Happs Hsome.
  destruct (configWireguard_new _ _ _ Hb) as (Hi & He & Had & _ & _ & _ & Hdef). specialize (Hdef Hallow).
  unfold split_and_build, configSplitTunneling. rewrite Hallow. cbn [negb].
  unfold optInt at 1 2 3. rewrite Htype, (int_of_number 2) by lia. cbn [default from_option id].
  change (2 =? 0) with false. change (2 =? 1) with false. change (2 =? 2) with true. cbv iota.
  rewrite Hsites. cbn [mbind option_bind]. rewrite Hnets. cbn [mbind option_bind].
  set (r := foldl _ _ _). destruct (exclude_all nets (routing b)) as (E1 & E2 & E3 & E4 & E5).
  fold r in E1, E2, E3, E4, E5. rewrite He in E5. clearbody r.
  destruct (apps_keep config b (set_routing r b) Happs) as (b2 & -> & Hr2 & Hd2). cbn [mbind option_bind routing set_routing dnsServers] in *.
  assert (Hsame : forall n, n ∈ excludedAddresses r <-> n ∈ nets).
  { intros n. rewrite E5, elem_of_puts. set_solver. }
  assert (Hout : forall a, outside (excludedAddresses r) a <-> outside nets a).
  { intros a. unfold outside. rewrite !Exists_exists. setoid_rewrite Hsame. reflexivity. }
  destruct (exclusive_builds old older b2) as (b' & -> & Hd' & Ht); rewrite ?Hr2.
  - congruence.
  - rewrite E5. by apply puts_nonempty.
  - congruence.
  - congruence.
  - apply Forall_forall. intros n Hn%Hsame. exact (proj1 (Forall_forall _ _) Hwf n Hn).
  - apply Forall_forall. intros n Hn%Hsame. exact (proj1 (Forall_forall _ _) Hnar n Hn).
  - congruence.
  - setoid_rewrite Hout. exact Hsome.
  - exists b'. split; [ reflexivity | ]. intros a Ha Hla. specialize (Ht a Ha Hla). rewrite Hr2, Hout in Ht.
    pose proof (configWireguard_dns _ _ _ Hb) as Hdns. rewrite <- Hd2, <- Hd' in Hdns |- *.
    destruct (brand_adds_servers samsung old older b' a Hdns Ha) as (H1 & H2). split.
    + intros Ho. apply Ht in Ho. split; [ exact (H1 Ho) | exact (tunnelled_accepted old older b' a Ho) ].
    + intros Hs. destruct (H2 Hs) as [Hs' | Hs']; [ left; apply Ht, Hs' | right; exact Hs' ].
Qed.

(** The routes of inclusive split tunnelling over the default routes. *)
Lemma inclusive_built `{Java} (old : bool) (b b' : WgBuilder) :
  includedAddresses (routing b) <> [] -> excludedAddresses (routing b) = [] ->
  ipv6Default ∉ includedAddresses (routing b) -> default_routes (routes (routing b)) -> build old b = Some b' ->
  dnsServers b' = dnsServers b /\
  Forall (fun r => include r = true /\ inetNetwork r ∈ includedAddresses (routing b)) (routes (routing b')).
Proof.
  intros Hi He H6 Hdef Hb. unfold build in Hb. apply bind_Some in Hb as (r & Hr & [= <-]). split; [ reflexivity | ].
  assert (Hinc : Forall (fun r => include r = true) (routes (routing b))).
  { apply (Forall_impl _ _ _ Hdef). intros x [-> | [-> | ->]]; reflexivity. }
  destruct (inclusive_split_tunnel old _ Hi He Hinc H6) as (r' & E & Hroutes).
  rewrite E in Hr. unfold validate in Hr. destruct (_ || _); [ discriminate | ]. injection Hr as ->.
  apply Forall_forall. cbn [routing set_routing]. intros x Hx%Hroutes.
  destruct Hx as (_ & [Hx | (Hx & N1 & N2 & N3)]); [ exact Hx | exfalso ].
  pose proof (proj1 (Forall_forall _ _) Hdef x Hx) as [-> | [-> | ->]]; cbn in *; congruence.
Qed.

(** On a Samsung device, where the servers for names get routes of their own, a server outside
    the sites that are to use the tunnel is sent into the tunnel by the system and not accepted by
    the peer, which knows only the sites: names are not resolved. *)
Theorem samsung_dns_lost `{JavaLaws} (old older : bool) (config configData : QJsonObject) (b b' : WgBuilder)
    (sites : list json) (nets : list InetNetwork) (dns : list Z) :
  configWireguard config configData new_builder = Some b -> allowSplitTunneling b = true ->
  obj_value config "splitTunnelType" = Some (JDouble (inject_Z 1)) ->
  getJSONArray config "splitTunnelSites" = Some sites ->
  mapM (fun v => parse_network (coerced_text v)) sites = Some nets -> nets <> [] -> ipv6Default ∉ nets ->
  split_and_build old config b = Some b' ->
  dns ∈ dnsServers b -> existsb (fun n => in_networkb n dns) nets = false ->
  tunnelled (buildVpnInterface true old older b') dns = true /\ peer_accepts b' dns = false.
Proof.
  intros Hb Hallow Htype Hsites Hnets Hne H6 Hbuild Hdns Hout.
  destruct (configWireguard_new _ _ _ Hb) as (Hi & He & _ & _ & _ & _ & Hdef). specialize (Hdef Hallow).
  unfold split_and_build, configSplitTunneling in Hbuild. rewrite Hallow in Hbuild. cbn [negb] in Hbuild.
  unfold optInt at 1 2 3 in Hbuild. rewrite Htype, (int_of_number 1) in Hbuild by lia. cbn [default from_option id] in Hbuild.
  change (1 =? 0) with false in Hbuild. change (1 =? 1) with true in Hbuild. cbv iota in Hbuild.
  rewrite Hsites in Hbuild. cbn [mbind option_bind] in Hbuild. rewrite Hnets in Hbuild. cbn [mbind option_bind] in Hbuild.
  set (r := foldl _ _ _) in Hbuild. destruct (include_all nets (routing b)) as (E1 & E2 & E3 & E4 & E5).
  fold r in E1, E2, E3, E4, E5. rewrite Hi in E5. clearbody r.
  apply bind_Some in Hbuild as (b2 & Happ & Hbuild).
  destruct (apps_keep config (set_routing r b) (set_routing r b) (ex_intro _ _ Happ)) as (b2' & E & Hr2 & Hd2).
  rewrite Happ in E. injection E as <-. cbn [routing set_routing dnsServers] in Hr2, Hd2.
  assert (Hsame : forall n, n ∈ includedAddresses r <-> n ∈ nets) by (intros n; rewrite E5, elem_of_puts; set_solver).
  destruct (inclusive_built old b2 b') as (Hd' & Hall); rewrite ?Hr2.
  { rewrite E5. by apply puts_nonempty. }
  { congruence. }
  { by rewrite Hsame. }
  { congruence. }
  { exact Hbuild. }
  rewrite Hr2 in Hall. split.
  - unfold tunnelled. rewrite interface_routes_brand. apply included_tunnelled.
    + apply Forall_app. split; [ apply Forall_map, Forall_forall; reflexivity | ].
      destruct old; apply Forall_forall; intros x Hx.
      * apply list_elem_of_In, filter_In in Hx. tauto.
      * exact (proj1 (proj1 (Forall_forall _ _) Hall x Hx)).
    + apply Exists_app. left. apply Exists_exists. exists (mkRoute (dns, maxPrefixLength dns) true).
      split; [ apply list_elem_of_fmap; exists dns; split; [ reflexivity | congruence ] | split; [ reflexivity | apply in_network_self ] ].
  - apply not_true_iff_false. unfold peer_accepts, allowed_networks. intros (n & Hn & Hc)%existsb_exists.
    apply in_map_iff in Hn as (x & <- & Hx). apply filter_In in Hx as (Hx & _). apply list_elem_of_In in Hx.
    pose proof (proj2 (proj1 (Forall_forall _ _) Hall x Hx)) as Hin. apply Hsame in Hin.
    apply not_true_iff_false in Hout. apply Hout. apply existsb_exists. exists (inetNetwork x).
    split; [ by apply list_elem_of_In | exact Hc ].
Qed.

(** ** Examples *)

Definition example_address (s : string) : option (list Z) :=
  if String.eqb s "10.8.0.2" then Some [10; 8; 0; 2]
  else if String.eqb s "0.0.0.0" then Some [0; 0; 0; 0]
  else if String.eqb s "8.8.8.8" then Some [8; 8; 8; 8]
  else if String.eqb s "1.1.1.1" then Some [1; 1; 1; 1]
  else if String.eqb s "203.0.113.1" then Some [203; 0; 113; 1]
  else None.

#[local] Instance example_java : Java := {
  parseInetAddress := example_address;
  ip_text := fun _ => "address";
  base64ToHex := fun s => Some s;
  coerced_text := fun v => match v with JString s => s | _ => EmptyString end;
  coerced_int := fun v => match v with JDouble q => Some (Z.quot (Qnum q) (Z.pos (Qden q))) | _ => None end;
  coerced_bool := fun v => match v with JBool x => Some x | _ => None end
}.

#[local] Instance example_java_laws : JavaLaws.
Proof.
  split.
  - reflexivity.
  - intros n _. cbn. rewrite Z.quot_1_r. reflexivity.
  - intros s a. cbn. unfold example_address.
    repeat (destruct (String.eqb s _); [ intros [= <-]; split; [ left; reflexivity | repeat constructor; unfold is_byte; lia ] | ]).
    discriminate.
Qed.

Definition example_data : QJsonObject :=
  [("client_ip", JString "10.8.0.2"); ("allowed_ips", JArray [JString "0.0.0.0/0"]); ("hostName", JString "203.0.113.1");
   ("port", JDouble (inject_Z 51820)); ("client_priv_key", JString "k"); ("server_pub_key", JString "p")].

Definition example_tunnel_config (mode : Z) : QJsonObject :=
  [("dns1", JString "1.1.1.1"); ("splitTunnelType", JDouble (inject_Z mode));
   ("splitTunnelSites", JArray [JString "8.8.8.8"]); ("wireguard_config_data", JObject example_data)].

Definition example_start : TunnelEvent :=
  Starts (parseConfig true (example_tunnel_config 2)) (mkAnswers true true 7 true true).

Lemma stop_stays_down_witness :
  state (tunnel_run [JobReads 0 (Some 5); JobActs 0] (stopVpn (tunnel_run [example_start; JobRuns 0] no_tunnel))) = DISCONNECTED.
Proof.
  assert (Hj : jobs (tunnel_run [example_start; JobRuns 0] no_tunnel) = [mkJob Reading false]) by (vm_compute; reflexivity).
  apply (stop_stays_down (tunnel_run [example_start; JobRuns 0] no_tunnel) [JobReads 0 (Some 5); JobActs 0]).
  - vm_compute. discriminate.
  - rewrite Hj. repeat constructor.
  - reflexivity.
Defined.

Lemma late_handshake_told_witness :
  state (tunnel_run [Stops; JobActs 0] (tunnel_run [example_start; JobRuns 0; JobReads 0 (Some 5)] no_tunnel)) = CONNECTED.
Proof.
  apply (late_handshake_told (tunnel_run [example_start; JobRuns 0; JobReads 0 (Some 5)] no_tunnel) 0 5 false);
    [ vm_compute; discriminate | vm_compute; reflexivity | lia ].
Defined.

(** The builder after [configWireguard]. *)
Definition example_builder (mode : Z) : WgBuilder :=
  default new_builder (configWireguard (example_tunnel_config mode) example_data new_builder).

Lemma not_in_network (n : InetNetwork) (a : list Z) : in_networkb n a = false -> ~ in_network n a.
Proof. intros Hn Hin%in_networkb_spec. congruence. Qed.

Lemma example_outside :
  wf_addr [1; 1; 1; 1] /\ outside [([8; 8; 8; 8], 32)] [1; 1; 1; 1] /\ ~ is_loopback [1; 1; 1; 1].
Proof.
  split; [ | split; [ split | ] ].
  - split; [ left; reflexivity | repeat constructor; unfold is_byte; lia ].
  - left. apply in_networkb_spec. reflexivity.
  - intros [Hx | Hx]%Exists_cons; [ apply not_in_network in Hx; [ exact Hx | reflexivity ] | by apply Exists_nil in Hx ].
  - intros [Hx | Hx]; apply not_in_network in Hx; try exact Hx; reflexivity.
Qed.

Lemma excluded_sites_bypass_witness :
  exists b', split_and_build true (example_tunnel_config 2) (example_builder 2) = Some b' /\
    tunnelled (buildVpnInterface true true false b') [1; 1; 1; 1] = true.
Proof.
  destruct example_outside as (Hwf & Hout & Hlo).
  destruct (excluded_sites_bypass true true false (example_tunnel_config 2) example_data (example_builder 2)
              [JString "8.8.8.8"] [([8; 8; 8; 8], 32)]) as (b' & Hb & Ht).
  - vm_compute. reflexivity.
  - vm_compute. reflexivity.
  - vm_compute. discriminate.
  - reflexivity.
  - reflexivity.
  - vm_compute. reflexivity.
  - discriminate.
  - constructor; [ apply wf_dns_net | constructor ].
  - repeat constructor.
  - eexists. vm_compute. reflexivity.
  - exists [1; 1; 1; 1]. split_and!; assumption.
  - exists b'. split; [ exact Hb | ]. apply (Ht [1; 1; 1; 1] Hwf Hlo). exact Hout.
Defined.

Lemma samsung_dns_lost_witness :
  exists b', split_and_build false (example_tunnel_config 1) (example_builder 1) = Some b' /\
    tunnelled (buildVpnInterface true false false b') [1; 1; 1; 1] = true /\ peer_accepts b' [1; 1; 1; 1] = false.
Proof.
  eexists. split; [ vm_compute; reflexivity | ].
  apply (samsung_dns_lost false false (example_tunnel_config 1) example_data (example_builder 1) _
           [JString "8.8.8.8"] [([8; 8; 8; 8], 32)] [1; 1; 1; 1]).
  - vm_compute. reflexivity.
  - vm_compute. reflexivity.
  - reflexivity.
  - reflexivity.
  - vm_compute. reflexivity.
  - discriminate.
  - intros Hx%list_elem_of_singleton. discriminate.
  - vm_compute. reflexivity.
  - vm_compute. left.
  - vm_compute. reflexivity.
Defined.
