(* ===== verification/AndroidService.v ===== *)
(** * The service of the Android application

    Models [AmneziaVpnService] (client/android/src/org/amnezia/vpn/AmneziaVpnService.kt) over
    the tunnel of [AndroidTunnel]: the commands of clients, the jobs that connect, renew and
    disconnect, the handler of their exceptions, and the collector of states.

    A command is handled on the main thread; a job is cut where it suspends (to join another
    job, or to wait for a state), and any job may go on between any two events.  A job that
    was cancelled ends where it would start or resume, and not in between.  The state flow is
    conflated: who collects it sees the value of the moment.

    The service is the one for configurations of WireGuard and AmneziaWG; other kinds have services
    of their own.  Each of the two kinds has a protocol object; the model has one, which is exact
    while a run stays with one kind or changes it with the tunnel down.  Notifications, statistics,
    server names and the end of the process are left out. *)

From stdpp Require Import base numbers list strings.
From Stdlib Require Import ZArith Lia Strings.String Strings.Ascii.
From S2P Require Import Prelude Json Framing AndroidRoutes AndroidTunnel.
Open Scope string_scope.
Open Scope list_scope.
Open Scope Z_scope.

(** ** State *)

(** What a job still has to do: a connection that was launched or waits for a disconnection, a
    renewal, a disconnection that was launched, waits for a connection, or waits for the state. *)
Inductive Work :=
| ConnectWork (parsed : option WgBuilder)
| JoinDisconnection (parsed : option WgBuilder) (d : nat)
| ReconnectWork
| DisconnectWork
| JoinConnection (c : nat)
| WaitDisconnected
| Done.

Record Job := mkServiceJob { work : Work; job_cancelled : bool }.

(** The kinds of configurations of this service, [AwgService]. *)
Inductive VpnProto := WIREGUARD | AWG.

(** [protocolState] is the state of the tunnel; [last_seen] is what the collector saw last, [told]
    what it told the clients. *)
Record Service := mkService {
  tunnel : Tunnel;
  connectionJob : option nat;
  disconnectionJob : option nat;
  service_jobs : list Job;
  isServiceBound : bool;
  listening : bool;
  last_seen : ProtocolState;
  told : list ProtocolState;
  errors : nat;
  stopping : bool;
  LAST_CONF : string
}.

Definition new_service : Service := mkService no_tunnel None None [] false false UNKNOWN [] 0 false EmptyString.

Definition protocolState (s : Service) : ProtocolState := state (tunnel s).

Definition with_tunnel (t : Tunnel) (s : Service) : Service :=
  mkService t (connectionJob s) (disconnectionJob s) (service_jobs s) (isServiceBound s) (listening s) (last_seen s) (told s)
    (errors s) (stopping s) (LAST_CONF s).

Definition with_state (st : ProtocolState) (s : Service) : Service := with_tunnel (set_state st (tunnel s)) s.

Definition with_jobs (l : list Job) (s : Service) : Service :=
  mkService (tunnel s) (connectionJob s) (disconnectionJob s) l (isServiceBound s) (listening s) (last_seen s) (told s)
    (errors s) (stopping s) (LAST_CONF s).

Definition with_connection (c : option nat) (s : Service) : Service :=
  mkService (tunnel s) c (disconnectionJob s) (service_jobs s) (isServiceBound s) (listening s) (last_seen s) (told s)
    (errors s) (stopping s) (LAST_CONF s).

Definition with_disconnection (d : option nat) (s : Service) : Service :=
  mkService (tunnel s) (connectionJob s) d (service_jobs s) (isServiceBound s) (listening s) (last_seen s) (told s)
    (errors s) (stopping s) (LAST_CONF s).

Definition onError (s : Service) : Service :=
  mkService (tunnel s) (connectionJob s) (disconnectionJob s) (service_jobs s) (isServiceBound s) (listening s) (last_seen s)
    (told s) (S (errors s)) (stopping s) (LAST_CONF s).

Definition stopService (s : Service) : Service :=
  mkService (tunnel s) (connectionJob s) (disconnectionJob s) (service_jobs s) (isServiceBound s) (listening s) (last_seen s)
    (told s) (errors s) true (LAST_CONF s).

Definition save_conf (text : string) (s : Service) : Service :=
  mkService (tunnel s) (connectionJob s) (disconnectionJob s) (service_jobs s) (isServiceBound s) (listening s) (last_seen s)
    (told s) (errors s) (stopping s) text.

(** ** Jobs *)

Definition launch (w : Work) (s : Service) : nat * Service :=
  (List.length (service_jobs s), with_jobs (service_jobs s ++ [mkServiceJob w false]) s).

Definition set_work (j : nat) (w : Work) (s : Service) : Service :=
  with_jobs (alter (fun x => mkServiceJob w (job_cancelled x)) j (service_jobs s)) s.

Definition finish_job (j : nat) (s : Service) : Service := set_work j Done s.

Definition cancel_one (job : option nat) (l : list Job) : list Job :=
  match job with
  | Some j => alter (fun x => mkServiceJob (work x) true) j l
  | None => l
  end.

Definition is_done (w : Work) : bool := match w with Done => true | _ => false end.

(** A job that does not exist has nothing to do. *)
Definition finished (s : Service) (j : nat) : bool :=
  match service_jobs s !! j with Some x => is_done (work x) | None => true end.

(** [connectionExceptionHandler] *)
Definition on_exception (s : Service) : Service :=
  let l := cancel_one (disconnectionJob s) (cancel_one (connectionJob s) (service_jobs s)) in
  onError (with_state DISCONNECTED (with_disconnection None (with_connection None (with_jobs l s)))).

Section Steps.
Context `{Java}.

(** [parse_json] is the constructor of [JSONObject], [sdk_lt_33] the version of Android. *)
Variables (parse_json : string -> option QJsonObject) (sdk_lt_33 : bool).

(** The rest of a connection: the protocol is initialised and started. *)
Definition start_segment (parsed : option WgBuilder) (a : Answers) (j : nat) (s : Service) : Service :=
  let s1 := with_disconnection None s in
  let '(ok, t) := startVpn parsed a (initialize (tunnel s1)) in
  let s2 := with_tunnel t s1 in
  finish_job j (if ok then s2 else on_exception s2).

Definition reconnect_segment (a : Answers) (j : nat) (s : Service) : Service :=
  let '(ok, t) := reconnectVpn a (tunnel s) in
  let s1 := with_tunnel t s in
  finish_job j (if ok then s1 else on_exception s1).

(** The rest of a disconnection, up to the wait for the state. *)
Definition stop_segment (j : nat) (s : Service) : Service :=
  let s1 := with_connection None s in
  set_work j WaitDisconnected (with_tunnel (stopVpn (tunnel s1)) s1).

Definition job_step (j : nat) (a : Answers) (s : Service) : Service :=
  match service_jobs s !! j with
  | None => s
  | Some (mkServiceJob w c) =>
      match w with
      | Done => s
      | _ =>
          if c then finish_job j s
          else match w with
            | ConnectWork parsed =>
                match disconnectionJob s with
                | Some d => if finished s d then start_segment parsed a j s else set_work j (JoinDisconnection parsed d) s
                | None => start_segment parsed a j s
                end
            | JoinDisconnection parsed d => if finished s d then start_segment parsed a j s else s
            | ReconnectWork => reconnect_segment a j s
            | DisconnectWork =>
                match connectionJob s with
                | Some c' =>
                    let s1 := with_jobs (cancel_one (Some c') (service_jobs s)) s in
                    if finished s1 c' then stop_segment j s1 else set_work j (JoinConnection c') s1
                | None => stop_segment j s
                end
            | JoinConnection c' => if finished s c' then stop_segment j s else s
            | WaitDisconnected => if decide (protocolState s = DISCONNECTED) then finish_job j s else s
            | Done => s
            end
      end
  end.

(** [DISCONNECT_TIMEOUT] runs out. *)
Definition job_timeout (j : nat) (s : Service) : Service :=
  match service_jobs s !! j with
  | Some (mkServiceJob WaitDisconnected false) => finish_job j (stopService s)
  | _ => s
  end.

(** ** Commands *)

Definition upper_char (c : ascii) : ascii :=
  let n := N_of_ascii c in if ((97 <=? n) && (n <=? 122))%N then ascii_of_N (n - 32) else c.

Fixpoint uppercase (s : string) : string :=
  match s with EmptyString => EmptyString | String c s' => String (upper_char c) (uppercase s') end.

(** [VpnProto.get(config.getString("protocol"))], which throws for an unknown name.  Configurations of
    the other kinds are sent to services of other classes ([serviceClass]). *)
Definition VpnProto_get (config : QJsonObject) : option VpnProto :=
  p ← getString config "protocol";
  if String.eqb (uppercase p) "WIREGUARD" then Some WIREGUARD
  else if String.eqb (uppercase p) "AWG" then Some AWG
  else None.

(** The configuration as [startVpn] of the protocol reads it. *)
Definition proto_parse (proto : VpnProto) (config : QJsonObject) : option WgBuilder :=
  match proto with
  | WIREGUARD => parseConfig sdk_lt_33 config
  | AWG => Awg_parseConfig sdk_lt_33 config
  end.

(** A blank text is no configuration and no error of its own. *)
Definition parseConfigToJson (vpnConfig : string) (s : Service) : option QJsonObject * Service :=
  if String.eqb (trimmed vpnConfig) EmptyString then (None, s)
  else match parse_json vpnConfig with
    | Some config => (Some config, s)
    | None => (None, onError s)
    end.

Definition connectToVpn (vpnConfig : string) (permitted : bool) (s : Service) : Service :=
  if decide (protocolState s = CONNECTED \/ protocolState s = CONNECTING) then s
  else
    let '(config, s1) := parseConfigToJson vpnConfig s in
    match config with
    | None => with_state DISCONNECTED (onError s1)
    | Some config =>
        match VpnProto_get config with
        | None => with_state DISCONNECTED (onError s1)
        | Some proto =>
            let s2 := with_state CONNECTING s1 in
            if negb permitted then with_state DISCONNECTED s2
            else
              let '(c, s3) := launch (ConnectWork (proto_parse proto config)) s2 in
              with_connection (Some c) s3
        end
    end.

Definition connect (vpnConfig : option string) (permitted : bool) (s : Service) : Service :=
  match vpnConfig with
  | None => connectToVpn (LAST_CONF s) permitted s
  | Some text => connectToVpn text permitted (save_conf text s)
  end.

Definition disconnect (s : Service) : Service :=
  if decide (protocolState s = UNKNOWN \/ protocolState s = DISCONNECTED \/ protocolState s = DISCONNECTING) then s
  else
    let '(d, s1) := launch DisconnectWork (with_state DISCONNECTING s) in
    with_disconnection (Some d) s1.

Definition reconnect (s : Service) : Service :=
  if decide (protocolState s <> CONNECTED) then s
  else
    let '(c, s1) := launch ReconnectWork (with_state RECONNECTING s) in
    with_connection (Some c) s1.

(** ** The collector and the binding of clients *)

Definition with_listening (l : bool) (s : Service) : Service :=
  mkService (tunnel s) (connectionJob s) (disconnectionJob s) (service_jobs s) (isServiceBound s) l (last_seen s) (told s)
    (errors s) (stopping s) (LAST_CONF s).

(** One value of the flow, [launchProtocolStateHandler]. *)
Definition collect (s : Service) : Service :=
  let st := protocolState s in
  if decide (st = last_seen s) then s
  else
    let s1 := mkService (tunnel s) (connectionJob s) (disconnectionJob s) (service_jobs s) (isServiceBound s) (listening s) st
                (told s ++ [st]) (errors s) (stopping s) (LAST_CONF s) in
    match st with
    | CONNECTED => with_listening true s1
    | DISCONNECTED => let s2 := with_listening false s1 in if isServiceBound s2 then s2 else stopService s2
    | DISCONNECTING => with_listening false s1
    | _ => s1
    end.

Definition with_bound (b : bool) (s : Service) : Service :=
  mkService (tunnel s) (connectionJob s) (disconnectionJob s) (service_jobs s) b (listening s) (last_seen s) (told s)
    (errors s) (stopping s) (LAST_CONF s).

(** The last client leaves. *)
Definition onUnbind (s : Service) : Service :=
  let s1 := with_bound false s in
  if decide (protocolState s = UNKNOWN \/ protocolState s = DISCONNECTED) then stopService s1 else s1.

Inductive Event :=
| ConnectAsked (vpnConfig : option string) (permitted : bool)
| DisconnectAsked
| NetworkChanged
| JobSteps (j : nat) (a : Answers)
| TimeoutFires (j : nat)
| StatusRuns (i : nat) | StatusReads (i : nat) (answer : option Z) | StatusActs (i : nat)
| Collects
| Binds
| Unbinds.

Definition service_step (s : Service) (e : Event) : Service :=
  match e with
  | ConnectAsked vpnConfig permitted => connect vpnConfig permitted s
  | DisconnectAsked => disconnect s
  | NetworkChanged => if listening s then reconnect s else s
  | JobSteps j a => job_step j a s
  | TimeoutFires j => job_timeout j s
  | StatusRuns i => with_tunnel (job_runs i (tunnel s)) s
  | StatusReads i answer => with_tunnel (job_reads i answer (tunnel s)) s
  | StatusActs i => with_tunnel (job_acts i (tunnel s)) s
  | Collects => collect s
  | Binds => with_bound true s
  | Unbinds => onUnbind s
  end.

Definition service_run (es : list Event) (s : Service) : Service := fold_left service_step es s.
End Steps.

(** ** Jobs that can still act *)

Definition connecting (w : Work) : bool :=
  match w with ConnectWork _ | JoinDisconnection _ _ | ReconnectWork => true | _ => false end.

(** A connection that has not been started, renewals aside. *)
Definition fresh (w : Work) : bool := match w with ConnectWork _ | JoinDisconnection _ _ => true | _ => false end.

Definition disconnecting (w : Work) : bool :=
  match w with DisconnectWork | JoinConnection _ | WaitDisconnected => true | _ => false end.

Definition joining (w : Work) : bool := match w with JoinConnection _ => true | _ => false end.

(** The job is at such work and not cancelled. *)
Definition live (f : Work -> bool) (l : list Job) (j : nat) : bool :=
  match l !! j with Some x => f (work x) && negb (job_cancelled x) | None => false end.

(** A status job that can still act. *)
Definition active_in (l : list StatusJob) (i : nat) : bool :=
  match l !! i with
  | Some (mkJob Ended _) | None => false
  | Some (mkJob _ c) => negb c
  end.

Definition active (t : Tunnel) (i : nat) : bool := active_in (jobs t) i.

Definition down_state (st : ProtocolState) : bool := match st with DISCONNECTED | UNKNOWN => true | _ => false end.

(** ** Events of a calm surrounding

    Clients connect only what is down; while a disconnection goes on, no other is asked for and
    the network does not change; a cancelled status job does nothing more; the backend's
    handshake is a time; a renewal sets up an interface that the system took before. *)
Definition calm_event (s : Service) (e : Event) : Prop :=
  match e with
  | ConnectAsked _ _ => down_state (protocolState s) = true
  | DisconnectAsked | NetworkChanged => forall d, live disconnecting (service_jobs s) d = false
  | JobSteps j a => live (fun w => match w with ReconnectWork => true | _ => false end) (service_jobs s) j = true -> accepted a = true
  | StatusRuns i | StatusActs i => forall x, jobs (tunnel s) !! i = Some x -> cancelled x = false
  | StatusReads i answer =>
      (forall x, jobs (tunnel s) !! i = Some x -> cancelled x = false) /\ (forall h, answer = Some h -> 0 <= h)
  | _ => True
  end.

Section Calm.
Context `{Java} (parse_json : string -> option QJsonObject) (sdk_lt_33 : bool).
Local Abbreviation service_step := (service_step parse_json sdk_lt_33).
Local Abbreviation service_run := (service_run parse_json sdk_lt_33).

Fixpoint calm (es : list Event) (s : Service) : Prop :=
  match es with
  | [] => True
  | e :: es' => calm_event s e /\ calm es' (service_step s e)
  end.

(** ** The invariant *)

Record consistent (t : Tunnel) (c : option nat) (l : list Job) : Prop := {
  live_is_current j : live connecting l j = true -> c = Some j;
  live_no_status j i : live connecting l j = true -> active t i = false;
  fresh_down j : live fresh l j = true -> tunnelHandle t = -1;
  joining_alone d : live joining l d = true ->
    (forall j, live connecting l j = false) /\ (forall i, active t i = false) /\ down_state (state t) = false;
  one_disconnects d d' : live disconnecting l d = true -> live disconnecting l d' = true -> d = d';
  connected_up : state t = CONNECTED ->
    tunnelHandle t <> -1 /\ (forall j, live connecting l j = false) /\ (forall i, active t i = false);
  down_is_down : down_state (state t) = true -> tunnelHandle t = -1 /\ (forall j, live connecting l j = false);
  active_up i : active t i = true -> tunnelHandle t <> -1 /\ statusJob t = Some i;
  active_read i h c' : jobs t !! i = Some (mkJob (HasRead h) c') -> c' = false -> h <> -1;
  up_config : tunnelHandle t <> -1 -> config t <> None;
  backend : one_tunnel t
}.

Definition service_ok (s : Service) : Prop := consistent (tunnel s) (connectionJob s) (service_jobs s).

(** *** Changes of the list of jobs *)

Lemma live_true (f : Work -> bool) (l : list Job) (j : nat) :
  live f l j = true <-> exists x, l !! j = Some x /\ f (work x) = true /\ job_cancelled x = false.
Proof.
  unfold live. destruct (l !! j) as [x|]; [ | split; [ discriminate | intros (x & [=] & _) ] ].
  rewrite andb_true_iff, negb_true_iff. split; [ intros (Hf & Hc); eauto | intros (y & [= <-] & Hy); exact Hy ].
Qed.

Lemma live_app (f : Work -> bool) (l : list Job) (w : Work) (j : nat) :
  live f (l ++ [mkServiceJob w false]) j = true -> live f l j = true \/ (j = List.length l /\ f w = true).
Proof.
  rewrite !live_true. intros (x & Hx & Hf & Hc). apply lookup_app_Some in Hx as [Hx | (Hge & Hx)]; [ left; eauto | right ].
  destruct (j - List.length l)%nat eqn:E; cbn in Hx; [ injection Hx as <- | discriminate ]. split; [ lia | exact Hf ].
Qed.

Lemma live_work (f : Work -> bool) (l : list Job) (w : Work) (j k : nat) :
  live f (alter (fun x => mkServiceJob w (job_cancelled x)) j l) k = true ->
  (k <> j /\ live f l k = true) \/ (k = j /\ f w = true /\ exists x, l !! j = Some x /\ job_cancelled x = false).
Proof.
  rewrite !live_true. intros (x & Hx & Hf & Hc). destruct (decide (k = j)) as [-> | Hne].
  - right. rewrite list_lookup_alter_eq in Hx. apply fmap_Some in Hx as (y & Hy & ->). cbn in *. eauto.
  - left. rewrite list_lookup_alter_ne in Hx by congruence. eauto.
Qed.

Lemma live_cancel (f : Work -> bool) (l : list Job) (c : option nat) (k : nat) :
  live f (cancel_one c l) k = true -> live f l k = true /\ c <> Some k.
Proof.
  destruct c as [c|]; [ cbn [cancel_one] | intros Hl; split; [ exact Hl | discriminate ] ].
  rewrite !live_true. intros (x & Hx & Hf & Hc). destruct (decide (c = k)) as [-> | Hne].
  - rewrite list_lookup_alter_eq in Hx. apply fmap_Some in Hx as (y & Hy & ->). discriminate.
  - rewrite list_lookup_alter_ne in Hx by congruence. split; [ eauto | congruence ].
Qed.

(** Fewer jobs are live. *)
Definition fewer (l l' : list Job) : Prop :=
  forall f k, f Done = false -> live f l' k = true -> live f l k = true.

Lemma fewer_done (l : list Job) (j : nat) : fewer l (alter (fun x => mkServiceJob Done (job_cancelled x)) j l).
Proof. intros f k Hf Hl. apply live_work in Hl as [(_ & Hl) | (_ & Hw & _)]; [ exact Hl | congruence ]. Qed.

Lemma fewer_cancel (l : list Job) (c : option nat) : fewer l (cancel_one c l).
Proof. intros f k _ Hl. apply live_cancel in Hl. tauto. Qed.

Lemma fewer_trans (l1 l2 l3 : list Job) : fewer l1 l2 -> fewer l2 l3 -> fewer l1 l3.
Proof. unfold fewer. eauto. Qed.

Lemma not_live (f : Work -> bool) (l l' : list Job) (k : nat) :
  fewer l l' -> f Done = false -> live f l k = false -> live f l' k = false.
Proof. intros Hl Hf Hk. destruct (live f l' k) eqn:E; [ rewrite (Hl f k Hf E) in Hk; discriminate | reflexivity ]. Qed.

Lemma consistent_fewer (t : Tunnel) (c : option nat) (l l' : list Job) :
  fewer l l' -> consistent t c l -> consistent t c l'.
Proof.
  intros Hl [HA HJ HP HV HX HL HD HU HR HC HT]. split; try assumption.
  - intros j Hj. exact (HA _ (Hl connecting j eq_refl Hj)).
  - intros j i Hj. exact (HJ _ i (Hl connecting j eq_refl Hj)).
  - intros j Hj. exact (HP _ (Hl fresh j eq_refl Hj)).
  - intros d Hd. destruct (HV _ (Hl joining d eq_refl Hd)) as (H1 & H2). split; [ | exact H2 ].
    intros j. exact (not_live connecting _ _ j Hl eq_refl (H1 j)).
  - intros d d' Hd Hd'. exact (HX _ _ (Hl disconnecting d eq_refl Hd) (Hl disconnecting d' eq_refl Hd')).
  - intros Hs. destruct (HL Hs) as (H1 & H2 & H3). split_and!; [ exact H1 | | exact H3 ].
    intros j. exact (not_live connecting _ _ j Hl eq_refl (H2 j)).
  - intros Hs. destruct (HD Hs) as (H1 & H2). split; [ exact H1 | ]. intros j. exact (not_live connecting _ _ j Hl eq_refl (H2 j)).
Qed.

(** *** Changes of the tunnel *)

Lemma active_true (l : list StatusJob) (i : nat) :
  active_in l i = true <-> exists x, l !! i = Some x /\ phase x <> Ended /\ cancelled x = false.
Proof.
  unfold active_in. destruct (l !! i) as [[ph c]|]; [ | split; [ discriminate | intros (x & [=] & _) ] ].
  split.
  - intros Ha. exists (mkJob ph c). split_and!; [ reflexivity | | ]; destruct ph; cbn in *; try discriminate; destruct c; try discriminate; reflexivity.
  - intros (x & [= <-] & Hp & Hc). cbn in *. subst c. destruct ph; try reflexivity. congruence.
Qed.

(** The current status job is the only one that can be active, so its cancellation leaves none. *)
Lemma cancel_quiet (l : list StatusJob) (job : option nat) (i : nat) :
  (forall k, active_in l k = true -> job = Some k) -> active_in (cancel l job) i = false.
Proof.
  intros Hl. apply not_true_iff_false. intros Ha. apply active_true in Ha as (x & Hx & Hp & Hc).
  destruct job as [k|]; cbn [cancel] in Hx.
  - destruct (decide (k = i)) as [-> | Hne].
    + rewrite list_lookup_alter_eq in Hx. apply fmap_Some in Hx as (y & _ & ->). discriminate.
    + rewrite list_lookup_alter_ne in Hx by congruence. assert (Some k = Some i) by (apply Hl, active_true; eauto). congruence.
  - discriminate (Hl i (proj2 (active_true l i) (ex_intro _ x (conj Hx (conj Hp Hc))))).
Qed.

Lemma initialize_quiet (t : Tunnel) (i : nat) : active (initialize t) i = false.
Proof.
  apply not_true_iff_false. intros Ha. apply active_true in Ha as (x & Hx & _ & Hc). unfold initialize in Hx. cbn [jobs] in Hx.
  rewrite list_lookup_fmap in Hx. apply fmap_Some in Hx as (y & _ & ->). discriminate.
Qed.

(** A new status job is the only one, where there was none. *)
Lemma active_snoc (l : list StatusJob) (i : nat) :
  (forall k, active_in l k = false) -> active_in (l ++ [mkJob Launched false]) i = true -> i = List.length l.
Proof.
  intros Hl Ha. apply active_true in Ha as (x & Hx & Hp & Hc). apply lookup_app_Some in Hx as [Hx | (Hge & Hx)].
  - specialize (Hl i). rewrite (proj2 (active_true l i)) in Hl by eauto. discriminate.
  - destruct (i - List.length l)%nat eqn:E; [ lia | discriminate ].
Qed.

(** The outcomes of a start: a new tunnel with its status job, or none. *)
Lemma start_result (b : WgBuilder) (again : bool) (a : Answers) (t : Tunnel) :
  one_tunnel t -> tunnelHandle t = -1 \/ (again = true /\ accepted a = true) ->
  let l := if tunnelHandle t =? -1 then jobs t else cancel (jobs t) (statusJob t) in
  let '(ok, t') := start b again a t in
  one_tunnel t' /\ state t' = state t /\ config t' = config t /\
  if ok then tunnelHandle t' <> -1 /\ jobs t' = l ++ [mkJob Launched false] /\ statusJob t' = Some (List.length l)
  else tunnelHandle t' = -1 /\ jobs t' = l.
Proof.
  intros Ht Hcase l. pose proof (one_tunnel_start b again a t Ht) as Hone.
  destruct (start b again a t) as [ok t'] eqn:E. split; [ exact Hone | ]. clear Hone. revert E. unfold start.
  destruct (negb again && negb (tunnelHandle t =? -1)) eqn:Hup.
  { destruct Hcase as [Hh | (-> & _)]; [ rewrite Hh, andb_false_r in Hup | ]; discriminate. }
  destruct (accepted a) eqn:Hacc; cbn [negb].
  2: { intros [= <- <-]. destruct Hcase as [Hh | (_ & Hx)]; [ | discriminate ]. split_and!; try reflexivity; [ exact Hh | subst l; rewrite Hh; reflexivity ]. }
  set (t1 := if again && negb (tunnelHandle t =? -1) then turnOffVpn t else t).
  assert (H1 : tunnelHandle t1 = -1 /\ jobs t1 = l /\ state t1 = state t /\ config t1 = config t).
  { unfold t1, l. destruct (Z.eqb_spec (tunnelHandle t) (-1)) as [Eh | Eh].
    - rewrite andb_false_r. tauto.
    - destruct Hcase as [Hh | (-> & _)]; [ contradiction | ]. cbn [andb negb]. repeat split. }
  clearbody t1. destruct H1 as (Hh & Hj & Hs & Hc).
  destruct (granted a); cbn [negb]; [ | intros [= <- <-]; tauto ].
  destruct (toWgUserspaceString b); [ | intros [= <- <-]; tauto ].
  destruct (Z.ltb_spec (handle a) 0); [ intros [= <- <-]; tauto | ].
  destruct (protected4 a && protected6 a); cbn [negb]; intros [= <- <-]; cbn; [ | tauto ].
  rewrite Hj. split_and!; try assumption; try reflexivity. lia.
Qed.

(** A state in which no connection is live. *)
Lemma consistent_new (t' : Tunnel) (c' : option nat) (l' : list Job) :
  (forall d d', live disconnecting l' d = true -> live disconnecting l' d' = true -> d = d') -> (forall j, live connecting l' j = false) ->
  (forall d, live joining l' d = true -> (forall i, active t' i = false) /\ down_state (state t') = false) ->
  (state t' = CONNECTED -> tunnelHandle t' <> -1 /\ (forall i, active t' i = false)) ->
  (down_state (state t') = true -> tunnelHandle t' = -1) ->
  (forall i, active t' i = true -> tunnelHandle t' <> -1 /\ statusJob t' = Some i) ->
  (forall i h c', jobs t' !! i = Some (mkJob (HasRead h) c') -> c' = false -> h <> -1) ->
  (tunnelHandle t' <> -1 -> config t' <> None) -> one_tunnel t' ->
  consistent t' c' l'.
Proof.
  intros HX Hno Hjoin Hconn Hdown Hact Hread Hconf Hone.
  assert (Hfresh : forall j, live fresh l' j = false).
  { intros j. apply not_true_iff_false. rewrite live_true. intros (x & Hx & Hf & Hc). specialize (Hno j).
    apply not_true_iff_false in Hno. apply Hno, live_true. exists x. split_and!; [ exact Hx | | exact Hc ].
    destruct (work x); try discriminate; reflexivity. }
  split; try assumption.
  - intros j Hj. rewrite Hno in Hj. discriminate.
  - intros j i Hj. rewrite Hno in Hj. discriminate.
  - intros j Hj. rewrite Hfresh in Hj. discriminate.
  - intros d Hd. split; [ exact Hno | exact (Hjoin d Hd) ].
  - intros Hs. destruct (Hconn Hs) as (H1 & H2). split_and!; assumption.
  - intros Hs. split; [ exact (Hdown Hs) | exact Hno ].
Qed.

(** Status jobs of the old tunnel that have read nothing harmful, kept and cancelled. *)
Definition reads_ok (l : list StatusJob) : Prop :=
  forall i h c', l !! i = Some (mkJob (HasRead h) c') -> c' = false -> h <> -1.

Lemma reads_ok_cancel (l : list StatusJob) (job : option nat) : reads_ok l -> reads_ok (cancel l job).
Proof.
  intros Hl i h c' Hi Hc. destruct job as [k|]; [ cbn [cancel] in Hi | exact (Hl _ _ _ Hi Hc) ].
  destruct (decide (k = i)) as [-> | Hne].
  - rewrite list_lookup_alter_eq in Hi. apply fmap_Some in Hi as (y & _ & [= _ ->]). discriminate.
  - rewrite list_lookup_alter_ne in Hi by congruence. exact (Hl _ _ _ Hi Hc).
Qed.

Lemma reads_ok_snoc (l : list StatusJob) : reads_ok l -> reads_ok (l ++ [mkJob Launched false]).
Proof.
  intros Hl i h c' Hi Hc. apply lookup_app_Some in Hi as [Hi | (_ & Hi)]; [ exact (Hl _ _ _ Hi Hc) | ].
  destruct (i - List.length l)%nat; discriminate.
Qed.

Lemma reads_ok_cancelled (l : list StatusJob) : reads_ok (map (fun j => mkJob (phase j) true) l).
Proof.
  intros i h c' Hi Hc. rewrite list_lookup_fmap in Hi. apply fmap_Some in Hi as (y & _ & [= _ ->]). discriminate.
Qed.

(** *** Segments of jobs *)

Ltac service_cbn :=
  cbn [with_tunnel with_state with_jobs with_connection with_disconnection onError stopService save_conf finish_job set_work
       on_exception with_listening with_bound tunnel connectionJob disconnectionJob service_jobs isServiceBound listening
       last_seen told errors stopping LAST_CONF fst snd] in *.

(** What a live connection means for the rest. *)
Lemma live_facts (t : Tunnel) (c : option nat) (l : list Job) (j : nat) :
  consistent t c l -> live connecting l j = true ->
  c = Some j /\ (forall i, active t i = false) /\ state t <> CONNECTED /\ down_state (state t) = false /\
  (forall d, live joining l d = false).
Proof.
  intros Hs Hj. split_and!.
  - exact (live_is_current _ _ _ Hs j Hj).
  - intros i. exact (live_no_status _ _ _ Hs j i Hj).
  - intros E. destruct (connected_up _ _ _ Hs E) as (_ & Hno & _). rewrite Hno in Hj. discriminate.
  - apply not_true_iff_false. intros E. destruct (down_is_down _ _ _ Hs E) as (_ & Hno). rewrite Hno in Hj. discriminate.
  - intros d. apply not_true_iff_false. intros Hd. destruct (joining_alone _ _ _ Hs d Hd) as (Hno & _). rewrite Hno in Hj. discriminate.
Qed.

(** Once the live connection is not live any more, none is. *)
Lemma none_live (t : Tunnel) (c : option nat) (l l' : list Job) (j k : nat) :
  consistent t c l -> live connecting l j = true -> fewer l l' -> live connecting l' j = false -> live connecting l' k = false.
Proof.
  intros Hs Hj Hl Hnot. apply not_true_iff_false. intros Hk.
  pose proof (live_is_current _ _ _ Hs j Hj) as E. pose proof (live_is_current _ _ _ Hs k (Hl connecting k eq_refl Hk)) as E'.
  assert (k = j) as -> by congruence. congruence.
Qed.

Lemma one_stays (t : Tunnel) (c : option nat) (l l' : list Job) :
  consistent t c l -> fewer l l' ->
  forall d d', live disconnecting l' d = true -> live disconnecting l' d' = true -> d = d'.
Proof.
  intros Hs Hl d d' Hd Hd'. exact (one_disconnects _ _ _ Hs _ _ (Hl disconnecting d eq_refl Hd) (Hl disconnecting d' eq_refl Hd')).
Qed.

Lemma done_not_live (f : Work -> bool) (l : list Job) (j : nat) :
  f Done = false -> live f (alter (fun x => mkServiceJob Done (job_cancelled x)) j l) j = false.
Proof. intros Hf. apply not_true_iff_false. intros Hl. apply live_work in Hl as [(Hne & _) | (_ & Hw & _)]; congruence. Qed.

Lemma fresh_connecting (l : list Job) (j : nat) : live fresh l j = true -> live connecting l j = true.
Proof.
  rewrite !live_true. intros (x & Hx & Hf & Hc). exists x. split_and!; [ exact Hx | | exact Hc ].
  destruct (work x); try discriminate; reflexivity.
Qed.

(** The end of a job that was connecting: the tunnel is up with its own status job, or it is down and
    the exception was handled. *)
Lemma connected_ok (t t' : Tunnel) (c c' : option nat) (l l' : list Job) (j : nat) (old : list StatusJob) :
  consistent t c l -> live connecting l j = true -> fewer l l' -> live connecting l' j = false ->
  one_tunnel t' -> state t' = state t -> tunnelHandle t' <> -1 -> config t' <> None ->
  (forall i, active_in old i = false) -> reads_ok old ->
  jobs t' = old ++ [mkJob Launched false] -> statusJob t' = Some (List.length old) ->
  consistent t' c' l'.
Proof.
  intros Hs Hj Hl Hnot Hone Hst Hup Hconf Hquiet Hreads Hjobs Hjob.
  destruct (live_facts _ _ _ _ Hs Hj) as (_ & _ & Hnc & Hnd & Hnj).
  apply consistent_new; try assumption.
  - exact (one_stays _ _ _ _ Hs Hl).
  - intros k. exact (none_live _ _ _ _ j k Hs Hj Hl Hnot).
  - intros d Hd. pose proof (Hl joining d eq_refl Hd) as Hd'. rewrite Hnj in Hd'. discriminate.
  - rewrite Hst. intros E. contradiction.
  - rewrite Hst. intros E. congruence.
  - intros i Hi. unfold active in Hi. rewrite Hjobs in Hi. apply active_snoc in Hi; [ | exact Hquiet ]. subst i. split; assumption.
  - rewrite Hjobs. exact (reads_ok_snoc _ Hreads).
  - intros _. exact Hconf.
Qed.

Lemma failed_ok (t t' : Tunnel) (c c' : option nat) (l l' : list Job) (j : nat) :
  consistent t c l -> live connecting l j = true -> fewer l l' -> live connecting l' j = false ->
  one_tunnel t' -> tunnelHandle t' = -1 -> (forall i, active t' i = false) -> reads_ok (jobs t') ->
  consistent (set_state DISCONNECTED t') c' l'.
Proof.
  intros Hs Hj Hl Hnot Hone Hdown Hquiet Hreads. destruct (live_facts _ _ _ _ Hs Hj) as (_ & _ & _ & _ & Hnj).
  apply consistent_new.
  - exact (one_stays _ _ _ _ Hs Hl).
  - intros k. exact (none_live _ _ _ _ j k Hs Hj Hl Hnot).
  - intros d Hd. pose proof (Hl joining d eq_refl Hd) as Hd'. rewrite Hnj in Hd'. discriminate.
  - discriminate.
  - intros _. exact Hdown.
  - intros i Hi. change (active t' i = true) in Hi. rewrite Hquiet in Hi. discriminate.
  - exact Hreads.
  - intros Hup. contradiction.
  - exact Hone.
Qed.

Lemma start_segment_ok (parsed : option WgBuilder) (a : Answers) (j : nat) (s : Service) :
  service_ok s -> live fresh (service_jobs s) j = true -> service_ok (start_segment parsed a j s).
Proof.
  intros Hs Hf. pose proof (fresh_connecting _ _ Hf) as Hj. pose proof (fresh_down _ _ _ Hs j Hf) as Hdown.
  pose proof (backend _ _ _ Hs) as Hone. unfold service_ok, start_segment, startVpn. service_cbn.
  assert (Hfail : forall t', one_tunnel t' -> tunnelHandle t' = -1 -> jobs t' = jobs (initialize (tunnel s)) ->
            service_ok (finish_job j (on_exception (with_tunnel t' (with_disconnection None s))))).
  { intros t' H1 H2 H3. unfold service_ok. service_cbn.
    apply (failed_ok (tunnel s) t' (connectionJob s) _ (service_jobs s) _ j Hs Hj); try assumption.
    - eapply fewer_trans; [ apply fewer_cancel | apply fewer_done ].
    - apply done_not_live. reflexivity.
    - intros i. unfold active. rewrite H3. apply initialize_quiet.
    - rewrite H3. apply reads_ok_cancelled. }
  destruct parsed as [b|]; [ | apply Hfail; [ exact Hone | exact Hdown | reflexivity ] ].
  pose proof (start_result b false a (initialize (tunnel s)) Hone (or_introl Hdown)) as Hr. cbv zeta in Hr.
  replace (tunnelHandle (initialize (tunnel s)) =? -1) with true in Hr by (symmetry; apply Z.eqb_eq; exact Hdown).
  destruct (start b false a (initialize (tunnel s))) as [[] t'].
  - destruct Hr as (H1 & H2 & H3 & H4 & H5 & H6). service_cbn.
    apply (connected_ok (tunnel s) _ (connectionJob s) _ (service_jobs s) _ j (jobs (initialize (tunnel s))) Hs Hj);
      try assumption; [ apply fewer_done | apply done_not_live; reflexivity | discriminate | apply initialize_quiet | apply reads_ok_cancelled ].
  - destruct Hr as (H1 & _ & _ & H4 & H5). apply Hfail; assumption.
Qed.

Definition is_reconnect (w : Work) : bool := match w with ReconnectWork => true | _ => false end.

Lemma reconnect_segment_ok (a : Answers) (j : nat) (s : Service) :
  service_ok s -> live is_reconnect (service_jobs s) j = true -> accepted a = true -> service_ok (reconnect_segment a j s).
Proof.
  intros Hs Hr Hacc.
  assert (Hj : live connecting (service_jobs s) j = true).
  { rewrite live_true in *. destruct Hr as (x & Hx & Hf & Hc). exists x. split_and!; [ exact Hx | | exact Hc ].
    destruct (work x); try discriminate; reflexivity. }
  pose proof (backend _ _ _ Hs) as Hone. destruct (live_facts _ _ _ _ Hs Hj) as (_ & Hquiet & _).
  assert (Hfail : forall t', one_tunnel t' -> tunnelHandle t' = -1 -> (forall i, active t' i = false) -> reads_ok (jobs t') ->
            service_ok (finish_job j (on_exception (with_tunnel t' s)))).
  { intros t' H1 H2 H3 H4. unfold service_ok. service_cbn.
    apply (failed_ok (tunnel s) t' (connectionJob s) _ (service_jobs s) _ j Hs Hj); try assumption.
    - eapply fewer_trans; [ eapply fewer_trans; apply fewer_cancel | apply fewer_done ].
    - apply done_not_live. reflexivity. }
  unfold reconnect_segment, reconnectVpn. destruct (config (tunnel s)) as [b|] eqn:Hconf.
  2: { apply Hfail; [ exact Hone | | exact Hquiet | exact (active_read _ _ _ Hs) ].
       destruct (Z.eq_dec (tunnelHandle (tunnel s)) (-1)) as [ | Hup ]; [ assumption | ].
       exfalso. exact (up_config _ _ _ Hs Hup Hconf). }
  pose proof (start_result b true a (tunnel s) Hone (or_intror (conj eq_refl Hacc))) as Hres. cbv zeta in Hres.
  set (old := if tunnelHandle (tunnel s) =? -1 then _ else _) in Hres.
  assert (Hold : (forall i, active_in old i = false) /\ reads_ok old).
  { unfold old. destruct (_ =? _); [ split; [ exact Hquiet | exact (active_read _ _ _ Hs) ] | split ].
    - intros i. apply cancel_quiet. intros k Hk. exact (proj2 (active_up _ _ _ Hs k Hk)).
    - exact (reads_ok_cancel _ _ (active_read _ _ _ Hs)). }
  clearbody old. destruct Hold as (Hq & Hreads). destruct (start b true a (tunnel s)) as [[] t'].
  - destruct Hres as (H1 & H2 & H3 & H4 & H5 & H6). unfold service_ok. service_cbn.
    apply (connected_ok (tunnel s) _ (connectionJob s) _ (service_jobs s) _ j old Hs Hj);
      try assumption; [ apply fewer_done | apply done_not_live; reflexivity | congruence ].
  - destruct Hres as (H1 & _ & _ & H4 & H5). apply Hfail; try assumption; [ intros i; unfold active; rewrite H5; apply Hq | rewrite H5; exact Hreads ].
Qed.

Lemma joining_disconnecting (l : list Job) (d : nat) : live joining l d = true -> live disconnecting l d = true.
Proof.
  rewrite !live_true. intros (x & Hx & Hf & Hc). exists x. split_and!; [ exact Hx | | exact Hc ].
  destruct (work x); try discriminate; reflexivity.
Qed.

(** The tunnel is stopped by the one disconnection, with no connection live. *)
Lemma stop_segment_ok (j : nat) (s : Service) (l : list Job) :
  service_ok s -> fewer (service_jobs s) l -> live disconnecting (service_jobs s) j = true ->
  (forall k, live connecting l k = false) -> service_ok (stop_segment j (with_jobs l s)).
Proof.
  intros Hs Hl Hd Hno. unfold service_ok, stop_segment. service_cbn. set (l' := alter _ j l).
  assert (Hall : forall d, live disconnecting l' d = true -> d = j).
  { intros d Hk. apply live_work in Hk as [(_ & Hk) | (E & _)]; [ | exact E ].
    exact (one_disconnects _ _ _ Hs _ _ (Hl disconnecting d eq_refl Hk) Hd). }
  assert (Hnoj : forall d, live joining l' d = true -> False).
  { intros d Hk. pose proof (Hall d (joining_disconnecting _ _ Hk)) as ->.
    apply live_work in Hk as [(Hne & _) | (_ & [=] & _)]. congruence. }
  apply consistent_new.
  - intros d d' H1 H2. rewrite (Hall d H1), (Hall d' H2). reflexivity.
  - intros k. apply not_true_iff_false. intros Hk. apply live_work in Hk as [(_ & Hk) | (_ & [=] & _)]. rewrite Hno in Hk. discriminate.
  - intros d Hk. destruct (Hnoj d Hk).
  - unfold stopVpn. destruct (_ =? _); [ | discriminate ]. intros E. destruct (connected_up _ _ _ Hs E) as (A & _ & B). tauto.
  - unfold stopVpn. destruct (Z.eqb_spec (tunnelHandle (tunnel s)) (-1)); [ intros _; assumption | reflexivity ].
  - unfold stopVpn. destruct (_ =? _); [ exact (active_up _ _ _ Hs) | ]. intros i Hi.
    change (active_in (cancel (jobs (tunnel s)) (statusJob (tunnel s))) i = true) in Hi.
    rewrite cancel_quiet in Hi; [ discriminate | ]. intros k Hk. exact (proj2 (active_up _ _ _ Hs k Hk)).
  - unfold stopVpn. destruct (_ =? _); [ exact (active_read _ _ _ Hs) | exact (reads_ok_cancel _ _ (active_read _ _ _ Hs)) ].
  - unfold stopVpn. destruct (_ =? _); [ exact (up_config _ _ _ Hs) | ]. intros Hup. destruct (Hup eq_refl).
  - unfold stopVpn. destruct (_ =? _); [ exact (backend _ _ _ Hs) | apply (one_tunnel_off _ (backend _ _ _ Hs)) ].
Qed.

(** *** The current connection *)

(** The current connection is live or over, or a disconnection waits for it. *)
Definition current_ok (c : option nat) (l : list Job) : Prop :=
  forall j, c = Some j -> exists x, l !! j = Some x /\
    (work x <> Done -> live connecting l j = true \/ exists d, live joining l d = true).

Definition full_ok (s : Service) : Prop := service_ok s /\ current_ok (connectionJob s) (service_jobs s).

Lemma live_other (f : Work -> bool) (l : list Job) (g : Job -> Job) (j k : nat) :
  j <> k -> live f (alter g j l) k = live f l k.
Proof. intros Hne. unfold live. rewrite list_lookup_alter_ne by exact Hne. reflexivity. Qed.

(** A job that is not a live wait for the connection ends. *)
Lemma current_done (c : option nat) (l : list Job) (k : nat) :
  live joining l k = false -> current_ok c l -> current_ok c (alter (fun x => mkServiceJob Done (job_cancelled x)) k l).
Proof.
  intros Hk Hc j Hj. destruct (Hc j Hj) as (x & Hx & Hor). destruct (decide (k = j)) as [-> | Hne].
  - exists (mkServiceJob Done (job_cancelled x)). rewrite list_lookup_alter_eq, Hx. split; [ reflexivity | contradiction ].
  - exists x. rewrite list_lookup_alter_ne by exact Hne. split; [ exact Hx | ]. intros Hw. destruct (Hor Hw) as [Hl | (d & Hd)].
    + left. rewrite live_other by exact Hne. exact Hl.
    + right. exists d. rewrite live_other; [ exact Hd | ]. intros ->. congruence.
Qed.

Lemma current_none (l : list Job) : current_ok None l.
Proof. intros j [=]. Qed.

(** The job that was the current connection ends. *)
Lemma current_over (f : Work -> bool) (l : list Job) (j : nat) :
  live f l j = true -> current_ok (Some j) (alter (fun x => mkServiceJob Done (job_cancelled x)) j l).
Proof.
  intros Hl k [= <-]. apply live_true in Hl as (x & Hx & _). exists (mkServiceJob Done (job_cancelled x)).
  rewrite list_lookup_alter_eq, Hx. split; [ reflexivity | contradiction ].
Qed.

(** Work that changes without a change of its kind. *)
Lemma consistent_relabel (t : Tunnel) (c : option nat) (l : list Job) (j : nat) (w w' : Work) (b : bool) :
  l !! j = Some (mkServiceJob w b) -> connecting w' = connecting w -> fresh w' = fresh w ->
  disconnecting w' = disconnecting w -> joining w' = joining w ->
  consistent t c l -> consistent t c (alter (fun x => mkServiceJob w' (job_cancelled x)) j l).
Proof.
  intros Hj H1 H2 H3 H4 Hs.
  assert (Hsame : forall f k, f w' = f w -> live f (alter (fun x => mkServiceJob w' (job_cancelled x)) j l) k = live f l k).
  { intros f k Hf. destruct (decide (j = k)) as [<- | Hne]; [ | apply live_other, Hne ].
    unfold live. rewrite list_lookup_alter_eq, Hj. cbn. rewrite Hf. reflexivity. }
  destruct Hs as [HA HJ HP HV HX HL HD HU HR HC HT].
  split; try assumption; repeat (intros ?); rewrite ?Hsame in * by assumption; eauto.
  - destruct (HV _ H0) as (A & B). split; [ intros k; rewrite Hsame by assumption; apply A | exact B ].
  - destruct (HL H0) as (A & B & C). split_and!; [ exact A | intros k; rewrite Hsame by assumption; apply B | exact C ].
  - destruct (HD H0) as (A & B). split; [ exact A | intros k; rewrite Hsame by assumption; apply B ].
Qed.

Lemma live_at (f : Work -> bool) (l : list Job) (j : nat) (w : Work) :
  l !! j = Some (mkServiceJob w false) -> live f l j = f w.
Proof. intros Hj. unfold live. rewrite Hj. cbn. apply andb_true_r. Qed.

Lemma not_live_cancelled (f : Work -> bool) (l : list Job) (j : nat) (w : Work) :
  l !! j = Some (mkServiceJob w true) -> live f l j = false.
Proof. intros Hj. unfold live. rewrite Hj. cbn. apply andb_false_r. Qed.

Lemma start_segment_full (parsed : option WgBuilder) (a : Answers) (j : nat) (s : Service) :
  full_ok s -> live fresh (service_jobs s) j = true -> full_ok (start_segment parsed a j s).
Proof.
  intros (Hs & _) Hf. split; [ apply start_segment_ok; assumption | ].
  pose proof (live_is_current _ _ _ Hs j (fresh_connecting _ _ Hf)) as Hc.
  unfold start_segment. destruct (startVpn _ _ _) as [[] t]; service_cbn; [ rewrite Hc; exact (current_over _ _ _ Hf) | apply current_none ].
Qed.

(** The disconnection that begins cancels the connection and waits for it, or goes on at once. *)
Lemma disconnect_begins (j : nat) (s : Service) :
  full_ok s -> service_jobs s !! j = Some (mkServiceJob DisconnectWork false) ->
  forall c, connectionJob s = Some c ->
    let s1 := with_jobs (cancel_one (Some c) (service_jobs s)) s in
    full_ok (if finished s1 c then stop_segment j s1 else set_work j (JoinConnection c) s1).
Proof.
  intros (Hs & Hcur) Hj c Hc s1. pose proof (live_at disconnecting _ _ _ Hj) as Hd. cbn in Hd.
  assert (Hno : forall k, live connecting (cancel_one (Some c) (service_jobs s)) k = false).
  { intros k. apply not_true_iff_false. intros Hk. apply live_cancel in Hk as (Hk & Hne).
    pose proof (live_is_current _ _ _ Hs k Hk). congruence. }
  destruct (finished s1 c) eqn:Hfin.
  { split; [ | apply current_none ]. apply stop_segment_ok; [ exact Hs | apply fewer_cancel | exact Hd | exact Hno ]. }
  assert (Hlive : live connecting (service_jobs s) c = true).
  { unfold finished, s1 in Hfin. service_cbn. cbn [cancel_one] in Hfin. rewrite list_lookup_alter_eq in Hfin.
    destruct (Hcur c Hc) as (x & Hx & Hor). rewrite Hx in Hfin. cbn in Hfin.
    destruct Hor as [Hl | (d & Hl)]; [ intros E; rewrite E in Hfin; discriminate | exact Hl | exfalso ].
    pose proof (one_disconnects _ _ _ Hs _ _ (joining_disconnecting _ _ Hl) Hd) as ->.
    rewrite (live_at joining _ _ _ Hj) in Hl. discriminate. }
  destruct (live_facts _ _ _ _ Hs Hlive) as (_ & Hquiet & Hnc & Hnd & _).
  set (l := alter (fun x => mkServiceJob (JoinConnection c) (job_cancelled x)) j (cancel_one (Some c) (service_jobs s))).
  assert (Hne : j <> c).
  { intros ->. rewrite (live_at connecting _ _ _ Hj) in Hlive. discriminate. }
  assert (Hjl : l !! j = Some (mkServiceJob (JoinConnection c) false)).
  { unfold l. rewrite list_lookup_alter_eq. cbn [cancel_one]. rewrite list_lookup_alter_ne, Hj by congruence. reflexivity. }
  split.
  - unfold service_ok, s1. service_cbn. fold l.
    apply consistent_new.
    + assert (Hall : forall d, live disconnecting l d = true -> d = j).
      { intros d Hk. apply live_work in Hk as [(_ & Hk) | (E & _)]; [ | exact E ].
        exact (one_disconnects _ _ _ Hs _ _ (fewer_cancel _ _ disconnecting d eq_refl Hk) Hd). }
      intros d d' H1 H2. rewrite (Hall d H1), (Hall d' H2). reflexivity.
    + intros k. apply not_true_iff_false. intros Hk. apply live_work in Hk as [(_ & Hk) | (_ & [=] & _)]. rewrite Hno in Hk. discriminate.
    + intros _ _. split; assumption.
    + intros E. contradiction.
    + intros E. congruence.
    + exact (active_up _ _ _ Hs).
    + exact (active_read _ _ _ Hs).
    + exact (up_config _ _ _ Hs).
    + exact (backend _ _ _ Hs).
  - unfold s1. service_cbn. fold l. intros k Hk. assert (k = c) as -> by congruence.
    apply live_true in Hlive as (x & Hx & _). exists (mkServiceJob (work x) true). split.
    + unfold l. rewrite list_lookup_alter_ne by exact Hne. cbn [cancel_one]. rewrite list_lookup_alter_eq, Hx. reflexivity.
    + intros _. right. exists j. rewrite (live_at joining _ _ _ Hjl). reflexivity.
Qed.

Lemma finish_full (j : nat) (s : Service) : full_ok s -> live joining (service_jobs s) j = false -> full_ok (finish_job j s).
Proof.
  intros (Hs & Hc) Hj. split; [ exact (consistent_fewer _ _ _ _ (fewer_done _ j) Hs) | exact (current_done _ _ _ Hj Hc) ].
Qed.

Lemma job_step_full (j : nat) (a : Answers) (s : Service) :
  full_ok s -> calm_event s (JobSteps j a) -> full_ok (job_step j a s).
Proof.
  intros Hs Hcalm. cbn [calm_event] in Hcalm. unfold job_step.
  destruct (service_jobs s !! j) as [[w []]|] eqn:Hj; [ | | exact Hs ].
  { assert (Hf : full_ok (finish_job j s)) by (apply finish_full; [ exact Hs | exact (not_live_cancelled _ _ _ _ Hj) ]).
    destruct w; try exact Hf. exact Hs. }
  destruct w as [parsed | parsed d | | | c | | ].
  - assert (Hf : live fresh (service_jobs s) j = true) by exact (live_at fresh _ _ _ Hj).
    destruct (disconnectionJob s) as [d|]; [ destruct (finished s d) | ]; try (apply start_segment_full; assumption).
    destruct Hs as (Hs & Hc). split; [ exact (consistent_relabel _ _ _ _ _ (JoinDisconnection parsed d) _ Hj eq_refl eq_refl eq_refl eq_refl Hs) | ].
    intros k Hk. service_cbn. pose proof (live_is_current _ _ _ Hs j (fresh_connecting _ _ Hf)) as E.
    assert (k = j) as -> by congruence. unfold live. rewrite list_lookup_alter_eq, Hj. cbn. eauto.
  - destruct (finished s d); [ apply start_segment_full; [ exact Hs | exact (live_at fresh _ _ _ Hj) ] | exact Hs ].
  - pose proof (live_at is_reconnect _ _ _ Hj) as Hr. cbn in Hr. destruct Hs as (Hs & _).
    split; [ apply reconnect_segment_ok; [ exact Hs | exact Hr | exact (Hcalm Hr) ] | ].
    pose proof (live_is_current _ _ _ Hs j (live_at connecting _ _ _ Hj)) as Hc.
    unfold reconnect_segment. destruct (reconnectVpn _ _) as [[] t]; service_cbn; [ rewrite Hc; exact (current_over _ _ _ Hr) | apply current_none ].
  - destruct (connectionJob s) as [c|] eqn:Hc; [ exact (disconnect_begins j s Hs Hj c Hc) | ].
    destruct Hs as (Hs & _). split; [ | apply current_none ].
    replace s with (with_jobs (service_jobs s) s) by (destruct s; reflexivity).
    apply stop_segment_ok; [ exact Hs | intros f k _ Hk; exact Hk | exact (live_at disconnecting _ _ _ Hj) | ].
    intros k. apply not_true_iff_false. intros Hk. pose proof (live_is_current _ _ _ Hs k Hk). congruence.
  - destruct (finished s c); [ | exact Hs ]. destruct Hs as (Hs & _). split; [ | apply current_none ].
    replace s with (with_jobs (service_jobs s) s) by (destruct s; reflexivity).
    apply stop_segment_ok; [ exact Hs | intros f k _ Hk; exact Hk | exact (live_at disconnecting _ _ _ Hj) | ].
    exact (proj1 (joining_alone _ _ _ Hs j (live_at joining _ _ _ Hj))).
  - destruct (decide _); [ apply finish_full; [ exact Hs | exact (live_at joining _ _ _ Hj) ] | exact Hs ].
  - exact Hs.
Qed.

(** *** Commands *)

Lemma consistent_down (t : Tunnel) (c : option nat) (l : list Job) :
  consistent t c l -> down_state (state t) = true -> consistent (set_state DISCONNECTED t) c l.
Proof.
  intros Hs Hd. destruct (down_is_down _ _ _ Hs Hd) as (Hdown & Hno).
  apply consistent_new; try assumption.
  - exact (one_disconnects _ _ _ Hs).
  - intros d Hj. destruct (joining_alone _ _ _ Hs d Hj) as (_ & _ & Hx). congruence.
  - discriminate.
  - intros _. exact Hdown.
  - exact (active_up _ _ _ Hs).
  - exact (active_read _ _ _ Hs).
  - exact (up_config _ _ _ Hs).
  - exact (backend _ _ _ Hs).
Qed.

(** A connection or a renewal is launched where none is live, none waits, and no status job is active. *)
Lemma launch_ok (t : Tunnel) (c : option nat) (l : list Job) (w : Work) (st : ProtocolState) :
  consistent t c l -> connecting w = true -> (forall j, live connecting l j = false) -> (forall i, active t i = false) ->
  (fresh w = true -> tunnelHandle t = -1) -> (forall d, live joining l d = false) ->
  st <> CONNECTED -> down_state st = false ->
  consistent (set_state st t) (Some (List.length l)) (l ++ [mkServiceJob w false]).
Proof.
  intros Hs Hw Hno Hquiet Hfresh Hnoj Hst Hdown.
  assert (Hnew : forall f k, live f l k = false -> live f (l ++ [mkServiceJob w false]) k = true -> k = List.length l /\ f w = true).
  { intros f k Hf Hk. apply live_app in Hk as [Hk | Hk]; [ congruence | exact Hk ]. }
  assert (Hnofresh : forall k, live fresh l k = false).
  { intros k. apply not_true_iff_false. intros Hk. apply fresh_connecting in Hk. rewrite Hno in Hk. discriminate. }
  assert (Hndisc : disconnecting w = false /\ joining w = false) by (destruct w; try discriminate; split; reflexivity).
  split.
  - intros j Hj. destruct (Hnew _ _ (Hno j) Hj) as (-> & _). reflexivity.
  - intros j i _. exact (Hquiet i).
  - intros j Hj. destruct (Hnew _ _ (Hnofresh j) Hj) as (_ & Hf). exact (Hfresh Hf).
  - intros d Hd. destruct (Hnew _ _ (Hnoj d) Hd) as (_ & Hf). destruct Hndisc as (_ & E). congruence.
  - intros d d' Hd Hd'. destruct Hndisc as (E & _). apply live_app in Hd as [Hd | (_ & Hf)]; [ | congruence ].
    apply live_app in Hd' as [Hd' | (_ & Hf)]; [ | congruence ]. exact (one_disconnects _ _ _ Hs _ _ Hd Hd').
  - cbn. contradiction.
  - cbn. congruence.
  - exact (active_up _ _ _ Hs).
  - exact (active_read _ _ _ Hs).
  - exact (up_config _ _ _ Hs).
  - exact (backend _ _ _ Hs).
Qed.

Lemma live_snoc (f : Work -> bool) (l : list Job) (x : Job) (j : nat) : live f l j = true -> live f (l ++ [x]) j = true.
Proof. rewrite !live_true. intros (y & Hy & Hf). exists y. split; [ exact (lookup_app_l_Some _ _ _ _ Hy) | exact Hf ]. Qed.

(** What was just launched is current. *)
Lemma current_launched (l : list Job) (w : Work) :
  connecting w = true -> current_ok (Some (List.length l)) (l ++ [mkServiceJob w false]).
Proof.
  intros Hw j [= <-]. exists (mkServiceJob w false).
  assert (E : (l ++ [mkServiceJob w false]) !! List.length l = Some (mkServiceJob w false)) by (rewrite lookup_app_r, Nat.sub_diag by lia; reflexivity).
  split; [ exact E | ]. intros _. left. rewrite (live_at connecting _ _ w E). exact Hw.
Qed.

Lemma no_joining (l : list Job) : (forall d, live disconnecting l d = false) -> forall d, live joining l d = false.
Proof. intros Hl d. apply not_true_iff_false. intros Hd. apply joining_disconnecting in Hd. rewrite Hl in Hd. discriminate. Qed.

Lemma connectToVpn_full (text : string) (permitted : bool) (s : Service) :
  full_ok s -> down_state (protocolState s) = true -> full_ok (connectToVpn parse_json sdk_lt_33 text permitted s).
Proof.
  intros (Hs & Hc) Hd. destruct (down_is_down _ _ _ Hs Hd) as (Hdown & Hno). unfold connectToVpn.
  destruct (decide _) as [ | _ ]; [ split; assumption | ].
  assert (Herr : forall s', tunnel s' = tunnel s -> connectionJob s' = connectionJob s -> service_jobs s' = service_jobs s ->
            full_ok (with_state DISCONNECTED s')).
  { intros s' E1 E2 E3. unfold full_ok, service_ok. service_cbn. rewrite E1, E2, E3. split; [ exact (consistent_down _ _ _ Hs Hd) | exact Hc ]. }
  unfold parseConfigToJson. destruct (String.eqb _ _); [ apply Herr; reflexivity | ].
  destruct (parse_json text) as [config|]; [ | apply Herr; reflexivity ].
  destruct (VpnProto_get config) as [proto|]; [ | apply Herr; reflexivity ].
  destruct permitted; cbn [negb]; [ | exact (Herr s eq_refl eq_refl eq_refl) ].
  split; cbn [launch]; unfold service_ok; service_cbn; [ | apply current_launched; reflexivity ].
  apply (launch_ok _ (connectionJob s)); try reflexivity; try assumption; [ | intros _; exact Hdown | | discriminate ].
  - intros i. apply not_true_iff_false. intros Hi. destruct (active_up _ _ _ Hs i Hi). contradiction.
  - intros d. apply not_true_iff_false. intros Hj. destruct (joining_alone _ _ _ Hs d Hj) as (_ & _ & Hx).
    unfold protocolState in Hd. congruence.
Qed.

Lemma disconnect_full (s : Service) :
  full_ok s -> (forall d, live disconnecting (service_jobs s) d = false) -> full_ok (disconnect s).
Proof.
  intros (Hs & Hc) Hno. unfold disconnect. destruct (decide _) as [ | _ ]; [ split; assumption | ].
  cbn [launch]. unfold full_ok, service_ok. service_cbn.
  set (l' := service_jobs s ++ [mkServiceJob DisconnectWork false]).
  assert (Hsame : forall f k, f DisconnectWork = false -> live f l' k = true -> live f (service_jobs s) k = true).
  { intros f k Hf Hk. apply live_app in Hk as [Hk | (_ & E)]; [ exact Hk | congruence ]. }
  split.
  - split; cbn.
    + intros j Hj. exact (live_is_current _ _ _ Hs j (Hsame connecting j eq_refl Hj)).
    + intros j i Hj. exact (live_no_status _ _ _ Hs j i (Hsame connecting j eq_refl Hj)).
    + intros j Hj. exact (fresh_down _ _ _ Hs j (Hsame fresh j eq_refl Hj)).
    + intros d Hd. pose proof (Hsame joining d eq_refl Hd) as Hd'. rewrite (no_joining _ Hno) in Hd'. discriminate.
    + intros d d' Hd Hd'. apply live_app in Hd as [Hd | (-> & _)]; [ rewrite Hno in Hd; discriminate | ].
      apply live_app in Hd' as [Hd' | (-> & _)]; [ rewrite Hno in Hd'; discriminate | reflexivity ].
    + discriminate.
    + discriminate.
    + exact (active_up _ _ _ Hs).
    + exact (active_read _ _ _ Hs).
    + exact (up_config _ _ _ Hs).
    + exact (backend _ _ _ Hs).
  - intros j Hj. destruct (Hc j Hj) as (x & Hx & Hor). exists x.
    split; [ exact (lookup_app_l_Some _ _ _ _ Hx) | ]. intros Hw.
    destruct (Hor Hw) as [Hl | (d & Hl)]; [ left; exact (live_snoc _ _ _ _ Hl) | right; exists d; exact (live_snoc _ _ _ _ Hl) ].
Qed.

Lemma reconnect_full (s : Service) :
  full_ok s -> (forall d, live disconnecting (service_jobs s) d = false) -> full_ok (reconnect s).
Proof.
  intros (Hs & Hc) Hno. unfold reconnect. destruct (decide _) as [ | Hconn ]; [ split; assumption | ].
  apply dec_stable in Hconn. destruct (connected_up _ _ _ Hs Hconn) as (Hup & Hlive & Hquiet).
  split; cbn [launch]; unfold service_ok; service_cbn; [ | apply current_launched; reflexivity ].
  apply (launch_ok _ (connectionJob s)); try reflexivity; try assumption; try discriminate. exact (no_joining _ Hno).
Qed.

Lemma job_timeout_full (j : nat) (s : Service) : full_ok s -> full_ok (job_timeout j s).
Proof.
  intros Hs. unfold job_timeout. destruct (service_jobs s !! j) as [[[] []]|] eqn:Hj; try exact Hs.
  apply (finish_full j (stopService s)); [ exact Hs | exact (live_at joining _ _ _ Hj) ].
Qed.

(** *** Status jobs *)

(** Status jobs change among themselves. *)
Lemma consistent_status (t : Tunnel) (c : option nat) (l : list Job) (i : nat) (x y : StatusJob) :
  consistent t c l -> jobs t !! i = Some x -> phase x <> Ended -> cancelled x = false ->
  (forall h, phase y = HasRead h -> h <> -1) -> consistent (set_job i y t) c l.
Proof.
  intros Hs Hi Hp Hcan Hread.
  assert (Hfew : forall k, active (set_job i y t) k = true -> active t k = true).
  { intros k Hk. apply active_true in Hk as (z & Hz & Hzp & Hzc). cbn [set_job jobs] in Hz. apply active_true.
    destruct (decide (i = k)) as [<- | Hne]; [ eauto | rewrite list_lookup_insert_ne in Hz by exact Hne; eauto ]. }
  assert (Hquiet : forall k, active t k = false -> active (set_job i y t) k = false).
  { intros k Hk. apply not_true_iff_false. intros Hk'. apply Hfew in Hk'. congruence. }
  destruct Hs as [HA HJ HP HV HX HL HD HU HR HC HT]. split; cbn [set_job jobs state tunnelHandle config statusJob open_tunnels]; try assumption.
  - intros j k Hj. exact (Hquiet _ (HJ _ k Hj)).
  - intros d Hd. destruct (HV _ Hd) as (A & B & C). split_and!; [ exact A | intros k; exact (Hquiet _ (B k)) | exact C ].
  - intros Hst. destruct (HL Hst) as (A & B & C). split_and!; [ exact A | exact B | intros k; exact (Hquiet _ (C k)) ].
  - intros k Hk. exact (HU _ (Hfew _ Hk)).
  - intros k h c' Hk. destruct (decide (i = k)) as [<- | Hne].
    + rewrite list_lookup_insert_eq in Hk by (apply lookup_lt_is_Some; eauto). injection Hk as ->. intros _. exact (Hread h eq_refl).
    + rewrite list_lookup_insert_ne in Hk by exact Hne. exact (HR _ _ _ Hk).
Qed.

(** The last status job that could act has ended. *)
Lemma consistent_told (t : Tunnel) (c : option nat) (l : list Job) (i : nat) (x : StatusJob) (st : ProtocolState) :
  consistent t c l -> jobs t !! i = Some x -> phase x <> Ended -> cancelled x = false -> st = CONNECTED \/ st = state t ->
  consistent (mkTunnel (tunnelHandle t) (config t) st None (<[i := mkJob Ended (cancelled x)]> (jobs t)) (open_tunnels t)) c l.
Proof.
  intros Hs Hi Hp Hcan Hst.
  assert (Hact : active t i = true) by (apply active_true; eauto).
  destruct (active_up _ _ _ Hs i Hact) as (Hup & Hjob).
  assert (Hquiet : forall k, active_in (<[i := mkJob Ended (cancelled x)]> (jobs t)) k = false).
  { intros k. apply not_true_iff_false. intros Hk. apply active_true in Hk as (z & Hz & Hzp & Hzc).
    destruct (decide (i = k)) as [<- | Hne].
    - rewrite list_lookup_insert_eq in Hz by (apply lookup_lt_is_Some; eauto). injection Hz as <-. exact (Hzp eq_refl).
    - rewrite list_lookup_insert_ne in Hz by exact Hne.
      destruct (active_up _ _ _ Hs k) as (_ & Hk); [ apply active_true; eauto | congruence ]. }
  apply consistent_new; cbn [tunnelHandle config state statusJob jobs open_tunnels].
  - exact (one_disconnects _ _ _ Hs).
  - intros j. apply not_true_iff_false. intros Hj. pose proof (live_no_status _ _ _ Hs j i Hj). congruence.
  - intros d Hd. destruct (joining_alone _ _ _ Hs d Hd) as (_ & Hx & _). rewrite Hx in Hact. discriminate.
  - intros _. split; [ exact Hup | exact Hquiet ].
  - intros Hd. destruct Hst as [-> | ->]; [ discriminate | exact (proj1 (down_is_down _ _ _ Hs Hd)) ].
  - intros k Hk. unfold active in Hk. cbn [jobs] in Hk. rewrite Hquiet in Hk. discriminate.
  - intros k h c' Hk Hc'. destruct (decide (i = k)) as [<- | Hne].
    + rewrite list_lookup_insert_eq in Hk by (apply lookup_lt_is_Some; eauto). discriminate.
    + rewrite list_lookup_insert_ne in Hk by exact Hne. exact (active_read _ _ _ Hs _ _ _ Hk Hc').
  - exact (up_config _ _ _ Hs).
  - exact (backend _ _ _ Hs).
Qed.

Lemma job_runs_ok (t : Tunnel) (c : option nat) (l : list Job) (i : nat) :
  consistent t c l -> (forall x, jobs t !! i = Some x -> cancelled x = false) -> consistent (job_runs i t) c l.
Proof.
  intros Hs Hcalm. unfold job_runs. destruct (jobs t !! i) as [[ph cc]|] eqn:Hi; [ | exact Hs ].
  pose proof (Hcalm _ eq_refl) as E. cbn in E. subst cc.
  destruct ph; try exact Hs; refine (consistent_status _ _ _ _ _ _ Hs Hi _ eq_refl _); discriminate.
Qed.

Lemma job_reads_ok (t : Tunnel) (c : option nat) (l : list Job) (i : nat) (answer : option Z) :
  consistent t c l -> (forall x, jobs t !! i = Some x -> cancelled x = false) -> (forall h, answer = Some h -> 0 <= h) ->
  consistent (job_reads i answer t) c l.
Proof.
  intros Hs Hcalm Hans. unfold job_reads. destruct (jobs t !! i) as [[ph cc]|] eqn:Hi; [ | exact Hs ].
  pose proof (Hcalm _ eq_refl) as E. cbn in E. subst cc. destruct ph; try exact Hs.
  assert (Hup : tunnelHandle t <> -1) by (apply (active_up _ _ _ Hs i), active_true; eexists; split_and!; [ exact Hi | discriminate | reflexivity ]).
  refine (consistent_status _ _ _ _ _ _ Hs Hi _ eq_refl _); [ discriminate | ]. cbn [phase]. intros h [= <-].
  unfold getLastHandshake. rewrite (proj2 (Z.eqb_neq _ _) Hup). destruct answer as [h|]; cbn; [ specialize (Hans h eq_refl); lia | lia ].
Qed.

Lemma job_acts_ok (t : Tunnel) (c : option nat) (l : list Job) (i : nat) :
  consistent t c l -> (forall x, jobs t !! i = Some x -> cancelled x = false) -> consistent (job_acts i t) c l.
Proof.
  intros Hs Hcalm. unfold job_acts. destruct (jobs t !! i) as [[ph cc]|] eqn:Hi; [ | exact Hs ].
  pose proof (Hcalm _ eq_refl) as E. cbn in E. subst cc. destruct ph as [ | | h | | ]; try exact Hs.
  pose proof (active_read _ _ _ Hs _ _ _ Hi eq_refl) as Hh. rewrite (proj2 (Z.eqb_neq h (-1)) Hh).
  destruct (h =? 0); [ refine (consistent_status _ _ _ _ _ _ Hs Hi _ eq_refl _); discriminate | ].
  destruct ((h =? -2) || (0 <? h)); apply (consistent_told t _ _ i _ _ Hs Hi); try discriminate; try reflexivity; auto.
Qed.

(** *** Every event *)

Lemma calm_step_full (s : Service) (e : Event) : full_ok s -> calm_event s e -> full_ok (service_step s e).
Proof.
  intros Hs He. destruct e as [text permitted | | | j a | j | i | i answer | i | | | ]; cbn [AndroidService.service_step].
  - unfold connect. destruct text as [text|]; apply connectToVpn_full; assumption.
  - exact (disconnect_full s Hs He).
  - destruct (listening s); [ exact (reconnect_full s Hs He) | exact Hs ].
  - exact (job_step_full j a s Hs He).
  - exact (job_timeout_full j s Hs).
  - destruct Hs as (Hs & Hc). split; [ exact (job_runs_ok _ _ _ i Hs He) | exact Hc ].
  - destruct Hs as (Hs & Hc). destruct He as (He & Ha). split; [ exact (job_reads_ok _ _ _ i answer Hs He Ha) | exact Hc ].
  - destruct Hs as (Hs & Hc). split; [ exact (job_acts_ok _ _ _ i Hs He) | exact Hc ].
  - unfold collect. destruct (decide _); [ exact Hs | ]. destruct (protocolState s); try exact Hs.
    service_cbn. destruct (isServiceBound s); exact Hs.
  - exact Hs.
  - unfold onUnbind. destruct (decide _); exact Hs.
Qed.

Lemma calm_run_full (es : list Event) (s : Service) : full_ok s -> calm es s -> full_ok (service_run es s).
Proof.
  revert s. induction es as [|e es IH]; intros s Hs; [ intros _; exact Hs | ]. intros (He & Hes).
  exact (IH _ (calm_step_full s e Hs He) Hes).
Qed.

Lemma new_full : full_ok new_service.
Proof.
  split; [ | apply current_none ]. apply consistent_new; try discriminate; try reflexivity.
  all: try (intros; discriminate).
  - intros Hup. destruct (Hup eq_refl).
  - left. split; reflexivity.
Qed.

(** *** A disconnection goes through *)

Definition none_connects (s : Service) : Prop := forall j, live connecting (service_jobs s) j = false.

Lemma none_connects_work (s : Service) (j : nat) (w : Work) : connecting w = false -> none_connects s -> none_connects (set_work j w s).
Proof.
  intros Hw Hs k. apply not_true_iff_false. intros Hk. service_cbn.
  apply live_work in Hk as [(_ & Hk) | (_ & E & _)]; [ rewrite Hs in Hk; discriminate | congruence ].
Qed.

Lemma stopVpn_down (t : Tunnel) : one_tunnel t -> tunnelHandle (stopVpn t) = -1 /\ open_tunnels (stopVpn t) = [].
Proof.
  intros Hone. unfold stopVpn. destruct (tunnelHandle t =? -1) eqn:E.
  - apply Z.eqb_eq in E. split; [ exact E | ]. destruct Hone as [(_ & Ho) | (Hp & _)]; [ exact Ho | lia ].
  - destruct (one_tunnel_off t Hone) as (Ho & Hh). cbn [set_state tunnelHandle open_tunnels]. split; [ exact Hh | ].
    destruct Ho as [(_ & Ho) | (Hp & _)]; [ exact Ho | lia ].
Qed.

(** Requests of clients and of the network, and events that are no steps of jobs. *)
Definition request (e : Event) : bool :=
  match e with ConnectAsked _ _ | DisconnectAsked | NetworkChanged => true | _ => false end.

Definition bystander (e : Event) : bool :=
  match e with StatusRuns _ | StatusReads _ _ | StatusActs _ | Collects | Binds | Unbinds => true | _ => false end.

(** The stages of the disconnection [d], with [c0] the connection when it was asked for: it has not run,
    it was cancelled because the connection has failed, it waits for the connection that it has
    cancelled, and it has stopped the tunnel. *)
Definition alone (d : nat) (s : Service) : Prop := forall k, k <> d -> live disconnecting (service_jobs s) k = false.

Definition at_rest (d : nat) (s : Service) : Prop := none_connects s /\ alone d s /\ tunnelHandle (tunnel s) = -1.

Definition begins (d : nat) (c0 : option nat) (s : Service) : Prop :=
  service_jobs s !! d = Some (mkServiceJob DisconnectWork false) /\ alone d s /\ (connectionJob s = c0 \/ connectionJob s = None).

Definition dropped (d : nat) (s : Service) : Prop :=
  at_rest d s /\ (exists w, service_jobs s !! d = Some (mkServiceJob w true)) /\ protocolState s = DISCONNECTED.

Definition joins (d : nat) (c0 : option nat) (over : bool) (s : Service) : Prop :=
  exists c w, c0 = Some c /\ service_jobs s !! d = Some (mkServiceJob (JoinConnection c) false) /\ alone d s /\
    service_jobs s !! c = Some (mkServiceJob w true) /\ (over = true -> w = Done).

Definition stopped (d : nat) (over : bool) (s : Service) : Prop :=
  at_rest d s /\
  ((over = false /\ service_jobs s !! d = Some (mkServiceJob WaitDisconnected false)) \/
   (finished s d = true /\ is_Some (service_jobs s !! d) /\ (protocolState s = DISCONNECTED \/ stopping s = true))).

Lemma live_nothing (s : Service) (j : nat) (x : Job) :
  live connecting (service_jobs s) j = false -> live disconnecting (service_jobs s) j = false ->
  service_jobs s !! j = Some x -> work x = Done \/ job_cancelled x = true.
Proof.
  unfold live. intros Hc Hd Hj. rewrite Hj in Hc, Hd. destruct x as [w b]. cbn in *. destruct b; [ right; reflexivity | left ].
  destruct w; cbn in Hc, Hd; try discriminate; reflexivity.
Qed.

(** A job that is not live does nothing but end. *)
Lemma idle_step (j : nat) (a : Answers) (s : Service) :
  live connecting (service_jobs s) j = false -> live disconnecting (service_jobs s) j = false ->
  job_step j a s = s \/ (job_step j a s = finish_job j s /\ is_Some (service_jobs s !! j)).
Proof.
  intros Hc Hd. unfold job_step. destruct (service_jobs s !! j) as [[w b]|] eqn:Hj; [ | left; reflexivity ].
  destruct (live_nothing s j _ Hc Hd Hj) as [E | E]; cbn in E; subst; [ left; reflexivity | ].
  destruct w; [ right; split; [ reflexivity | eauto ].. | left; reflexivity ].
Qed.

Lemma idle_timeout (j : nat) (s : Service) : live disconnecting (service_jobs s) j = false -> job_timeout j s = s.
Proof.
  unfold live, job_timeout. destruct (service_jobs s !! j) as [[[] []]|]; try reflexivity. discriminate.
Qed.

Lemma status_handle (i : nat) (answer : option Z) (t : Tunnel) :
  tunnelHandle (job_runs i t) = tunnelHandle t /\ tunnelHandle (job_reads i answer t) = tunnelHandle t /\
  tunnelHandle (job_acts i t) = tunnelHandle t /\ state (job_runs i t) = state t /\ state (job_reads i answer t) = state t.
Proof.
  unfold job_runs, job_reads, job_acts. destruct (jobs t !! i) as [[[ | | h | | ] c]|]; try tauto.
  split_and!; try reflexivity. destruct (h =? 0); [ reflexivity | ]. destruct (_ || _); [ reflexivity | ]. destruct (h =? -1); reflexivity.
Qed.

Lemma status_state (i : nat) (t : Tunnel) :
  (forall x, jobs t !! i = Some x -> cancelled x = false) -> active t i = false -> state (job_acts i t) = state t.
Proof.
  unfold active, active_in, job_acts. destruct (jobs t !! i) as [[[ | | h | | ] c]|]; try reflexivity.
  intros Hc Ha. specialize (Hc _ eq_refl). cbn in Hc. subst c. discriminate.
Qed.

(** Where the tunnel is down no status job is active. *)
Lemma bystander_step (s : Service) (e : Event) :
  bystander e = true ->
  let s' := service_step s e in
  service_jobs s' = service_jobs s /\ connectionJob s' = connectionJob s /\ tunnelHandle (tunnel s') = tunnelHandle (tunnel s) /\
  (stopping s = true -> stopping s' = true) /\
  (service_ok s -> calm_event s e -> tunnelHandle (tunnel s) = -1 -> protocolState s' = protocolState s).
Proof.
  intros He. destruct e as [ | | | | | i | i answer | i | | | ]; try discriminate; cbv zeta; cbn [AndroidService.service_step].
  - destruct (status_handle i None (tunnel s)) as (E & _ & _ & E' & _). split_and!; [ reflexivity | reflexivity | exact E | tauto | intros; exact E' ].
  - destruct (status_handle i answer (tunnel s)) as (_ & E & _ & _ & E'). split_and!; [ reflexivity | reflexivity | exact E | tauto | intros; exact E' ].
  - destruct (status_handle i None (tunnel s)) as (_ & _ & E & _). split_and!; [ reflexivity | reflexivity | exact E | tauto | ].
    intros Hs Hcalm Hdown. apply status_state; [ exact Hcalm | ]. apply not_true_iff_false. intros Hi.
    destruct (active_up _ _ _ Hs i Hi). contradiction.
  - unfold collect. destruct (decide _); [ tauto | ].
    destruct (protocolState s) eqn:E; service_cbn; try (split_and!; (reflexivity || tauto || intros; exact E)).
    destruct (isServiceBound s); split_and!; (reflexivity || tauto || intros; exact E).
  - split_and!; (reflexivity || tauto).
  - unfold onUnbind. destruct (decide _); split_and!; (reflexivity || tauto).
Qed.

(** *** The stages last *)

Lemma alone_fewer (d : nat) (s s' : Service) : fewer (service_jobs s) (service_jobs s') -> alone d s -> alone d s'.
Proof. intros Hl Hs k Hk. exact (not_live disconnecting _ _ k Hl eq_refl (Hs k Hk)). Qed.

Lemma connects_fewer (s s' : Service) : fewer (service_jobs s) (service_jobs s') -> none_connects s -> none_connects s'.
Proof. intros Hl Hs k. exact (not_live connecting _ _ k Hl eq_refl (Hs k)). Qed.

Lemma alone_work (d : nat) (w : Work) (s : Service) : alone d s -> alone d (set_work d w s).
Proof. intros Hs k Hk. service_cbn. rewrite live_other by congruence. exact (Hs k Hk). Qed.

Lemma other_job (j d : nat) (s : Service) (x : Job) :
  j <> d -> service_jobs s !! d = Some x -> service_jobs (finish_job j s) !! d = Some x.
Proof. intros Hne Hd. service_cbn. rewrite list_lookup_alter_ne by exact Hne. exact Hd. Qed.

Lemma finished_other (j d : nat) (s : Service) : j <> d -> finished (finish_job j s) d = finished s d.
Proof. intros Hne. unfold finished. service_cbn. rewrite list_lookup_alter_ne by exact Hne. reflexivity. Qed.

Lemma finished_itself (d : nat) (s : Service) : finished (finish_job d s) d = true.
Proof. unfold finished. service_cbn. rewrite list_lookup_alter_eq. destruct (service_jobs s !! d); reflexivity. Qed.

Lemma rest_finish (j d : nat) (s : Service) : at_rest d s -> at_rest d (finish_job j s).
Proof.
  intros (H1 & H2 & H3). split_and!; [ exact (connects_fewer s (finish_job j s) (fewer_done _ j) H1) | exact (alone_fewer d s (finish_job j s) (fewer_done _ j) H2) | exact H3 ].
Qed.

(** The disconnection stops the tunnel. *)
Lemma stop_stops (d : nat) (w : Work) (s : Service) :
  one_tunnel (tunnel s) -> none_connects s -> alone d s -> service_jobs s !! d = Some (mkServiceJob w false) -> stopped d false (stop_segment d s).
Proof.
  intros Hone Hno Hal Hd. split; [ split_and! | left ].
  - exact (none_connects_work (with_tunnel _ (with_connection None s)) d WaitDisconnected eq_refl Hno).
  - exact (alone_work d WaitDisconnected (with_tunnel _ (with_connection None s)) Hal).
  - exact (proj1 (stopVpn_down _ Hone)).
  - split; [ reflexivity | ]. unfold stop_segment. service_cbn. rewrite list_lookup_alter_eq, Hd. reflexivity.
Qed.

Lemma stopped_lasts (d : nat) (over : bool) (s : Service) (e : Event) :
  service_ok s -> calm_event s e -> request e = false -> stopped d over s -> stopped d over (service_step s e).
Proof.
  intros Hok Hcalm Hreq ((Hno & Hal & Hdown) & Hd).
  destruct (bystander e) eqn:He.
  - destruct (bystander_step s e He) as (E1 & E2 & E3 & E4 & E5). specialize (E5 Hok Hcalm Hdown).
    unfold stopped, at_rest, none_connects, alone, finished. rewrite E1, E3, E5. split; [ tauto | ].
    destruct Hd as [Hd | (Hf & Hs & Hor)]; [ left; exact Hd | right; split_and!; [ exact Hf | exact Hs | tauto ] ].
  - assert (Hrest : at_rest d s) by (split_and!; assumption).
    destruct e as [ | | | j a | j | | | | | | ]; try discriminate; cbn [AndroidService.service_step]; (destruct (decide (j = d)) as [-> | Hne]).
    + destruct Hd as [(Hover & Hd) | Hd]; unfold job_step.
      * rewrite Hd. destruct (decide _) as [Hst | _]; [ | split; [ exact Hrest | left; split; assumption ] ].
        split; [ exact (rest_finish d d s Hrest) | right ]. split_and!; [ apply finished_itself | | left; exact Hst ].
        service_cbn. rewrite list_lookup_alter_eq, Hd. eexists. reflexivity.
      * destruct Hd as (Hf & (x & Hx) & Hor). rewrite Hx. unfold finished in Hf. rewrite Hx in Hf. destruct x as [[] b]; try discriminate.
        split; [ exact Hrest | right ]. unfold finished. rewrite Hx. split_and!; [ reflexivity | eauto | exact Hor ].
    + destruct (idle_step j a s (Hno j) (Hal j Hne)) as [-> | (-> & _)]; [ split; assumption | ].
      split; [ exact (rest_finish j d s Hrest) | ]. destruct Hd as [(Hover & Hd) | (Hf & (x & Hx) & Hor)]; [ left; exact (conj Hover (other_job j d s _ Hne Hd)) | right ].
      rewrite (finished_other j d s Hne), (other_job j d s _ Hne Hx). split_and!; [ exact Hf | eauto | exact Hor ].
    + destruct Hd as [(Hover & Hd) | Hd]; unfold job_timeout.
      * rewrite Hd. split; [ exact (rest_finish d d (stopService s) Hrest) | right ]. split_and!; [ exact (finished_itself d (stopService s)) | | right; reflexivity ].
        service_cbn. rewrite list_lookup_alter_eq, Hd. eexists. reflexivity.
      * destruct Hd as (Hf & (x & Hx) & Hor). rewrite Hx. unfold finished in Hf. rewrite Hx in Hf. destruct x as [[] b]; try discriminate.
        split; [ exact Hrest | right ]. unfold finished. rewrite Hx. split_and!; [ reflexivity | eauto | exact Hor ].
    + rewrite (idle_timeout j s (Hal j Hne)). split; assumption.
Qed.

Lemma dropped_lasts (d : nat) (s : Service) (e : Event) :
  service_ok s -> calm_event s e -> request e = false -> dropped d s -> dropped d (service_step s e).
Proof.
  intros Hok Hcalm Hreq ((Hno & Hal & Hdown) & (w & Hd) & Hst).
  assert (Hall : forall k, live disconnecting (service_jobs s) k = false).
  { intros k. destruct (decide (k = d)) as [-> | Hne]; [ exact (not_live_cancelled _ _ _ _ Hd) | exact (Hal k Hne) ]. }
  destruct (bystander e) eqn:He.
  - destruct (bystander_step s e He) as (E1 & E2 & E3 & E4 & E5). specialize (E5 Hok Hcalm Hdown).
    unfold dropped, at_rest, none_connects, alone. rewrite E1, E3, E5. eauto 10.
  - destruct e as [ | | | j a | j | | | | | | ]; try discriminate; cbn [AndroidService.service_step].
    + destruct (idle_step j a s (Hno j) (Hall j)) as [-> | (-> & _)]; [ split_and!; eauto; split_and!; assumption | ].
      split_and!; [ exact (rest_finish j d s (conj Hno (conj Hal Hdown))) | | exact Hst ]. service_cbn.
      destruct (decide (j = d)) as [-> | Hne]; [ rewrite list_lookup_alter_eq, Hd; eexists; reflexivity | rewrite list_lookup_alter_ne by exact Hne; eauto ].
    + rewrite (idle_timeout j s (Hall j)). split_and!; eauto. split_and!; assumption.
Qed.

Lemma joins_lasts (d : nat) (c0 : option nat) (over : bool) (s : Service) (e : Event) :
  service_ok s -> request e = false -> joins d c0 over s ->
  joins d c0 over (service_step s e) \/ (stopped d false (service_step s e) /\ exists a, e = JobSteps d a).
Proof.
  intros Hok Hreq (c & w & Hc0 & Hd & Hal & Hc & Hover). pose proof (live_at joining _ _ _ Hd) as Hj. cbn in Hj.
  destruct (joining_alone _ _ _ Hok d Hj) as (Hno & _). assert (Hcd : c <> d) by (intros ->; congruence).
  destruct (bystander e) eqn:He.
  { left. destruct (bystander_step s e He) as (E1 & _). exists c, w. unfold alone. rewrite E1. eauto. }
  destruct e as [ | | | j a | j | | | | | | ]; try discriminate; cbn [AndroidService.service_step]; (destruct (decide (j = d)) as [-> | Hne]).
  - unfold job_step. rewrite Hd. destruct (finished s c); [ right | left; exists c, w; eauto ].
    split; [ exact (stop_stops d _ s (backend _ _ _ Hok) Hno Hal Hd) | eauto ].
  - left. destruct (idle_step j a s (Hno j) (Hal j Hne)) as [-> | (-> & _)]; [ exists c, w; eauto | ].
    exists c, (if decide (j = c) then Done else w). split_and!; [ exact Hc0 | exact (other_job j d s _ Hne Hd) | exact (alone_fewer d s (finish_job j s) (fewer_done _ j) Hal) | | ].
    + destruct (decide (j = c)) as [-> | Hjc]; [ | exact (other_job j c s _ Hjc Hc) ]. service_cbn. rewrite list_lookup_alter_eq, Hc. reflexivity.
    + destruct (decide (j = c)); tauto.
  - left. unfold job_timeout. rewrite Hd. exists c, w. eauto.
  - left. rewrite (idle_timeout j s (Hal j Hne)). exists c, w. eauto.
Qed.

(** Once the connection that was cancelled has run, the disconnection goes on. *)
Lemma joined (d c : nat) (a : Answers) (s : Service) :
  joins d (Some c) false s -> joins d (Some c) true (job_step c a s).
Proof.
  intros (c' & w & [= <-] & Hd & Hal & Hc & _). assert (Hcd : c <> d) by (intros ->; congruence).
  unfold job_step. rewrite Hc.
  assert (Hj : joins d (Some c) true (finish_job c s)).
  { exists c, Done. split_and!; [ reflexivity | exact (other_job c d s _ Hcd Hd) | exact (alone_fewer d s (finish_job c s) (fewer_done _ c) Hal) | | reflexivity ].
    service_cbn. rewrite list_lookup_alter_eq, Hc. reflexivity. }
  destruct w; try exact Hj. exists c, Done. eauto 10.
Qed.

Lemma joined_stops (d : nat) (c0 : option nat) (a : Answers) (s : Service) :
  service_ok s -> joins d c0 true s -> stopped d false (job_step d a s).
Proof.
  intros Hok (c & w & _ & Hd & Hal & Hc & Hw). rewrite (Hw eq_refl) in Hc.
  destruct (joining_alone _ _ _ Hok d (live_at joining _ _ _ Hd)) as (Hno & _).
  unfold job_step. rewrite Hd. unfold finished. rewrite Hc. exact (stop_stops d _ s (backend _ _ _ Hok) Hno Hal Hd).
Qed.

(** The first step of the disconnection. *)
Lemma begins_steps (d : nat) (c0 : option nat) (a : Answers) (s : Service) :
  service_ok s -> c0 <> Some d -> begins d c0 s -> joins d c0 false (job_step d a s) \/ stopped d false (job_step d a s).
Proof.
  intros Hok Hne (Hd & Hal & Hc0). unfold job_step. rewrite Hd. destruct (connectionJob s) as [c|] eqn:Hc.
  2:{ right. refine (stop_stops d _ s (backend _ _ _ Hok) _ Hal Hd). intros j. apply not_true_iff_false. intros Hj.
      pose proof (live_is_current _ _ _ Hok j Hj). congruence. }
  destruct Hc0 as [<- | [=]]. assert (Hcd : c <> d) by congruence.
  set (s0 := with_jobs (cancel_one (Some c) (service_jobs s)) s).
  assert (Hno : none_connects s0).
  { intros j. apply not_true_iff_false. intros Hj. apply (live_cancel _ _ (Some c)) in Hj as (Hj & Hx).
    pose proof (live_is_current _ _ _ Hok j Hj). congruence. }
  assert (Hd0 : service_jobs s0 !! d = Some (mkServiceJob DisconnectWork false)).
  { unfold s0. service_cbn. cbn [cancel_one]. rewrite list_lookup_alter_ne by exact Hcd. exact Hd. }
  assert (Hal0 : alone d s0) by exact (alone_fewer d s s0 (fewer_cancel _ (Some c)) Hal).
  destruct (finished s0 c) eqn:Hfin; [ right; exact (stop_stops d _ s0 (backend _ _ _ Hok) Hno Hal0 Hd0) | left ].
  unfold finished in Hfin. destruct (service_jobs s0 !! c) as [[w b]|] eqn:Hw; [ | discriminate ].
  assert (b = true) as ->.
  { unfold s0 in Hw. service_cbn. cbn [cancel_one] in Hw. rewrite list_lookup_alter_eq in Hw. apply fmap_Some in Hw as (y & _ & [= _ ->]). reflexivity. }
  exists c, w. split_and!; [ reflexivity | | exact (alone_work d _ s0 Hal0) | | discriminate ]; service_cbn.
  - rewrite list_lookup_alter_eq, Hd0. reflexivity.
  - rewrite list_lookup_alter_ne by congruence. exact Hw.
Qed.

(** Another job than the disconnection goes on. *)
Lemma begins_other (d j : nat) (c0 : option nat) (w : Work) (s s' : Service) :
  j <> d -> disconnecting w = false -> begins d c0 s -> service_jobs s' = service_jobs (set_work j w s) ->
  connectionJob s' = connectionJob s -> begins d c0 s'.
Proof.
  intros Hne Hw (Hd & Hal & Hc) E E'. unfold begins, alone. rewrite E, E'. service_cbn. split_and!.
  - rewrite list_lookup_alter_ne by exact Hne. exact Hd.
  - intros k Hk. apply not_true_iff_false. intros Hl. apply live_work in Hl as [(_ & Hl) | (_ & Hx & _)]; [ rewrite (Hal k Hk) in Hl; discriminate | congruence ].
  - exact Hc.
Qed.

Lemma cancel_one_work (job : option nat) (l : list Job) (d : nat) (w : Work) (b : bool) :
  l !! d = Some (mkServiceJob w b) -> exists b', cancel_one job l !! d = Some (mkServiceJob w b').
Proof.
  intros Hd. destruct job as [k|]; [ cbn [cancel_one] | eauto ]. destruct (decide (k = d)) as [-> | Hne].
  - rewrite list_lookup_alter_eq, Hd. cbn. eauto.
  - rewrite list_lookup_alter_ne by exact Hne. eauto.
Qed.

(** The connection fails: its handler may cancel the disconnection, and the tunnel is down. *)
Lemma begins_exception (d j : nat) (c0 : option nat) (s s1 : Service) :
  j <> d -> begins d c0 s -> service_jobs s1 = service_jobs s -> service_ok (finish_job j (on_exception s1)) ->
  begins d c0 (finish_job j (on_exception s1)) \/ dropped d (finish_job j (on_exception s1)).
Proof.
  intros Hne (Hd & Hal & Hc) E Hok.
  assert (Hal' : alone d (finish_job j (on_exception s1))).
  { apply (alone_fewer d s); [ | exact Hal ]. service_cbn. rewrite E.
    eapply fewer_trans; [ eapply fewer_trans; apply fewer_cancel | apply fewer_done ]. }
  assert (Hjob : exists b, service_jobs (finish_job j (on_exception s1)) !! d = Some (mkServiceJob DisconnectWork b)).
  { service_cbn. rewrite list_lookup_alter_ne, E by exact Hne.
    destruct (cancel_one_work (connectionJob s1) _ _ _ _ Hd) as (b & Hb). exact (cancel_one_work _ _ _ _ _ Hb). }
  destruct Hjob as ([] & Hjob); [ right | left; split_and!; [ exact Hjob | exact Hal' | right; reflexivity ] ].
  destruct (down_is_down _ _ _ Hok eq_refl) as (Hdown & Hno). split_and!; [ split_and!; assumption | eauto | reflexivity ].
Qed.

Lemma begins_lasts (d : nat) (c0 : option nat) (s : Service) (e : Event) :
  full_ok s -> calm_event s e -> request e = false -> (forall a, e <> JobSteps d a) -> begins d c0 s ->
  begins d c0 (service_step s e) \/ dropped d (service_step s e).
Proof.
  intros Hs Hcalm Hreq Hnot Hb. pose proof (proj1 (calm_step_full s e Hs Hcalm)) as Hok'. destruct Hb as (Hd & Hal & Hc).
  destruct (bystander e) eqn:He.
  { left. destruct (bystander_step s e He) as (E1 & E2 & _). unfold begins, alone. rewrite E1, E2. tauto. }
  assert (Hb : begins d c0 s) by (split_and!; assumption).
  destruct e as [ | | | j a | j | | | | | | ]; try discriminate; cbn [AndroidService.service_step] in *.
  2:{ left. destruct (decide (j = d)) as [-> | Hne]; [ unfold job_timeout; rewrite Hd; exact Hb | rewrite (idle_timeout j s (Hal j Hne)); exact Hb ]. }
  assert (Hne : j <> d) by (intros ->; exact (Hnot a eq_refl)).
  destruct (live connecting (service_jobs s) j) eqn:Hl.
  2:{ left. destruct (idle_step j a s Hl (Hal j Hne)) as [-> | (-> & _)]; [ exact Hb | exact (begins_other d j c0 Done s _ Hne eq_refl Hb eq_refl eq_refl) ]. }
  assert (Hstart : forall parsed, service_ok (start_segment parsed a j s) -> begins d c0 (start_segment parsed a j s) \/ dropped d (start_segment parsed a j s)).
  { intros parsed. unfold start_segment. destruct (startVpn _ _ _) as [[] t']; intros Hok.
    - left. exact (begins_other d j c0 Done s _ Hne eq_refl Hb eq_refl eq_refl).
    - exact (begins_exception d j c0 s (with_tunnel t' (with_disconnection None s)) Hne Hb eq_refl Hok). }
  apply live_true in Hl as ([w b] & Hj & Hw & Hcan). cbn in Hw, Hcan. subst b. unfold job_step in *. rewrite Hj in *.
  destruct w as [parsed | parsed d' | | | | | ]; try discriminate.
  - destruct (disconnectionJob s) as [d'|]; [ destruct (finished s d') | ]; try exact (Hstart parsed Hok').
    left. exact (begins_other d j c0 (JoinDisconnection parsed d') s _ Hne eq_refl Hb eq_refl eq_refl).
  - destruct (finished s d'); [ exact (Hstart parsed Hok') | left; exact Hb ].
  - unfold reconnect_segment in *. destruct (reconnectVpn _ _) as [[] t'].
    + left. exact (begins_other d j c0 Done s _ Hne eq_refl Hb eq_refl eq_refl).
    + exact (begins_exception d j c0 s (with_tunnel t' s) Hne Hb eq_refl Hok').
Qed.

(** *** From stage to stage *)

(** The stage before the last [n] of the steps that the disconnection needs. *)
Definition stage (d : nat) (c0 : option nat) (n : nat) (s : Service) : Prop :=
  match n with
  | 4%nat => begins d c0 s \/ dropped d s \/ joins d c0 false s \/ stopped d false s
  | 3%nat => joins d c0 false s \/ stopped d false s
  | 2%nat => joins d c0 true s \/ stopped d false s
  | 1%nat => stopped d false s
  | _ => stopped d true s
  end.

Definition needed (d : nat) (c0 : option nat) (n : nat) (e : Event) : Prop :=
  match n with
  | 4%nat | 2%nat => exists a, e = JobSteps d a
  | 3%nat => exists a, e = JobSteps (default d c0) a
  | _ => e = TimeoutFires d
  end.

Lemma dropped_ends (d : nat) (a : Answers) (s : Service) : dropped d s -> stopped d false (job_step d a s).
Proof.
  intros (Hr & (w & Hd) & Hst). unfold job_step. rewrite Hd.
  assert (Hf : stopped d false (finish_job d s)).
  { split; [ exact (rest_finish d d s Hr) | right ]. split_and!; [ apply finished_itself | | left; exact Hst ].
    service_cbn. rewrite list_lookup_alter_eq, Hd. eexists. reflexivity. }
  destruct w; try exact Hf. split; [ exact Hr | right ]. unfold finished. rewrite Hd. split_and!; [ reflexivity | eauto | left; exact Hst ].
Qed.

Lemma time_runs_out (d : nat) (s : Service) : stopped d false s -> stopped d true (job_timeout d s).
Proof.
  intros (Hr & [(_ & Hd) | (Hf & (x & Hx) & Hor)]); unfold job_timeout.
  - rewrite Hd. split; [ exact (rest_finish d d (stopService s) Hr) | right ]. split_and!; [ exact (finished_itself d (stopService s)) | | right; reflexivity ].
    service_cbn. rewrite list_lookup_alter_eq, Hd. eexists. reflexivity.
  - rewrite Hx. pose proof Hf as Hf'. unfold finished in Hf'. rewrite Hx in Hf'. destruct x as [[] b]; try discriminate.
    split; [ exact Hr | right ]. split_and!; [ exact Hf | eauto | exact Hor ].
Qed.

Lemma stage_lasts (d : nat) (c0 : option nat) (n : nat) (s : Service) (e : Event) :
  full_ok s -> c0 <> Some d -> calm_event s e -> request e = false -> stage d c0 n s -> stage d c0 n (service_step s e).
Proof.
  intros Hs Hne Hcalm Hreq Hst. pose proof (proj1 Hs) as Hok.
  pose proof (fun over => stopped_lasts d over s e Hok Hcalm Hreq) as Hstop.
  pose proof (fun over => joins_lasts d c0 over s e Hok Hreq) as Hjoin.
  destruct n as [ | [ | [ | [ | [ | n ] ] ] ] ]; cbn [stage] in *; try exact (Hstop _ Hst).
  - destruct Hst as [Hst | Hst]; [ destruct (Hjoin _ Hst); tauto | right; exact (Hstop _ Hst) ].
  - destruct Hst as [Hst | Hst]; [ destruct (Hjoin _ Hst); tauto | right; exact (Hstop _ Hst) ].
  - destruct Hst as [Hst | [Hst | [Hst | Hst]]].
    + assert (Hd : (exists a, e = JobSteps d a) \/ forall a, e <> JobSteps d a).
      { destruct e as [ | | | j a | | | | | | | ]; try (right; discriminate). destruct (decide (j = d)) as [-> | Hj]; [ eauto | right; congruence ]. }
      destruct Hd as [(a & ->) | Hd]; [ destruct (begins_steps d c0 a s Hok Hne Hst); tauto | destruct (begins_lasts d c0 s e Hs Hcalm Hreq Hd Hst); tauto ].
    + pose proof (dropped_lasts d s e Hok Hcalm Hreq Hst). tauto.
    + destruct (Hjoin _ Hst); tauto.
    + pose proof (Hstop _ Hst). tauto.
Qed.

Lemma stage_advances (d : nat) (c0 : option nat) (n : nat) (s : Service) (e : Event) :
  full_ok s -> c0 <> Some d -> calm_event s e -> (0 < n <= 4)%nat -> needed d c0 n e -> stage d c0 n s -> stage d c0 (n - 1) (service_step s e).
Proof.
  intros Hs Hne Hcalm Hn He Hst. pose proof (proj1 Hs) as Hok.
  pose proof (fun over => stopped_lasts d over s e Hok Hcalm) as Hstop. pose proof (fun over => joins_lasts d c0 over s e Hok) as Hjoin.
  destruct n as [ | [ | [ | [ | [ | n ] ] ] ] ]; try lia; cbn [stage needed Nat.sub] in *.
  - subst e. exact (time_runs_out d s Hst).
  - destruct He as (a & ->). destruct Hst as [Hst | Hst]; [ exact (joined_stops d c0 a s Hok Hst) | exact (Hstop _ eq_refl Hst) ].
  - destruct He as (a & ->). destruct Hst as [Hst | Hst]; [ left | right; exact (Hstop _ eq_refl Hst) ].
    destruct c0 as [c|]; [ exact (joined d c a s Hst) | destruct Hst as (c & w & [=] & _) ].
  - destruct He as (a & ->). destruct Hst as [Hst | [Hst | [Hst | Hst]]].
    + exact (begins_steps d c0 a s Hok Hne Hst).
    + right. exact (dropped_ends d a s Hst).
    + destruct (Hjoin _ eq_refl Hst) as [Hx | (Hx & _)]; tauto.
    + right. exact (Hstop _ eq_refl Hst).
Qed.

Lemma stages_run (d : nat) (c0 : option nat) (es need : list Event) (s : Service) :
  c0 <> Some d -> full_ok s -> calm es s -> Forall (fun e => request e = false) es -> need `sublist_of` es ->
  (List.length need <= 4)%nat -> (forall k e, need !! k = Some e -> needed d c0 (List.length need - k) e) ->
  stage d c0 (List.length need) s -> full_ok (service_run es s) /\ stopped d true (service_run es s).
Proof.
  intros Hne. revert need s. induction es as [|e es IH]; intros need s Hs Hcalm Hreq Hsub Hlen Hneed Hst.
  { apply sublist_nil_r in Hsub as ->. split; [ exact Hs | exact Hst ]. }
  destruct Hcalm as (He & Hcalm). apply Forall_cons in Hreq as (Hr & Hreq). pose proof (calm_step_full s e Hs He) as Hs1.
  change (service_run (e :: es) s) with (service_run es (service_step s e)).
  apply sublist_cons_r in Hsub as [Hsub | (need' & -> & Hsub)].
  - exact (IH need _ Hs1 Hcalm Hreq Hsub Hlen Hneed (stage_lasts d c0 _ s e Hs Hne He Hr Hst)).
  - cbn [List.length] in *. refine (IH need' _ Hs1 Hcalm Hreq Hsub ltac:(lia) _ _).
    + intros k e' Hk. exact (Hneed (S k) e' Hk).
    + replace (List.length need') with (S (List.length need') - 1)%nat by lia.
      exact (stage_advances d c0 (S (List.length need')) s e Hs Hne He ltac:(lia) (Hneed O e eq_refl) Hst).
Qed.

Lemma disconnect_launches (s : Service) :
  protocolState s = CONNECTED \/ protocolState s = CONNECTING \/ protocolState s = RECONNECTING ->
  (forall d', live disconnecting (service_jobs s) d' = false) ->
  begins (List.length (service_jobs s)) (connectionJob s) (disconnect s).
Proof.
  intros Hst Hno. unfold disconnect. destruct (decide _) as [Hx | _].
  { exfalso. destruct Hst as [Hst | [Hst | Hst]]; destruct Hx as [Hx | [Hx | Hx]]; congruence. }
  cbn [launch]. unfold begins, alone. service_cbn. split_and!; [ | | left; reflexivity ].
  - rewrite lookup_app_r by lia. rewrite Nat.sub_diag. reflexivity.
  - intros k Hk. apply not_true_iff_false. intros Hl. apply live_app in Hl as [Hl | (-> & _)]; [ rewrite Hno in Hl; discriminate | contradiction ].
Qed.

(** ** What the service promises *)

(** C5: whatever clients, jobs, handshakes and the network do in a calm surrounding, the service
    that says it is connected has a tunnel, and the one that the backend has open; the service
    that says it is disconnected, or does not know, has none, and the backend has none open; and
    at most one job can still set up a tunnel, which is the one that a disconnection would cancel. *)
Theorem service_says_true (es : list Event) :
  calm es new_service ->
  let s := service_run es new_service in
  (protocolState s = CONNECTED -> tunnelHandle (tunnel s) <> -1 /\ open_tunnels (tunnel s) = [tunnelHandle (tunnel s)]) /\
  (down_state (protocolState s) = true -> tunnelHandle (tunnel s) = -1 /\ open_tunnels (tunnel s) = []) /\
  (forall j, live connecting (service_jobs s) j = true -> connectionJob s = Some j).
Proof.
  intros Hcalm s. destruct (calm_run_full es new_service new_full Hcalm) as (Hs & _). fold s in Hs.
  pose proof (backend _ _ _ Hs) as Hone. split_and!.
  - intros Hst. destruct (connected_up _ _ _ Hs Hst) as (Hup & _). split; [ exact Hup | ].
    destruct Hone as [(E & _) | (_ & Ho)]; [ contradiction | exact Ho ].
  - intros Hst. destruct (down_is_down _ _ _ Hs Hst) as (Hdown & _). split; [ exact Hdown | ].
    destruct Hone as [(_ & Ho) | (E & _)]; [ exact Ho | lia ].
  - exact (live_is_current _ _ _ Hs).
Qed.

(** C17: a disconnection that is asked for goes through, whatever else happens in between.  In a calm
    surrounding the service is connected, connecting or reconnecting and no disconnection is going on;
    a disconnection is asked for, and after it nothing else is, but jobs, status jobs, the collector and
    clients that bind and leave go on in any order, among them, in this order, a step of the
    disconnection, one of the job of the connection, another of the disconnection, and the end of its
    time.  Then the tunnel is closed, the backend has none open, no job can set one up, and the
    disconnection has ended, with the state at disconnected or the service told to stop. *)
Theorem disconnect_ends (es es2 : list Event) (a1 a2 a3 : Answers) :
  calm es new_service ->
  let s := service_run es new_service in
  let d := List.length (service_jobs s) in
  protocolState s = CONNECTED \/ protocolState s = CONNECTING \/ protocolState s = RECONNECTING ->
  (forall d', live disconnecting (service_jobs s) d' = false) ->
  calm es2 (service_step s DisconnectAsked) -> Forall (fun e => request e = false) es2 ->
  [JobSteps d a1; JobSteps (default d (connectionJob s)) a2; JobSteps d a3; TimeoutFires d] `sublist_of` es2 ->
  let s' := service_run (DisconnectAsked :: es2) s in
  tunnelHandle (tunnel s') = -1 /\ open_tunnels (tunnel s') = [] /\ finished s' d = true /\
  (protocolState s' = DISCONNECTED \/ stopping s' = true) /\ (forall j, live connecting (service_jobs s') j = false).
Proof.
  intros Hcalm s d Hst Hno Hcalm2 Hreq Hsub s'.
  pose proof (calm_run_full es new_service new_full Hcalm) as Hs. fold s in Hs.
  assert (Hne : connectionJob s <> Some d).
  { intros Hx. destruct (proj2 Hs d Hx) as (x & Hd & _). apply lookup_lt_Some in Hd. unfold d in Hd. lia. }
  pose proof (calm_step_full s DisconnectAsked Hs Hno) as Hs1.
  assert (Hb : stage d (connectionJob s) 4 (service_step s DisconnectAsked)).
  { left. exact (disconnect_launches s Hst Hno). }
  destruct (stages_run d (connectionJob s) es2 _ (service_step s DisconnectAsked) Hne Hs1 Hcalm2 Hreq Hsub) as ((Hok & _) & (Hgone & _ & Hdown) & Hend).
  - cbn. lia.
  - intros [ | [ | [ | [ | k ] ] ] ] e [= <-]; cbn; eauto.
  - exact Hb.
  - change (service_run es2 (service_step s DisconnectAsked)) with s' in *. destruct Hend as [([=] & _) | (Hf & _ & Hor)].
    split_and!; [ exact Hdown | | exact Hf | exact Hor | exact Hgone ].
    destruct (backend _ _ _ Hok) as [(_ & Ho) | (Hp & _)]; [ exact Ho | lia ].
Qed.

(** C38: a disconnection that comes before the connection has started finds no tunnel to stop and leaves
    the state alone, so nothing reports the end: the job waits until its time has run out, the
    service is told to stop in the state of a disconnection that goes on, and no further request
    to disconnect changes anything. *)
Theorem early_disconnect_hangs (text : string) (config : QJsonObject) (proto : VpnProto) (a1 a2 a3 a4 : Answers) :
  String.eqb (trimmed text) EmptyString = false -> parse_json text = Some config -> VpnProto_get config = Some proto ->
  let waits := service_run [ConnectAsked (Some text) true; DisconnectAsked; JobSteps 1 a1; JobSteps 0 a2; JobSteps 1 a3; JobSteps 1 a4]
                 new_service in
  let s := service_run [TimeoutFires 1] waits in
  service_jobs waits !! 1%nat = Some (mkServiceJob WaitDisconnected false) /\ stopping waits = false /\
  protocolState s = DISCONNECTING /\ stopping s = true /\ finished s 0 = true /\ finished s 1 = true /\ disconnect s = s.
Proof.
  intros Htext Hparse Hknown. cbn [AndroidService.service_run fold_left AndroidService.service_step].
  unfold connect, connectToVpn, parseConfigToJson. rewrite Htext, Hparse, Hknown.
  generalize (proto_parse sdk_lt_33 proto config). intros parsed. vm_compute. split_and!; reflexivity.
Qed.
End Calm.

(** ** Examples *)

Definition example_awg_data : QJsonObject :=
  map (fun name => (name, JString "5")) ["Jc"; "Jmin"; "Jmax"; "S1"; "S2"; "H1"; "H2"; "H3"; "H4"] ++ example_data.

Definition example_awg_config : QJsonObject :=
  [("protocol", JString "awg"); ("dns1", JString "1.1.1.1"); ("awg_config_data", JObject example_awg_data)].

#[local] Existing Instance example_java.

Definition example_parse (text : string) : option QJsonObject := if String.eqb text "awg" then Some example_awg_config else None.

Local Abbreviation example_run := (service_run example_parse true).

Definition yes : Answers := mkAnswers true true 7 true true.

(** The client connects, the handshake comes, and the service tells the client. *)
Definition example_connected : list Event :=
  [Binds; ConnectAsked (Some "awg") true; Collects; JobSteps 0 yes; StatusRuns 0; StatusReads 0 (Some 5); StatusActs 0; Collects].

(** A renewal that has not run yet is lost when the client connects again, for the service then
    takes another job for its connection: the disconnection that follows cancels that one, closes the
    tunnel and tells the client, and the renewal sets the tunnel up behind its back. *)
Theorem renewal_outlives_disconnect :
  let asked := example_run (example_connected ++
    [NetworkChanged; ConnectAsked None true; DisconnectAsked; JobSteps 3 yes; JobSteps 2 yes; JobSteps 3 yes; JobSteps 3 yes; Collects])
    new_service in
  let s := example_run [JobSteps 1 yes] asked in
  protocolState asked = DISCONNECTED /\ last (told asked) = Some DISCONNECTED /\ tunnelHandle (tunnel asked) = -1 /\
  finished asked 3 = true /\ connectionJob asked = None /\
  tunnelHandle (tunnel s) = 7 /\ open_tunnels (tunnel s) = [7] /\ last (told s) = Some DISCONNECTED.
Proof. vm_compute. split_and!; reflexivity. Qed.

Lemma example_quiet (s : Service) (l : list Job) :
  service_jobs s = l -> forallb (fun x => negb (disconnecting (work x))) l = true -> forall d, live disconnecting (service_jobs s) d = false.
Proof.
  intros -> Hl d. apply not_true_iff_false. rewrite live_true. intros (x & Hx & Hf & _).
  apply list_elem_of_lookup_2, list_elem_of_In in Hx. rewrite forallb_forall in Hl. specialize (Hl x Hx). rewrite Hf in Hl. discriminate.
Qed.

Lemma example_calm : calm example_parse true example_connected new_service.
Proof.
  repeat split; try (vm_compute; reflexivity); vm_compute; try discriminate.
  - intros x [= <-]. reflexivity.
  - intros x [= <-]. reflexivity.
  - intros h [= <-]. discriminate.
  - intros x [= <-]. reflexivity.
Qed.

Lemma service_says_true_witness :
  let s := example_run example_connected new_service in
  protocolState s = CONNECTED /\ open_tunnels (tunnel s) = [tunnelHandle (tunnel s)].
Proof.
  assert (E : protocolState (example_run example_connected new_service) = CONNECTED) by (vm_compute; reflexivity).
  split; [ exact E | ].
  destruct (service_says_true example_parse true example_connected example_calm) as (Hup & _). exact (proj2 (Hup E)).
Defined.

Definition example_after : list Event := [Collects; JobSteps 1 yes; Unbinds; JobSteps 0 yes; JobSteps 1 yes; Collects; TimeoutFires 1].

Lemma disconnect_ends_witness :
  tunnelHandle (tunnel (example_run example_connected new_service)) = 7 /\
  tunnelHandle (tunnel (example_run (DisconnectAsked :: example_after) (example_run example_connected new_service))) = -1.
Proof.
  split; [ vm_compute; reflexivity | ].
  refine (proj1 (disconnect_ends example_parse true example_connected example_after yes yes yes example_calm _ _ _ _ _)).
  - left. vm_compute. reflexivity.
  - eapply example_quiet; [ vm_compute; reflexivity | reflexivity ].
  - repeat split; vm_compute; intros; discriminate.
  - repeat constructor.
  - change (default _ _) with 0%nat. change (List.length _) with 1%nat. unfold example_after. repeat constructor.
Defined.

Lemma early_disconnect_hangs_witness :
  protocolState (example_run [TimeoutFires 1] (example_run [ConnectAsked (Some "awg") true; DisconnectAsked; JobSteps 1 yes; JobSteps 0 yes;
    JobSteps 1 yes; JobSteps 1 yes] new_service)) = DISCONNECTING /\ example_parse "awg" = Some example_awg_config.
Proof.
  split; [ | reflexivity ].
  destruct (early_disconnect_hangs example_parse true "awg" example_awg_config AWG yes yes yes yes) as (_ & _ & Hst & _);
    [ reflexivity | reflexivity | reflexivity | exact Hst ].
Defined.
