(* ===== verification/ConnectionHealth.v ===== *)
(** * Health of the connection

    Models [ConnectionHealthController] (client/ui/controllers/connectionHealthController.cpp): while
    the client is connected a timer starts a probe of the default server every three seconds, the
    last six times are kept, and latency, jitter and a state are shown on the pages.

    A probe is a socket, a clock and a flag; its socket connects or fails, and a timer of 2500 ms
    fails it, in any order and between any other events.  The model keeps the time of the
    monotonic clock; the state of the connection and the rows of the model of servers are what the
    rest of the application sets. *)

From stdpp Require Import base numbers list strings.
From Stdlib Require Import ZArith Lia Strings.String.
From S2P Require Import Prelude.
Open Scope string_scope.
Open Scope list_scope.
Open Scope Z_scope.

(** ** State *)

Record Probe := mkProbe { started : Z; probe_done : bool }.

(** A row of [ServersModel]: is it the default server, and its host name. *)
Record Row := mkRow { isDefault : bool; hostName : string }.

Record Health := mkHealth {
  now : Z;
  isConnected : bool;
  rows : list Row;
  timer_active : bool;
  m_samples : list Z;
  m_latencyMs : Z;
  m_jitterMs : Z;
  m_healthState : Z;
  probes : list Probe;
  healthChanged : nat
}.

Definition new_health : Health := mkHealth 0 false [] false [] (-1) (-1) 0 [] 0.

Definition with_timer (b : bool) (s : Health) : Health :=
  mkHealth (now s) (isConnected s) (rows s) b (m_samples s) (m_latencyMs s) (m_jitterMs s) (m_healthState s) (probes s) (healthChanged s).

Definition with_probes (l : list Probe) (s : Health) : Health :=
  mkHealth (now s) (isConnected s) (rows s) (timer_active s) (m_samples s) (m_latencyMs s) (m_jitterMs s) (m_healthState s) l (healthChanged s).

(** Values are set and [healthChanged] is emitted. *)
Definition shows (samples : list Z) (latency jitter state : Z) (s : Health) : Health :=
  mkHealth (now s) (isConnected s) (rows s) (timer_active s) samples latency jitter state (probes s) (S (healthChanged s)).

(** ** Operations *)

Fixpoint default_host (l : list Row) : string :=
  match l with
  | [] => EmptyString
  | r :: l' => if isDefault r then hostName r else default_host l'
  end.

Definition currentHost (s : Health) : string := default_host (rows s).

Definition measure (s : Health) : Health :=
  if String.eqb (currentHost s) EmptyString then s else with_probes (probes s ++ [mkProbe (now s) false]) s.

(** [static_cast<int>] of a [qint64]. *)
Definition to_int (z : Z) : Z := (z + 2 ^ 31) mod 2 ^ 32 - 2 ^ 31.

(** [while (m_samples.size() > 6) m_samples.removeFirst()] *)
Fixpoint trim (l : list Z) : list Z :=
  match l with
  | [] => []
  | _ :: l' => if (6 <? List.length l)%nat then trim l' else l
  end.

Definition least (l : list Z) : Z := fold_left (fun mn v => if v <? mn then v else mn) l (hd 0 l).

Definition greatest (l : list Z) : Z := fold_left (fun mx v => if mx <? v then v else mx) l (hd 0 l).

Definition finish (i : nat) (ms : Z) (s : Health) : Health :=
  match probes s !! i with
  | Some (mkProbe t false) =>
      let s1 := with_probes (<[i := mkProbe t true]> (probes s)) s in
      if 0 <=? ms then
        let samples := trim (m_samples s1 ++ [ms]) in
        shows samples ms (greatest samples - least samples) (if ms <? 150 then 1 else 2) s1
      else shows (m_samples s1) (-1) (m_jitterMs s1) 2 s1
  | _ => s
  end.

(** The socket connects: the time that has elapsed is the result. *)
Definition on_connected (i : nat) (s : Health) : Health :=
  match probes s !! i with Some p => finish i (to_int (now s - started p)) s | None => s end.

Definition onConnectionStateChanged (s : Health) : Health :=
  if isConnected s then measure (with_timer true (shows [] (-1) (-1) 3 s))
  else shows [] (-1) (-1) 0 (with_timer false s).

Definition onTick (s : Health) : Health := if isConnected s then measure s else with_timer false s.

(** ** Events *)

Inductive Event :=
| Elapses (dt : Z)
| ConnectionIs (b : bool)
| RowsAre (l : list Row)
| StateSignal
| Ticks
| Answers (i : nat)
| Fails (i : nat)
| TimesOut (i : nat).

Definition health_step (s : Health) (e : Event) : Health :=
  match e with
  | Elapses dt =>
      mkHealth (now s + dt) (isConnected s) (rows s) (timer_active s) (m_samples s) (m_latencyMs s) (m_jitterMs s) (m_healthState s)
        (probes s) (healthChanged s)
  | ConnectionIs b =>
      mkHealth (now s) b (rows s) (timer_active s) (m_samples s) (m_latencyMs s) (m_jitterMs s) (m_healthState s)
        (probes s) (healthChanged s)
  | RowsAre l =>
      mkHealth (now s) (isConnected s) l (timer_active s) (m_samples s) (m_latencyMs s) (m_jitterMs s) (m_healthState s)
        (probes s) (healthChanged s)
  | StateSignal => onConnectionStateChanged s
  | Ticks => if timer_active s then onTick s else s
  | Answers i => on_connected i s
  | Fails i | TimesOut i => finish i (-1) s
  end.

Definition health_run (es : list Event) (s : Health) : Health := fold_left health_step es s.

Ltac health_cbn :=
  cbn [now isConnected rows timer_active m_samples m_latencyMs m_jitterMs m_healthState probes healthChanged
       with_timer with_probes shows health_step] in *.

(** ** Samples *)

Lemma trim_suffix (l : list Z) : exists k, trim l = skipn k l /\ (List.length (trim l) <= 6)%nat /\
  (k = List.length l - 6)%nat.
Proof.
  induction l as [|x l (k & E & Hle & Hk)]; [ exists 0%nat; cbn; split_and!; [ reflexivity | lia | reflexivity ] | ].
  cbn [trim]. destruct (Nat.ltb_spec 6 (List.length (x :: l))) as [Hlt | Hge]; cbn [List.length] in *.
  - exists (S k). cbn [skipn]. split_and!; [ exact E | exact Hle | lia ].
  - exists 0%nat. cbn [skipn List.length]. split_and!; [ reflexivity | lia | lia ].
Qed.

(** The last six values. *)
Definition last_six (l : list Z) : list Z := skipn (List.length l - 6) l.

Lemma trim_last (l : list Z) : trim l = last_six l.
Proof. destruct (trim_suffix l) as (k & E & _ & ->). exact E. Qed.

Lemma last_six_app (l : list Z) (x : Z) : last_six (last_six l ++ [x]) = last_six (l ++ [x]).
Proof.
  unfold last_six. rewrite !length_app, length_skipn. cbn [List.length].
  destruct (Nat.le_gt_cases (List.length l) 5) as [Hle | Hgt].
  - replace (List.length l - 6)%nat with 0%nat by lia. cbn [skipn]. f_equal. lia.
  - rewrite !skipn_app, length_skipn, skipn_skipn. f_equal; f_equal; lia.
Qed.

Lemma last_six_Forall (P : Z -> Prop) (l : list Z) : Forall P l -> Forall P (last_six l).
Proof. apply Forall_drop. Qed.

Lemma last_six_snoc (l : list Z) (x : Z) : last (last_six (l ++ [x])) = Some x /\ last_six (l ++ [x]) <> [].
Proof.
  unfold last_six. rewrite skipn_app. destruct (List.length (l ++ [x]) - 6 - List.length l)%nat as [|n] eqn:E.
  - cbn [skipn]. split; [ apply last_snoc | apply app_cons_not_nil || (intros Hx; apply app_eq_nil in Hx as (_ & [=])) ].
  - rewrite length_app in E. cbn in E. lia.
Qed.

(** The greatest and the least, from a first value on. *)
Lemma least_from (l : list Z) (x : Z) :
  let m := fold_left (fun mn v => if v <? mn then v else mn) l x in m <= x /\ Forall (fun v => m <= v) l /\ (m = x \/ m ∈ l).
Proof.
  revert x. induction l as [|v l IH]; intros x; cbn [fold_left]; [ split_and!; [ lia | constructor | left; reflexivity ] | ].
  destruct (IH (if v <? x then v else x)) as (H1 & H2 & H3). destruct (Z.ltb_spec v x).
  - split_and!; [ lia | constructor; assumption | right; apply elem_of_cons; destruct H3 as [-> | H3]; [ left; reflexivity | right; exact H3 ] ].
  - split_and!; [ exact H1 | constructor; [ lia | exact H2 ] | destruct H3 as [-> | H3]; [ left; reflexivity | right; apply elem_of_cons; right; exact H3 ] ].
Qed.

Lemma greatest_from (l : list Z) (x : Z) :
  let m := fold_left (fun mx v => if mx <? v then v else mx) l x in x <= m /\ Forall (fun v => v <= m) l /\ (m = x \/ m ∈ l).
Proof.
  revert x. induction l as [|v l IH]; intros x; cbn [fold_left]; [ split_and!; [ lia | constructor | left; reflexivity ] | ].
  destruct (IH (if x <? v then v else x)) as (H1 & H2 & H3). destruct (Z.ltb_spec x v).
  - split_and!; [ lia | constructor; assumption | right; apply elem_of_cons; destruct H3 as [-> | H3]; [ left; reflexivity | right; exact H3 ] ].
  - split_and!; [ exact H1 | constructor; [ lia | exact H2 ] | destruct H3 as [-> | H3]; [ left; reflexivity | right; apply elem_of_cons; right; exact H3 ] ].
Qed.

(** [j] is the difference of the extreme values of a list. *)
Definition spread (l : list Z) (j : Z) : Prop :=
  exists mn mx, mn ∈ l /\ mx ∈ l /\ Forall (fun v => mn <= v <= mx) l /\ j = mx - mn.

Lemma jitter_spread (l : list Z) : l <> [] -> spread l (greatest l - least l).
Proof.
  intros Hl. destruct l as [|x l]; [ contradiction | ].
  destruct (least_from (x :: l) x) as (_ & Hmin & Hin). destruct (greatest_from (x :: l) x) as (_ & Hmax & Hin').
  assert (Hx : x ∈ x :: l) by (apply elem_of_cons; left; reflexivity).
  exists (least (x :: l)), (greatest (x :: l)). split_and!.
  - destruct Hin as [E | Hin]; [ unfold least; cbn [hd]; rewrite E; exact Hx | exact Hin ].
  - destruct Hin' as [E | Hin']; [ unfold greatest; cbn [hd]; rewrite E; exact Hx | exact Hin' ].
  - apply Forall_forall. intros v Hv. split.
    + exact (proj1 (Forall_forall _ _) Hmin v Hv).
    + exact (proj1 (Forall_forall _ _) Hmax v Hv).
  - reflexivity.
Qed.

(** ** What is to be shown

    The outcomes of the probes since the application last heard of the state of the connection,
    each the time or a failure, and what it heard then. *)
Record History := mkHistory { heard : option bool; outcomes : list (option Z) }.

Definition waiting (s : Health) (i : nat) : bool :=
  match probes s !! i with Some p => negb (probe_done p) | None => false end.

(** The outcome that an event brings. *)
Definition outcome (s : Health) (e : Event) : list (option Z) :=
  match e with
  | Answers i =>
      match probes s !! i with
      | Some (mkProbe t false) => let ms := to_int (now s - t) in [if 0 <=? ms then Some ms else None]
      | _ => []
      end
  | Fails i | TimesOut i => if waiting s i then [None] else []
  | _ => []
  end.

Definition history_step (s : Health) (h : History) (e : Event) : History :=
  match e with
  | StateSignal => mkHistory (Some (isConnected s)) []
  | _ => mkHistory (heard h) (outcomes h ++ outcome s e)
  end.

Fixpoint history_run (es : list Event) (s : Health) (h : History) : History :=
  match es with
  | [] => h
  | e :: es' => history_run es' (health_step s e) (history_step s h e)
  end.

Definition times (h : History) : list Z := omap id (outcomes h).

(** The values for a history. *)
Record shown (h : History) (s : Health) : Prop := {
  shown_samples : m_samples s = last_six (times h);
  shown_latency : m_latencyMs s = match last (outcomes h) with Some (Some ms) => ms | _ => -1 end;
  shown_jitter : match times h with [] => m_jitterMs s = -1 | _ => spread (last_six (times h)) (m_jitterMs s) end;
  shown_state : m_healthState s =
    match last (outcomes h) with
    | Some (Some ms) => if ms <? 150 then 1 else 2
    | Some None => 2
    | None => match heard h with Some true => 3 | _ => 0 end
    end
}.

Lemma times_snoc (b : option bool) (l : list (option Z)) (x : option Z) :
  times (mkHistory b (l ++ [x])) = times (mkHistory b l) ++ match x with Some ms => [ms] | None => [] end.
Proof. unfold times. cbn [outcomes]. rewrite omap_app. destruct x; reflexivity. Qed.

(** What does not touch the values. *)
Lemma shown_same (h : History) (s s' : Health) :
  m_samples s' = m_samples s -> m_latencyMs s' = m_latencyMs s -> m_jitterMs s' = m_jitterMs s -> m_healthState s' = m_healthState s ->
  shown h s -> shown (mkHistory (heard h) (outcomes h ++ [])) s'.
Proof. intros E1 E2 E3 E4 Hs. destruct h as [b l]. cbn [heard outcomes]. rewrite app_nil_r. destruct Hs. split; congruence || (rewrite E3; assumption). Qed.

Lemma measure_same (s : Health) :
  m_samples (measure s) = m_samples s /\ m_latencyMs (measure s) = m_latencyMs s /\ m_jitterMs (measure s) = m_jitterMs s /\
  m_healthState (measure s) = m_healthState s.
Proof. unfold measure. destruct (String.eqb _ _); split_and!; reflexivity. Qed.

Lemma finish_shown (h : History) (s : Health) (i : nat) (t ms : Z) :
  probes s !! i = Some (mkProbe t false) -> shown h s ->
  shown (mkHistory (heard h) (outcomes h ++ [if 0 <=? ms then Some ms else None])) (finish i ms s).
Proof.
  intros Hi [H1 H2 H3 H4]. destruct h as [b l]. cbn [heard outcomes] in *. unfold finish. rewrite Hi.
  destruct (0 <=? ms); split; cbn [outcomes heard]; rewrite ?times_snoc, ?last_snoc; health_cbn; try reflexivity.
  - rewrite trim_last, H1. apply last_six_app.
  - destruct (times _ ++ [ms]) as [|y l'] eqn:E; [ apply app_eq_nil in E as (_ & [=]) | rewrite <- E ].
    rewrite trim_last, H1, last_six_app. apply jitter_spread, last_six_snoc.
  - rewrite app_nil_r. exact H1.
  - rewrite app_nil_r. exact H3.
Qed.

Lemma finish_done (s : Health) (i : nat) (ms : Z) : waiting s i = false -> finish i ms s = s.
Proof. unfold waiting, finish. destruct (probes s !! i) as [[t []]|]; try reflexivity. discriminate. Qed.

Lemma failed_shown (h : History) (s : Health) (i : nat) :
  shown h s -> shown (mkHistory (heard h) (outcomes h ++ (if waiting s i then [None] else []))) (finish i (-1) s).
Proof.
  intros Hs. destruct (waiting s i) eqn:Hw.
  - unfold waiting in Hw. destruct (probes s !! i) as [[t []]|] eqn:Hi; try discriminate. exact (finish_shown h s i t (-1) Hi Hs).
  - rewrite (finish_done s i _ Hw). apply (shown_same h s); try reflexivity. exact Hs.
Qed.

Lemma step_shown (h : History) (s : Health) (e : Event) : shown h s -> shown (history_step s h e) (health_step s e).
Proof.
  intros Hs. destruct e as [dt | b | l | | | i | i | i]; cbn [history_step health_step outcome];
    try (apply (shown_same h s); try reflexivity; exact Hs); try exact (failed_shown h s i Hs).
  - unfold onConnectionStateChanged. destruct (isConnected s).
    + destruct (measure_same (with_timer true (shows [] (-1) (-1) 3 s))) as (E1 & E2 & E3 & E4). split; rewrite ?E1, ?E2, ?E3, ?E4; reflexivity.
    + split; reflexivity.
  - destruct (timer_active s); [ | apply (shown_same h s); try reflexivity; exact Hs ]. unfold onTick. destruct (isConnected s).
    + destruct (measure_same s) as (E1 & E2 & E3 & E4). exact (shown_same h s _ E1 E2 E3 E4 Hs).
    + apply (shown_same h s); try reflexivity; exact Hs.
  - unfold on_connected. destruct (probes s !! i) as [[t []]|] eqn:Hi.
    + cbn [started]. rewrite finish_done by (unfold waiting; rewrite Hi; reflexivity). apply (shown_same h s); try reflexivity; exact Hs.
    + exact (finish_shown h s i t _ Hi Hs).
    + apply (shown_same h s); try reflexivity; exact Hs.
Qed.

(** ** Time

    The timer of a probe is handled at most [lag] late: time does not go on beyond that while the
    probe still waits. *)
Definition punctual_event (lag : Z) (s : Health) (e : Event) : Prop :=
  match e with
  | Elapses dt => 0 <= dt /\ Forall (fun p => probe_done p = false -> now s + dt <= started p + 2500 + lag) (probes s)
  | _ => True
  end.

Fixpoint punctual (lag : Z) (es : list Event) (s : Health) : Prop :=
  match es with
  | [] => True
  | e :: es' => punctual_event lag s e /\ punctual lag es' (health_step s e)
  end.

Section Punctual.
Context (lag : Z) (Hlag : 0 <= lag) (Hsmall : 2500 + lag < 2 ^ 31).

Definition young (s : Health) : Prop :=
  Forall (fun p => probe_done p = false -> 0 <= now s - started p <= 2500 + lag) (probes s).

Definition in_time (v : Z) : Prop := 0 <= v <= 2500 + lag.

Definition timely (s : Health) : Prop := young s /\ Forall in_time (m_samples s) /\ (m_latencyMs s = -1 \/ in_time (m_latencyMs s)).

Lemma to_int_small (z : Z) : in_time z -> to_int z = z.
Proof. unfold in_time, to_int. intros Hz. rewrite Z.mod_small; lia. Qed.

Lemma measure_young (s : Health) : young s -> young (measure s).
Proof.
  intros Hs. unfold measure. destruct (String.eqb _ _); [ exact Hs | ]. unfold young. health_cbn.
  apply Forall_app. split; [ exact Hs | constructor; [ cbn; lia | constructor ] ].
Qed.

Lemma finish_timely (s : Health) (i : nat) (ms : Z) : ms = -1 \/ in_time ms -> timely s -> timely (finish i ms s).
Proof.
  intros Hms (Hy & Hsam & Hlat). unfold finish. destruct (probes s !! i) as [[t []]|] eqn:Hi; try exact (conj Hy (conj Hsam Hlat)).
  assert (Hy' : young (with_probes (<[i := mkProbe t true]> (probes s)) s)).
  { unfold young. health_cbn. apply Forall_insert; [ exact Hy | discriminate ]. }
  destruct (Z.leb_spec 0 ms) as [Hle | Hlt]; split_and!; try exact Hy'; health_cbn; try exact Hsam; try (left; reflexivity).
  - rewrite trim_last. apply last_six_Forall, Forall_app. split; [ exact Hsam | ]. destruct Hms as [-> | Hms]; [ lia | repeat constructor; exact (proj1 Hms) || exact (proj2 Hms) ].
  - right. destruct Hms as [-> | Hms]; [ lia | exact Hms ].
Qed.

Lemma step_timely (s : Health) (e : Event) : punctual_event lag s e -> timely s -> timely (health_step s e).
Proof.
  intros He (Hy & Hsam & Hlat). pose proof (conj Hy (conj Hsam Hlat) : timely s) as Hs.
  destruct e as [dt | b | l | | | i | i | i]; cbn [health_step]; try exact Hs; try (apply finish_timely; [ left; reflexivity | exact Hs ]).
  - destruct He as (Hdt & He). split; [ | exact (conj Hsam Hlat) ]. unfold young in *. health_cbn.
    apply Forall_forall. intros p Hp Hd. pose proof (proj1 (Forall_forall _ _) He p Hp Hd). pose proof (proj1 (Forall_forall _ _) Hy p Hp Hd). lia.
  - unfold onConnectionStateChanged. destruct (isConnected s).
    + destruct (measure_same (with_timer true (shows [] (-1) (-1) 3 s))) as (E1 & E2 & _).
      split_and!; [ apply measure_young; exact Hy | rewrite E1; constructor | left; rewrite E2; reflexivity ].
    + split_and!; [ exact Hy | constructor | left; reflexivity ].
  - destruct (timer_active s); [ | exact Hs ]. unfold onTick. destruct (isConnected s); [ | exact Hs ].
    destruct (measure_same s) as (E1 & E2 & _). split_and!; [ exact (measure_young s Hy) | rewrite E1; exact Hsam | rewrite E2; exact Hlat ].
  - unfold on_connected. destruct (probes s !! i) as [[t d]|] eqn:Hi; [ cbn [started] | exact Hs ]. destruct d.
    + rewrite finish_done by (unfold waiting; rewrite Hi; reflexivity). exact Hs.
    + pose proof (proj1 (Forall_lookup _ _) Hy i _ Hi eq_refl) as Ht. cbn [started] in Ht.
      apply finish_timely; [ right; rewrite to_int_small by exact Ht; exact Ht | exact Hs ].
Qed.

Lemma run_timely (es : list Event) (s : Health) : punctual lag es s -> timely s -> timely (health_run es s).
Proof.
  revert s. induction es as [|e es IH]; intros s; [ intros _ Hs; exact Hs | ]. intros (He & Hes) Hs.
  exact (IH _ Hes (step_timely s e He Hs)).
Qed.
End Punctual.

Lemma run_shown (es : list Event) (s : Health) (h : History) : shown h s -> shown (history_run es s h) (health_run es s).
Proof.
  revert s h. induction es as [|e es IH]; intros s h Hs; [ exact Hs | exact (IH _ _ (step_shown h s e Hs)) ].
Qed.

Lemma new_shown : shown (mkHistory None []) new_health.
Proof. split; reflexivity. Qed.

(** The jitter is within the bounds of the samples. *)
Lemma jitter_bounded (h : History) (s : Health) (b : Z) :
  shown h s -> 0 <= b -> Forall (fun v => 0 <= v <= b) (m_samples s) -> -1 <= m_jitterMs s <= b.
Proof.
  intros Hs Hb Hsam. rewrite (shown_samples _ _ Hs) in Hsam. pose proof (shown_jitter _ _ Hs) as Hj.
  destruct (times h) as [|x l]; [ lia | ]. destruct Hj as (mn & mx & Hmn & Hmx & Hall & ->).
  pose proof (proj1 (Forall_forall _ _) Hsam _ Hmn). pose proof (proj1 (Forall_forall _ _) Hsam _ Hmx).
  pose proof (proj1 (Forall_forall _ _) Hall _ Hmn). cbn in *. lia.
Qed.

(** ** What is shown *)

(** C21: whatever connects, disconnects, answers, fails and runs out, the values are those of the
    outcomes of probes since the last news of the connection: the samples are the last six times, the
    latency is the last outcome's, the jitter the difference of the extreme samples, and the state tells
    a time below 150 ms from a longer one or a failure, and from no outcome yet. *)
Theorem health_refines_history (es : list Event) : shown (history_run es new_health (mkHistory None [])) (health_run es new_health).
Proof. exact (run_shown es new_health _ new_shown). Qed.

(** Where the timers of probes are handled at most [lag] late, every time that is shown is between
    nothing and 2500 ms and the lag, so that no conversion to an [int] changes one, and so is the jitter. *)
Theorem health_bounds (lag : Z) (es : list Event) :
  0 <= lag -> 2500 + lag < 2 ^ 31 -> punctual lag es new_health ->
  let s := health_run es new_health in
  Forall (fun v => 0 <= v <= 2500 + lag) (m_samples s) /\ -1 <= m_latencyMs s <= 2500 + lag /\ -1 <= m_jitterMs s <= 2500 + lag /\
  forall i t, probes s !! i = Some (mkProbe t false) -> to_int (now s - t) = now s - t.
Proof.
  intros Hlag Hsmall Hp s.
  assert (Hnew : timely lag new_health) by (split_and!; [ constructor | constructor | left; reflexivity ]).
  destruct (run_timely lag Hlag Hsmall es new_health Hp Hnew) as (Hy & Hsam & Hlat). fold s in Hy, Hsam, Hlat.
  pose proof (run_shown es new_health _ new_shown) as Hshown.
  pose proof (jitter_bounded _ s (2500 + lag) Hshown ltac:(lia) Hsam) as Hjit.
  split; [ exact Hsam | split; [ destruct Hlat as [-> | (A & B)]; lia | split; [ exact Hjit | ] ] ].
  intros i t Hi. apply (to_int_small lag Hsmall). exact (proj1 (Forall_lookup _ _) Hy i _ Hi eq_refl).
Qed.

(** A probe that waits when the connection goes down and comes up again still counts: the time
    of the earlier connection becomes the latency and the first sample of the new one. *)
Theorem old_probe_counts (s : Health) (i : nat) (t : Z) :
  probes s !! i = Some (mkProbe t false) -> 0 <= now s - t < 2 ^ 31 ->
  let s' := health_run [ConnectionIs false; StateSignal; ConnectionIs true; StateSignal; Answers i] s in
  m_samples s' = [now s - t] /\ m_latencyMs s' = now s - t /\ m_jitterMs s' = 0 /\
  m_healthState s' = (if now s - t <? 150 then 1 else 2).
Proof.
  intros Hi Ht.
  set (s0 := with_timer true (shows [] (-1) (-1) 3 (health_step (health_run [ConnectionIs false; StateSignal] s) (ConnectionIs true)))).
  change (health_run _ s) with (on_connected i (measure s0)). cbv zeta. assert (Hp : probes (measure s0) !! i = Some (mkProbe t false) /\ now (measure s0) = now s /\ m_samples (measure s0) = []).
  { unfold measure. destruct (String.eqb _ _); health_cbn; split_and!; try reflexivity; [ exact Hi | exact (lookup_app_l_Some _ _ _ _ Hi) ]. }
  destruct Hp as (Hp & Hnow & Hsam). unfold on_connected. rewrite Hp. cbn [started]. rewrite Hnow.
  assert (E : to_int (now s - t) = now s - t) by (unfold to_int; rewrite Z.mod_small; lia). rewrite E.
  unfold finish. rewrite Hp, (proj2 (Z.leb_le 0 _) (proj1 Ht)). health_cbn. rewrite Hsam. cbn [app trim List.length Nat.ltb Nat.leb].
  split_and!; try reflexivity. unfold greatest, least. cbn [hd fold_left]. rewrite Z.ltb_irrefl. lia.
Qed.

(** ** Examples *)

Definition example_rows : list Row := [mkRow false "a.example"; mkRow true "b.example"].

(** Connected for a while: one probe was answered, and another waits. *)
Definition example_health : list Event :=
  [RowsAre example_rows; ConnectionIs true; StateSignal; Elapses 40; Answers 0; Elapses 2500; Ticks; Elapses 90].

Lemma health_bounds_witness :
  m_samples (health_run example_health new_health) = [40] /\ -1 <= m_latencyMs (health_run example_health new_health) <= 2500 + 100.
Proof.
  split; [ vm_compute; reflexivity | ].
  refine (proj1 (proj2 (health_bounds 100 example_health _ _ _))); [ lia | lia | ].
  repeat split; try (cbn; lia); repeat constructor; cbn; intros; try lia; try discriminate.
Defined.

Lemma old_probe_counts_witness :
  m_latencyMs (health_run [ConnectionIs false; StateSignal; ConnectionIs true; StateSignal; Answers 1]
    (health_run example_health new_health)) = 90 /\ m_healthState (health_run example_health new_health) = 1.
Proof.
  split; [ | vm_compute; reflexivity ].
  refine (proj1 (proj2 (old_probe_counts (health_run example_health new_health) 1 2540 _ _)));
    [ vm_compute; reflexivity | vm_compute; split; [ discriminate | reflexivity ] ].
Defined.
