(* ===== verification/XrayInbound.v ===== *)
(** * The local proxy of Xray

    Models client/core/utils/serialization/inbound.cpp, which makes sure that the local SOCKS proxy of
    an Xray configuration asks for a password before the program is started
    ([XrayProtocol::start]), and the part of client/3rd/QJsonStruct/QJsonIO.hpp that sets a value at a
    path.

    The free port that the system hands out and the random bytes are arguments; a port that cannot be had
    is the exception.  Texts are compared without case for the letters of ASCII. *)

From stdpp Require Import base numbers list strings.
From Stdlib Require Import ZArith Lia QArith.QArith_base Strings.String Strings.Ascii.
From S2P Require Import Prelude Json Config.
Open Scope string_scope.
Open Scope list_scope.
Open Scope Z_scope.

(** ** Values at paths *)

(** A node of a [QJsonIOPath]. *)
Inductive PathKey :=
| ObjectKey (k : string)
| ArrayIndex (n : nat).

(** [SetValue]: what is missing on the way is made, and an array grows up to the index. *)
Fixpoint set_path (node : QJsonValue) (path : list PathKey) (v : json) : json :=
  match path with
  | [] => v
  | ObjectKey k :: p =>
      let o := toObject node in JObject (obj_insert o k (Some (set_path (obj_value o k) p v)))
  | ArrayIndex n :: p =>
      let l := toArray node in
      JArray (<[n := set_path (l !! n) p v]> (l ++ repeat JNull (S n - List.length l)))
  end.

Definition SetValue (parent : QJsonObject) (v : json) (path : list PathKey) : QJsonObject :=
  toObject (Some (set_path (Some (JObject parent)) path v)).

(** [GetValue] *)
Fixpoint GetValue (val : QJsonValue) (path : list PathKey) : QJsonValue :=
  match path with
  | [] => val
  | ObjectKey k :: p => GetValue (obj_value (toObject val) k) p
  | ArrayIndex n :: p => GetValue (toArray val !! n) p
  end.

(** ** Inbounds *)

Record InboundCredentials := mkCredentials { username : string; password : string; port : Z }.

Definition defaultPort : Z := 10808.

Definition is_socks (v : json) : bool :=
  String.eqb (lower_text (chars (toString (obj_value (toObject (Some v)) "protocol")))) "socks".

Fixpoint indexOfSocksInbound (inbounds : list json) : option nat :=
  match inbounds with
  | [] => None
  | v :: l => if is_socks v then Some 0%nat else S <$> indexOfSocksInbound l
  end.

Definition hex_digit (n : Z) : ascii := ascii_of_N (Z.to_N (if n <? 10 then 48 + n else 87 + n)).

Fixpoint toHex (bytes : list Z) : string :=
  match bytes with
  | [] => EmptyString
  | b :: l => String (hex_digit (b / 16)) (String (hex_digit (b mod 16)) (toHex l))
  end.

(** [random n] are [n] random bytes. *)
Definition generateRandomHex (byteCount : Z) (random : nat -> list Z) : string :=
  if byteCount <=? 0 then EmptyString
  else
    let numUint32 := (byteCount + 4 - 1) / 4 in
    toHex (firstn (Z.to_nat byteCount) (random (Z.to_nat (numUint32 * 4)))).

Definition GenerateInboundEntry : QJsonObject :=
  SetValue (SetValue (SetValue (SetValue [] (JString "127.0.0.1") [ObjectKey "listen"])
    (JDouble (inject_Z defaultPort)) [ObjectKey "port"]) (JString "socks") [ObjectKey "protocol"])
    (JBool true) [ObjectKey "settings"; ObjectKey "udp"].

(** [toInt(defaultValue)] *)
Definition toIntOr (v : QJsonValue) (d : Z) : Z :=
  match v with
  | Some (JDouble q) =>
      let n := Z.quot (Qnum q) (Zpos (Qden q)) in
      if (Z.rem (Qnum q) (Zpos (Qden q)) =? 0) && (- 2 ^ 31 <=? n) && (n <? 2 ^ 31) then n else d
  | _ => d
  end.

Definition account_text (accounts : list json) (k : string) : string := chars (toString (obj_value (toObject (head accounts)) k)).

Definition GetInboundCredentials (xrayConfig : QJsonObject) : InboundCredentials :=
  let inbounds := toArray (obj_value xrayConfig "inbounds") in
  match indexOfSocksInbound inbounds with
  | None => mkCredentials EmptyString EmptyString defaultPort
  | Some socksIdx =>
      let inbound := toObject (inbounds !! socksIdx) in
      let p := toIntOr (obj_value inbound "port") defaultPort in
      let accounts := toArray (obj_value (toObject (obj_value inbound "settings")) "accounts") in
      match accounts with
      | [] => mkCredentials EmptyString EmptyString p
      | _ => mkCredentials (account_text accounts "user") (account_text accounts "pass") p
      end
  end.

Definition fresh_account (user pass : string) : json := JObject (obj_insert (obj_insert [] "user" (Some (JString user))) "pass" (Some (JString pass))).

(** [free] is the port of [acquireFreeLocalPort], none where it throws; [r1] and [r2] are the
    random bytes of the name and the password. *)
Definition EnsureInboundAuth (free : option Z) (r1 r2 : nat -> list Z) (xrayConfig : QJsonObject) :
    option (InboundCredentials * QJsonObject) :=
  let inbounds := toArray (obj_value xrayConfig "inbounds") in
  match indexOfSocksInbound inbounds with
  | None => Some (GetInboundCredentials xrayConfig, xrayConfig)
  | Some socksIdx =>
      p ← free;
      let inbound := obj_insert (toObject (inbounds !! socksIdx)) "port" (number p) in
      let settings := toObject (obj_value inbound "settings") in
      let accounts := toArray (obj_value settings "accounts") in
      let user := account_text accounts "user" in
      let pass := account_text accounts "pass" in
      let '(user', pass', settings') :=
        if String.eqb user EmptyString || String.eqb pass EmptyString then
          let user' := generateRandomHex 8 r1 in
          let pass' := generateRandomHex 16 r2 in
          (user', pass', obj_insert settings "accounts" (Some (JArray [fresh_account user' pass'])))
        else (user, pass, settings) in
      let settings'' := obj_insert settings' "auth" (Some (JString "password")) in
      let inbound' := obj_insert inbound "settings" (Some (JObject settings'')) in
      Some (mkCredentials user' pass' p,
            obj_insert xrayConfig "inbounds" (Some (JArray (<[socksIdx := JObject inbound']> inbounds))))
  end.

(** ** Lemmas *)

Lemma socks_at (l : list json) (i : nat) :
  indexOfSocksInbound l = Some i -> exists v, l !! i = Some v /\ is_socks v = true.
Proof.
  revert i. induction l as [|v l IH]; intros i; [ discriminate | ]. cbn [indexOfSocksInbound].
  destruct (is_socks v) eqn:Hv; [ intros [= <-]; exists v; split; [ reflexivity | exact Hv ] | ].
  intros Hi. apply fmap_Some in Hi as (j & Hj & ->). exact (IH j Hj).
Qed.

(** The first proxy stays the first when it is changed. *)
Lemma socks_insert (l : list json) (i : nat) (w : json) :
  indexOfSocksInbound l = Some i -> is_socks w = true -> indexOfSocksInbound (<[i := w]> l) = Some i.
Proof.
  revert i. induction l as [|v l IH]; intros i; [ discriminate | ]. cbn [indexOfSocksInbound].
  destruct (is_socks v) eqn:Hv; [ intros [= <-] Hw; cbn; rewrite Hw; reflexivity | ].
  intros Hi Hw. apply fmap_Some in Hi as (j & Hj & ->). change (<[S j := w]> (v :: l)) with (v :: <[j := w]> l).
  cbn [indexOfSocksInbound]. rewrite Hv, (IH j Hj Hw). reflexivity.
Qed.

Lemma toHex_length (l : list Z) : String.length (toHex l) = (2 * List.length l)%nat.
Proof. induction l as [|b l IH]; [ reflexivity | ]. cbn [toHex String.length List.length]. rewrite IH. lia. Qed.

(** So many bytes, and two digits for each. *)
Lemma random_length (n : Z) (r : nat -> list Z) :
  (forall k, List.length (r k) = k) -> 0 < n -> String.length (generateRandomHex n r) = (2 * Z.to_nat n)%nat.
Proof.
  intros Hr Hn. unfold generateRandomHex. rewrite (proj2 (Z.leb_gt n 0) Hn), toHex_length, length_firstn, Hr.
  assert (n <= (n + 4 - 1) / 4 * 4) by dlia. lia.
Qed.

Lemma long_text (s : string) (n : nat) : String.length s = S n -> s <> EmptyString.
Proof. intros Hs ->. discriminate. Qed.

Lemma toIntOr_number (n d : Z) : 0 <= n < 65536 -> toIntOr (number n) d = n.
Proof.
  intros Hn. unfold toIntOr, number, inject_Z. cbn [Qnum Qden]. rewrite Z.quot_1_r, Z.rem_1_r, Z.eqb_refl.
  rewrite (proj2 (Z.leb_le _ _)), (proj2 (Z.ltb_lt _ _)) by lia. reflexivity.
Qed.

(** The proxy with a port and settings of its own. *)
Definition patched (xrayConfig : QJsonObject) (i : nat) (p : Z) (settings : QJsonObject) : QJsonObject :=
  let inbounds := toArray (obj_value xrayConfig "inbounds") in
  let inbound := obj_insert (toObject (inbounds !! i)) "port" (number p) in
  let inbound' := obj_insert inbound "settings" (Some (JObject (obj_insert settings "auth" (Some (JString "password"))))) in
  obj_insert xrayConfig "inbounds" (Some (JArray (<[i := JObject inbound']> inbounds))).

Definition inbounds_of (xrayConfig : QJsonObject) : list json := toArray (obj_value xrayConfig "inbounds").

Definition inbound_of (xrayConfig : QJsonObject) (i : nat) : QJsonObject := toObject (inbounds_of xrayConfig !! i).

Definition settings_of (xrayConfig : QJsonObject) (i : nat) : QJsonObject :=
  toObject (obj_value (toObject (inbounds_of xrayConfig !! i)) "settings").

Lemma patched_inbounds (c : QJsonObject) (i : nat) (p : Z) (settings : QJsonObject) :
  exists o, inbounds_of (patched c i p settings) = <[i := JObject o]> (inbounds_of c) /\
    toIntOr (obj_value o "port") defaultPort = toIntOr (number p) defaultPort /\
    obj_value o "settings" = Some (JObject (obj_insert settings "auth" (Some (JString "password")))) /\
    forall k, k <> "port" -> k <> "settings" -> obj_value o k = obj_value (toObject (inbounds_of c !! i)) k.
Proof.
  eexists. split; [ unfold inbounds_of, patched; rewrite obj_value_insert; reflexivity | ].
  split; [ rewrite !obj_value_insert; reflexivity | split; [ rewrite !obj_value_insert; reflexivity | ] ].
  intros k H1 H2. rewrite !obj_value_insert.
  rewrite (proj2 (String.eqb_neq "settings" k)), (proj2 (String.eqb_neq "port" k)) by congruence. reflexivity.
Qed.

(** What is read from it. *)
Lemma patched_read (c : QJsonObject) (i : nat) (p : Z) (settings : QJsonObject) :
  indexOfSocksInbound (inbounds_of c) = Some i -> 0 <= p < 65536 ->
  let c' := patched c i p settings in
  indexOfSocksInbound (inbounds_of c') = Some i /\
  settings_of c' i = obj_insert settings "auth" (Some (JString "password")) /\
  (forall j, j <> i -> inbounds_of c' !! j = inbounds_of c !! j) /\
  (forall k, k <> "inbounds" -> obj_value c' k = obj_value c k) /\
  (forall k, k <> "port" -> k <> "settings" -> obj_value (inbound_of c' i) k = obj_value (inbound_of c i) k) /\
  (toArray (obj_value settings "accounts") <> [] ->
   GetInboundCredentials c' = mkCredentials (account_text (toArray (obj_value settings "accounts")) "user")
                                (account_text (toArray (obj_value settings "accounts")) "pass") p).
Proof.
  intros Hi Hp c'. destruct (patched_inbounds c i p settings) as (o & Hl & Hport & Hset & Hrest). fold c' in Hl.
  destruct (socks_at _ _ Hi) as (v & Hv & Hsocks).
  assert (Hat : inbounds_of c' !! i = Some (JObject o)) by (rewrite Hl; apply list_lookup_insert_eq, lookup_lt_is_Some; eauto).
  assert (Hidx : indexOfSocksInbound (inbounds_of c') = Some i).
  { rewrite Hl. apply socks_insert; [ exact Hi | ]. unfold is_socks in *. cbn [toObject]. rewrite Hrest by discriminate. rewrite Hv. exact Hsocks. }
  split_and!.
  - exact Hidx.
  - unfold settings_of. rewrite Hat. cbn [toObject]. rewrite Hset. reflexivity.
  - intros j Hj. rewrite Hl. apply list_lookup_insert_ne. congruence.
  - intros k Hk. unfold c', patched. rewrite obj_value_insert. rewrite (proj2 (String.eqb_neq "inbounds" k)) by congruence. reflexivity.
  - intros k H1 H2. unfold inbound_of at 1. rewrite Hat. exact (Hrest k H1 H2).
  - intros Hacc. unfold GetInboundCredentials. fold (inbounds_of c'). rewrite Hidx, Hat. cbn [toObject]. rewrite Hport, Hset.
    cbn [toObject]. rewrite obj_value_insert. change (String.eqb "auth" "accounts") with false. cbv iota.
    rewrite toIntOr_number by exact Hp. destruct (toArray (obj_value settings "accounts")); [ contradiction | reflexivity ].
Qed.

Definition accounts_of (settings : QJsonObject) : list json := toArray (obj_value settings "accounts").

(** Both cases of the credentials. *)
Lemma ensure_cases (p : Z) (r1 r2 : nat -> list Z) (c : QJsonObject) (i : nat) :
  indexOfSocksInbound (inbounds_of c) = Some i ->
  let user := account_text (accounts_of (settings_of c i)) "user" in
  let pass := account_text (accounts_of (settings_of c i)) "pass" in
  let u := generateRandomHex 8 r1 in
  let w := generateRandomHex 16 r2 in
  EnsureInboundAuth (Some p) r1 r2 c =
    if String.eqb user EmptyString || String.eqb pass EmptyString then
      Some (mkCredentials u w p, patched c i p (obj_insert (settings_of c i) "accounts" (Some (JArray [fresh_account u w]))))
    else Some (mkCredentials user pass p, patched c i p (settings_of c i)).
Proof.
  intros Hi user pass u w. unfold EnsureInboundAuth. fold (inbounds_of c). rewrite Hi. cbn [mbind option_bind].
  rewrite obj_value_insert. change (String.eqb "port" "settings") with false. cbv iota. fold (settings_of c i).
  fold (accounts_of (settings_of c i)). fold user pass. destruct (String.eqb user EmptyString || String.eqb pass EmptyString); reflexivity.
Qed.

(** The credentials of the proxy are those of its first account. *)
Lemma read_credentials (c : QJsonObject) (i : nat) :
  indexOfSocksInbound (inbounds_of c) = Some i ->
  username (GetInboundCredentials c) = account_text (accounts_of (settings_of c i)) "user" /\
  password (GetInboundCredentials c) = account_text (accounts_of (settings_of c i)) "pass".
Proof.
  intros Hi. unfold GetInboundCredentials. fold (inbounds_of c). rewrite Hi. fold (settings_of c i). fold (accounts_of (settings_of c i)).
  destruct (accounts_of (settings_of c i)); split; reflexivity.
Qed.

(** ** What is ensured *)

(** Nothing of a configuration but the port, the mode of authentication and the accounts of the proxy at
    [i] changes. *)
Record only_proxy_changes (i : nat) (c c' : QJsonObject) : Prop := {
  other_proxies j : j <> i -> inbounds_of c' !! j = inbounds_of c !! j;
  other_keys k : k <> "inbounds" -> obj_value c' k = obj_value c k;
  rest_of_proxy k : k <> "port" -> k <> "settings" -> obj_value (inbound_of c' i) k = obj_value (inbound_of c i) k;
  rest_of_settings k : k <> "auth" -> k <> "accounts" -> obj_value (settings_of c' i) k = obj_value (settings_of c i) k
}.

(** C9: where a configuration has a SOCKS proxy and the system a free port, the first such proxy gets that
    port, asks for a password, and has a name and a password that are not empty and that the program
    uses; where a name and a password were there, they and all accounts stay, and otherwise the new ones are the only
    account; nothing else of the proxy, of its settings and of the configuration changes. *)
Theorem proxy_asks_for_password (p : Z) (r1 r2 : nat -> list Z) (c : QJsonObject) (i : nat) :
  0 <= p < 65536 -> (forall k, List.length (r1 k) = k) -> (forall k, List.length (r2 k) = k) ->
  indexOfSocksInbound (inbounds_of c) = Some i ->
  exists creds c', EnsureInboundAuth (Some p) r1 r2 c = Some (creds, c') /\
    GetInboundCredentials c' = creds /\ port creds = p /\ username creds <> EmptyString /\ password creds <> EmptyString /\
    obj_value (settings_of c' i) "auth" = Some (JString "password") /\ indexOfSocksInbound (inbounds_of c') = Some i /\
    only_proxy_changes i c c' /\
    (if String.eqb (username (GetInboundCredentials c)) EmptyString || String.eqb (password (GetInboundCredentials c)) EmptyString
     then obj_value (settings_of c' i) "accounts" = Some (JArray [fresh_account (username creds) (password creds)])
     else username creds = username (GetInboundCredentials c) /\ password creds = password (GetInboundCredentials c) /\
          obj_value (settings_of c' i) "accounts" = obj_value (settings_of c i) "accounts").
Proof.
  intros Hp H1 H2 Hi. pose proof (ensure_cases p r1 r2 c i Hi) as E. cbv zeta in E. destruct (read_credentials c i Hi) as (Eu & Ep).
  rewrite Eu, Ep. revert E.
  set (user := account_text _ "user"). set (pass := account_text _ "pass").
  set (u := generateRandomHex 8 r1). set (w := generateRandomHex 16 r2). intros E.
  assert (Hu : u <> EmptyString) by exact (long_text _ _ (random_length 8 r1 H1 eq_refl)).
  assert (Hw : w <> EmptyString) by exact (long_text _ _ (random_length 16 r2 H2 eq_refl)).
  assert (Hneq : forall a b, a <> b -> String.eqb a b = false) by (intros a b; apply String.eqb_neq).
  destruct (String.eqb user EmptyString || String.eqb pass EmptyString) eqn:Hcase.
  - set (settings := obj_insert _ _ _) in E.
    destruct (patched_read c i p settings Hi Hp) as (Hidx & Hset & Hoth & Hkeys & Hrest & Hread).
    assert (Hacc : toArray (obj_value settings "accounts") = [fresh_account u w]) by (unfold settings; rewrite obj_value_insert; reflexivity).
    rewrite Hacc in Hread. eexists _, _. split; [ exact E | ].
    split_and!; try assumption; [ exact (Hread ltac:(discriminate)) | reflexivity | rewrite Hset, obj_value_insert; reflexivity | | ].
    + split; try assumption. intros k H3 H4. rewrite Hset. unfold settings. rewrite !obj_value_insert, !Hneq by congruence. reflexivity.
    + rewrite Hset. unfold settings. rewrite !obj_value_insert. reflexivity.
  - apply orb_false_iff in Hcase as (Hnu & Hnp). apply String.eqb_neq in Hnu, Hnp.
    destruct (patched_read c i p (settings_of c i) Hi Hp) as (Hidx & Hset & Hoth & Hkeys & Hrest & Hread).
    eexists _, _. split; [ exact E | ].
    split_and!; try assumption; try reflexivity; [ | rewrite Hset, obj_value_insert; reflexivity | | rewrite Hset, obj_value_insert; reflexivity ].
    + apply Hread. intros Hnil. apply Hnu. unfold user, accounts_of. rewrite Hnil. reflexivity.
    + split; try assumption. intros k H3 H4. rewrite Hset, obj_value_insert, Hneq by congruence. reflexivity.
Qed.

(** ** Examples *)

Definition example_random (k : nat) : list Z := repeat 171 k.

Definition example_xray : QJsonObject := [("inbounds", JArray [JObject [("protocol", JString "HTTP")]; JObject GenerateInboundEntry])].

Lemma proxy_asks_for_password_witness :
  indexOfSocksInbound (inbounds_of example_xray) = Some 1%nat /\
  exists c', EnsureInboundAuth (Some 40000) example_random example_random example_xray =
    Some (mkCredentials "abababababababab" "abababababababababababababababab" 40000, c') /\
    obj_value (settings_of c' 1) "auth" = Some (JString "password").
Proof.
  split; [ reflexivity | ].
  destruct (proxy_asks_for_password 40000 example_random example_random example_xray 1) as (creds & c' & E & _ & _ & _ & _ & Hauth & _).
  - lia.
  - intros k. apply repeat_length.
  - intros k. apply repeat_length.
  - reflexivity.
  - exists c'. split; [ rewrite E; f_equal; f_equal; vm_compute in E; injection E as <- _; reflexivity | exact Hauth ].
Defined.
