(* ===== verification/ShareLinks.v ===== *)
(** * Links to servers

    Models client/core/utils/serialization/vless.cpp, which writes a server as a [vless://] link and
    reads one as an Xray configuration, and the part of [ExportController::generateXrayConfig]
    (client/core/controllers/selfhosted/exportController.cpp) that takes the server from a configuration.

    [QUrl] is a parameter: a URL has its components, a text is made from them and read back. *)

From stdpp Require Import base numbers list strings pretty.
From Stdlib Require Import ZArith Lia QArith.QArith_base Strings.String Strings.Ascii.
From S2P Require Import Prelude Json Config XrayInbound.
Open Scope string_scope.
Open Scope list_scope.
Open Scope Z_scope.

(** ** URLs *)

(** The components that the code sets and asks for; a port of -1 is none. *)
Record Url := mkUrl {
  scheme : string;
  userInfo : string;
  host : string;
  url_port : Z;
  query : list (string * string);
  fragment : string
}.

Class QUrl := {
  (** [toString(FullyEncoded)] *)
  url_text : Url -> string;
  (** The constructor, none where [isValid] is false. *)
  url_parse : string -> option Url;
  fromPercentEncoding : string -> string
}.

Fixpoint all_chars (p : ascii -> bool) (s : string) : bool :=
  match s with EmptyString => true | String c s' => p c && all_chars p s' end.

(** Characters that no component writes in another way; a slash stays in a query as well, and a
    space in a fragment is written as an escape and read back. *)
Definition in_range (a b : N) (c : ascii) : bool := ((a <=? N_of_ascii c) && (N_of_ascii c <=? b))%N.

Definition plain_char (c : ascii) : bool :=
  in_range 97 122 c || in_range 65 90 c || in_range 48 57 c || Ascii.eqb c "-" || Ascii.eqb c "_" || Ascii.eqb c ".".

Definition value_char (c : ascii) : bool := plain_char c || Ascii.eqb c "/".

Definition fragment_char (c : ascii) : bool := plain_char c || Ascii.eqb c " ".

Abbreviation plain := (all_chars plain_char).

(** A label of a name in small letters and digits, with single hyphens inside. *)
Fixpoint label_from (after_hyphen : bool) (s : string) : bool :=
  match s with
  | EmptyString => negb after_hyphen
  | String c s' =>
      if Ascii.eqb c "-" then negb after_hyphen && label_from true s'
      else (in_range 97 122 c || in_range 48 57 c) && label_from false s'
  end.

Definition label (s : string) : bool := label_from true s && (String.length s <=? 63)%nat.

Definition starts_with_letter (s : string) : bool :=
  match s with EmptyString => false | String c _ => in_range 97 122 c end.

(** A name of a host whose last label begins with a letter, so that it is not a number. *)
Definition domain_name (s : string) : bool :=
  forallb label (split_on "." s) && starts_with_letter (List.last (split_on "." s) EmptyString)
  && (String.length s <=? 253)%nat.

(** An address as four numbers of a byte, without leading zeros. *)
Definition byte_number (s : string) : bool := existsb (fun n : nat => String.eqb s (pretty n)) (seq 0 256).

Definition dotted_quad (s : string) : bool :=
  match split_on "." s with [a; b; c; d] => forallb byte_number [a; b; c; d] | _ => false end.

Definition plain_host (s : string) : bool :=
  plain s && negb (String.eqb s EmptyString) && (domain_name s || dotted_quad s).

Definition plain_entry (e : string * string) : bool :=
  plain e.1 && all_chars value_char e.2 && negb (String.eqb e.1 EmptyString).

Definition plain_url (u : Url) : bool :=
  String.eqb (scheme u) "vless" && plain (userInfo u) && negb (String.eqb (userInfo u) EmptyString) && plain_host (host u)
  && (0 <=? url_port u) && (url_port u <? 65536)
  && forallb plain_entry (query u) && all_chars fragment_char (fragment u).

(** The text begins with the scheme, it is read back, and a text without escapes is itself. *)
Class QUrlLaws `{QUrl} := {
  url_scheme u : plain_url u = true -> String.prefix "vless://" (url_text u) = true;
  url_read u : plain_url u = true -> url_parse (url_text u) = Some u;
  plain_decoded s : all_chars value_char s = true -> fromPercentEncoding s = s
}.

(** ** Servers *)

Record VlessServerObject := mkVless {
  v_address : string;
  v_id : string;
  v_port : Z;
  v_flow : string;
  v_encryption : string;
  v_network : string;
  v_security : string;
  v_serverName : string;
  v_publicKey : string;
  v_shortId : string;
  v_fingerprint : string;
  v_spiderX : string
}.

Definition empty (s : string) : bool := String.eqb s EmptyString.

(** The query item, where the condition holds. *)
Definition add_item (b : bool) (k v : string) : list (string * string) := if b then [(k, v)] else [].

Definition link_query (s : VlessServerObject) : list (string * string) :=
  add_item (negb (empty (v_network s)) && negb (String.eqb (v_network s) "tcp")) "type" (v_network s)
  ++ add_item (negb (empty (v_encryption s))) "encryption" (v_encryption s)
  ++ add_item (negb (empty (v_security s)) && negb (String.eqb (v_security s) "none")) "security" (v_security s)
  ++ add_item (negb (empty (v_flow s)) && (String.eqb (v_security s) "xtls" || String.eqb (v_security s) "reality")) "flow" (v_flow s)
  ++ add_item (negb (empty (v_serverName s))) "sni" (v_serverName s)
  ++ (if String.eqb (v_security s) "reality" then
        add_item (negb (empty (v_fingerprint s))) "fp" (v_fingerprint s)
        ++ add_item (negb (empty (v_publicKey s))) "pbk" (v_publicKey s)
        ++ add_item (negb (empty (v_shortId s))) "sid" (v_shortId s)
        ++ add_item (negb (empty (v_spiderX s))) "spiderX" (v_spiderX s)
      else []).

Definition link_url (s : VlessServerObject) (alias : string) : Url :=
  mkUrl "vless" (v_id s) (v_address s) (v_port s) (link_query s) (if empty alias then EmptyString else alias).

Definition Serialize `{QUrl} (s : VlessServerObject) (alias : string) : string := url_text (link_url s alias).

(** ** Reading a link *)

(** [queryItemValue], none where [hasQueryItem] is false. *)
Fixpoint item (q : list (string * string)) (k : string) : option string :=
  match q with
  | [] => None
  | (k', v) :: q' => if String.eqb k k' then Some v else item q' k
  end.

Definition set_text (v : option string) (path : list PathKey) (o : QJsonObject) : QJsonObject :=
  match v with Some s => SetValue o (JString s) path | None => o end.

(** Set unless it is the value that is left out. *)
Definition set_unless (d v : string) (path : list PathKey) (o : QJsonObject) : QJsonObject :=
  if String.eqb v d then o else SetValue o (JString v) path.

Definition texts (l : list string) : json := JArray (map JString l).

Section Reading.
Context `{QUrl}.

(** What a transport of its own kind has. *)
Definition type_settings (type : string) (q : list (string * string)) (stream : QJsonObject) : QJsonObject :=
  if String.eqb type "kcp" then
    set_unless "none" (default "none" (item q "headerType")) [ObjectKey "kcpSettings"; ObjectKey "header"; ObjectKey "type"]
      (set_text (item q "seed") [ObjectKey "kcpSettings"; ObjectKey "seed"] stream)
  else if String.eqb type "http" then
    let s1 := set_unless "/" (default "/" (fromPercentEncoding <$> item q "path")) [ObjectKey "httpSettings"; ObjectKey "path"] stream in
    match item q "host" with
    | Some h => SetValue s1 (texts (split_on "," h)) [ObjectKey "httpSettings"; ObjectKey "host"]
    | None => s1
    end
  else if String.eqb type "ws" then
    set_text (item q "host") [ObjectKey "wsSettings"; ObjectKey "headers"; ObjectKey "Host"]
      (set_unless "/" (default "/" (fromPercentEncoding <$> item q "path")) [ObjectKey "wsSettings"; ObjectKey "path"] stream)
  else if String.eqb type "quic" then
    match item q "quicSecurity" with
    | Some quicSecurity =>
        let s1 := SetValue stream (JString quicSecurity) [ObjectKey "quicSettings"; ObjectKey "security"] in
        let s2 := if String.eqb quicSecurity "none" then s1
                  else SetValue s1 (JString (default EmptyString (item q "key"))) [ObjectKey "quicSettings"; ObjectKey "key"] in
        set_unless "none" (default "none" (item q "headerType")) [ObjectKey "quicSettings"; ObjectKey "header"; ObjectKey "type"] s2
    | None => stream
    end
  else if String.eqb type "grpc" then
    let s1 := set_text (fromPercentEncoding <$> item q "serviceName") [ObjectKey "grpcSettings"; ObjectKey "serviceName"] stream in
    match item q "mode" with
    | Some m => SetValue s1 (JBool (String.eqb (fromPercentEncoding m) "multi")) [ObjectKey "grpcSettings"; ObjectKey "multiMode"]
    | None => s1
    end
  else stream.

(** What the transport layer security has. *)
Definition security_settings (security : string) (q : list (string * string)) (stream : QJsonObject) : QJsonObject :=
  let tlsKey := if String.eqb security "xtls" then "xtlsSettings" else if String.eqb security "tls" then "tlsSettings" else "realitySettings" in
  let s1 := set_unless "none" security [ObjectKey "security"] stream in
  let s2 := set_text (item q "sni") [ObjectKey tlsKey; ObjectKey "serverName"] s1 in
  match item q "alpn" with
  | Some raw =>
      match List.filter (fun x => negb (String.eqb x "h2")) (split_on "," (fromPercentEncoding raw)) with
      | [] => s2
      | l => SetValue s2 (texts l) [ObjectKey tlsKey; ObjectKey "alpn"]
      end
  | None => s2
  end.

Definition reality_settings (q : list (string * string)) (stream : QJsonObject) : QJsonObject :=
  let at_key k := [ObjectKey "realitySettings"; ObjectKey k] in
  set_text (fromPercentEncoding <$> item q "sid") (at_key "shortId")
    (set_text (fromPercentEncoding <$> item q "spiderX") (at_key "spiderX")
      (set_text (fromPercentEncoding <$> item q "pbk") (at_key "publicKey")
        (set_text (fromPercentEncoding <$> item q "fp") (at_key "fingerprint") stream))).

Definition vnext (l : list PathKey) : list PathKey := ObjectKey "settings" :: ObjectKey "vnext" :: ArrayIndex 0 :: l.
Definition users (k : string) : list PathKey := vnext [ObjectKey "users"; ArrayIndex 0; ObjectKey k].

(** The configuration, the alias where it is set, and the message where there is one. *)
Record Read := mkRead { root : QJsonObject; read_alias : option string; errMessage : option string }.

Definition ends_with (c : ascii) (s : string) : bool := match String.get (String.length s - 1) s with Some d => Ascii.eqb c d | None => false end.

Definition strip_brackets (s : string) : string :=
  if String.prefix "[" s && ends_with "]" s then String.substring 1 (String.length s - 2) s else s.

Definition read_config (u : Url) : QJsonObject :=
  let q := query u in
  let outbound := SetValue (SetValue (SetValue (SetValue [] (JString "vless") [ObjectKey "protocol"])
    (JString (strip_brackets (host u))) (vnext [ObjectKey "address"])) (JDouble (inject_Z (url_port u))) (vnext [ObjectKey "port"]))
    (JString (userInfo u)) (users "id") in
  let type := default "tcp" (item q "type") in
  let stream := set_unless "tcp" type [ObjectKey "network"] [] in
  let outbound := SetValue outbound (JString (default "none" (item q "encryption"))) (users "encryption") in
  let security := default "none" (item q "security") in
  let stream := security_settings security q (type_settings type q stream) in
  let outbound := if String.eqb security "xtls" || String.eqb security "reality"
                  then SetValue outbound (JString (default EmptyString (item q "flow"))) (users "flow") else outbound in
  let stream := if String.eqb security "reality" then reality_settings q stream else stream in
  let outbound := obj_insert outbound "streamSettings" (Some (JObject stream)) in
  obj_insert (obj_insert [] "outbounds" (Some (JArray [JObject outbound]))) "inbounds" (Some (JArray [JObject GenerateInboundEntry])).

Definition Deserialize (str : string) : Read :=
  if negb (String.prefix "vless://" str) then mkRead [] None (Some "VLESS link should start with vless://")
  else match url_parse str with
    | None => mkRead [] None (Some "link parse failed: %1")
    | Some u =>
        if empty (host u) then mkRead [] None (Some "empty host")
        else if url_port u =? -1 then mkRead [] None (Some "missing port")
        else
          let alias := if empty (fragment u) then None else Some (fragment u) in
          if empty (userInfo u) then mkRead [] alias (Some "missing uuid")
          else mkRead (read_config u) alias None
    end.
End Reading.

(** ** The server of a configuration *)

Definition text_or (d : string) (v : QJsonValue) : string := match v with Some (JString s) => s | _ => d end.

Definition server_of_config (xrayConfig : QJsonObject) : option VlessServerObject :=
  match toArray (obj_value xrayConfig "outbounds") with
  | [] => None
  | o :: _ =>
      let outbound := toObject (Some o) in
      let streamSettings := toObject (obj_value outbound "streamSettings") in
      match toArray (obj_value (toObject (obj_value outbound "settings")) "vnext") with
      | [] => None
      | v :: _ =>
          let server := toObject (Some v) in
          match toArray (obj_value server "users") with
          | [] => None
          | w :: _ =>
              let user := toObject (Some w) in
              let security := text_or "reality" (obj_value streamSettings "security") in
              let s := mkVless (text_or EmptyString (obj_value server "address")) (text_or EmptyString (obj_value user "id"))
                         (toInt (obj_value server "port")) (text_or "xtls-rprx-vision" (obj_value user "flow"))
                         (text_or "none" (obj_value user "encryption")) (text_or "tcp" (obj_value streamSettings "network")) security
                         EmptyString EmptyString EmptyString "chrome" EmptyString in
              Some (
                if String.eqb security "reality" then
                  let r := toObject (obj_value streamSettings "realitySettings") in
                  mkVless (v_address s) (v_id s) (v_port s) (v_flow s) (v_encryption s) (v_network s) security
                    (text_or EmptyString (obj_value r "serverName")) (text_or EmptyString (obj_value r "publicKey"))
                    (text_or EmptyString (obj_value r "shortId")) (text_or "chrome" (obj_value r "fingerprint"))
                    (text_or EmptyString (obj_value r "spiderX"))
                else if String.eqb security "tls" then
                  let t := toObject (obj_value streamSettings "tlsSettings") in
                  mkVless (v_address s) (v_id s) (v_port s) (v_flow s) (v_encryption s) (v_network s) security
                    (text_or EmptyString (obj_value t "serverName")) (v_publicKey s) (v_shortId s)
                    (text_or EmptyString (obj_value t "fingerprint")) (v_spiderX s)
                else s)
          end
      end
  end.

(** ** Lemmas *)

Lemma value_SetValue (o : QJsonObject) (v : json) (a : string) (p : list PathKey) (k : string) :
  obj_value (SetValue o v (ObjectKey a :: p)) k = if String.eqb a k then Some (set_path (obj_value o a) p v) else obj_value o k.
Proof. unfold SetValue. cbn [set_path toObject]. apply obj_value_insert. Qed.

Lemma value_set_text (o : QJsonObject) (v : option string) (a : string) (p : list PathKey) (k : string) :
  obj_value (set_text v (ObjectKey a :: p) o) k =
    match v with
    | Some s => if String.eqb a k then Some (set_path (obj_value o a) p (JString s)) else obj_value o k
    | None => obj_value o k
    end.
Proof. destruct v; [ apply value_SetValue | reflexivity ]. Qed.

Lemma value_set_unless (o : QJsonObject) (d v a : string) (p : list PathKey) (k : string) :
  obj_value (set_unless d v (ObjectKey a :: p) o) k =
    if String.eqb v d then obj_value o k
    else if String.eqb a k then Some (set_path (obj_value o a) p (JString v)) else obj_value o k.
Proof. unfold set_unless. destruct (String.eqb v d); [ reflexivity | apply value_SetValue ]. Qed.

(** A text at a key of an object that is itself a value. *)
Lemma text_at (o : QJsonObject) (v : option string) (a b c d : string) :
  text_or d (obj_value (toObject (obj_value (set_text v [ObjectKey a; ObjectKey b] o) a)) c) =
    if String.eqb b c then default (text_or d (obj_value (toObject (obj_value o a)) c)) v
    else text_or d (obj_value (toObject (obj_value o a)) c).
Proof.
  rewrite value_set_text. destruct v as [s|]; [ | destruct (String.eqb b c); reflexivity ].
  rewrite String.eqb_refl. cbn [set_path toObject]. rewrite obj_value_insert. destruct (String.eqb b c); reflexivity.
Qed.

Lemma item_app (a b : list (string * string)) (k : string) :
  item (a ++ b) k = match item a k with Some v => Some v | None => item b k end.
Proof. induction a as [|[k' v] a IH]; [ reflexivity | ]. cbn [app item]. destruct (String.eqb k k'); [ reflexivity | exact IH ]. Qed.

Lemma item_add (b : bool) (k v k' : string) : item (add_item b k v) k' = if b && String.eqb k' k then Some v else None.
Proof. destruct b; [ cbn; destruct (String.eqb k' k); reflexivity | reflexivity ]. Qed.

(** The keys that a kind of transport does not touch. *)
Lemma type_settings_other `{QUrl} (t : string) (q : list (string * string)) (o : QJsonObject) (k : string) :
  forallb (fun a => negb (String.eqb a k)) ["kcpSettings"; "httpSettings"; "wsSettings"; "quicSettings"; "grpcSettings"] = true ->
  obj_value (type_settings t q o) k = obj_value o k.
Proof.
  intros Hk. cbn [forallb] in Hk. repeat (apply andb_true_iff in Hk as (? & Hk)).
  repeat match goal with E : negb (String.eqb _ k) = true |- _ => apply negb_true_iff in E end.
  unfold type_settings.
  repeat match goal with
    | |- context [if String.eqb t ?x then _ else _] => destruct (String.eqb t x)
    | |- context [match item q ?x with _ => _ end] => destruct (item q x)
    | |- context [if String.eqb ?x "none" then ?y else ?z] => destruct (String.eqb x "none")
    end;
  rewrite ?value_set_text, ?value_set_unless, ?value_SetValue;
  repeat match goal with E : String.eqb _ k = false |- _ => rewrite !E end;
  repeat case_match; try reflexivity; rewrite ?value_set_text, ?value_set_unless, ?value_SetValue;
  repeat match goal with E : String.eqb _ k = false |- _ => rewrite !E end;
  repeat case_match; reflexivity.
Qed.

(** *** The configuration of a link *)

Section Link.
Context `{QUrl} (u : Url) (Halpn : item (query u) "alpn" = None).

Let q := query u.
Let type := default "tcp" (item q "type").
Let security := default "none" (item q "security").
Let sni := item q "sni".

Definition link_stream : QJsonObject :=
  let s := security_settings security q (type_settings type q (set_unless "tcp" type [ObjectKey "network"] [])) in
  if String.eqb security "reality" then reality_settings q s else s.

Definition link_tls_key : string :=
  if String.eqb security "xtls" then "xtlsSettings" else if String.eqb security "tls" then "tlsSettings" else "realitySettings".

Lemma security_settings_plain (o : QJsonObject) :
  security_settings security q o =
    set_text sni [ObjectKey link_tls_key; ObjectKey "serverName"] (set_unless "none" security [ObjectKey "security"] o).
Proof. unfold security_settings. unfold q. rewrite Halpn. reflexivity. Qed.

(** Keys outside the settings of security. *)
Lemma link_stream_value (k : string) :
  "realitySettings" <> k -> link_tls_key <> k ->
  obj_value link_stream k =
    obj_value (set_unless "none" security [ObjectKey "security"] (type_settings type q (set_unless "tcp" type [ObjectKey "network"] []))) k.
Proof.
  intros H1 H2. apply String.eqb_neq in H1, H2. unfold link_stream. rewrite security_settings_plain.
  destruct (String.eqb security "reality"); unfold reality_settings; rewrite !value_set_text, ?H1, ?H2; repeat case_match; reflexivity.
Qed.

Lemma tls_key_not (k : string) : k = "network" \/ k = "security" -> link_tls_key <> k.
Proof. unfold link_tls_key. intros [-> | ->]; repeat case_match; discriminate. Qed.

Lemma link_network : text_or "tcp" (obj_value link_stream "network") = type.
Proof.
  rewrite link_stream_value by (discriminate || (apply tls_key_not; auto)).
  rewrite value_set_unless. change (String.eqb "security" "network") with false. cbv iota.
  rewrite type_settings_other by reflexivity. rewrite value_set_unless. cbn [set_path obj_value]. rewrite String.eqb_refl.
  destruct (String.eqb security "none"); (destruct (String.eqb_spec type "tcp") as [E|E]; [ symmetry; exact E | reflexivity ]).
Qed.

Lemma link_security : text_or "reality" (obj_value link_stream "security") = if String.eqb security "none" then "reality" else security.
Proof.
  rewrite link_stream_value by (discriminate || (apply tls_key_not; auto)).
  rewrite value_set_unless. rewrite String.eqb_refl. destruct (String.eqb security "none"); [ | reflexivity ].
  rewrite type_settings_other by reflexivity. rewrite value_set_unless. change (String.eqb "network" "security") with false. cbv iota.
  destruct (String.eqb type "tcp"); reflexivity.
Qed.

(** The settings of security begin empty. *)
Lemma before_tls (k : string) : k = "realitySettings" \/ k = "tlsSettings" ->
  obj_value (set_unless "none" security [ObjectKey "security"] (type_settings type q (set_unless "tcp" type [ObjectKey "network"] []))) k = None.
Proof.
  intros Hk. rewrite value_set_unless, type_settings_other, value_set_unless by (destruct Hk as [-> | ->]; reflexivity).
  destruct Hk as [-> | ->]; cbn; repeat case_match; reflexivity.
Qed.

Definition setting (settings k d : string) : string := text_or d (obj_value (toObject (obj_value link_stream settings)) k).

Lemma link_reality (k d : string) :
  security = "reality" ->
  setting "realitySettings" k d =
    if String.eqb "shortId" k then default d (fromPercentEncoding <$> item q "sid")
    else if String.eqb "spiderX" k then default d (fromPercentEncoding <$> item q "spiderX")
    else if String.eqb "publicKey" k then default d (fromPercentEncoding <$> item q "pbk")
    else if String.eqb "fingerprint" k then default d (fromPercentEncoding <$> item q "fp")
    else if String.eqb "serverName" k then default d sni else d.
Proof.
  intros Hsec. unfold setting, link_stream. rewrite security_settings_plain. unfold link_tls_key. rewrite Hsec.
  change (String.eqb "reality" "xtls") with false. change (String.eqb "reality" "tls") with false.
  change (String.eqb "reality" "reality") with true. cbv iota. unfold reality_settings. rewrite !text_at.
  pose proof (before_tls "realitySettings" (or_introl eq_refl)) as Hb. rewrite Hsec in Hb. rewrite Hb. cbn [toObject obj_value text_or].
  repeat match goal with |- context [String.eqb ?a k] => destruct (String.eqb_spec a k) as [<-|] end; reflexivity.
Qed.

Lemma link_sni (settings : string) :
  security <> "reality" -> settings = link_tls_key -> settings = "realitySettings" \/ settings = "tlsSettings" ->
  forall k d, setting settings k d = if String.eqb "serverName" k then default d sni else d.
Proof.
  intros Hsec Hset Hwhich k d. unfold setting, link_stream. rewrite (proj2 (String.eqb_neq _ _) Hsec), security_settings_plain, <- Hset, text_at.
  rewrite (before_tls settings Hwhich). reflexivity.
Qed.

Definition has_flow : bool := String.eqb security "xtls" || String.eqb security "reality".

(** The server that a configuration from a link has, by the items of the query. *)
Definition link_server : VlessServerObject :=
  let security' := if String.eqb security "none" then "reality" else security in
  mkVless (strip_brackets (host u)) (userInfo u) (url_port u)
    (if has_flow then default EmptyString (item q "flow") else "xtls-rprx-vision") (default "none" (item q "encryption")) type security'
    (if String.eqb security' "reality" || String.eqb security' "tls" then default EmptyString sni else EmptyString)
    (if String.eqb security "reality" then default EmptyString (fromPercentEncoding <$> item q "pbk") else EmptyString)
    (if String.eqb security "reality" then default EmptyString (fromPercentEncoding <$> item q "sid") else EmptyString)
    (if String.eqb security "reality" then default "chrome" (fromPercentEncoding <$> item q "fp")
     else if String.eqb security "tls" then EmptyString else "chrome")
    (if String.eqb security "reality" then default EmptyString (fromPercentEncoding <$> item q "spiderX") else EmptyString).

(** The outbound before its stream, written out. *)
Definition outbound_text (h id enc : string) (p : json) (flow : option string) : QJsonObject :=
  [("protocol", JString "vless");
   ("settings", JObject [("vnext", JArray [JObject
     [("address", JString h); ("port", p);
      ("users", JArray [JObject ([("id", JString id); ("encryption", JString enc)] ++ match flow with Some f => [("flow", JString f)] | None => [] end)])]])])].

Lemma outbound_shape (h id enc f : string) (p : json) (b : bool) :
  (let o := SetValue (SetValue (SetValue (SetValue (SetValue [] (JString "vless") [ObjectKey "protocol"])
    (JString h) (vnext [ObjectKey "address"])) p (vnext [ObjectKey "port"])) (JString id) (users "id")) (JString enc) (users "encryption") in
   if b then SetValue o (JString f) (users "flow") else o) =
  outbound_text h id enc p (if b then Some f else None).
Proof. destruct b; vm_compute; reflexivity. Qed.

Lemma read_config_shape :
  read_config u =
    [("outbounds", JArray [JObject (outbound_text (strip_brackets (host u)) (userInfo u) (default "none" (item q "encryption"))
        (JDouble (inject_Z (url_port u))) (if has_flow then Some (default EmptyString (item q "flow")) else None)
        ++ [("streamSettings", JObject link_stream)])]);
     ("inbounds", JArray [JObject GenerateInboundEntry])].
Proof.
  unfold read_config. fold q type security link_stream has_flow.
  pose proof (outbound_shape (strip_brackets (host u)) (userInfo u) (default "none" (item q "encryption")) (default EmptyString (item q "flow"))
    (JDouble (inject_Z (url_port u))) has_flow) as E. cbv zeta in E. cbv zeta. rewrite E. reflexivity.
Qed.

(** The outbound with its server, its user and its stream. *)
Lemma read_config_server (Hport : - 2 ^ 31 <= url_port u < 2 ^ 31) :
  server_of_config (read_config u) =
    let flow := if has_flow then default EmptyString (item q "flow") else "xtls-rprx-vision" in
    let sec := text_or "reality" (obj_value link_stream "security") in
    let make := mkVless (strip_brackets (host u)) (userInfo u) (url_port u) flow (default "none" (item q "encryption"))
                  (text_or "tcp" (obj_value link_stream "network")) sec in
    Some (if String.eqb sec "reality" then
            make (setting "realitySettings" "serverName" EmptyString) (setting "realitySettings" "publicKey" EmptyString)
              (setting "realitySettings" "shortId" EmptyString) (setting "realitySettings" "fingerprint" "chrome")
              (setting "realitySettings" "spiderX" EmptyString)
          else if String.eqb sec "tls" then
            make (setting "tlsSettings" "serverName" EmptyString) EmptyString EmptyString (setting "tlsSettings" "fingerprint" EmptyString) EmptyString
          else make EmptyString EmptyString EmptyString "chrome" EmptyString).
Proof.
  rewrite read_config_shape. unfold setting.
  generalize link_stream. intros stream.
  pose proof (toInt_number (url_port u) Hport) as Hp. unfold number in Hp.
  generalize (default "none" (item q "encryption")) (default EmptyString (item q "flow")). intros enc flow.
  unfold server_of_config. destruct has_flow; cbn -[toInt text_or]; rewrite Hp; reflexivity.
Qed.

Lemma read_link_server : - 2 ^ 31 <= url_port u < 2 ^ 31 -> server_of_config (read_config u) = Some link_server.
Proof.
  intros Hport. rewrite (read_config_server Hport). cbv zeta. rewrite link_security, link_network. unfold link_server. f_equal. cbv zeta.
  destruct (String.eqb_spec security "none") as [E | Hnone].
  { rewrite !(link_sni "realitySettings") by (unfold link_tls_key; rewrite ?E; first [ discriminate | reflexivity | auto ]).
    rewrite E. reflexivity. }
  destruct (String.eqb_spec security "reality") as [E | Hreality].
  { rewrite !link_reality by exact E. reflexivity. }
  destruct (String.eqb_spec security "tls") as [E | Htls]; [ | reflexivity ].
  rewrite !(link_sni "tlsSettings") by (unfold link_tls_key; rewrite ?E; first [ discriminate | reflexivity | auto ]).
  reflexivity.
Qed.
End Link.

(** *** The items of a link *)

(** A text that is left out where it is empty. *)
Definition unless_empty (s : string) : option string := if empty s then None else Some s.

Ltac link_item :=
  unfold link_query, unless_empty; rewrite ?item_app, ?item_add; destruct (String.eqb (v_security _) "reality");
  rewrite ?item_app, ?item_add; cbn [item String.eqb Ascii.eqb Bool.eqb]; rewrite ?andb_false_r, ?andb_true_r; cbn [negb andb orb];
  rewrite ?andb_false_r, ?andb_true_r, ?orb_true_r, ?orb_false_r; repeat case_match; try reflexivity.

Lemma link_alpn (s : VlessServerObject) : item (link_query s) "alpn" = None.
Proof. link_item. Qed.

Lemma link_type (s : VlessServerObject) : default "tcp" (item (link_query s) "type") = if empty (v_network s) then "tcp" else v_network s.
Proof.
  unfold link_query. rewrite item_app, item_add. change (String.eqb "type" "type") with true. rewrite andb_true_r.
  destruct (empty (v_network s)); [ | destruct (String.eqb_spec (v_network s) "tcp") as [E|E] ]; cbn [negb andb]; [ | rewrite E | reflexivity ]; link_item.
Qed.

Lemma link_encryption (s : VlessServerObject) : item (link_query s) "encryption" = unless_empty (v_encryption s).
Proof. unfold link_query, unless_empty. destruct (empty (v_encryption s)); link_item. Qed.

Lemma link_security_item (s : VlessServerObject) :
  item (link_query s) "security" = if empty (v_security s) || String.eqb (v_security s) "none" then None else Some (v_security s).
Proof.
  unfold link_query. destruct (empty (v_security s)); [ link_item | ]. destruct (String.eqb (v_security s) "none"); link_item.
Qed.

Lemma link_sni_item (s : VlessServerObject) : item (link_query s) "sni" = unless_empty (v_serverName s).
Proof. unfold link_query, unless_empty. destruct (empty (v_serverName s)); link_item. Qed.

Lemma link_flow_item (s : VlessServerObject) :
  item (link_query s) "flow" = if String.eqb (v_security s) "xtls" || String.eqb (v_security s) "reality" then unless_empty (v_flow s) else None.
Proof.
  unfold link_query, unless_empty. destruct (empty (v_flow s)); [ link_item | ]. destruct (String.eqb (v_security s) "xtls"); link_item.
Qed.

Lemma link_reality_items (s : VlessServerObject) :
  v_security s = "reality" ->
  item (link_query s) "fp" = unless_empty (v_fingerprint s) /\ item (link_query s) "pbk" = unless_empty (v_publicKey s) /\
  item (link_query s) "sid" = unless_empty (v_shortId s) /\ item (link_query s) "spiderX" = unless_empty (v_spiderX s).
Proof.
  intros E. unfold link_query, unless_empty. rewrite E, String.eqb_refl.
  split_and!; [ destruct (empty (v_fingerprint s)) | destruct (empty (v_publicKey s)) | destruct (empty (v_shortId s)) | destruct (empty (v_spiderX s)) ];
    rewrite ?item_app, ?item_add; cbn [item String.eqb Ascii.eqb Bool.eqb negb]; rewrite ?andb_false_r; cbn [andb]; reflexivity.
Qed.

(** ** Links go round *)

(** What comes back for a server: what the link leaves out gets the defaults of both sides. *)
Definition imported (s : VlessServerObject) : VlessServerObject :=
  let none := empty (v_security s) || String.eqb (v_security s) "none" in
  let reality := String.eqb (v_security s) "reality" in
  let tls := String.eqb (v_security s) "tls" in
  mkVless (v_address s) (v_id s) (v_port s)
    (if reality || String.eqb (v_security s) "xtls" then v_flow s else "xtls-rprx-vision")
    (if empty (v_encryption s) then "none" else v_encryption s) (if empty (v_network s) then "tcp" else v_network s)
    (if none then "reality" else v_security s)
    (if none || reality || tls then v_serverName s else EmptyString)
    (if reality then v_publicKey s else EmptyString) (if reality then v_shortId s else EmptyString)
    (if reality then if empty (v_fingerprint s) then "chrome" else v_fingerprint s else if tls then EmptyString else "chrome")
    (if reality then v_spiderX s else EmptyString).

Lemma default_unless (d s : string) : default d (unless_empty s) = if empty s then d else s.
Proof. unfold unless_empty. destruct (empty s); reflexivity. Qed.

Lemma default_empty (s : string) : default EmptyString (unless_empty s) = s.
Proof. unfold unless_empty, empty. destruct (String.eqb_spec s EmptyString) as [-> | _]; reflexivity. Qed.

Lemma plain_no_bracket (s : string) : plain s = true -> strip_brackets s = s.
Proof.
  unfold strip_brackets. destruct s as [|c s]; [ reflexivity | ]. cbn [all_chars String.prefix]. intros Hp. apply andb_true_iff in Hp as (Hc & _).
  destruct (ascii_dec "[" c) as [<- | _]; [ discriminate Hc | reflexivity ].
Qed.

Section RoundTrip.
Context `{QUrlLaws}.

Lemma default_decoded (d s : string) : all_chars value_char s = true -> default d (fromPercentEncoding <$> unless_empty s) = if empty s then d else s.
Proof. intros Hs. unfold unless_empty. destruct (empty s); [ reflexivity | ]. cbn. exact (plain_decoded s Hs). Qed.

Lemma plain_value (q : list (string * string)) (k v : string) :
  forallb plain_entry q = true -> item q k = Some v -> all_chars value_char v = true.
Proof.
  induction q as [|[k' v'] q IH]; [ discriminate | ]. cbn [forallb item fst snd]. intros Hq. apply andb_true_iff in Hq as (Hh & Hq).
  destruct (String.eqb k k'); [ intros [= <-]; apply andb_true_iff in Hh as (Hh & _); apply andb_true_iff in Hh as (_ & Hh); exact Hh | exact (IH Hq) ].
Qed.

Lemma plain_item (q : list (string * string)) (k v : string) :
  forallb plain_entry q = true -> item q k = unless_empty v -> all_chars value_char v = true.
Proof.
  intros Hq. unfold unless_empty, empty. destruct (String.eqb_spec v EmptyString) as [-> | _]; [ reflexivity | exact (plain_value q k v Hq) ].
Qed.

Lemma link_server_imported (s : VlessServerObject) (alias : string) :
  plain_url (link_url s alias) = true -> link_server (link_url s alias) = imported s.
Proof.
  intros Hplain. unfold plain_url in Hplain. repeat (apply andb_true_iff in Hplain as (Hplain & ?)).
  cbn [link_url query host userInfo fragment url_port] in *.
  assert (Hhost : strip_brackets (v_address s) = v_address s).
  { apply plain_no_bracket. unfold plain_host in *. match goal with E : plain (v_address s) && _ && _ = true |- _ => apply andb_true_iff in E as (E & _); apply andb_true_iff in E as (E & _); exact E end. }
  match goal with E : forallb _ (link_query s) = true |- _ => rename E into Hq end.
  unfold link_server, has_flow, imported. cbn [link_url query host userInfo url_port].
  rewrite Hhost, link_type, link_encryption, default_unless, link_sni_item, default_empty, link_flow_item, link_security_item.
  destruct (empty (v_security s)) eqn:E; [ apply String.eqb_eq in E; rewrite E; reflexivity | clear E ].
  destruct (String.eqb_spec (v_security s) "none") as [E | Hnone]; [ rewrite E; reflexivity | ]. cbn [orb default].
  change (id (v_security s)) with (v_security s). rewrite (proj2 (String.eqb_neq _ _) Hnone).
  destruct (String.eqb_spec (v_security s) "reality") as [E | Hreality].
  - destruct (link_reality_items s E) as (E1 & E2 & E3 & E4). rewrite E1, E2, E3, E4.
    rewrite !default_decoded by (eapply plain_item; eassumption). rewrite E. cbn [String.eqb Ascii.eqb Bool.eqb orb].
    rewrite !default_empty. unfold empty. repeat match goal with |- context [if String.eqb ?x EmptyString then EmptyString else ?x] =>
      destruct (String.eqb_spec x EmptyString) as [->|_] end; reflexivity.
  - destruct (String.eqb_spec (v_security s) "xtls") as [E | _]; [ rewrite E; cbn; rewrite default_empty; reflexivity | reflexivity ].
Qed.

Lemma plain_port (u : Url) : plain_url u = true -> - 2 ^ 31 <= url_port u < 2 ^ 31.
Proof. intros Hu. unfold plain_url in Hu. repeat (apply andb_true_iff in Hu as (Hu & ?)). lia. Qed.

(** Reading the text of a plain URL. *)
Lemma Deserialize_plain (u : Url) :
  plain_url u = true -> Deserialize (url_text u) = mkRead (read_config u) (unless_empty (fragment u)) None.
Proof.
  intros Hu. unfold Deserialize. rewrite (url_scheme u Hu), (url_read u Hu). cbn [negb].
  unfold plain_url, plain_host in Hu. repeat (apply andb_true_iff in Hu as (Hu & ?)).
  repeat match goal with E : _ && _ = true |- _ => apply andb_true_iff in E as (? & E) end.
  repeat match goal with E : negb (String.eqb _ EmptyString) = true |- _ => apply negb_true_iff in E end.
  unfold empty. repeat match goal with E : String.eqb _ EmptyString = false |- _ => rewrite E; clear E end.
  rewrite (proj2 (Z.eqb_neq _ _)) by lia. reflexivity.
Qed.

(** C13: a link that was written for a server with REALITY is read without an error, the alias is
    the one that was given, the configuration has the local proxy that is secured when the
    connection starts, and its server is the one that was written, but for three fields that
    the link leaves out where they are empty: an empty encryption is read as none, an empty
    network as tcp and an empty fingerprint as chrome.  This is for servers whose texts have
    only letters, digits, hyphens, underscores and dots (and slashes in the values of the
    query, spaces in the alias), with a name or an address of four numbers as their host, a user
    and a port. *)
Theorem reality_link_roundtrip (s : VlessServerObject) (alias : string) :
  plain_url (link_url s alias) = true -> v_security s = "reality" ->
  let r := Deserialize (Serialize s alias) in
  let unless_blank d v := if String.eqb v EmptyString then d else v in
  errMessage r = None /\ read_alias r = unless_empty alias /\
  server_of_config (root r)
  = Some (mkVless (v_address s) (v_id s) (v_port s) (v_flow s) (unless_blank "none" (v_encryption s))
            (unless_blank "tcp" (v_network s)) "reality" (v_serverName s) (v_publicKey s) (v_shortId s)
            (unless_blank "chrome" (v_fingerprint s)) (v_spiderX s)) /\
  indexOfSocksInbound (inbounds_of (root r)) = Some 0%nat.
Proof.
  intros Hplain Hsec r unless_blank. unfold r, Serialize. rewrite (Deserialize_plain _ Hplain). cbn [errMessage read_alias root].
  split_and!; [ reflexivity | cbn; unfold unless_empty, empty; destruct (String.eqb alias EmptyString) eqn:E; [ reflexivity | rewrite E; reflexivity ] | | reflexivity ].
  rewrite read_link_server; [ | exact (link_alpn s) | exact (plain_port _ Hplain) ].
  rewrite (link_server_imported s alias Hplain). unfold imported, empty. rewrite Hsec. reflexivity.
Qed.

(** A link for a server with TLS leaves out the flow and the fingerprint, whatever they are: the
    configuration that is read has neither. *)
Theorem tls_link_drops (s : VlessServerObject) (alias : string) :
  plain_url (link_url s alias) = true -> v_security s = "tls" ->
  let config := Some (JObject (root (Deserialize (Serialize s alias)))) in
  let at_outbound l := ObjectKey "outbounds" :: ArrayIndex 0 :: l in
  toString (GetValue config (at_outbound [ObjectKey "streamSettings"; ObjectKey "security"])) = Some "tls" /\
  GetValue config (at_outbound (users "flow")) = None /\
  toString (GetValue config (at_outbound [ObjectKey "streamSettings"; ObjectKey "tlsSettings"; ObjectKey "fingerprint"])) = None.
Proof.
  intros Hplain Hsec config at_outbound. unfold config, Serialize. rewrite (Deserialize_plain _ Hplain). cbn [root].
  set (u := link_url s alias). rewrite read_config_shape.
  assert (Halpn : item (query u) "alpn" = None) by exact (link_alpn s).
  assert (Es : default "none" (item (query u) "security") = "tls").
  { unfold u, link_url. cbn [query]. rewrite link_security_item, Hsec. reflexivity. }
  assert (Hflow : has_flow u = false) by (unfold has_flow; rewrite Es; reflexivity). rewrite Hflow.
  pose proof (link_security u Halpn) as Hst. rewrite Es in Hst. cbn in Hst.
  assert (Hfp : forall d, setting u "tlsSettings" "fingerprint" d = d).
  { intros d. rewrite (link_sni u Halpn "tlsSettings"); [ reflexivity | rewrite Es; discriminate | unfold link_tls_key; rewrite Es; reflexivity | right; reflexivity ]. }
  split_and!.
  - cbn. destruct (obj_value (link_stream u) "security") as [[]|]; cbn in Hst |- *; congruence.
  - reflexivity.
  - pose proof (Hfp "a") as H1. pose proof (Hfp "b") as H2. unfold setting in H1, H2. cbn -[text_or].
    destruct (obj_value (toObject (obj_value (link_stream u) "tlsSettings")) "fingerprint") as [[]|]; cbn in H1, H2 |- *; congruence.
Qed.
End RoundTrip.

(** ** A concrete [QUrl]

    For URLs of plain components: [vless://user@host:port?key=value&...#fragment]. *)

Definition query_text (q : list (string * string)) : string :=
  match q with [] => EmptyString | _ => "?" +:+ join "&" (map (fun e => e.1 +:+ "=" +:+ e.2) q) end.

Definition authority_text (u : Url) : string := userInfo u +:+ "@" +:+ host u +:+ ":" +:+ pretty (url_port u).

Fixpoint encode_spaces (s : string) : string :=
  match s with
  | EmptyString => EmptyString
  | String c s' => if Ascii.eqb c " " then "%20" +:+ encode_spaces s' else String c (encode_spaces s')
  end.

Fixpoint decode_spaces (s : string) : string :=
  match s with
  | EmptyString => EmptyString
  | String c s' =>
      if Ascii.eqb c "%" then match s' with String _ (String _ r) => String " " (decode_spaces r) | _ => EmptyString end
      else String c (decode_spaces s')
  end.

Definition plain_text (u : Url) : string :=
  ("vless://" +:+ authority_text u) +:+ query_text (query u)
  +:+ (if empty (encode_spaces (fragment u)) then EmptyString else "#" +:+ encode_spaces (fragment u)).

Definition parse_pair (t : string) : string * string :=
  match split_on "=" t with k :: v :: _ => (k, v) | _ => (t, EmptyString) end.

Definition parse_query (t : string) : list (string * string) := map parse_pair (split_on "&" t).

Definition parse_authority (t : string) : option (string * string * Z) :=
  match split_on "@" t with
  | [user; rest] => match split_on ":" rest with [h; p] => Some (user, h, atoi_digits 0 p) | _ => None end
  | _ => None
  end.

Definition parse_plain (t : string) : option Url :=
  match split_on "#" t with
  | main :: frags =>
      match split_on "?" main with
      | front :: qs =>
          match split_on "/" front with
          | [s; e; a] =>
              if String.eqb s "vless:" then
                '(user, h, p) ← parse_authority a;
                Some (mkUrl "vless" user h p (match qs with [] => [] | t' :: _ => parse_query t' end) (match frags with [] => EmptyString | f :: _ => decode_spaces f end))
              else None
          | _ => None
          end
      | [] => None
      end
  | [] => None
  end.

Lemma chars_has (p : ascii -> bool) (c : ascii) (s : string) : p c = false -> all_chars p s = true -> string_has c s = false.
Proof.
  intros Hc. induction s as [|d s IH]; [ reflexivity | ]. cbn [all_chars string_has]. intros Hs. apply andb_true_iff in Hs as (Hd & Hs).
  rewrite (IH Hs), orb_false_r. destruct (Ascii.eqb_spec c d) as [<- | _]; [ congruence | reflexivity ].
Qed.

Lemma plain_has (c : ascii) (s : string) : plain_char c = false -> plain s = true -> string_has c s = false.
Proof. exact (chars_has plain_char c s). Qed.

Lemma value_has (c : ascii) (s : string) : value_char c = false -> all_chars value_char s = true -> string_has c s = false.
Proof. exact (chars_has value_char c s). Qed.

Lemma value_plain (c : ascii) : value_char c = false -> plain_char c = false.
Proof. unfold value_char. intros E. apply orb_false_iff in E as (E & _). exact E. Qed.

(** Spaces and their escapes. *)
Lemma spaces_back (s : string) : all_chars fragment_char s = true -> decode_spaces (encode_spaces s) = s.
Proof.
  induction s as [|c s IH]; [ reflexivity | ]. cbn [all_chars encode_spaces]. intros Hs. apply andb_true_iff in Hs as (Hc & Hs).
  destruct (Ascii.eqb_spec c " ") as [-> | Hn]; [ change (String " " (decode_spaces (encode_spaces s)) = String " " s); rewrite (IH Hs); reflexivity | ].
  destruct (Ascii.eqb_spec c "%") as [-> | Hp]; [ discriminate Hc | ].
  cbn [decode_spaces]. rewrite (proj2 (Ascii.eqb_neq _ _) Hp), (IH Hs). reflexivity.
Qed.

Lemma spaces_has (s : string) : all_chars fragment_char s = true -> string_has "#" (encode_spaces s) = false.
Proof.
  induction s as [|c s IH]; [ reflexivity | ]. cbn [all_chars encode_spaces]. intros Hs. apply andb_true_iff in Hs as (Hc & Hs).
  destruct (Ascii.eqb c " "); [ exact (IH Hs) | ]. cbn [string_has]. rewrite (IH Hs), orb_false_r.
  destruct (Ascii.eqb_spec "#" c) as [<- | _]; [ discriminate Hc | reflexivity ].
Qed.

Lemma spaces_empty (s : string) : empty (encode_spaces s) = empty s.
Proof. destruct s as [|c s]; [ reflexivity | ]. cbn. destruct (Ascii.eqb c " "); reflexivity. Qed.

Lemma plain_digits (n : N) (s : string) : plain s = true -> plain (pretty_N_go n s) = true.
Proof.
  revert s. induction (N.lt_wf_0 n) as [n _ IH]. intros s Hs. destruct (decide (0 < n)%N) as [Hn|Hn].
  - rewrite pretty_N_go_step by exact Hn. apply IH; [ apply N.div_lt; lia | ]. unfold pretty_N_char. repeat case_match; exact Hs.
  - replace n with 0%N by lia. exact Hs.
Qed.

Lemma plain_number (n : Z) : 0 <= n -> plain (pretty n) = true.
Proof.
  intros Hn. destruct n as [|p|p]; [ reflexivity | | lia ]. change (pretty (Zpos p)) with (pretty (Npos p)). unfold pretty, pretty_N.
  case_decide; [ reflexivity | ]. apply plain_digits. reflexivity.
Qed.

Lemma atoi_pretty (n : N) (s : string) : atoi_digits 0 (pretty_N_go n s) = atoi_digits (Z.of_N n) s.
Proof.
  revert s. induction (N.lt_wf_0 n) as [n _ IH]. intros s. destruct (decide (0 < n)%N) as [Hn|Hn]; [ | replace n with 0%N by lia; reflexivity ].
  rewrite pretty_N_go_step by exact Hn. rewrite IH by (apply N.div_lt; lia). cbn [atoi_digits].
  assert (E : digit_value (pretty_N_char (n mod 10)) = Some (Z.of_N (n mod 10))).
  { pose proof (N.mod_lt n 10 ltac:(lia)). destruct (n mod 10)%N as [|p]; [ reflexivity | ].
    do 4 (destruct p as [p|p|]; try reflexivity; try lia). }
  rewrite E. f_equal. rewrite N2Z.inj_div, N2Z.inj_mod. pose proof (Z.div_mod (Z.of_N n) 10). lia.
Qed.

Lemma atoi_number (n : Z) : 0 <= n -> atoi_digits 0 (pretty n) = n.
Proof.
  intros Hn. destruct n as [|p|p]; [ reflexivity | | lia ]. change (pretty (Zpos p)) with (pretty (Npos p)). unfold pretty, pretty_N.
  case_decide; [ lia | ]. rewrite atoi_pretty. reflexivity.
Qed.

Lemma split_pair (c : ascii) (a b : string) : string_has c a = false -> string_has c b = false -> split_on c (a +:+ String c b) = [a; b].
Proof. intros Ha Hb. rewrite (split_on_first c a b Ha), (split_on_single c b Hb). reflexivity. Qed.

Lemma entry_parts (e : string * string) : plain_entry e = true -> plain e.1 = true /\ all_chars value_char e.2 = true.
Proof. unfold plain_entry. intros He. apply andb_true_iff in He as (He & _). apply andb_true_iff in He. exact He. Qed.

Lemma parse_pair_text (e : string * string) : plain_entry e = true -> parse_pair (e.1 +:+ "=" +:+ e.2) = e.
Proof.
  intros He. destruct (entry_parts e He) as (H1 & H2). destruct e as [k v]. cbn [fst snd] in *. unfold parse_pair.
  change (k +:+ "=" +:+ v) with (k +:+ String "=" v). rewrite (split_pair "=" k v (plain_has "=" k eq_refl H1) (value_has "=" v eq_refl H2)). reflexivity.
Qed.

(** A sign that is neither one of a value nor the one between key and value. *)
Lemma entry_has (c : ascii) (e : string * string) :
  value_char c = false -> Ascii.eqb c "=" = false -> plain_entry e = true -> string_has c (e.1 +:+ "=" +:+ e.2) = false.
Proof.
  intros Hc Hne He. destruct (entry_parts e He) as (H1 & H2). rewrite !string_has_app, (plain_has c _ (value_plain c Hc) H1), (value_has c _ Hc H2).
  cbn. rewrite Hne. reflexivity.
Qed.

Lemma parse_query_text (e : string * string) (q : list (string * string)) :
  plain_entry e = true -> forallb plain_entry q = true -> parse_query (join "&" (map (fun e => e.1 +:+ "=" +:+ e.2) (e :: q))) = e :: q.
Proof.
  revert e. induction q as [|e' q IH]; intros e He Hq; unfold parse_query.
  - cbn [map join]. rewrite (split_on_single "&"%char _ (entry_has "&" e eq_refl eq_refl He)). cbn [map]. rewrite (parse_pair_text e He). reflexivity.
  - cbn [forallb] in Hq. apply andb_true_iff in Hq as (He' & Hq). specialize (IH e' He' Hq). unfold parse_query in IH.
    cbn [map join]. cbn [map] in IH.
    change (?a +:+ "&" +:+ ?b) with (a +:+ String "&" b). rewrite (split_on_first "&"%char _ _ (entry_has "&" e eq_refl eq_refl He)).
    cbn [map]. rewrite (parse_pair_text e He). f_equal. exact IH.
Qed.

Lemma query_has (c : ascii) (q : list (string * string)) :
  value_char c = false -> Ascii.eqb c "=" = false -> Ascii.eqb c "&" = false -> forallb plain_entry q = true ->
  string_has c (join "&" (map (fun e => e.1 +:+ "=" +:+ e.2) q)) = false.
Proof.
  intros Hc H1 H2. induction q as [|e q IH]; [ reflexivity | ]. cbn [forallb map]. intros Hq. apply andb_true_iff in Hq as (He & Hq).
  specialize (IH Hq). cbn [join]. destruct (map _ q) as [|x l] eqn:E; [ exact (entry_has c e Hc H1 He) | ].
  rewrite (string_has_app c (e.1 +:+ "=" +:+ e.2)), (entry_has c e Hc H1 He), (string_has_app c "&"), IH. cbn. rewrite H2. reflexivity.
Qed.

Lemma parse_authority_text (u : Url) :
  plain (userInfo u) = true -> plain (host u) = true -> 0 <= url_port u ->
  parse_authority (authority_text u) = Some (userInfo u, host u, url_port u).
Proof.
  intros Hu Hh Hp. unfold parse_authority, authority_text. pose proof (plain_number _ Hp) as Hn.
  change (userInfo u +:+ "@" +:+ ?r) with (userInfo u +:+ String "@" r). rewrite split_pair; [ | exact (plain_has "@" _ eq_refl Hu) | ].
  - change (host u +:+ ":" +:+ ?r) with (host u +:+ String ":" r).
    rewrite (split_pair ":" _ _ (plain_has ":" _ eq_refl Hh) (plain_has ":" _ eq_refl Hn)), (atoi_number _ Hp). reflexivity.
  - rewrite !string_has_app, (plain_has "@" _ eq_refl Hh), (plain_has "@" _ eq_refl Hn). reflexivity.
Qed.

Lemma authority_has (c : ascii) (u : Url) :
  plain_char c = false -> Ascii.eqb c "@" = false -> Ascii.eqb c ":" = false ->
  plain (userInfo u) = true -> plain (host u) = true -> 0 <= url_port u -> string_has c (authority_text u) = false.
Proof.
  intros Hc H1 H2 Hu Hh Hp. unfold authority_text.
  rewrite !string_has_app, (plain_has c _ Hc Hu), (plain_has c _ Hc Hh), (plain_has c _ Hc (plain_number _ Hp)). cbn. rewrite H1, H2. reflexivity.
Qed.

(** A part at the end that is left out where it is empty. *)
Lemma split_end (c : ascii) (a f : string) :
  string_has c a = false -> string_has c f = false ->
  split_on c (a +:+ (if empty f then EmptyString else String c f)) = a :: (if empty f then [] else [f]).
Proof.
  intros Ha Hf. destruct (empty f); [ rewrite string_app_nil_r; exact (split_on_single c a Ha) | exact (split_pair c a f Ha Hf) ].
Qed.

Lemma query_text_has (c : ascii) (q : list (string * string)) :
  value_char c = false -> Ascii.eqb c "=" = false -> Ascii.eqb c "&" = false -> Ascii.eqb c "?" = false -> forallb plain_entry q = true ->
  string_has c (query_text q) = false.
Proof.
  intros Hc H1 H2 H3 Hq. destruct q as [|e q]; [ reflexivity | ]. unfold query_text.
  rewrite string_has_app, (query_has c (e :: q) Hc H1 H2 Hq). cbn. rewrite H3. reflexivity.
Qed.

Lemma split_query (a : string) (q : list (string * string)) :
  string_has "?" a = false -> forallb plain_entry q = true ->
  exists qs, split_on "?" (a +:+ query_text q) = a :: qs /\ match qs with [] => [] | t :: _ => parse_query t end = q.
Proof.
  intros Ha Hq. destruct q as [|e q].
  - exists []. split; [ | reflexivity ]. cbn [query_text]. rewrite string_app_nil_r. exact (split_on_single "?"%char a Ha).
  - eexists [_]. split; [ exact (split_pair "?" a _ Ha (query_has "?" (e :: q) eq_refl eq_refl eq_refl Hq)) | ].
    cbn [forallb] in Hq. apply andb_true_iff in Hq as (He & Hq). exact (parse_query_text e q He Hq).
Qed.

Lemma parse_plain_text (u : Url) : plain_url u = true -> parse_plain (plain_text u) = Some u.
Proof.
  intros Hu. unfold plain_url, plain_host in Hu. repeat (apply andb_true_iff in Hu as (Hu & ?)).
  match goal with E : plain (host u) && _ && _ = true |- _ => apply andb_true_iff in E as (E & _); apply andb_true_iff in E as (Hh & _) end.
  match goal with E : plain (userInfo u) = true |- _ => rename E into Huser end.
  match goal with E : forallb _ (query u) = true |- _ => rename E into Hq end.
  match goal with E : all_chars fragment_char (fragment u) = true |- _ => rename E into Hf end.
  assert (Hport : 0 <= url_port u) by lia. apply String.eqb_eq in Hu.
  assert (Hfront : forall c, string_has c "vless://" = false -> string_has c (authority_text u) = false -> string_has c ("vless://" +:+ authority_text u) = false).
  { intros c E1 E2. rewrite string_has_app, E1, E2. reflexivity. }
  pose proof (Hfront "#"%char eq_refl (authority_has "#" u eq_refl eq_refl eq_refl Huser Hh Hport)) as Hhash.
  pose proof (Hfront "?"%char eq_refl (authority_has "?" u eq_refl eq_refl eq_refl Huser Hh Hport)) as Hmark.
  unfold parse_plain, plain_text. rewrite <- string_app_assoc. change ("#" +:+ encode_spaces (fragment u)) with (String "#" (encode_spaces (fragment u))).
  rewrite split_end; [ | rewrite string_has_app, Hhash; exact (query_text_has "#" _ eq_refl eq_refl eq_refl eq_refl Hq) | exact (spaces_has _ Hf) ].
  destruct (split_query _ (query u) Hmark Hq) as (qs & -> & Hqs).
  change ("vless://" +:+ authority_text u) with ("vless:" +:+ String "/" (EmptyString +:+ String "/" (authority_text u))).
  rewrite (split_on_first "/"%char "vless:" _ eq_refl), (split_pair "/" EmptyString _ eq_refl (authority_has "/" u eq_refl eq_refl eq_refl Huser Hh Hport)).
  cbn [String.eqb Ascii.eqb Bool.eqb]. rewrite (parse_authority_text u Huser Hh Hport). cbn [mbind option_bind]. rewrite Hqs.
  destruct u as [sch us h p q f]. cbn [scheme userInfo host url_port query fragment] in *. rewrite Hu. do 2 f_equal.
  rewrite spaces_empty. unfold empty. destruct (String.eqb_spec f EmptyString) as [-> | _]; [ reflexivity | exact (spaces_back f Hf) ].
Qed.

#[local] Instance plain_qurl : QUrl := { url_text := plain_text; url_parse := parse_plain; fromPercentEncoding := fun s => s }.

#[local] Instance plain_qurl_laws : QUrlLaws.
Proof.
  split.
  - intros u _. unfold url_text, plain_qurl, plain_text. rewrite string_app_assoc. apply prefix_app.
  - exact parse_plain_text.
  - reflexivity.
Qed.

(** ** Examples *)

Definition example_reality : VlessServerObject :=
  mkVless "192.0.2.10" "0b1c2d3e" 443 "xtls-rprx-vision" "none" "tcp" "reality" "www.example.com" "PublicKey" "a1b2" EmptyString "/".

Definition example_tls : VlessServerObject :=
  mkVless "vpn.example.org" "0b1c2d3e" 443 "xtls-rprx-vision" "none" "tcp" "tls" "www.example.com" EmptyString EmptyString "firefox" EmptyString.

Lemma reality_link_roundtrip_witness :
  Serialize example_reality "Fresh one" =
    "vless://0b1c2d3e@192.0.2.10:443?encryption=none&security=reality&flow=xtls-rprx-vision&sni=www.example.com&pbk=PublicKey&sid=a1b2&spiderX=/#Fresh%20one" /\
  server_of_config (root (Deserialize (Serialize example_reality "Fresh one"))) =
    Some (mkVless "192.0.2.10" "0b1c2d3e" 443 "xtls-rprx-vision" "none" "tcp" "reality" "www.example.com" "PublicKey" "a1b2" "chrome" "/") /\
  plain_url (link_url example_reality "Fresh one") = true.
Proof.
  split_and!; [ vm_compute; reflexivity | | vm_compute; reflexivity ].
  refine (proj1 (proj2 (proj2 (reality_link_roundtrip example_reality "Fresh one" _ _)))); vm_compute; reflexivity.
Defined.

Lemma tls_link_drops_witness :
  v_fingerprint example_tls = "firefox" /\ v_flow example_tls = "xtls-rprx-vision" /\
  GetValue (Some (JObject (root (Deserialize (Serialize example_tls "Fresh"))))) (ObjectKey "outbounds" :: ArrayIndex 0 :: users "flow") = None.
Proof.
  split_and!; [ reflexivity | reflexivity | ].
  refine (proj1 (proj2 (tls_link_drops example_tls "Fresh" _ _))); vm_compute; reflexivity.
Defined.
